(* ===== verification/_CoqProject ===== *)
-Q . S2P
Prelude.v
Mem.v
KString.v
Mmu.v
Kalloc.v
Vm.v
VmTree.v
Boot.v
VmMap.v
VmUser.v
VmFree.v
VmCopy.v
VmIo.v
VmExample.v
Spinlock.v
Sleeplock.v
Bio.v
BioRing.v
BioSpec.v
BioThm.v
BioCst.v
Virtio.v
VirtioInv.v
VirtioThm.v
Bytes.v
Log.v
LogSpec.v
LogRun.v
LogThm.v
LogOp.v
Blk.v
LogExample.v
Fs.v
FsIo.v
FsBlock.v
FsMap.v
FsFile.v
FsWrite.v
FsTrunc.v
FsIcache.v
FsPath.v
FsDir.v
FsThm.v
FsRefs.v
FsExample.v
Pipe.v
PipeThm.v
File.v
FileThm.v
FileExample.v
Gic.v
Printf.v
Uart.v
UartThm.v
Console.v
ConsoleThm.v
Proc.v
ProcInv.v
ProcThm.v
ProcExample.v
Sysproc.v
Exec.v
ExecThm.v
Sysfile.v
Syscall.v
FdRefs.v
FdMove.v
KernelInv.v
KernelExample.v
Ulib.v
Grep.v
GrepThm.v
Sh.v
ShThm.v
ShPrint.v
ShRun.v
Uprog.v
Umalloc.v
UmallocFree.v
UmallocRun.v
