(* ===== verification/Prelude.v ===== *)
(** A verification of xv6 for ARMv8: the kernel under kernel/ and the user programs
    under user/.

    * The program and its parts

    xv6 is a small Unix kernel.  [start] (kernel/start.c) builds the boot page tables and
    jumps to [kmain], which initialises the parts below once and enters the scheduler.
    From then on the kernel runs when a handler is entered: system calls, interrupts and
    aborts (kernel/trap.c, kernel/syscall.c) act on the process table (kernel/proc.c),
    whose processes own an address space (kernel/vm.c over the page allocator of
    kernel/kalloc.c) and open files (kernel/file.c).  Open files are pipes (kernel/pipe.c),
    devices (kernel/console.c over kernel/uart.c) or inodes (kernel/fs.c).  The file system
    reads and writes blocks through the redo log (kernel/log.c), the log through the
    buffer cache (kernel/bio.c), and the cache through the virtio disk driver
    (kernel/virtio_disk.c).  The shell, grep, wc, cat and the user library and allocator
    run on the system calls.

    * How code becomes definitions

    C functions are functions of the monad [M] below: a state goes in, and out comes a
    value and a state ([Ok]), a call of [panic] ([Panic]), the point where the process
    gives up the CPU ([Blocked]), or a loop that ran out of fuel ([OutOfFuel]).  Loops that
    are not structural take fuel.  Machine integers are [Z] with their wrap-around written
    out ([u8], [u16], [u32], [u64], [s16], [s32]).  Kernel memory is a map from addresses to
    bytes ([Mem]), in which page tables, the free list and trap frames lie as in the
    source.  Objects of a fixed table (buffers, inodes, files, processes) are named by
    their index, a null pointer by [None] or 0.  Code between [acquire] and [release] of a
    spin lock is one step, which [Spinlock] justifies; routines that sleep are sequences
    of such steps, and the theorems on them are about every interleaving.

    * Files

    - [Prelude], [Mem], [Bytes]: monad, integers, lists, memory, structures in blocks.
    - [KString]: kernel/string.c.  [Mmu]: kernel/mmu.h, kernel/memlayout.h.
    - [Kalloc]: kernel/kalloc.c.  [Vm]: kernel/vm.c; [VmTree], [VmMap], [VmUser], [VmFree],
      [VmCopy], [VmIo]: its specification, an address space as a finite map, and proofs.
    - [Boot]: the page tables of kernel/start.c.
    - [Spinlock], [Sleeplock]: kernel/spinlock.c, kernel/sleeplock.c.
    - [Bio]: kernel/bio.c; [BioRing], [BioSpec], [BioThm], [BioCst]: the cache as a store.
    - [Virtio]: kernel/virtio_disk.c; [VirtioInv], [VirtioThm]: its invariant and theorems.
    - [Log]: kernel/log.c; [LogSpec], [LogRun], [LogThm], [LogOp]: runs, crashes, space.
    - [Blk]: the class of block operations that the file system is written over, and the
      log as its instance.
    - [Fs], [FsIo]: kernel/fs.c; [FsBlock], [FsMap], [FsFile], [FsWrite], [FsTrunc],
      [FsIcache], [FsPath], [FsDir], [FsThm], [FsRefs]: its proofs.
    - [Pipe], [PipeThm]: kernel/pipe.c.  [File], [FileThm]: kernel/file.c.
    - [Gic]: kernel/gic.c and the timer's registers.  [Printf]: kernel/printf.c.
    - [Uart], [UartThm]: kernel/uart.c.  [Console], [ConsoleThm]: kernel/console.c.
    - [Proc], [ProcInv], [ProcThm]: kernel/proc.c.  [Exec], [ExecThm]: kernel/exec.c.
    - [Sysproc], [Sysfile], [Syscall]: kernel/sysproc.c, kernel/sysfile.c,
      kernel/syscall.c, kernel/trap.c.  [FdRefs], [FdMove], [KernelInv]: the kernel as a
      whole, entered through its handlers.
    - [Ulib]: user/ulib.c.  [Grep], [GrepThm]: user/grep.c.  [Sh], [ShThm], [ShPrint],
      [ShRun]: user/sh.c.  [Uprog]: user/printf.c, user/wc.c, user/cat.c, part of
      user/ls.c.  [Umalloc], [UmallocFree], [UmallocRun]: user/umalloc.c.
    - [VmExample], [LogExample], [FsExample], [FileExample], [ProcExample],
      [KernelExample]: concrete states on which theorems are instantiated.

    * What is shown

    - Memory: pages are either free or owned by one user; address spaces are created,
      grown, copied, and destroyed without losing a page, and copies between kernel and
      user touch exactly the bytes named.  The boot tables translate as intended.
    - Locks: mutual exclusion with interrupts off, in every interleaving of the CPUs.
    - Disk: the driver's requests, in every interleaving of threads, interrupts and a
      device that keeps to the virtio specification, transfer their blocks and are never
      stuck; they implement the atomic transfer [Bio.virtio_disk_rw], and the cache over
      that is a store of blocks.
    - Crashes: wherever the machine stops during a commit or a recovery, the disk after
      the next complete boot has all the blocks of the transaction or none; a file write
      is atomic in this sense.  Operations that keep to their budget never overflow the
      log.
    - File system: reads return what was written, directories map names to inodes, unlinked
      inodes are freed at the last reference, references are counted.
    - Pipes, console, UART: first in, first out, no lost wakeup, line editing as on lists.
    - Processes: exit and wait meet; exec replaces its process's image or changes nothing;
      from the first process on, every entry into the kernel keeps the process table in
      order and every open file's reference count equal to the number of descriptors.
    - User programs: the allocator's blocks stay apart; the shell parses what was written
      and runs what it parsed with the right descriptors; grep matches the language of its
      pattern; numbers that are printed read back.
    - Flaws: where the code does not do what it means to, a theorem states what it does
      instead ([uvmcopy] without memory, a killed pipe writer, [kill(0)], system call 22,
      [consolewrite] with a full ring, the mask of [gic_dist_config], the digit table of
      the kernel's [printf]).

    * Bounds and fuel

    Fuel is computed from the data the loop runs over: one turn per page, block, entry,
    buffer of the ring, byte or digit, plus one.  Theorems that give a result conclude
    [Ok] or [Some], so the fuel is enough there.  The parser of the shell takes 4 times
    the length of the line plus 5, shown to be enough on every line; its main loop, one
    turn per byte of input.  [malloc] and [free] take the fuel as an argument, and the
    theorem on them gives enough.  The invariant of the whole kernel is about entries that
    end with [Ok]; what an entry that panics or blocks leaves behind is not part of it,
    except for the processes that sleep, which go on in steps of their own.

    * Parameters

    The UART, the interrupt controller and the disk are parameters, the disk with the
    rules of the virtio specification; so are the addresses the linker chooses, the
    functions of the device table, the code found past the end of a table, how much a
    [read] or [write] of a user program transfers, and which of [fork], [pipe], [open] and
    [sbrk] succeed.  Every hypothesis on a parameter is met by an instance in a witness.

    * Not modelled

    Assembly (kernel/entry.S, kernel/swtch.S, kernel/trap_asm.S, user/initcode.S) and
    accesses to system registers, as in [uvmswitch], [start] and kernel/debug.c: they have
    no state of the model; a switch is a step of [Proc].  kernel/main.c calls each
    initialiser once.  kernel/picirq.c is not built and kernel/buddy.c is empty.  The print
    lock and the endless loop of [panic].  Weak memory: the barriers are taken to order
    the accesses as written.  User programs that are a few system calls without data of
    their own (init, echo, kill, ln, mkdir, rm, zombie, the listing loop of ls, [stat]) and
    the tests (usertests, grind, forktest, stressfs), which only drive system calls. *)

From Stdlib Require Export ZArith Lia.
From stdpp Require Export base list gmap strings.

#[export] Set Default Goal Selector "!".

Declare Scope xv6_scope.
Delimit Scope xv6_scope with xv6.
Global Open Scope Z_scope.

Ltac Zify.zify_post_hook ::= Z.div_mod_to_equations.

(** ** Outcomes of kernel code

    [Panic] is a call of [panic()]; [Blocked] is a call of [sleep()] (or of
    [acquiresleep()] on a held lock) at which the running process gives up the
    CPU; [OutOfFuel] is a loop whose fuel was too small and is never the
    outcome of a correctness theorem. *)
Inductive res (A : Type) : Type :=
| Ok (a : A)
| Panic (msg : string)
| Blocked
| OutOfFuel.
Arguments Ok {A} a.
Arguments Panic {A} msg.
Arguments Blocked {A}.
Arguments OutOfFuel {A}.

(** ** The kernel monad: explicit state passing with the outcomes above. *)
Definition M (S A : Type) : Type := S -> res (A * S).

Section Monad.
Context {S : Type}.

Definition ret {A} (a : A) : M S A := fun s => Ok (a, s).

Definition bind {A B} (m : M S A) (k : A -> M S B) : M S B := fun s =>
  match m s with
  | Ok (a, s') => k a s'
  | Panic msg => Panic msg
  | Blocked => Blocked
  | OutOfFuel => OutOfFuel
  end.

Definition get : M S S := fun s => Ok (s, s).
Definition put (s : S) : M S unit := fun _ => Ok (tt, s).
Definition gets {A} (f : S -> A) : M S A := fun s => Ok (f s, s).
Definition modify (f : S -> S) : M S unit := fun s => Ok (tt, f s).
Definition panic {A} (msg : string) : M S A := fun _ => Panic msg.
Definition block {A} : M S A := fun _ => Blocked.
Definition nofuel {A} : M S A := fun _ => OutOfFuel.

Lemma bind_ok {A B} (m : M S A) (k : A -> M S B) s a s' :
  m s = Ok (a, s') -> bind m k s = k a s'.
Proof. unfold bind. by intros ->. Qed.

Lemma bind_panic {A B} (m : M S A) (k : A -> M S B) s msg :
  m s = Panic msg -> bind m k s = Panic msg.
Proof. unfold bind. by intros ->. Qed.

Lemma bind_ok_inv {A B} (m : M S A) (k : A -> M S B) s r :
  bind m k s = Ok r -> exists a s1, m s = Ok (a, s1) /\ k a s1 = Ok r.
Proof. unfold bind. destruct (m s) as [[a s1]|msg| |]; naive_solver. Qed.

Lemma bind_assoc {A B C} (m : M S A) (f : A -> M S B) (g : B -> M S C) s :
  bind (bind m f) g s = bind m (fun a => bind (f a) g) s.
Proof. unfold bind. by destruct (m s) as [[]|msg| |]. Qed.
End Monad.

(** Running a component's operation on the part of a larger state it owns. *)
Definition zoom {S T A} (sel : S -> T) (upd : T -> S -> S) (m : M T A) : M S A :=
  fun s => match m (sel s) with
           | Ok (a, t) => Ok (a, upd t s)
           | Panic msg => Panic msg
           | Blocked => Blocked
           | OutOfFuel => OutOfFuel
           end.

Lemma zoom_ok {S T A} (sel : S -> T) (upd : T -> S -> S) (m : M T A) s a t :
  m (sel s) = Ok (a, t) -> zoom sel upd m s = Ok (a, upd t s).
Proof. unfold zoom. by intros ->. Qed.

Notation "x <- m ;; k" := (bind m (fun x => k))
  (at level 100, m at next level, right associativity) : xv6_scope.
Notation "'let*' p := m 'in' k" := (bind m (fun x => let p := x in k))
  (at level 10, p pattern, m at level 100, k at level 200) : xv6_scope.
Notation "m ;;; k" := (bind m (fun _ => k))
  (at level 100, right associativity) : xv6_scope.
Global Open Scope xv6_scope.

(** Reduce the leading primitive of a monadic run. *)
Ltac mred :=
  unfold ret, get, put, gets, modify, panic, block, nofuel in *;
  cbn [bind fst snd] in *.

(** ** Machine integers: values are [Z], the wrap of each width is explicit. *)
Definition u8 (x : Z) : Z := x mod 2 ^ 8.
Definition u16 (x : Z) : Z := x mod 2 ^ 16.
Definition u32 (x : Z) : Z := x mod 2 ^ 32.
Definition u64 (x : Z) : Z := x mod 2 ^ 64.

(** Two's complement reading of the low 16 and 32 bits ([short], [int]). *)
Definition s16 (x : Z) : Z := (x + 2 ^ 15) mod 2 ^ 16 - 2 ^ 15.
Definition s32 (x : Z) : Z := (x + 2 ^ 31) mod 2 ^ 32 - 2 ^ 31.

Lemma u64_small x : 0 <= x < 2 ^ 64 -> u64 x = x.
Proof. apply Z.mod_small. Qed.

Lemma u64_range x : 0 <= u64 x < 2 ^ 64.
Proof. apply Z.mod_pos_bound. lia. Qed.

Lemma u32_small x : 0 <= x < 2 ^ 32 -> u32 x = x.
Proof. apply Z.mod_small. Qed.

Lemma u32_range x : 0 <= u32 x < 2 ^ 32.
Proof. apply Z.mod_pos_bound. lia. Qed.

Lemma u8_small x : 0 <= x < 2 ^ 8 -> u8 x = x.
Proof. apply Z.mod_small. Qed.

Lemma u8_range x : 0 <= u8 x < 2 ^ 8.
Proof. apply Z.mod_pos_bound. lia. Qed.

Lemma u16_small x : 0 <= x < 2 ^ 16 -> u16 x = x.
Proof. apply Z.mod_small. Qed.

Lemma s32_small x : - 2 ^ 31 <= x < 2 ^ 31 -> s32 x = x.
Proof. intros ?. unfold s32. rewrite Z.mod_small; lia. Qed.

Lemma s32_range x : - 2 ^ 31 <= s32 x < 2 ^ 31.
Proof. unfold s32. pose proof (Z.mod_pos_bound (x + 2 ^ 31) (2 ^ 32)). lia. Qed.

Create HintDb xv6.
#[export] Hint Resolve u64_range u32_range u8_range s32_range : xv6.

(** ** Bit fields as arithmetic *)

(** Clearing the low [n] bits. *)
Lemma land_lnot_ones a n :
  0 <= n -> Z.land a (Z.lnot (Z.ones n)) = a - a mod 2 ^ n.
Proof.
  intros Hn. rewrite <- Z.ldiff_land, Z.ldiff_ones_r by done.
  rewrite Z.shiftl_mul_pow2, Z.shiftr_div_pow2 by done.
  pose proof (Z.pow_pos_nonneg 2 n). pose proof (Z.div_mod a (2 ^ n)). lia.
Qed.

(** A field of [n] bits starting at bit [s]. *)
Lemma shiftr_land_mod a s n :
  0 <= s -> 0 <= n ->
  Z.land (Z.shiftr a s) (Z.ones n) = (a / 2 ^ s) mod 2 ^ n.
Proof. intros ??. by rewrite Z.land_ones, Z.shiftr_div_pow2. Qed.

(** The bits of a number below [2^n] stop before bit [n]; those of a multiple
    of [2^n] start at it. *)
Lemma testbit_below b n i : 0 <= b < 2 ^ n -> 0 <= n <= i -> Z.testbit b i = false.
Proof.
  intros Hb Hi. rewrite <- (Z.mod_small b (2 ^ n)) by done.
  apply Z.mod_pow2_bits_high. lia.
Qed.

Lemma testbit_multiple a n i : a mod 2 ^ n = 0 -> i < n -> Z.testbit a i = false.
Proof.
  intros Ha Hi. rewrite <- (Z.mod_pow2_bits_low a n i) by done.
  by rewrite Ha, Z.testbit_0_l.
Qed.

Lemma land_disjoint a b n :
  0 <= n -> a mod 2 ^ n = 0 -> 0 <= b < 2 ^ n -> Z.land a b = 0.
Proof.
  intros Hn Ha Hb. apply Z.bits_inj'. intros i Hi.
  rewrite Z.land_spec, Z.bits_0. destruct (Z.lt_ge_cases i n).
  - by rewrite (testbit_multiple a n i).
  - rewrite (testbit_below b n i) by lia. apply andb_false_r.
Qed.

(** Or of numbers with disjoint bits is their sum. *)
Lemma lor_disjoint_add a b n :
  0 <= n -> a mod 2 ^ n = 0 -> 0 <= b < 2 ^ n -> Z.lor a b = a + b.
Proof.
  intros. symmetry. apply Z.add_nocarry_lor. by apply (land_disjoint a b n).
Qed.

(** ** Lists and options *)
Lemma list_insert_lookup_total {A} (l : list A) i x y :
  l !! i = Some y -> <[i:=x]> l !! i = Some x.
Proof. intros H. apply list_lookup_insert_eq. by apply lookup_lt_Some in H. Qed.

(** Two indices of a duplicate-free list hold different elements. *)
Lemma NoDup_lookup_ne {A} (l : list A) i j x y :
  NoDup l -> l !! i = Some x -> l !! j = Some y -> i <> j -> x <> y.
Proof. intros Hnd Hi Hj Hne ->. by apply Hne, (NoDup_lookup l i j y). Qed.


(** ** Permutations by counting

    [perm_solve] proves a permutation of page lists from others: it counts the
    occurrences of an arbitrary element on both sides and leaves linear
    arithmetic. *)
Definition cnt1 (x y : Z) : nat := if decide (y = x) then 1%nat else 0%nat.
Definition cnt (x : Z) (l : list Z) : nat := count_occ Z.eq_dec l x.

Lemma cnt_nil x : cnt x [] = 0%nat.
Proof. done. Qed.

Lemma cnt_cons x y l : cnt x (y :: l) = (cnt1 x y + cnt x l)%nat.
Proof.
  unfold cnt, cnt1. simpl. destruct (Z.eq_dec y x); case_decide; done.
Qed.

Lemma cnt_app x l1 l2 : cnt x (l1 ++ l2) = (cnt x l1 + cnt x l2)%nat.
Proof. apply count_occ_app. Qed.

Lemma perm_cnt l1 l2 : l1 ≡ₚ l2 <-> forall x, cnt x l1 = cnt x l2.
Proof. apply (Permutation_count_occ Z.eq_dec). Qed.

Ltac perm_solve :=
  let x := fresh "x" in
  apply perm_cnt; intros x;
  repeat match goal with
  | H : _ ≡ₚ _ |- _ => rewrite perm_cnt in H; specialize (H x)
  end;
  repeat rewrite ?cnt_app, ?cnt_cons, ?cnt_nil in *; lia.
