(* ===== verification/Mem.v ===== *)
(** Byte-addressed kernel memory: loads and stores of bytes, of little-endian
    words of [n] bytes and of byte strings, with the frame lemmas every client
    uses.  Addresses are kernel virtual addresses as [Z]; an address that was
    never written reads as zero, as the cleared BSS and the frames [kalloc]
    hands out do. *)

From S2P Require Import Prelude.

Abbreviation mem := (gmap Z Z).

Create Rewrite HintDb mem.

(** [char] is unsigned under the AArch64 ABI, so a byte is in [0, 256). *)


Definition ldb (m : mem) (a : Z) : Z := u8 (default 0 (m !! a)).
Definition stb (m : mem) (a v : Z) : mem := <[a := u8 v]> m.

Fixpoint ld_le (m : mem) (a : Z) (n : nat) : Z :=
  match n with
  | O => 0
  | S n' => ldb m a + 256 * ld_le m (a + 1) n'
  end.

Fixpoint st_le (m : mem) (a : Z) (n : nat) (v : Z) : mem :=
  match n with
  | O => m
  | S n' => st_le (stb m a v) (a + 1) n' (v / 256)
  end.

Definition ld64 (m : mem) (a : Z) : Z := ld_le m a 8.
Definition st64 (m : mem) (a v : Z) : mem := st_le m a 8 v.

Definition ld_bytes (m : mem) (a : Z) (n : nat) : list Z :=
  (fun i => ldb m (a + Z.of_nat i)) <$> seq 0 n.

Fixpoint st_bytes (m : mem) (a : Z) (l : list Z) : mem :=
  match l with
  | [] => m
  | b :: l' => st_bytes (stb m a b) (a + 1) l'
  end.

(** ** Bytes *)
Lemma ldb_range m a : 0 <= ldb m a < 256.
Proof. apply u8_range. Qed.

Lemma ldb_stb m a v b : ldb (stb m a v) b = if decide (a = b) then u8 v else ldb m b.
Proof.
  unfold ldb, stb. rewrite lookup_insert. case_decide; [|done].
  simpl. unfold u8. by rewrite Z.mod_mod by lia.
Qed.

Lemma ldb_stb_eq m a v : ldb (stb m a v) a = u8 v.
Proof. rewrite ldb_stb. by case_decide. Qed.

Lemma ldb_stb_ne m a v b : a <> b -> ldb (stb m a v) b = ldb m b.
Proof. rewrite ldb_stb. by case_decide. Qed.

(** ** Little-endian words *)
Lemma ldb_st_le_out m a n v b :
  (b < a \/ a + Z.of_nat n <= b) -> ldb (st_le m a n v) b = ldb m b.
Proof.
  revert m a v. induction n as [|n IH]; intros m a v Hb; simpl; [done|].
  rewrite IH by lia. apply ldb_stb_ne. lia.
Qed.

Lemma ld_le_ext m m' a n :
  (forall i, a <= i < a + Z.of_nat n -> ldb m i = ldb m' i) ->
  ld_le m a n = ld_le m' a n.
Proof.
  revert a. induction n as [|n IH]; intros a H; simpl; [done|].
  rewrite (H a) by lia. rewrite (IH (a + 1)); [done|]. intros i Hi. apply H. lia.
Qed.

Lemma ld_le_range m a n : 0 <= ld_le m a n < 256 ^ Z.of_nat n.
Proof.
  revert a. induction n as [|n IH]; intros a; [simpl; lia|].
  simpl ld_le. rewrite Nat2Z.inj_succ, Z.pow_succ_r by lia.
  pose proof (ldb_range m a). specialize (IH (a + 1)). lia.
Qed.

Lemma ld_st_le_same m a n v : ld_le (st_le m a n v) a n = v mod 256 ^ Z.of_nat n.
Proof.
  revert m a v. induction n as [|n IH]; intros m a v; simpl; [by rewrite Z.mod_1_r|].
  rewrite IH, ldb_st_le_out by lia. rewrite ldb_stb_eq. unfold u8.
  change (Z.pos (Pos.of_succ_nat n)) with (Z.of_nat (S n)).
  rewrite Nat2Z.inj_succ, Z.pow_succ_r by lia.
  rewrite Z.rem_mul_r by lia. done.
Qed.

Lemma ld_st_le_disj m a n v b k :
  (b + Z.of_nat k <= a \/ a + Z.of_nat n <= b) ->
  ld_le (st_le m a n v) b k = ld_le m b k.
Proof. intros H. apply ld_le_ext. intros i Hi. apply ldb_st_le_out. lia. Qed.

Lemma ld64_st64_same m a v : ld64 (st64 m a v) a = u64 v.
Proof. apply ld_st_le_same. Qed.

Lemma ld64_st64_disj m a v b :
  (b + 8 <= a \/ a + 8 <= b) -> ld64 (st64 m a v) b = ld64 m b.
Proof. intros H. apply ld_st_le_disj. lia. Qed.

Lemma ldb_st64_out m a v b :
  (b < a \/ a + 8 <= b) -> ldb (st64 m a v) b = ldb m b.
Proof. intros H. apply ldb_st_le_out. lia. Qed.

Lemma ld64_ext m m' a :
  (forall i, a <= i < a + 8 -> ldb m i = ldb m' i) -> ld64 m a = ld64 m' a.
Proof. intros H. apply ld_le_ext. intros i Hi. apply H. lia. Qed.

Lemma ld64_range m a : 0 <= ld64 m a < 2 ^ 64.
Proof. pose proof (ld_le_range m a 8). unfold ld64. simpl in *. lia. Qed.

Lemma ld64_zero m a :
  (forall i, a <= i < a + 8 -> ldb m i = 0) -> ld64 m a = 0.
Proof.
  intros H. rewrite (ld64_ext m ∅ a); [done|].
  intros i Hi. rewrite H by done. unfold ldb. by rewrite lookup_empty.
Qed.

(** ** Byte strings *)
Lemma length_ld_bytes m a n : length (ld_bytes m a n) = n.
Proof. unfold ld_bytes. by rewrite length_fmap, length_seq. Qed.

Lemma lookup_ld_bytes m a n (i : nat) :
  (i < n)%nat -> ld_bytes m a n !! i = Some (ldb m (a + Z.of_nat i)).
Proof.
  intros Hi. unfold ld_bytes. rewrite list_lookup_fmap, lookup_seq_lt by done. done.
Qed.

Lemma ld_bytes_ext m m' a n :
  (forall i, a <= i < a + Z.of_nat n -> ldb m i = ldb m' i) ->
  ld_bytes m a n = ld_bytes m' a n.
Proof.
  intros H. unfold ld_bytes. apply list_fmap_ext. intros i x Hx.
  apply lookup_seq in Hx as [-> Hlt]. apply H. lia.
Qed.

Lemma ldb_st_bytes_out m a l b :
  (b < a \/ a + Z.of_nat (length l) <= b) -> ldb (st_bytes m a l) b = ldb m b.
Proof.
  revert m a. induction l as [|x l IH]; intros m a Hb; simpl in *; [done|].
  rewrite IH by lia. apply ldb_stb_ne. lia.
Qed.

Lemma ldb_st_bytes_in m a l (i : nat) x :
  l !! i = Some x -> ldb (st_bytes m a l) (a + Z.of_nat i) = u8 x.
Proof.
  revert m a i. induction l as [|y l IH]; intros m a i Hi; [done|].
  destruct i as [|i]; simpl in *.
  - simplify_eq. rewrite ldb_st_bytes_out by lia. rewrite Z.add_0_r. apply ldb_stb_eq.
  - replace (a + Z.of_nat (S i)) with (a + 1 + Z.of_nat i) by lia. by apply IH.
Qed.

Lemma ld_st_bytes_same m a l :
  Forall (fun b => 0 <= b < 256) l -> ld_bytes (st_bytes m a l) a (length l) = l.
Proof.
  intros Hl. apply list_eq. intros i. destruct (decide (i < length l)%nat) as [Hi|Hi].
  - rewrite lookup_ld_bytes by done. apply lookup_lt_is_Some in Hi as [x Hx].
    rewrite Hx, (ldb_st_bytes_in _ _ _ _ x) by done. f_equal. apply u8_small.
    eapply (Forall_lookup_1 (fun b => 0 <= b < 256)); eauto.
  - rewrite !lookup_ge_None_2; [done|lia|rewrite length_ld_bytes; lia].
Qed.

#[export] Hint Rewrite ldb_stb_eq ld64_st64_same ld_st_le_same length_ld_bytes : mem.
#[export] Hint Resolve ldb_range ld64_range : xv6.
