(* ===== verification/KString.v ===== *)
(** kernel/string.c: the kernel's memory and string routines, over the byte
    memory of [Mem].  Each loop is a [Fixpoint] on the number of iterations
    left; pointers advance exactly as in the source.  [strlen], whose loop has
    no bound in the source, takes fuel. *)

From S2P Require Import Prelude Mem.

(** ** Operations *)

Fixpoint memset_loop (m : mem) (p ch i : Z) (n : nat) : mem :=
  match n with
  | O => m
  | S n' => memset_loop (stb m (p + i) ch) p ch (i + 1) n'
  end.

Definition memset (m : mem) (dst ch sz : Z) : mem :=
  memset_loop m dst ch 0 (Z.to_nat (u32 sz)).

Fixpoint memcmp_loop (m : mem) (s1 s2 : Z) (n : nat) : Z :=
  match n with
  | O => 0
  | S n' =>
      if ldb m s1 =? ldb m s2 then memcmp_loop m (s1 + 1) (s2 + 1) n'
      else ldb m s1 - ldb m s2
  end.

Definition memcmp (m : mem) (v1 v2 n : Z) : Z :=
  memcmp_loop m v1 v2 (Z.to_nat (u32 n)).

(** [while(n-- > 0) *--d = *--s] *)
Fixpoint copy_down (m : mem) (d s : Z) (n : nat) : mem :=
  match n with
  | O => m
  | S n' => copy_down (stb m (d - 1) (ldb m (s - 1))) (d - 1) (s - 1) n'
  end.

(** [while(n-- > 0) *d++ = *s++] *)
Fixpoint copy_up (m : mem) (d s : Z) (n : nat) : mem :=
  match n with
  | O => m
  | S n' => copy_up (stb m d (ldb m s)) (d + 1) (s + 1) n'
  end.

Definition memmove (m : mem) (dst src n : Z) : mem :=
  let n := u32 n in
  if (src <? dst) && (dst <? src + n)
  then copy_down m (dst + n) (src + n) (Z.to_nat n)
  else copy_up m dst src (Z.to_nat n).

Definition memcpy (m : mem) (dst src n : Z) : mem := memmove m dst src n.

Fixpoint strncmp_loop (m : mem) (p q : Z) (n : nat) : Z :=
  match n with
  | O => 0
  | S n' =>
      if negb (ldb m p =? 0) && (ldb m p =? ldb m q)
      then strncmp_loop m (p + 1) (q + 1) n'
      else ldb m p - ldb m q
  end.

Definition strncmp (m : mem) (p q n : Z) : Z :=
  strncmp_loop m p q (Z.to_nat (u32 n)).

(** The copy loop of [strncpy] and [safestrcpy], which stops after [n] bytes or
    after it copied a NUL: the memory, the final [s] and the
    number of iterations that were left. *)
Fixpoint str_copy (m : mem) (s t : Z) (n : nat) : mem * Z * nat :=
  match n with
  | O => (m, s, O)
  | S n' =>
      let c := ldb m t in
      let m' := stb m s c in
      if c =? 0 then (m', s + 1, n') else str_copy m' (s + 1) (t + 1) n'
  end.

(** [while(n-- > 0) *s++ = 0] *)
Fixpoint str_zero (m : mem) (s : Z) (n : nat) : mem :=
  match n with
  | O => m
  | S n' => str_zero (stb m s 0) (s + 1) n'
  end.

Definition strncpy (m : mem) (s t n : Z) : mem :=
  let '(m', s', k) := str_copy m s t (Z.to_nat n) in str_zero m' s' k.

Definition safestrcpy (m : mem) (s t n : Z) : mem :=
  if n <=? 0 then m
  else let '(m', s', _) := str_copy m s t (Z.to_nat (n - 1)) in stb m' s' 0.

Fixpoint strlen_loop (fuel : nat) (m : mem) (s n : Z) : option Z :=
  match fuel with
  | O => None
  | S f => if ldb m (s + n) =? 0 then Some n else strlen_loop f m s (n + 1)
  end.

Definition strlen (fuel : nat) (m : mem) (s : Z) : option Z := strlen_loop fuel m s 0.

(** ** Specification vocabulary *)

(** The bytes of the string at [a], up to the first NUL and at most [n]. *)
Fixpoint cstr_n (m : mem) (a : Z) (n : nat) : list Z :=
  match n with
  | O => []
  | S n' => if ldb m a =? 0 then [] else ldb m a :: cstr_n m (a + 1) n'
  end.

(** [l] is the NUL-terminated string at [a]. *)
Definition cstr (m : mem) (a : Z) (l : list Z) : Prop :=
  Forall (fun b => b <> 0) l /\
  ld_bytes m a (length l) = l /\ ldb m (a + Z.of_nat (length l)) = 0.

(** ** memset *)
Lemma ldb_memset_loop m p ch i n a :
  ldb (memset_loop m p ch i n) a =
  if decide (p + i <= a < p + i + Z.of_nat n) then u8 ch else ldb m a.
Proof.
  revert m i. induction n as [|n IH]; intros m i; simpl.
  - case_decide; [lia|done].
  - rewrite IH, ldb_stb. repeat case_decide; done || lia.
Qed.

Lemma ldb_memset m d ch n a :
  0 <= n < 2 ^ 32 ->
  ldb (memset m d ch n) a = if decide (d <= a < d + n) then u8 ch else ldb m a.
Proof.
  intros Hn. unfold memset. rewrite u32_small, ldb_memset_loop by done.
  repeat case_decide; done || lia.
Qed.

(** ** memmove *)
Lemma ldb_copy_up m d s n a :
  (d <= s \/ s + Z.of_nat n <= d) ->
  ldb (copy_up m d s n) a =
  if decide (d <= a < d + Z.of_nat n) then ldb m (s + (a - d)) else ldb m a.
Proof.
  revert m d s. induction n as [|n IH]; intros m d s Hov; simpl.
  { case_decide; [lia|done]. }
  rewrite IH by lia. rewrite !ldb_stb. repeat case_decide; try lia; try done.
  - f_equal. lia.
  - subst. rewrite u8_small by apply ldb_range. f_equal. lia.
Qed.

Lemma ldb_copy_down m d s n a :
  s <= d ->
  ldb (copy_down m d s n) a =
  if decide (d - Z.of_nat n <= a < d) then ldb m (s + (a - d)) else ldb m a.
Proof.
  revert m d s. induction n as [|n IH]; intros m d s Hov; simpl.
  { case_decide; [lia|done]. }
  rewrite IH by lia. rewrite !ldb_stb. repeat case_decide; try lia; try done.
  - f_equal. lia.
  - rewrite u8_small by apply ldb_range. f_equal. lia.
Qed.

Lemma ldb_memmove m d s n a :
  0 <= n < 2 ^ 32 ->
  ldb (memmove m d s n) a =
  if decide (d <= a < d + n) then ldb m (s + (a - d)) else ldb m a.
Proof.
  intros Hn. unfold memmove. rewrite u32_small by done.
  destruct (Z.ltb_spec s d), (Z.ltb_spec d (s + n)); simpl.
  1: rewrite ldb_copy_down by lia.
  2-4: rewrite ldb_copy_up by lia.
  all: repeat case_decide; try lia; try done; f_equal; lia.
Qed.

(** ** String lemmas *)
Lemma length_cstr_n m a n : (length (cstr_n m a n) <= n)%nat.
Proof.
  revert a. induction n as [|n IH]; intros a; simpl; [lia|].
  destruct (_ =? 0); simpl; [lia|]. specialize (IH (a + 1)). lia.
Qed.

Lemma cstr_n_ext m m' a n :
  (forall i, a <= i < a + Z.of_nat n -> ldb m i = ldb m' i) ->
  cstr_n m a n = cstr_n m' a n.
Proof.
  revert a. induction n as [|n IH]; intros a H; simpl; [done|].
  rewrite (H a) by lia. rewrite (IH (a + 1)); [done|]. intros; apply H; lia.
Qed.

Lemma cstr_n_cstr m a l n :
  cstr m a l -> (length l <= n)%nat -> cstr_n m a n = l.
Proof.
  intros (Hnz & Hl & Hz). revert a n Hl Hz. induction Hnz as [|b l Hb _ IH];
    intros a n Hl Hz Hn; simpl in *.
  - destruct n; simpl; [done|]. rewrite Z.add_0_r in Hz. by rewrite Hz.
  - destruct n as [|n]; [lia|]. simpl.
    injection Hl as Hb' Hl'. rewrite Z.add_0_r in Hb'. rewrite Hb'.
    rewrite (proj2 (Z.eqb_neq b 0) Hb). f_equal. apply IH; [|..].
    + rewrite <- Hl' at 2. unfold ld_bytes. rewrite <- fmap_S_seq, <- list_fmap_compose.
      apply list_fmap_ext. intros. simpl. f_equal. lia.
    + rewrite <- Hz. f_equal. lia.
    + lia.
Qed.

(** [str_copy] writes the string, and its NUL when it met one. *)
Lemma str_copy_spec m s t n m' s' k :
  (s + Z.of_nat n <= t \/ t + Z.of_nat n <= s) ->
  str_copy m s t n = (m', s', k) ->
  let l := cstr_n m t n in
  ((length l < n)%nat ->
     s' = s + Z.of_nat (length l) + 1 /\ k = (n - length l - 1)%nat) /\
  (length l = n -> s' = s + Z.of_nat n /\ k = O) /\
  (forall a, ldb m' a =
    if decide (s <= a < s + Z.of_nat (length l)) then ldb m (t + (a - s))
    else if decide (a = s + Z.of_nat (length l) /\ (length l < n)%nat) then 0
    else ldb m a).
Proof.
  revert m s t m' s' k. induction n as [|n IH]; intros m s t m' s' k Hd; simpl.
  { intros [= <- <- <-]. simpl. split_and!; [lia|lia|].
    intros a. repeat case_decide; done || lia. }
  destruct (Z.eqb_spec (ldb m t) 0) as [Hz|Hz].
  - intros [= <- <- <-]. simpl. split_and!; [lia|lia|].
    intros a. rewrite ldb_stb, Hz. repeat case_decide; done || lia.
  - intros Hc. apply IH in Hc as (H1 & H2 & H3); [|lia].
    assert (Hext : cstr_n (stb m s (ldb m t)) (t + 1) n = cstr_n m (t + 1) n).
    { apply cstr_n_ext. intros i Hi. apply ldb_stb_ne. lia. }
    rewrite Hext in *. simpl. split_and!.
    1: intros; destruct H1; lia.
    1: intros; destruct H2; lia.
    intros a. rewrite H3, !ldb_stb. rewrite u8_small by apply ldb_range.
    pose proof (length_cstr_n m (t + 1) n).
    repeat case_decide; try done; try lia; f_equal; lia.
Qed.

Lemma ldb_str_zero m s n a :
  ldb (str_zero m s n) a =
  if decide (s <= a < s + Z.of_nat n) then 0 else ldb m a.
Proof.
  revert m s. induction n as [|n IH]; intros m s; simpl.
  - case_decide; [lia|done].
  - rewrite IH, ldb_stb. repeat case_decide; done || lia.
Qed.

Lemma cstr_n_lookup m a n (i : nat) x :
  cstr_n m a n !! i = Some x -> ldb m (a + Z.of_nat i) = x /\ x <> 0.
Proof.
  revert a i. induction n as [|n IH]; intros a i; simpl; [done|].
  destruct (Z.eqb_spec (ldb m a) 0); [done|]. destruct i as [|i]; simpl.
  - rewrite Z.add_0_r. by intros [= <-].
  - intros H. apply IH in H. by replace (a + Z.of_nat (S i)) with (a + 1 + Z.of_nat i) by lia.
Qed.

Lemma cstr_n_ld_bytes m a n :
  ld_bytes m a (length (cstr_n m a n)) = cstr_n m a n.
Proof.
  apply list_eq. intros i. destruct (decide (i < length (cstr_n m a n))%nat) as [Hi|Hi].
  - rewrite lookup_ld_bytes by done. apply lookup_lt_is_Some in Hi as [x Hx].
    rewrite Hx. f_equal. by apply cstr_n_lookup in Hx as [].
  - rewrite !lookup_ge_None_2; [done|lia|rewrite length_ld_bytes; lia].
Qed.

Lemma cstr_n_nonzero m a n : Forall (fun b => b <> 0) (cstr_n m a n).
Proof. apply Forall_lookup_2. intros i x Hx. by apply cstr_n_lookup in Hx as []. Qed.

Lemma strlen_loop_spec m s l k fuel :
  cstr m s l -> (k <= length l)%nat -> (length l - k < fuel)%nat ->
  strlen_loop fuel m s (Z.of_nat k) = Some (Z.of_nat (length l)).
Proof.
  intros (Hnz & Hl & Hz). revert k. induction fuel as [|f IH]; intros k Hk Hf; [lia|].
  simpl. destruct (decide (k = length l)) as [->|Hne]; [by rewrite Hz|].
  destruct (lookup_lt_is_Some_2 l k) as [x Hx]; [lia|].
  assert (ldb m (s + Z.of_nat k) = x) as ->.
  { rewrite <- Hl, lookup_ld_bytes in Hx by lia. congruence. }
  rewrite (proj2 (Z.eqb_neq x 0)) by exact (Forall_lookup_1 _ _ _ _ Hnz Hx).
  replace (Z.of_nat k + 1) with (Z.of_nat (S k)) by lia. apply IH; lia.
Qed.

Lemma memcmp_loop_zero m s1 s2 n :
  memcmp_loop m s1 s2 n = 0 <-> ld_bytes m s1 n = ld_bytes m s2 n.
Proof.
  assert (Hcons : forall a k, ld_bytes m a (S k) = ldb m a :: ld_bytes m (a + 1) k).
  { intros a k. unfold ld_bytes. simpl. rewrite Z.add_0_r. f_equal.
    rewrite <- fmap_S_seq, <- list_fmap_compose. apply list_fmap_ext. intros. simpl.
    f_equal. lia. }
  revert s1 s2. induction n as [|n IH]; intros s1 s2; [done|].
  rewrite !Hcons. simpl. destruct (Z.eqb_spec (ldb m s1) (ldb m s2)) as [E|E].
  - rewrite IH, E. split; [by intros ->|by intros [=]].
  - split; [lia|]. intros [=]. done.
Qed.

Lemma strncmp_loop_zero m p q n :
  strncmp_loop m p q n = 0 <-> cstr_n m p n = cstr_n m q n.
Proof.
  revert p q. induction n as [|n IH]; intros p q; simpl; [done|].
  destruct (Z.eqb_spec (ldb m p) 0) as [E|E]; simpl.
  - rewrite E. destruct (Z.eqb_spec (ldb m q) 0) as [E'|E']; [rewrite E'; done|].
    pose proof (ldb_range m q). split; [lia|done].
  - destruct (Z.eqb_spec (ldb m p) (ldb m q)) as [E'|E'].
    + rewrite <- E'. rewrite (proj2 (Z.eqb_neq _ _) E), IH.
      split; [by intros ->|by intros [=]].
    + split; [lia|]. destruct (Z.eqb_spec (ldb m q) 0); [done|]. intros [=]. done.
Qed.

(** ** Properties *)

(** [memmove] leaves at the destination the [n] source bytes as they
    were before the call, whether or not the two regions overlap, and changes no
    byte outside the destination region. *)
Theorem memmove_correct m d s n :
  0 <= n < 2 ^ 32 ->
  ld_bytes (memmove m d s n) d (Z.to_nat n) = ld_bytes m s (Z.to_nat n) /\
  (forall a, ~ (d <= a < d + n) -> ldb (memmove m d s n) a = ldb m a).
Proof.
  intros Hn. split.
  - apply list_fmap_ext. intros i x Hx. apply lookup_seq in Hx as [-> Hlt].
    rewrite ldb_memmove by done. case_decide; [|lia]. f_equal. lia.
  - intros a Ha. rewrite ldb_memmove by done. by case_decide.
Qed.

Lemma memmove_correct_witness :
  ld_bytes (memmove (st_bytes ∅ 100 [1; 2; 3; 4]) 102 100 4) 102 4 = [1; 2; 3; 4].
Proof.
  rewrite (proj1 (memmove_correct (st_bytes ∅ 100 [1; 2; 3; 4]) 102 100 4 ltac:(lia))).
  vm_compute. reflexivity.
Defined.

(** [strncpy] fills exactly the [n] bytes at [s]: the source string
    cut at [n] bytes, padded with NUL bytes. *)
Theorem strncpy_pads m s t n :
  0 <= n -> (s + n <= t \/ t + n <= s) ->
  let l := cstr_n m t (Z.to_nat n) in
  ld_bytes (strncpy m s t n) s (Z.to_nat n) =
    l ++ replicate (Z.to_nat n - length l) 0 /\
  (forall a, ~ (s <= a < s + n) -> ldb (strncpy m s t n) a = ldb m a).
Proof.
  intros Hn Hd l. unfold strncpy.
  destruct (str_copy m s t (Z.to_nat n)) as [[m' s'] k] eqn:E.
  apply str_copy_spec in E as (H1 & H2 & H3); [|lia]. fold l in H1, H2, H3.
  pose proof (length_cstr_n m t (Z.to_nat n)) as Hl. fold l in Hl.
  assert (Hs' : s' + Z.of_nat k = s + n /\
    (s' = s + Z.of_nat (length l) + 1 \/ s' = s + n) /\ ((length l < Z.to_nat n)%nat -> s' = s + Z.of_nat (length l) + 1)).
  { destruct (decide (length l < Z.to_nat n)%nat) as [Hlt|Hge].
    - destruct H1; [done|]. lia.
    - destruct H2; lia. }
  split.
  - apply list_eq. intros i. destruct (decide (i < Z.to_nat n)%nat) as [Hi|Hi].
    2: { rewrite !lookup_ge_None_2; [done| |].
         - rewrite length_app, length_replicate. lia.
         - rewrite length_ld_bytes. lia. }
    rewrite lookup_ld_bytes by done. rewrite ldb_str_zero, H3.
    destruct (decide (i < length l)%nat) as [Hil|Hil].
    + rewrite lookup_app_l by done. apply lookup_lt_is_Some in Hil as [x Hx].
      rewrite Hx. pose proof (lookup_lt_Some _ _ _ Hx). apply cstr_n_lookup in Hx as [Hx _].
      rewrite <- Hx. repeat case_decide; try lia. all: repeat f_equal; lia.
    + rewrite lookup_app_r by lia. rewrite lookup_replicate_2 by lia.
      repeat case_decide; try lia; done.
  - intros a Ha. rewrite ldb_str_zero, H3. repeat case_decide; try lia; done.
Qed.

Lemma strncpy_pads_witness :
  ld_bytes (strncpy (st_bytes ∅ 100 [97; 98; 0; 7]) 200 100 4) 200 4 = [97; 98; 0; 0].
Proof.
  rewrite (proj1 (strncpy_pads (st_bytes ∅ 100 [97; 98; 0; 7]) 200 100 4
    ltac:(lia) ltac:(lia))). vm_compute. reflexivity.
Defined.

(** For [n > 0] [safestrcpy] leaves at [s] a NUL-terminated string,
    the source cut at [n - 1] bytes, and writes nothing outside [s, s + n). *)
Theorem safestrcpy_terminates m s t n :
  0 < n -> (s + n <= t \/ t + n <= s) ->
  cstr (safestrcpy m s t n) s (cstr_n m t (Z.to_nat (n - 1))) /\
  (forall a, ~ (s <= a < s + n) -> ldb (safestrcpy m s t n) a = ldb m a).
Proof.
  intros Hn Hd. unfold safestrcpy. rewrite (proj2 (Z.leb_gt n 0)) by done.
  destruct (str_copy m s t (Z.to_nat (n - 1))) as [[m' s'] k] eqn:E.
  apply str_copy_spec in E as (H1 & H2 & H3); [|lia].
  set (l := cstr_n m t (Z.to_nat (n - 1))) in *.
  pose proof (length_cstr_n m t (Z.to_nat (n - 1))) as Hl. fold l in Hl.
  assert (Hs' : s + Z.of_nat (length l) <= s' < s + n).
  { destruct (decide (length l < Z.to_nat (n - 1))%nat).
    - destruct H1; lia.
    - destruct H2; lia. }
  assert (Hnul : s' = s + Z.of_nat (length l) \/ (length l < Z.to_nat (n - 1))%nat) by lia.
  split; [split_and!|].
  - apply cstr_n_nonzero.
  - transitivity (ld_bytes m t (length l)); [|apply cstr_n_ld_bytes].
    apply list_eq. intros i. destruct (decide (i < length l)%nat) as [Hi|Hi].
    + rewrite !lookup_ld_bytes by done. rewrite ldb_stb, H3.
      repeat case_decide; try lia. all: repeat f_equal; lia.
    + rewrite !lookup_ge_None_2; [done|rewrite length_ld_bytes; lia..].
  - rewrite ldb_stb, H3. repeat case_decide; try done; lia.
  - intros a Ha. rewrite ldb_stb, H3. repeat case_decide; try lia; done.
Qed.

Lemma safestrcpy_terminates_witness :
  cstr (safestrcpy (st_bytes ∅ 100 [97; 98; 99; 100]) 200 100 3) 200 [97; 98].
Proof.
  exact (proj1 (safestrcpy_terminates (st_bytes ∅ 100 [97; 98; 99; 100]) 200 100 3
    ltac:(lia) ltac:(lia))).
Defined.
