(* ===== verification/Mmu.v ===== *)
(** kernel/mmu.h, kernel/memlayout.h, kernel/arm_virt.h: page and address
    arithmetic.  The macros are written with the bit operations of the source;
    the lemmas give their arithmetic reading. *)

From S2P Require Import Prelude Mem.

(** ** memlayout.h and arm_virt.h *)
Definition KERNBASE : Z := 0xFFFFFFFF00000000.
Definition PHYSTART : Z := 0x40000000.
Definition PHYSTOP : Z := 0x08000000 + PHYSTART.
Definition KERN_SZ : Z := 0x200000.
Definition INIT_KERNTOP : Z := KERN_SZ + PHYSTART.

Definition V2P (va : Z) : Z := u64 (va - KERNBASE).
Definition P2V (pa : Z) : Z := u64 (pa + KERNBASE).

(** ** mmu.h *)
Definition ENTRY_VALID : Z := 0x01.
Definition ENTRY_PAGE : Z := 0x02.
Definition ENTRY_TABLE : Z := 0x02.
Definition MEM_ATTR_IDX (x : Z) : Z := Z.shiftl x 2.
Definition ENTRY_NS : Z := Z.shiftl 1 5.
Definition AP_1 : Z := Z.shiftl 1 6.
Definition SH_IN_SH : Z := Z.shiftl 3 8.
Definition ACCESS_FLAG : Z := Z.shiftl 1 10.

Definition PGD_SHIFT : Z := 30.
Definition PMD_SHIFT : Z := 21.
Definition PTE_SHIFT : Z := 12.
Definition PTRS_PER_PGD : Z := 4.
Definition PTRS_PER_PMD : Z := Z.shiftl 1 9.
Definition PTRS_PER_PTE : Z := Z.shiftl 1 9.

Definition PGD_IDX (va : Z) : Z := Z.land (Z.shiftr va PGD_SHIFT) (PTRS_PER_PGD - 1).
Definition PMD_IDX (va : Z) : Z := Z.land (Z.shiftr va PMD_SHIFT) (PTRS_PER_PMD - 1).
Definition PTE_IDX (va : Z) : Z := Z.land (Z.shiftr va PTE_SHIFT) (PTRS_PER_PTE - 1).

Definition PG_ADDR_MASK : Z := 0xFFFFFFFFF000.
Definition PGSIZE : Z := 4096.

Definition PGROUNDUP (sz : Z) : Z := Z.land (u64 (sz + PGSIZE - 1)) (Z.lnot (PGSIZE - 1)).
Definition PGROUNDDOWN (a : Z) : Z := Z.land a (Z.lnot (PGSIZE - 1)).

(** ** Arithmetic readings *)
Lemma PGROUNDDOWN_eq a : PGROUNDDOWN a = a - a mod 4096.
Proof. apply (land_lnot_ones a 12). lia. Qed.

Lemma PGROUNDUP_eq a :
  0 <= a -> a + 4095 < 2 ^ 64 -> PGROUNDUP a = (a + 4095) / 4096 * 4096.
Proof.
  intros H1 H2. unfold PGROUNDUP. rewrite u64_small by (unfold PGSIZE; lia).
  change (Z.lnot (PGSIZE - 1)) with (Z.lnot (Z.ones 12)).
  rewrite land_lnot_ones by lia. unfold PGSIZE. lia.
Qed.

Lemma PGD_IDX_eq va : PGD_IDX va = (va / 2 ^ 30) mod 4.
Proof. apply (shiftr_land_mod va 30 2); lia. Qed.

Lemma PMD_IDX_eq va : PMD_IDX va = (va / 2 ^ 21) mod 512.
Proof. apply (shiftr_land_mod va 21 9); lia. Qed.

Lemma PTE_IDX_eq va : PTE_IDX va = (va / 2 ^ 12) mod 512.
Proof. apply (shiftr_land_mod va 12 9); lia. Qed.

(** ** Pages *)

(** [p] is a page-aligned kernel address of a whole page. *)
Definition page (p : Z) : Prop := 0 < p /\ p + 4096 <= 2 ^ 64 /\ p mod 4096 = 0.

Definition in_page (p a : Z) : Prop := p <= a < p + 4096.

Lemma in_page_inj p q a : page p -> page q -> in_page p a -> in_page q a -> p = q.
Proof. unfold page, in_page. lia. Qed.

#[export] Instance in_page_dec p a : Decision (in_page p a).
Proof. unfold in_page. apply _. Defined.

(** Memory [m'] differs from [m] only inside the pages [ps]. *)
Definition only_pages (ps : list Z) (m m' : mem) : Prop :=
  forall a, (forall p, p ∈ ps -> ~ in_page p a) -> ldb m' a = ldb m a.

Lemma only_pages_refl ps m : only_pages ps m m.
Proof. by intros a _. Qed.

Lemma only_pages_trans ps m1 m2 m3 :
  only_pages ps m1 m2 -> only_pages ps m2 m3 -> only_pages ps m1 m3.
Proof. intros H1 H2 a Ha. rewrite H2, H1; done. Qed.

Lemma only_pages_mono ps qs m m' : ps ⊆ qs -> only_pages ps m m' -> only_pages qs m m'.
Proof. intros Hs H a Ha. apply H. intros p Hp. by apply Ha, Hs. Qed.

(** A byte of a page that is not among [ps] is unchanged. *)
Lemma only_pages_ldb ps m m' p a :
  only_pages ps m m' -> Forall page ps -> page p -> p ∉ ps -> in_page p a ->
  ldb m' a = ldb m a.
Proof.
  intros H Hps Hp Hn Ha. apply H. intros q Hq Hqa.
  rewrite Forall_forall in Hps. assert (p = q) as -> by eauto using in_page_inj. done.
Qed.

Lemma only_pages_ld64 ps m m' p i :
  only_pages ps m m' -> Forall page ps -> page p -> p ∉ ps ->
  0 <= i < 512 -> ld64 m' (p + 8 * i) = ld64 m (p + 8 * i).
Proof.
  intros H Hps Hp Hn Hi. apply ld64_ext. intros j Hj.
  eapply only_pages_ldb; eauto. unfold in_page. lia.
Qed.

Lemma only_pages_st64 p m i v :
  0 <= i < 512 -> only_pages [p] m (st64 m (p + 8 * i) v).
Proof.
  intros Hi a Ha. specialize (Ha p ltac:(set_solver)). unfold in_page in Ha.
  apply ldb_st64_out. lia.
Qed.

(** The bytes of the pages [ps] are the same in [m'] as in [m]. *)
Definition keeps (ps : list Z) (m m' : mem) : Prop :=
  forall p a, p ∈ ps -> in_page p a -> ldb m' a = ldb m a.

Lemma keeps_refl ps m : keeps ps m m.
Proof. by intros p a. Qed.

Lemma keeps_trans ps m1 m2 m3 : keeps ps m1 m2 -> keeps ps m2 m3 -> keeps ps m1 m3.
Proof. intros H1 H2 p a Hp Ha. by rewrite (H2 p a Hp Ha), (H1 p a Hp Ha). Qed.

Lemma keeps_mono ps qs m m' : qs ⊆ ps -> keeps ps m m' -> keeps qs m m'.
Proof. intros Hs H p a Hp. by apply H, Hs. Qed.

Lemma only_pages_keeps ps qs m m' :
  only_pages ps m m' -> Forall page ps -> Forall page qs -> qs ## ps -> keeps qs m m'.
Proof.
  intros H Hps Hqs Hd p a Hp Ha. rewrite Forall_forall in Hqs.
  eapply only_pages_ldb; eauto.
Qed.

#[export] Hint Resolve only_pages_refl keeps_refl : xv6.
