(* ===== verification/Kalloc.v ===== *)
(** kernel/kalloc.c: the physical page allocator.  The free list is threaded
    through the free pages themselves ([struct run]), so the state is the byte
    memory and the head pointer.  [kmem.lock] brackets are atomic sections. *)

From S2P Require Import Prelude Mem KString Mmu.

(** [kmem] together with the memory it manages. *)
Record kst := mkkst { kmem : mem; freelist : Z }.

(** ** Operations *)

Definition kfree (pa : Z) : M kst unit :=
  if negb (pa mod PGSIZE =? 0) then panic "kfree"
  else modify (fun s =>
    let m := memset (kmem s) pa 1 PGSIZE in
    mkkst (st64 m pa (freelist s)) pa).

Definition kalloc : M kst Z :=
  r <- gets freelist ;;
  (if r =? 0 then ret tt
   else modify (fun s => mkkst (kmem s) (ld64 (kmem s) r))) ;;;
  (if r =? 0 then ret tt
   else modify (fun s => mkkst (memset (kmem s) r 0 PGSIZE) (freelist s))) ;;;
  ret r.

Fixpoint freerange_loop (fuel : nat) (p pa_end : Z) : M kst unit :=
  match fuel with
  | O => nofuel
  | S f =>
      if p + PGSIZE <=? pa_end
      then kfree p ;;; freerange_loop f (p + PGSIZE) pa_end
      else ret tt
  end.

Definition freerange (pa_start pa_end : Z) : M kst unit :=
  freerange_loop (S (Z.to_nat ((pa_end - pa_start) / PGSIZE))) (PGROUNDUP pa_start) pa_end.

Definition kinit : M kst unit := freerange (P2V INIT_KERNTOP) (P2V PHYSTOP).

Fixpoint pre_free4kpt_loop (fuel : nat) (p va_end : Z) : M kst unit :=
  match fuel with
  | O => nofuel
  | S f =>
      if p <? va_end
      then kfree p ;;; pre_free4kpt_loop f (p + PGSIZE) va_end
      else ret tt
  end.

Definition pre_free4kpt (va_start va_end : Z) : M kst unit :=
  pre_free4kpt_loop (S (Z.to_nat ((va_end - va_start + PGSIZE - 1) / PGSIZE)))
    (PGROUNDUP va_start) va_end.

(** ** Representation invariant *)

(** The pages reached from [hd] through the [next] words. *)
Fixpoint flist (m : mem) (hd : Z) (l : list Z) : Prop :=
  match l with
  | [] => hd = 0
  | p :: l' => hd = p /\ page p /\ flist m (ld64 m p) l'
  end.

Definition kwf (s : kst) (l : list Z) : Prop :=
  flist (kmem s) (freelist s) l /\ NoDup l.

Lemma flist_page m hd l : flist m hd l -> Forall page l.
Proof.
  revert hd. induction l as [|p l IH]; intros hd; simpl; [done|].
  intros (-> & Hp & Hl). constructor; eauto.
Qed.

Lemma kwf_page s l : kwf s l -> Forall page l.
Proof. intros [H _]. by eapply flist_page. Qed.

(** Changing pages that are not on the list keeps the list. *)
Lemma flist_frame m m' hd l ps :
  only_pages ps m m' -> Forall page ps -> l ## ps -> flist m hd l -> flist m' hd l.
Proof.
  intros Hm Hps. revert hd. induction l as [|p l IH]; intros hd Hd; simpl; [done|].
  intros (-> & Hp & Hl). split_and!; [done|done|].
  assert (ld64 m' p = ld64 m p) as ->.
  { pose proof (only_pages_ld64 ps m m' p 0 Hm Hps Hp) as E.
    rewrite Z.mul_0_r, Z.add_0_r in E. apply E; [set_solver|lia]. }
  apply IH; [set_solver|done].
Qed.

Lemma kwf_frame s m' l ps :
  kwf s l -> only_pages ps (kmem s) m' -> Forall page ps -> l ## ps ->
  kwf (mkkst m' (freelist s)) l.
Proof. intros [Hf Hn] ???. split; simpl; [by eapply flist_frame|done]. Qed.

Lemma only_pages_memset m p v :
  only_pages [p] m (memset m p v 4096).
Proof.
  intros a Ha. rewrite ldb_memset by lia. case_decide; [|done].
  destruct (Ha p); [set_solver|done].
Qed.

(** [p]'s bytes are all zero. *)
Definition zero_page (m : mem) (p : Z) : Prop := forall a, in_page p a -> ldb m a = 0.

Lemma zero_page_ld64 m p i : zero_page m p -> 0 <= i < 512 -> ld64 m (p + 8 * i) = 0.
Proof. intros H Hi. apply ld64_zero. intros j Hj. apply H. unfold in_page. lia. Qed.

Lemma zero_page_memset m p : zero_page (memset m p 0 4096) p.
Proof. intros a Ha. rewrite ldb_memset by lia. unfold in_page in Ha. by case_decide. Qed.

(** ** Behaviour of the operations *)

Lemma kfree_ok s l p :
  kwf s l -> page p -> p ∉ l ->
  exists s', kfree p s = Ok (tt, s') /\ kwf s' (p :: l) /\
    only_pages [p] (kmem s) (kmem s').
Proof.
  intros Hwf Hp Hn. unfold kfree. change PGSIZE with 4096.
  rewrite (proj2 (Z.eqb_eq _ _)) by apply Hp. simpl.
  eexists. split; [done|]. simpl.
  set (m1 := memset (kmem s) p 1 4096).
  assert (Hm : only_pages [p] (kmem s) (st64 m1 p (freelist s))).
  { eapply only_pages_trans; [apply only_pages_memset|].
    pose proof (only_pages_st64 p m1 0 (freelist s)) as H.
    rewrite Z.mul_0_r, Z.add_0_r in H. apply H. lia. }
  split; [|done]. destruct (Hwf) as [Hf Hnd]. split; simpl; [|by constructor].
  split_and!; [done|done|].
  rewrite ld64_st64_same.
  assert (u64 (freelist s) = freelist s) as ->.
  { apply u64_small. destruct l as [|q l]; simpl in Hf; [rewrite Hf; lia|].
    destruct Hf as (-> & Hq & _). unfold page in Hq. lia. }
  eapply flist_frame; [done| |set_solver|done]. by apply Forall_singleton.
Qed.

Lemma kalloc_nil s : kwf s [] -> kalloc s = Ok (0, s).
Proof.
  intros [Hf _]. simpl in Hf. unfold kalloc, bind, gets. rewrite Hf. simpl.
  done.
Qed.

Lemma kalloc_cons s p l :
  kwf s (p :: l) ->
  exists s', kalloc s = Ok (p, s') /\ kwf s' l /\ page p /\ p ∉ l /\
    zero_page (kmem s') p /\ only_pages [p] (kmem s) (kmem s').
Proof.
  intros [(Hfl & Hp & Hl) Hnd]. apply NoDup_cons in Hnd as [Hnin Hnd].
  unfold kalloc, bind, gets, modify, ret. rewrite Hfl.
  rewrite (proj2 (Z.eqb_neq p 0)) by (unfold page in Hp; lia). simpl.
  eexists. split; [done|]. simpl. split_and!; try done.
  - split; simpl; [|done]. eapply flist_frame; [apply only_pages_memset| |set_solver|done].
    by apply Forall_singleton.
  - apply zero_page_memset.
  - apply only_pages_memset.
Qed.

(** The whole pages at [p], [p + PGSIZE], ... *)
Fixpoint pages_from (p : Z) (n : nat) : list Z :=
  match n with
  | O => []
  | S n' => p :: pages_from (p + 4096) n'
  end.

Lemma elem_of_pages_from p n q :
  q ∈ pages_from p n <-> exists k, 0 <= k < Z.of_nat n /\ q = p + 4096 * k.
Proof.
  revert p. induction n as [|n IH]; intros p; simpl.
  - split; [set_solver|]. intros (k & ? & ?). lia.
  - rewrite elem_of_cons, IH. split.
    + intros [->|(k & Hk & ->)]; [exists 0|exists (k + 1)]; lia.
    + intros (k & Hk & ->). destruct (decide (k = 0)) as [->|]; [left; lia|right].
      exists (k - 1). lia.
Qed.

Lemma freerange_loop_ok n s l p e fuel :
  kwf s l -> page p -> p mod 4096 = 0 -> (n < fuel)%nat ->
  p + 4096 * Z.of_nat n <= e < p + 4096 * (Z.of_nat n + 1) -> e <= 2 ^ 64 ->
  (forall q, q ∈ l -> q ∉ pages_from p n) ->
  exists s', freerange_loop fuel p e s = Ok (tt, s') /\
    kwf s' (rev (pages_from p n) ++ l).
Proof.
  revert s l p fuel. induction n as [|n IH]; intros s l p fuel Hwf Hp Hal Hf He Hmax Hd.
  - destruct fuel as [|f]; [lia|]. simpl.
    destruct (Z.leb_spec (p + PGSIZE) e) as [H|H]; [unfold PGSIZE in H; lia|].
    by exists s.
  - destruct fuel as [|f]; [lia|]. cbn [freerange_loop].
    destruct (Z.leb_spec (p + PGSIZE) e) as [H|H]; [|unfold PGSIZE in H; lia].
    destruct (kfree_ok s l p) as (s1 & E1 & Hwf1 & _); [done|done| |].
    { intros Hin. apply (Hd p Hin). simpl. set_solver. }
    rewrite (bind_ok _ _ _ _ _ E1). unfold PGSIZE in *.
    destruct (decide (n = O)) as [->|Hn0].
    + simpl. destruct f as [|f]; [lia|]. simpl.
      destruct (Z.leb_spec (p + 4096 + PGSIZE) e) as [H'|H']; [unfold PGSIZE in H'; lia|].
      by exists s1.
    + destruct (IH s1 (p :: l) (p + 4096) f) as (s' & E & Hwf'); try lia; try done.
      * unfold page in *. lia.
      * intros q [->|Hq]%elem_of_cons.
        -- rewrite elem_of_pages_from. intros (k & ? & ?). lia.
        -- specialize (Hd q Hq). simpl in Hd. set_solver.
      * exists s'. split; [done|]. simpl. by rewrite <- app_assoc.
Qed.

(** ** The allocator and its clients

    One step of the system: a client allocates (or is told there is no memory),
    frees a page it holds, or writes anywhere inside pages it holds. *)
Inductive kstep : kst * list Z -> kst * list Z -> Prop :=
| kstep_alloc s al p s' :
    kalloc s = Ok (p, s') -> p <> 0 -> kstep (s, al) (s', p :: al)
| kstep_nomem s al s' :
    kalloc s = Ok (0, s') -> kstep (s, al) (s', al)
| kstep_free s p al al' s' :
    al ≡ₚ p :: al' -> kfree p s = Ok (tt, s') -> kstep (s, al) (s', al')
| kstep_write s al m' :
    only_pages al (kmem s) m' -> kstep (s, al) (mkkst m' (freelist s), al).

(** Every managed page is on the free list or held by a client, never both. *)
Definition kinv (l0 : list Z) (c : kst * list Z) : Prop :=
  exists l, kwf c.1 l /\ l ++ c.2 ≡ₚ l0 /\ NoDup l0 /\ Forall page l0.

Lemma kinv_split l0 al l :
  l ++ al ≡ₚ l0 -> NoDup l0 -> Forall page l0 -> l ## al /\ Forall page al.
Proof.
  intros Hp Hnd Hpg. rewrite <- Hp in Hnd, Hpg.
  apply NoDup_app in Hnd as (_ & Hd & _). apply Forall_app in Hpg as [_ ?].
  split; [|done]. intros x Hx. by apply Hd.
Qed.

Lemma kstep_kinv l0 c c' : kinv l0 c -> kstep c c' -> kinv l0 c'.
Proof.
  intros (l & Hwf & Hperm & Hnd & Hpg) Hs.
  destruct Hs as [s al p s' E Hp|s al s' E|s p al al' s' Hal E|s al m' Hm]; simpl in *.
  - destruct l as [|q l].
    { rewrite kalloc_nil in E by done. by injection E as <- _. }
    destruct (kalloc_cons _ _ _ Hwf) as (s1 & E1 & Hwf1 & _). rewrite E in E1.
    injection E1 as -> ->. exists l. split_and!; try done. simpl.
    by rewrite <- Permutation_middle.
  - destruct l as [|q l].
    { rewrite kalloc_nil in E by done. injection E as <-. by exists []. }
    destruct (kalloc_cons _ _ _ Hwf) as (s1 & E1 & _ & Hq & _). rewrite E in E1.
    injection E1 as <- _. unfold page in Hq. lia.
  - rewrite Hal in Hperm. destruct (kinv_split l0 (p :: al') l) as [Hd Hal']; try done.
    apply Forall_cons in Hal' as [Hpp _].
    destruct (kfree_ok s l p) as (s1 & E1 & Hwf1 & _); [done|done|set_solver|].
    rewrite E in E1. injection E1 as <-. exists (p :: l). split_and!; try done. simpl.
    by rewrite <- Hperm, <- Permutation_middle.
  - exists l. split_and!; try done. simpl.
    destruct (kinv_split l0 al l) as [Hd Hal]; try done. by eapply kwf_frame.
Qed.

(** C24: along every run of allocations, frees and client writes,
    the free list stays well formed and, together with the pages handed out, is
    exactly the set of pages the allocator was given: no page is lost, duplicated
    or allocated twice. *)
Theorem kalloc_partition s0 l0 s al :
  kwf s0 l0 -> rtc kstep (s0, []) (s, al) ->
  exists l, kwf s l /\ l ++ al ≡ₚ l0 /\ NoDup (l ++ al).
Proof.
  intros Hwf Hr.
  assert (Hi : kinv l0 (s, al)).
  { remember (s, al) as c eqn:Hc. clear Hc. remember (s0, []) as c0 eqn:Hc0.
    assert (H0 : kinv l0 c0).
    { subst. exists l0. simpl. rewrite app_nil_r. destruct (Hwf).
      eauto using kwf_page. }
    clear Hc0 Hwf. induction Hr; eauto using kstep_kinv. }
  destruct Hi as (l & ? & Hp & Hnd & _). exists l. split_and!; try done. by rewrite Hp.
Qed.

(** Freeing a page and allocating again returns that page, cleared
    to zero, and leaves the free list as it was. *)
Theorem kfree_kalloc s l p :
  kwf s l -> page p -> p ∉ l ->
  exists s', (kfree p ;;; kalloc) s = Ok (p, s') /\ kwf s' l /\
    zero_page (kmem s') p /\ only_pages [p] (kmem s) (kmem s').
Proof.
  intros Hwf Hp Hn. destruct (kfree_ok s l p) as (s1 & E1 & Hwf1 & Hm1); try done.
  rewrite (bind_ok _ _ _ _ _ E1).
  destruct (kalloc_cons s1 p l Hwf1) as (s2 & E2 & Hwf2 & _ & _ & Hz & Hm2).
  exists s2. split_and!; try done. by eapply only_pages_trans.
Qed.

Lemma kfree_kalloc_witness :
  exists s', (kfree 8192 ;;; kalloc) (mkkst ∅ 0) = Ok (8192, s') /\ zero_page (kmem s') 8192.
Proof.
  destruct (kfree_kalloc (mkkst ∅ 0) [] 8192) as (s' & E & _ & Hz & _).
  - split; [reflexivity|constructor].
  - unfold page. lia.
  - apply not_elem_of_nil.
  - exists s'. split; assumption.
Defined.

(** [kinit] puts exactly the 32256 whole pages of kernel virtual memory
    between [INIT_KERNTOP] and [PHYSTOP] on the free list, in front of what was
    there, and does not panic. *)
Theorem kinit_frees_all s l :
  kwf s l -> (forall q, q ∈ l -> q < P2V INIT_KERNTOP) ->
  exists s', kinit s = Ok (tt, s') /\
    kwf s' (rev (pages_from (P2V INIT_KERNTOP) (Z.to_nat 32256)) ++ l).
Proof.
  intros Hwf Hl. unfold kinit, freerange.
  change (PGROUNDUP (P2V INIT_KERNTOP)) with (P2V INIT_KERNTOP).
  change (P2V INIT_KERNTOP) with 18446744070490423296 in *.
  change (P2V PHYSTOP) with 18446744070622543872. unfold PGSIZE.
  set (fuel := S _). assert (Hf : Z.of_nat fuel = 32256 + 1) by (unfold fuel; lia).
  clearbody fuel.
  remember (Z.to_nat 32256) as n eqn:Hn. apply (f_equal Z.of_nat) in Hn.
  rewrite Z2Nat.id in Hn by lia.
  apply freerange_loop_ok; [exact Hwf|unfold page; lia|lia..|].
  intros q Hq. rewrite elem_of_pages_from. intros (k & Hk & ->). specialize (Hl _ Hq). lia.
Qed.

Lemma kinit_frees_all_witness :
  exists s', kinit (mkkst ∅ 0) = Ok (tt, s') /\
    kwf s' (rev (pages_from (P2V INIT_KERNTOP) (Z.to_nat 32256)) ++ []).
Proof.
  apply (kinit_frees_all (mkkst ∅ 0) []).
  - split; [reflexivity|constructor].
  - intros q Hq. by apply not_elem_of_nil in Hq.
Defined.

Lemma kalloc_partition_witness :
  exists s l, rtc kstep (mkkst ∅ 8192, []) (s, [8192]) /\
    kwf s l /\ l ++ [8192] ≡ₚ [8192].
Proof.
  assert (Hwf : kwf (mkkst ∅ 8192) [8192]).
  { split; [split_and!; [reflexivity|unfold page; lia|reflexivity]|].
    apply NoDup_singleton. }
  destruct (kalloc_cons _ _ _ Hwf) as (s' & E & _).
  assert (Hr : rtc kstep (mkkst ∅ 8192, []) (s', [8192])).
  { apply rtc_once. apply kstep_alloc; [exact E|lia]. }
  destruct (kalloc_partition _ _ _ _ Hwf Hr) as (l & H1 & H2 & _). eauto.
Defined.
