(* ===== verification/Vm.v ===== *)
(** kernel/vm.c: page tables and user address spaces, over the memory and the
    page allocator of [Kalloc].  A page table is a page of 512 64-bit words in
    that memory, so [walk], [mappages], [uvmunmap], ... read and write the
    entries through loads and stores, exactly as the source does.  A null
    pointer is 0.  Loops the source bounds by addresses take fuel computed from
    the bound. *)

From S2P Require Import Prelude Mem KString Mmu Kalloc.

Definition load64 (a : Z) : M kst Z := gets (fun s => ld64 (kmem s) a).
Definition store64 (a v : Z) : M kst unit :=
  modify (fun s => mkkst (st64 (kmem s) a v) (freelist s)).
Definition on_mem (f : mem -> mem) : M kst unit :=
  modify (fun s => mkkst (f (kmem s)) (freelist s)).

(** The entry of one upper level: follow it, or allocate the next table.  [zero]
    is the [memset] the second level adds. *)
Definition walk_level (entry : Z) (alloc zero : bool) : M kst Z :=
  e <- load64 entry ;;
  if negb (Z.land e (Z.lor ENTRY_VALID ENTRY_TABLE) =? 0)
  then ret (P2V (Z.land PG_ADDR_MASK e))
  else if negb alloc then ret 0
  else
    pagetable <- kalloc ;;
    if pagetable =? 0 then ret 0
    else
      (if zero then on_mem (fun m => memset m pagetable 0 PGSIZE) else ret tt) ;;;
      store64 entry (Z.lor (Z.lor (V2P pagetable) ENTRY_TABLE) ENTRY_VALID) ;;;
      ret pagetable.

Definition walk (pagetable va : Z) (alloc : bool) : M kst Z :=
  pagetable1 <- walk_level (pagetable + 8 * PGD_IDX va) alloc false ;;
  if pagetable1 =? 0 then ret 0
  else
    pagetable2 <- walk_level (pagetable1 + 8 * PMD_IDX va) alloc true ;;
    if pagetable2 =? 0 then ret 0
    else ret (pagetable2 + 8 * PTE_IDX va).

Definition walkaddr (pagetable va : Z) : M kst Z :=
  pte <- walk pagetable va false ;;
  if pte =? 0 then ret 0
  else
    e <- load64 pte ;;
    if Z.land e (Z.lor ENTRY_PAGE ENTRY_VALID) =? 0 then ret 0
    else ret (Z.land e PG_ADDR_MASK).

Definition leaf_entry (pa AP : Z) : Z :=
  Z.lor (Z.lor (Z.lor (Z.lor (Z.lor (Z.lor (Z.lor pa ACCESS_FLAG) SH_IN_SH) AP)
    ENTRY_NS) (MEM_ATTR_IDX 4)) ENTRY_PAGE) ENTRY_VALID.

Fixpoint mappages_loop (fuel : nat) (pagetable a last pa AP : Z) : M kst Z :=
  match fuel with
  | O => nofuel
  | S f =>
      pte <- walk pagetable a true ;;
      if pte =? 0 then ret (-1)
      else
        e <- load64 pte ;;
        if negb (Z.land e (Z.lor ENTRY_PAGE ENTRY_VALID) =? 0) then panic "remap"
        else
          store64 pte (leaf_entry pa AP) ;;;
          if a =? last then ret 0
          else mappages_loop f pagetable (u64 (a + PGSIZE)) last (u64 (pa + PGSIZE)) AP
  end.

Definition mappages (pagetable va size pa AP : Z) : M kst Z :=
  let a := PGROUNDDOWN va in
  let last := PGROUNDDOWN (u64 (va + size - 1)) in
  mappages_loop (S (Z.to_nat ((last - a) / PGSIZE))) pagetable a last pa AP.

Fixpoint uvmunmap_loop (fuel : nat) (pagetable a aend : Z) (do_free : bool) : M kst unit :=
  match fuel with
  | O => nofuel
  | S f =>
      if a <? aend then
        pte <- walk pagetable a false ;;
        if pte =? 0 then panic "uvmunmap: walk"
        else
          e <- load64 pte ;;
          if Z.land e ENTRY_VALID =? 0 then panic "uvmunmap: not mapped"
          else if Z.land e ENTRY_PAGE =? 0 then panic "uvmunmap: not a page"
          else
            (if do_free then kfree (P2V (Z.land e PG_ADDR_MASK)) else ret tt) ;;;
            store64 pte 0 ;;;
            uvmunmap_loop f pagetable (a + PGSIZE) aend do_free
      else ret tt
  end.

Definition uvmunmap (pagetable va npages : Z) (do_free : bool) : M kst unit :=
  if negb (va mod PGSIZE =? 0) then panic "uvmunmap: not aligned"
  else uvmunmap_loop (S (Z.to_nat npages)) pagetable va (u64 (va + npages * PGSIZE)) do_free.

Definition uvmcreate : M kst Z :=
  pagetable <- kalloc ;;
  if pagetable =? 0 then ret 0
  else on_mem (fun m => memset m pagetable 0 PGSIZE) ;;; ret pagetable.

Definition uvminit (pagetable src sz : Z) : M kst unit :=
  if PGSIZE <=? sz then panic "uvminit: more than a page"
  else
    mem <- kalloc ;;
    on_mem (fun m => memset m mem 0 PGSIZE) ;;;
    mappages pagetable 0 PGSIZE (V2P mem) AP_1 ;;;
    on_mem (fun m => memmove m mem src sz).

Definition uvmdealloc (pagetable oldsz newsz : Z) : M kst Z :=
  if oldsz <=? newsz then ret oldsz
  else
    (if PGROUNDUP newsz <? PGROUNDUP oldsz
     then
       let npages := s32 ((PGROUNDUP oldsz - PGROUNDUP newsz) / PGSIZE) in
       uvmunmap pagetable (PGROUNDUP newsz) (u64 npages) true
     else ret tt) ;;;
    ret newsz.

Fixpoint uvmalloc_loop (fuel : nat) (pagetable a oldsz newsz : Z) : M kst Z :=
  match fuel with
  | O => nofuel
  | S f =>
      if a <? newsz then
        mem <- kalloc ;;
        if mem =? 0 then uvmdealloc pagetable a oldsz ;;; ret 0
        else
          on_mem (fun m => memset m mem 0 PGSIZE) ;;;
          r <- mappages pagetable a PGSIZE (V2P mem) AP_1 ;;
          if negb (r =? 0) then
            kfree mem ;;;
            uvmdealloc pagetable a oldsz ;;;
            ret 0
          else uvmalloc_loop f pagetable (a + PGSIZE) oldsz newsz
      else ret newsz
  end.

Definition uvmalloc (pagetable oldsz newsz : Z) : M kst Z :=
  if newsz <? oldsz then ret oldsz
  else
    let oldsz := PGROUNDUP oldsz in
    uvmalloc_loop (S (Z.to_nat ((newsz - oldsz + PGSIZE - 1) / PGSIZE)))
      pagetable oldsz oldsz newsz.

(** The three nested loops of [freewalk], innermost first. *)
Fixpoint freewalk_ptes (n : nat) (ptetb k : Z) : M kst unit :=
  match n with
  | O => ret tt
  | S n' =>
      pte <- load64 (ptetb + 8 * k) ;;
      if negb (Z.land pte (Z.lor ENTRY_VALID ENTRY_PAGE) =? 0)
      then panic "freewalk: leaf"
      else freewalk_ptes n' ptetb (k + 1)
  end.

Fixpoint freewalk_pmds (n : nat) (pmdtb j : Z) : M kst unit :=
  match n with
  | O => ret tt
  | S n' =>
      pmd <- load64 (pmdtb + 8 * j) ;;
      (if negb (Z.land pmd ENTRY_VALID =? 0) && negb (Z.land pmd ENTRY_TABLE =? 0)
       then
         let ptetb := P2V (Z.land pmd PG_ADDR_MASK) in
         freewalk_ptes 512 ptetb 0 ;;; kfree ptetb
       else ret tt) ;;;
      freewalk_pmds n' pmdtb (j + 1)
  end.

Fixpoint freewalk_pgds (n : nat) (pagetable i : Z) : M kst unit :=
  match n with
  | O => ret tt
  | S n' =>
      pgd <- load64 (pagetable + 8 * i) ;;
      (if negb (Z.land pgd ENTRY_VALID =? 0) && negb (Z.land pgd ENTRY_TABLE =? 0)
       then
         let pmdtb := P2V (Z.land pgd PG_ADDR_MASK) in
         freewalk_pmds 512 pmdtb 0 ;;; kfree pmdtb
       else ret tt) ;;;
      freewalk_pgds n' pagetable (i + 1)
  end.

Definition freewalk (pagetable : Z) : M kst unit :=
  freewalk_pgds 4 pagetable 0 ;;; kfree pagetable.

Definition uvmfree (pagetable sz : Z) : M kst unit :=
  (if 0 <? sz then uvmunmap pagetable 0 (PGROUNDUP sz / PGSIZE) true else ret tt) ;;;
  freewalk pagetable.

(** [bad: uvmunmap(new, 0, i / PGSIZE, 1); return 0;] *)
Definition uvmcopy_bad (new i : Z) : M kst Z :=
  uvmunmap new 0 (i / PGSIZE) true ;;; ret 0.

Fixpoint uvmcopy_loop (fuel : nat) (old new i sz : Z) : M kst Z :=
  match fuel with
  | O => nofuel
  | S f =>
      if i <? sz then
        pte <- walk old i false ;;
        if pte =? 0 then panic "uvmcopy: pte should exist"
        else
          e <- load64 pte ;;
          if Z.land e ENTRY_VALID =? 0 then panic "uvmcopy: page not present"
          else
            let pa := Z.land e PG_ADDR_MASK in
            let flags := u32 (Z.land e (Z.shiftl 0x3 6)) in
            mem <- kalloc ;;
            if mem =? 0 then uvmcopy_bad new i
            else
              on_mem (fun m => memmove m mem (P2V pa) PGSIZE) ;;;
              r <- mappages new i PGSIZE (V2P mem) flags ;;
              if negb (r =? 0) then kfree mem ;;; uvmcopy_bad new i
              else uvmcopy_loop f old new (i + PGSIZE) sz
      else ret 0
  end.

Definition uvmcopy (old new sz : Z) : M kst Z :=
  uvmcopy_loop (S (Z.to_nat ((sz + PGSIZE - 1) / PGSIZE))) old new 0 sz.

Definition uvmclear (pagetable va : Z) : M kst unit :=
  pte <- walk pagetable va false ;;
  if pte =? 0 then panic "uvmclear"
  else
    e <- load64 pte ;;
    store64 pte (Z.land e (Z.lnot (Z.shiftl 0x03 6))).

Fixpoint copyout_loop (fuel : nat) (pagetable dstva src len : Z) : M kst Z :=
  match fuel with
  | O => nofuel
  | S f =>
      if 0 <? len then
        let va0 := PGROUNDDOWN dstva in
        pa0 <- walkaddr pagetable va0 ;;
        if pa0 =? 0 then ret (-1)
        else
          let n := Z.min (PGSIZE - (dstva - va0)) len in
          on_mem (fun m => memmove m (P2V (pa0 + (dstva - va0))) src n) ;;;
          copyout_loop f pagetable (u64 (va0 + PGSIZE)) (src + n) (len - n)
      else ret 0
  end.

(** Every iteration but the first and the last copies a whole page. *)
Definition copy_fuel (len : Z) : nat := S (S (Z.to_nat (len / PGSIZE + 1))).

Definition copyout (pagetable dstva src len : Z) : M kst Z :=
  copyout_loop (copy_fuel len) pagetable dstva src len.

Fixpoint copyin_loop (fuel : nat) (pagetable dst srcva len : Z) : M kst Z :=
  match fuel with
  | O => nofuel
  | S f =>
      if 0 <? len then
        let va0 := PGROUNDDOWN srcva in
        pa0 <- walkaddr pagetable va0 ;;
        if pa0 =? 0 then ret (-1)
        else
          let n := Z.min (PGSIZE - (srcva - va0)) len in
          on_mem (fun m => memmove m dst (P2V (pa0 + (srcva - va0))) n) ;;;
          copyin_loop f pagetable (dst + n) (u64 (va0 + PGSIZE)) (len - n)
      else ret 0
  end.

Definition copyin (pagetable dst srcva len : Z) : M kst Z :=
  copyin_loop (copy_fuel len) pagetable dst srcva len.

(** The inner loop of [copyinstr]: copy up to [n] bytes at [p] to [dst], stopping
    after a NUL; returns [got_null] and the number of bytes copied before it. *)
Fixpoint copyinstr_bytes (n : nat) (p dst : Z) : M kst (bool * Z) :=
  match n with
  | O => ret (false, 0)
  | S n' =>
      c <- gets (fun s => ldb (kmem s) p) ;;
      on_mem (fun m => stb m dst c) ;;;
      if c =? 0 then ret (true, 0)
      else r <- copyinstr_bytes n' (p + 1) (dst + 1) ;; ret (r.1, r.2 + 1)
  end.

Fixpoint copyinstr_loop (fuel : nat) (pagetable dst srcva max : Z) (got_null : bool)
    : M kst Z :=
  match fuel with
  | O => nofuel
  | S f =>
      if negb got_null && (0 <? max) then
        let va0 := PGROUNDDOWN srcva in
        pa0 <- walkaddr pagetable va0 ;;
        if pa0 =? 0 then ret (-1)
        else
          let n := Z.min (PGSIZE - (srcva - va0)) max in
          r <- copyinstr_bytes (Z.to_nat n) (P2V (pa0 + (srcva - va0))) dst ;;
          copyinstr_loop f pagetable (dst + r.2) (u64 (va0 + PGSIZE)) (max - r.2) r.1
      else ret (if got_null then 0 else -1)
  end.

Definition copyinstr (pagetable dst srcva max : Z) : M kst Z :=
  copyinstr_loop (copy_fuel max) pagetable dst srcva max false.
