(* ===== verification/VmTree.v ===== *)
(** The logical page table and its representation in memory: what [Vm]'s
    routines promise.  A page table is a three-level tree of table pages and a
    finite map from virtual page numbers to (frame, permission) pairs; [pt_mem]
    relates it to the words in memory, and [vinv] adds that free pages, table
    pages, user frames and everybody else's pages are pairwise disjoint. *)

From S2P Require Import Prelude Mem KString Mmu Kalloc Vm.

(** ** Values of a finite map as a list *)
Definition mvals {A} (f : A -> Z) (m : gmap Z A) : list Z :=
  (fun kv => f kv.2) <$> map_to_list m.

Lemma elem_of_mvals {A} (f : A -> Z) m x :
  x ∈ mvals f m <-> exists i y, m !! i = Some y /\ x = f y.
Proof.
  unfold mvals. rewrite list_elem_of_fmap. split.
  - intros ([i y] & -> & H). apply elem_of_map_to_list in H. eauto.
  - intros (i & y & H & ->). exists (i, y). by rewrite elem_of_map_to_list.
Qed.

Lemma mvals_insert {A} (f : A -> Z) m i y :
  m !! i = None -> mvals f (<[i:=y]> m) ≡ₚ f y :: mvals f m.
Proof. intros H. unfold mvals. by rewrite map_to_list_insert. Qed.

Lemma mvals_delete {A} (f : A -> Z) m i y :
  m !! i = Some y -> mvals f m ≡ₚ f y :: mvals f (delete i m).
Proof.
  intros H. rewrite <- (insert_delete_id m i y) at 1 by done.
  apply mvals_insert. apply lookup_delete_eq.
Qed.

(** ** Entries *)

(** Kernel pages: those whose physical address fits the low 4 GiB the kernel
    maps at [KERNBASE], physical page 0 excluded. *)
Definition kpage (p : Z) : Prop := page p /\ KERNBASE < p.

Definition leaf : Type := Z * Z.

Definition leaf_frame (x : leaf) : Z := P2V x.1.

(** A physical page address with one of the four access permissions. *)
Definition leaf_wf (x : leaf) : Prop :=
  kpage (P2V x.1) /\ 0 < x.1 < 2 ^ 32 /\ x.1 mod 4096 = 0 /\
  (x.2 = 0 \/ x.2 = 64 \/ x.2 = 128 \/ x.2 = 192).

Definition enc_tbl (o : option Z) : Z :=
  match o with Some p => V2P p + 3 | None => 0 end.

Definition enc_leaf (o : option leaf) : Z :=
  match o with Some (pa, ap) => pa + ap + 0x733 | None => 0 end.

Lemma V2P_kpage p : kpage p -> V2P p = p - KERNBASE /\ 0 < V2P p < 2 ^ 32 /\ V2P p mod 4096 = 0.
Proof.
  unfold kpage, page, V2P, KERNBASE. intros ((? & ? & ?) & ?).
  rewrite u64_small by lia. lia.
Qed.

Lemma P2V_V2P p : kpage p -> P2V (V2P p) = p.
Proof.
  intros H. destruct (V2P_kpage p H) as (-> & ? & ?). unfold P2V.
  destruct H as ((? & ? & ?) & ?). unfold KERNBASE in *. rewrite u64_small; lia.
Qed.

Lemma leaf_wf_V2P p ap :
  kpage p -> ap = 0 \/ ap = 64 \/ ap = 128 \/ ap = 192 -> leaf_wf (V2P p, ap).
Proof.
  intros Hp Hap. destruct (V2P_kpage p Hp) as (E & ? & ?).
  split_and!; simpl; try done; try lia. by rewrite P2V_V2P.
Qed.

Lemma table_entry_eq p :
  kpage p -> Z.lor (Z.lor (V2P p) ENTRY_TABLE) ENTRY_VALID = V2P p + 3.
Proof.
  intros H. destruct (V2P_kpage p H) as (_ & ? & ?). rewrite <- Z.lor_assoc.
  change (Z.lor ENTRY_TABLE ENTRY_VALID) with 3.
  apply (lor_disjoint_add _ _ 12); lia.
Qed.

Lemma leaf_entry_eq pa ap :
  leaf_wf (pa, ap) -> leaf_entry pa ap = pa + ap + 0x733.
Proof.
  intros (_ & ? & ? & Hap). simpl in *. unfold leaf_entry. rewrite <- !Z.lor_assoc.
  transitivity (Z.lor pa (ap + 0x733)).
  - f_equal. destruct Hap as [->|[->|[->| ->]]]; reflexivity.
  - rewrite (lor_disjoint_add _ _ 12) by lia. lia.
Qed.

(** Reading fields of a word [x + b] with [x] page-aligned and [b] below a page. *)
Lemma land_low x b k :
  x mod 4096 = 0 -> 0 <= b < 4096 -> 0 <= k < 4096 ->
  Z.land (x + b) k = Z.land b k.
Proof.
  intros Hx Hb Hk. rewrite <- (lor_disjoint_add x b 12) by lia.
  rewrite Z.land_lor_distr_l, (land_disjoint x k 12) by lia. apply Z.lor_0_l.
Qed.

Lemma land_mask x b :
  x mod 4096 = 0 -> 0 <= x < 2 ^ 48 -> 0 <= b < 4096 ->
  Z.land (x + b) PG_ADDR_MASK = x.
Proof.
  intros Hx Hr Hb.
  assert (E : PG_ADDR_MASK = Z.land (Z.ones 48) (Z.lnot (Z.ones 12))) by reflexivity.
  rewrite E, Z.land_assoc, Z.land_ones, land_lnot_ones by lia.
  rewrite Z.mod_small by lia. change (2 ^ 12) with 4096. lia.
Qed.

(** What the routines see in a table entry. *)
Lemma enc_tbl_some p :
  kpage p ->
  Z.land (enc_tbl (Some p)) (Z.lor ENTRY_VALID ENTRY_TABLE) <> 0 /\
  Z.land (enc_tbl (Some p)) ENTRY_VALID <> 0 /\
  Z.land (enc_tbl (Some p)) ENTRY_TABLE <> 0 /\
  P2V (Z.land PG_ADDR_MASK (enc_tbl (Some p))) = p /\
  P2V (Z.land (enc_tbl (Some p)) PG_ADDR_MASK) = p.
Proof.
  intros Hp. destruct (V2P_kpage p Hp) as (_ & ? & ?). simpl.
  rewrite (Z.land_comm PG_ADDR_MASK). rewrite !land_mask by lia.
  rewrite !land_low by (try done; vm_compute; split; congruence).
  rewrite P2V_V2P by done. split_and!; done.
Qed.

(** ... and in a leaf entry. *)
Lemma enc_leaf_some x :
  leaf_wf x ->
  Z.land (enc_leaf (Some x)) (Z.lor ENTRY_PAGE ENTRY_VALID) <> 0 /\
  Z.land (enc_leaf (Some x)) ENTRY_VALID <> 0 /\
  Z.land (enc_leaf (Some x)) ENTRY_PAGE <> 0 /\
  Z.land (enc_leaf (Some x)) PG_ADDR_MASK = x.1 /\
  Z.land (enc_leaf (Some x)) (Z.shiftl 0x3 6) = x.2 /\
  Z.land (enc_leaf (Some x)) (Z.lnot (Z.shiftl 0x03 6)) = enc_leaf (Some (x.1, 0)).
Proof.
  destruct x as [pa ap]. intros (_ & ? & ? & Hap). simpl in *.
  replace (pa + ap + 1843) with (pa + (ap + 1843)) by lia.
  rewrite land_mask by lia.
  rewrite !(land_low pa) by (try lia; vm_compute; split; congruence).
  assert (E : Z.land (pa + (ap + 1843)) (Z.lnot (Z.shiftl 3 6)) = pa + 0 + 1843).
  { rewrite <- (lor_disjoint_add pa (ap + 1843) 12) by lia.
    rewrite Z.land_lor_distr_l.
    assert (Z.land pa (Z.lnot (Z.shiftl 3 6)) = pa) as ->.
    { rewrite <- Z.ldiff_land. apply Z.bits_inj'. intros i Hi. rewrite Z.ldiff_spec.
      destruct (Z.lt_ge_cases i 12).
      - by rewrite (testbit_multiple pa 12 i) by lia.
      - change (Z.shiftl 3 6) with 192. rewrite (testbit_below 192 12 i) by lia.
        apply andb_true_r. }
    assert (Z.land (ap + 1843) (Z.lnot (Z.shiftl 3 6)) = 1843) as ->.
    { destruct Hap as [->|[->|[->| ->]]]; reflexivity. }
    rewrite (lor_disjoint_add pa 1843 12) by lia. lia. }
  rewrite E. split_and!; try done.
  all: destruct Hap as [->|[->|[->| ->]]]; vm_compute; congruence.
Qed.

(** ** The logical page table *)
Record ptree := mkptree {
  pt_root : Z;                 (* page of the PGD *)
  pt_pmd : gmap Z Z;           (* PGD slot -> page of a PMD *)
  pt_pte : gmap Z Z;           (* 512 * PGD slot + PMD slot -> page of PTEs *)
  pt_map : gmap Z leaf         (* virtual page number -> frame, permission *)
}.

(** The page number [walk] sees: 20 bits, so addresses are taken modulo 4 GiB. *)
Definition vpn (va : Z) : Z := (va / 4096) mod 2 ^ 20.

Lemma vpn_range va : 0 <= vpn va < 2 ^ 20.
Proof. apply Z.mod_pos_bound. lia. Qed.

Lemma PGD_IDX_vpn va : PGD_IDX va = vpn va / 512 / 512.
Proof. rewrite PGD_IDX_eq. unfold vpn. lia. Qed.

Lemma PMD_IDX_vpn va : PMD_IDX va = (vpn va / 512) mod 512.
Proof. rewrite PMD_IDX_eq. unfold vpn. lia. Qed.

Lemma PTE_IDX_vpn va : PTE_IDX va = vpn va mod 512.
Proof. rewrite PTE_IDX_eq. unfold vpn. lia. Qed.

Definition pt_wf (t : ptree) : Prop :=
  kpage (pt_root t) /\
  (forall i p, pt_pmd t !! i = Some p -> 0 <= i < 4 /\ kpage p) /\
  (forall k q, pt_pte t !! k = Some q ->
     0 <= k < 2048 /\ kpage q /\ is_Some (pt_pmd t !! (k / 512))) /\
  (forall v x, pt_map t !! v = Some x ->
     0 <= v < 2 ^ 20 /\ leaf_wf x /\ is_Some (pt_pte t !! (v / 512))).

Definition pt_mem (m : mem) (t : ptree) : Prop :=
  (forall i, 0 <= i < 4 -> ld64 m (pt_root t + 8 * i) = enc_tbl (pt_pmd t !! i)) /\
  (forall i p j, pt_pmd t !! i = Some p -> 0 <= j < 512 ->
     ld64 m (p + 8 * j) = enc_tbl (pt_pte t !! (i * 512 + j))) /\
  (forall k q l, pt_pte t !! k = Some q -> 0 <= l < 512 ->
     ld64 m (q + 8 * l) = enc_leaf (pt_map t !! (k * 512 + l))).

Definition pmds (t : ptree) : list Z := mvals id (pt_pmd t).
Definition ptes (t : ptree) : list Z := mvals id (pt_pte t).
Definition tables (t : ptree) : list Z := pt_root t :: pmds t ++ ptes t.
Definition frames (t : ptree) : list Z := mvals leaf_frame (pt_map t).

(** Free pages [l], the tree's pages and the pages [R] of everybody else. *)
Definition vinv (s : kst) (l : list Z) (t : ptree) (R : list Z) : Prop :=
  kwf s l /\ Forall kpage l /\ pt_wf t /\ pt_mem (kmem s) t /\ Forall page R /\
  NoDup (l ++ tables t ++ frames t ++ R).

Lemma kpage_page l : Forall kpage l -> Forall page l.
Proof. intros H. eapply Forall_impl; [done|]. by intros p []. Qed.

Lemma tables_kpage t : pt_wf t -> Forall kpage (tables t).
Proof.
  intros (Hr & Hi & Hk & _). constructor; [done|]. apply Forall_app. split.
  - apply Forall_forall. intros x Hx. apply elem_of_mvals in Hx as (i & y & H & ->).
    by apply Hi in H as [].
  - apply Forall_forall. intros x Hx. apply elem_of_mvals in Hx as (i & y & H & ->).
    by apply Hk in H as (_ & ? & _).
Qed.

Lemma frames_kpage t : pt_wf t -> Forall kpage (frames t).
Proof.
  intros (_ & _ & _ & Hm). apply Forall_forall. intros x Hx.
  apply elem_of_mvals in Hx as (i & y & H & ->). apply Hm in H as (_ & [? _] & _). done.
Qed.

Lemma root_in_tables t : pt_root t ∈ tables t.
Proof. apply elem_of_cons. by left. Qed.

Lemma pmd_in_tables t i p : pt_pmd t !! i = Some p -> p ∈ tables t.
Proof.
  intros H. apply elem_of_cons. right. apply elem_of_app. left.
  apply elem_of_mvals. eauto.
Qed.

Lemma pte_in_tables t k q : pt_pte t !! k = Some q -> q ∈ tables t.
Proof.
  intros H. apply elem_of_cons. right. apply elem_of_app. right.
  apply elem_of_mvals. eauto.
Qed.

Lemma frame_in_frames t v x : pt_map t !! v = Some x -> leaf_frame x ∈ frames t.
Proof. intros H. apply elem_of_mvals. eauto. Qed.

#[export] Hint Resolve root_in_tables pmd_in_tables pte_in_tables frame_in_frames
  tables_kpage frames_kpage kpage_page kwf_page : xv6.

(** Changing pages outside the tables keeps the representation. *)
Lemma pt_mem_frame ps m m' t :
  pt_wf t -> only_pages ps m m' -> Forall page ps -> tables t ## ps ->
  pt_mem m t -> pt_mem m' t.
Proof.
  intros Hwf Hm Hps Hd (H1 & H2 & H3).
  pose proof (tables_kpage t Hwf) as Hk. rewrite Forall_forall in Hk.
  assert (Hld : forall p j, p ∈ tables t -> 0 <= j < 512 ->
    ld64 m' (p + 8 * j) = ld64 m (p + 8 * j)).
  { intros p j Hp Hj. apply (only_pages_ld64 ps); [done|done|by apply Hk| |done].
    intros Hin. by apply (Hd p). }
  split_and!; intros; rewrite Hld by (eauto with xv6; lia); eauto.
Qed.

Lemma NoDup_app_disj {A} (l1 l2 : list A) : NoDup (l1 ++ l2) -> l1 ## l2.
Proof. intros (_ & H & _)%NoDup_app x Hx. by apply H. Qed.

Lemma disj_cons_singleton (x p : Z) (l T : list Z) : (x :: l) ## T -> p ∈ T -> l ## [p].
Proof. set_solver. Qed.

Lemma disj_singleton (p : Z) (l T : list Z) : l ## T -> p ∈ T -> l ## [p].
Proof. set_solver. Qed.

Lemma vinv_disj s l t R :
  vinv s l t R ->
  l ## tables t /\ l ## frames t /\ l ## R /\ tables t ## frames t /\
  tables t ## R /\ frames t ## R.
Proof.
  intros (_ & _ & _ & _ & _ & Hnd).
  pose proof (NoDup_app_disj _ _ Hnd) as H1.
  apply NoDup_app in Hnd as (_ & _ & Hnd).
  pose proof (NoDup_app_disj _ _ Hnd) as H2.
  apply NoDup_app in Hnd as (_ & _ & Hnd).
  pose proof (NoDup_app_disj _ _ Hnd) as H3. set_solver.
Qed.

Lemma mvals_inj {A} (f : A -> Z) (m : gmap Z A) i j x y :
  NoDup (mvals f m) -> m !! i = Some x -> m !! j = Some y -> f x = f y -> i = j.
Proof.
  intros Hnd Hi Hj Hf. destruct (decide (i = j)) as [|Hne]; [done|].
  rewrite (mvals_delete f m i x Hi) in Hnd. apply NoDup_cons in Hnd as [Hnin _].
  destruct Hnin. rewrite Hf. apply elem_of_mvals. exists j, y.
  by rewrite lookup_delete_ne.
Qed.

(** The table pages are pairwise different. *)
Lemma tables_sep t :
  NoDup (tables t) ->
  (forall i p, pt_pmd t !! i = Some p -> p <> pt_root t) /\
  (forall k q, pt_pte t !! k = Some q -> q <> pt_root t) /\
  (forall i p k q, pt_pmd t !! i = Some p -> pt_pte t !! k = Some q -> p <> q) /\
  (forall i j p, pt_pmd t !! i = Some p -> pt_pmd t !! j = Some p -> i = j) /\
  (forall i j q, pt_pte t !! i = Some q -> pt_pte t !! j = Some q -> i = j).
Proof.
  intros (Hr & Hnd)%NoDup_cons. pose proof (NoDup_app_disj _ _ Hnd) as Hd.
  apply NoDup_app in Hnd as (Hnp & _ & Hnq). split_and!.
  - intros i p Hp ->. apply Hr, elem_of_app. left. apply elem_of_mvals. eauto.
  - intros i p Hp ->. apply Hr, elem_of_app. right. apply elem_of_mvals. eauto.
  - intros i p k q Hp Hq ->. apply (Hd q); apply elem_of_mvals; eauto.
  - intros i j p H1 H2. by apply (mvals_inj id (pt_pmd t) i j p p).
  - intros i j p H1 H2. by apply (mvals_inj id (pt_pte t) i j p p).
Qed.

Lemma vinv_NoDup_tables s l t R : vinv s l t R -> NoDup (tables t).
Proof.
  intros (_ & _ & _ & _ & _ & Hnd). apply NoDup_app in Hnd as (_ & _ & Hnd).
  by apply NoDup_app in Hnd as (Hnd & _).
Qed.

(** ** walk *)

Lemma walk_level_some entry alloc zero s p :
  kpage p -> ld64 (kmem s) entry = enc_tbl (Some p) ->
  walk_level entry alloc zero s = Ok (p, s).
Proof.
  intros Hp E. destruct (enc_tbl_some p Hp) as (H1 & _ & _ & H2 & _).
  unfold walk_level, bind, load64, gets. rewrite E.
  rewrite (proj2 (Z.eqb_neq _ _) H1). simpl negb. cbv iota. by rewrite H2.
Qed.

Lemma walk_level_none entry zero s :
  ld64 (kmem s) entry = 0 -> walk_level entry false zero s = Ok (0, s).
Proof. intros E. unfold walk_level, bind, load64, gets. by rewrite E. Qed.

Lemma walk_level_nomem entry zero s :
  ld64 (kmem s) entry = 0 -> kwf s [] -> walk_level entry true zero s = Ok (0, s).
Proof.
  intros E Hwf. unfold walk_level, bind, load64, gets. rewrite E. simpl.
  by rewrite (kalloc_nil s Hwf).
Qed.

(** A new table is entered: its page is cleared and the entry points to it. *)
Lemma walk_level_alloc entry zero s p l :
  ld64 (kmem s) entry = 0 -> kwf s (p :: l) -> kpage p ->
  exists m1 h, walk_level entry true zero s = Ok (p, mkkst (st64 m1 entry (V2P p + 3)) h) /\
    kwf (mkkst m1 h) l /\ zero_page m1 p /\ only_pages [p] (kmem s) m1.
Proof.
  intros E Hwf Hp. destruct (kalloc_cons s p l Hwf) as (s1 & E1 & Hwf1 & _ & Hn & Hz & Hm).
  unfold walk_level, bind, load64, gets. rewrite E. simpl. rewrite E1.
  rewrite (proj2 (Z.eqb_neq p 0)) by (destruct Hp as [[] _]; lia).
  rewrite table_entry_eq by done.
  destruct zero; simpl; do 2 eexists; (split; [reflexivity|]); simpl.
  - change PGSIZE with 4096. split_and!.
    + apply (kwf_frame s1 _ l [p]); [done|apply only_pages_memset| |set_solver].
      apply Forall_singleton, Hp.
    + apply zero_page_memset.
    + eapply only_pages_trans; [done|apply only_pages_memset].
  - destruct s1. split_and!; done.
Qed.

(** The tree with a new, empty table. *)
Definition add_pmd (t : ptree) (i p : Z) : ptree :=
  mkptree (pt_root t) (<[i := p]> (pt_pmd t)) (pt_pte t) (pt_map t).
Definition add_pte (t : ptree) (k q : Z) : ptree :=
  mkptree (pt_root t) (pt_pmd t) (<[k := q]> (pt_pte t)) (pt_map t).
Definition set_map (t : ptree) (mp : gmap Z leaf) : ptree :=
  mkptree (pt_root t) (pt_pmd t) (pt_pte t) mp.

Lemma tables_add_pmd t i p :
  pt_pmd t !! i = None -> tables (add_pmd t i p) ≡ₚ p :: tables t.
Proof.
  intros H. unfold tables, pmds, add_pmd. simpl. rewrite mvals_insert by done.
  unfold id. simpl. apply Permutation_swap.
Qed.

Lemma tables_add_pte t k q :
  pt_pte t !! k = None -> tables (add_pte t k q) ≡ₚ q :: tables t.
Proof.
  intros H. unfold tables, ptes, add_pte. simpl. rewrite mvals_insert by done.
  rewrite <- Permutation_middle. apply Permutation_swap.
Qed.

(** A word of page [p] after the new table [n] was cleared and one word of page
    [e] was stored. *)
Lemma ld64_after_alloc m m1 n e i v p j :
  only_pages [n] m m1 -> page n -> page e -> page p -> p <> n ->
  0 <= i < 512 -> 0 <= j < 512 -> (p <> e \/ j <> i) ->
  ld64 (st64 m1 (e + 8 * i) v) (p + 8 * j) = ld64 m (p + 8 * j).
Proof.
  intros Hm Hn He Hp Hpn Hi Hj Hne.
  rewrite <- (only_pages_ld64 [n] m m1 p j) by (done || (apply Forall_singleton; done) || set_solver).
  apply ld64_st64_disj. destruct (decide (p = e)) as [->|Hpe]; [lia|].
  unfold page in *. lia.
Qed.

Lemma ld64_new_page m1 n e i v j :
  zero_page m1 n -> page n -> page e -> n <> e -> 0 <= i < 512 -> 0 <= j < 512 ->
  ld64 (st64 m1 (e + 8 * i) v) (n + 8 * j) = 0.
Proof.
  intros Hz Hn He Hne Hi Hj. rewrite ld64_st64_disj; [by apply zero_page_ld64|].
  unfold page in *. lia.
Qed.

Lemma only_pages_alloc m m1 n e i v :
  only_pages [n] m m1 -> 0 <= i < 512 ->
  only_pages [n; e] m (st64 m1 (e + 8 * i) v).
Proof.
  intros Hm Hi. eapply only_pages_trans.
  - eapply only_pages_mono; [|exact Hm]. set_solver.
  - eapply only_pages_mono; [|by apply only_pages_st64]. set_solver.
Qed.

Lemma u64_entry p : kpage p -> u64 (V2P p + 3) = V2P p + 3.
Proof. intros H. destruct (V2P_kpage p H) as (_ & ? & _). apply u64_small. lia. Qed.

Lemma vinv_cons_new s p l t R :
  vinv s (p :: l) t R -> kpage p /\ p ∉ l /\ p ∉ tables t /\ p ∉ frames t /\ p ∉ R.
Proof.
  intros H. destruct (vinv_disj _ _ _ _ H) as (H1 & H2 & H3 & _).
  destruct H as ([_ Hnd] & Hk & _). apply NoDup_cons in Hnd as [? _].
  apply Forall_cons in Hk as [? _]. set_solver.
Qed.

Lemma walk_pgd_alloc s p l t R i :
  vinv s (p :: l) t R -> 0 <= i < 4 -> pt_pmd t !! i = None ->
  exists s', walk_level (pt_root t + 8 * i) true false s = Ok (p, s') /\
    vinv s' l (add_pmd t i p) R /\ only_pages [p; pt_root t] (kmem s) (kmem s').
Proof.
  intros Hv Hi Hnone. destruct (vinv_cons_new _ _ _ _ _ Hv) as (Hp & Hnl & Hnt & _).
  destruct (vinv_disj _ _ _ _ Hv) as (Hlt & _).
  destruct (tables_sep t) as (Hpr & Hqr & _); [by eapply vinv_NoDup_tables|].
  destruct Hv as (Hwf & Hkl & (Hr & Hpm & Hpt & Hmp) & (M1 & M2 & M3) & HR & Hnd).
  assert (Hrp : page (pt_root t)) by apply Hr. assert (Hpp : page p) by apply Hp.
  assert (Hne : pt_root t <> p) by (intros <-; apply Hnt, root_in_tables).
  destruct (walk_level_alloc (pt_root t + 8 * i) false s p l) as (m1 & h & E & Hwf1 & Hz & Hm1).
  { by rewrite M1, Hnone. } 1-2: done.
  eexists. split; [exact E|]. split; [|simpl; apply only_pages_alloc; [done|lia]].
  assert (Hother : forall q j, q ∈ tables t -> q <> pt_root t -> 0 <= j < 512 ->
    kpage q -> ld64 (st64 m1 (pt_root t + 8 * i) (V2P p + 3)) (q + 8 * j)
               = ld64 (kmem s) (q + 8 * j)).
  { intros q j Hq Hqne Hj Hkq. apply (ld64_after_alloc _ _ p); auto; try lia.
    - apply Hkq.
    - intros ->. done. }
  assert (Hnd' : NoDup (l ++ tables (add_pmd t i p) ++ frames t ++ R)).
  { rewrite tables_add_pmd by done. simpl. rewrite <- Permutation_middle. done. }
  apply Forall_cons in Hkl as [_ Hkl].
  split_and!; simpl; try done.
  - apply (kwf_frame (mkkst m1 h) _ l [pt_root t]); [done| | |].
    + apply only_pages_st64. lia.
    + by apply Forall_singleton.
    + eapply disj_cons_singleton; [done|apply root_in_tables].
  - split_and!; simpl; [done| | |done].
    + intros i' q [[<- <-]|[? Hq]]%lookup_insert_Some; [done|by apply Hpm].
    + intros k q Hk. destruct (Hpt k q Hk) as (? & ? & ?). split; [done|split; [done|]].
      apply lookup_insert_is_Some. destruct (decide (i = k / 512)); auto.
  - split_and!; simpl.
    + intros i' Hi'. destruct (decide (i' = i)) as [->|Hii].
      * rewrite lookup_insert_eq, ld64_st64_same. by apply u64_entry.
      * rewrite lookup_insert_ne by done. rewrite <- M1 by done.
        apply (ld64_after_alloc _ _ p); auto; lia.
    + intros i' q j [[<- <-]|[Hii Hq]]%lookup_insert_Some Hj.
      * rewrite ld64_new_page by (done || lia).
        destruct (pt_pte t !! (i * 512 + j)) as [q|] eqn:Eq; [|done].
        apply Hpt in Eq as (_ & _ & Hs).
        replace ((i * 512 + j) / 512) with i in Hs by lia. rewrite Hnone in Hs.
        by apply is_Some_None in Hs.
      * rewrite Hother by (eauto with xv6; apply Hpm in Hq; naive_solver). by apply M2.
    + intros k q j Hq Hj. rewrite Hother by (eauto with xv6; apply Hpt in Hq; naive_solver).
      by apply M3.
Qed.

Lemma walk_pmd_alloc s q l t R i p j :
  vinv s (q :: l) t R -> pt_pmd t !! i = Some p -> 0 <= j < 512 ->
  pt_pte t !! (i * 512 + j) = None ->
  exists s', walk_level (p + 8 * j) true true s = Ok (q, s') /\
    vinv s' l (add_pte t (i * 512 + j) q) R /\ only_pages [q; p] (kmem s) (kmem s').
Proof.
  intros Hv Hip Hj Hnone. destruct (vinv_cons_new _ _ _ _ _ Hv) as (Hq & Hnl & Hnt & _).
  destruct (vinv_disj _ _ _ _ Hv) as (Hlt & _).
  destruct (tables_sep t) as (Hpr & Hqr & Hpq & Hpinj & _); [by eapply vinv_NoDup_tables|].
  destruct Hv as (Hwf & Hkl & (Hr & Hpm & Hpt & Hmp) & (M1 & M2 & M3) & HR & Hnd).
  destruct (Hpm i p Hip) as [Hi Hp]. assert (Hpp : page p) by apply Hp.
  assert (Hqp : page q) by apply Hq.
  assert (Hne : p <> q) by (intros <-; eapply Hnt, pmd_in_tables; eauto).
  destruct (walk_level_alloc (p + 8 * j) true s q l) as (m1 & h & E & Hwf1 & Hz & Hm1).
  { by rewrite (M2 i p j), Hnone by done. } 1-2: done.
  eexists. split; [exact E|]. split; [|simpl; apply only_pages_alloc; [done|lia]].
  assert (Hother : forall x k, x ∈ tables t -> (x <> p \/ k <> j) -> 0 <= k < 512 ->
    kpage x -> ld64 (st64 m1 (p + 8 * j) (V2P q + 3)) (x + 8 * k)
               = ld64 (kmem s) (x + 8 * k)).
  { intros x k Hx Hxp Hk Hkx. apply (ld64_after_alloc _ _ q); auto; try lia.
    - apply Hkx.
    - intros ->. done. }
  assert (Hnd' : NoDup (l ++ tables (add_pte t (i * 512 + j) q) ++ frames t ++ R)).
  { rewrite tables_add_pte by done. simpl. rewrite <- Permutation_middle. done. }
  apply Forall_cons in Hkl as [_ Hkl].
  split_and!; simpl; try done.
  - apply (kwf_frame (mkkst m1 h) _ l [p]); [done| | |].
    + apply only_pages_st64. lia.
    + by apply Forall_singleton.
    + eapply disj_cons_singleton; [done|by eapply pmd_in_tables].
  - split_and!; simpl; [done|done| |].
    + intros k x [[<- <-]|[? Hk]]%lookup_insert_Some; [|by apply Hpt].
      split; [lia|split; [done|]]. replace ((i * 512 + j) / 512) with i by lia. eauto.
    + intros v x Hx. destruct (Hmp v x Hx) as (? & ? & ?). split; [done|split; [done|]].
      apply lookup_insert_is_Some. destruct (decide (i * 512 + j = v / 512)); auto.
  - split_and!; simpl.
    + intros i' Hi'. rewrite <- M1 by done. apply Hother; [apply root_in_tables| |lia|done].
      left. intros <-. by apply (Hpr i (pt_root t)).
    + intros i' x k Hx Hk. destruct (decide (i' = i /\ k = j)) as [[-> ->]|Hneq].
      * rewrite Hip in Hx. injection Hx as <-. rewrite lookup_insert_eq, ld64_st64_same.
        by apply u64_entry.
      * rewrite lookup_insert_ne by lia. rewrite <- (M2 i' x k) by done.
        apply Hother; [by eapply pmd_in_tables| |done|by apply (Hpm i' x)].
        destruct (decide (x = p)) as [->|]; [|by left]. right.
        rewrite (Hpinj i' i p) in Hneq by done. naive_solver.
    + intros k x l' [[<- <-]|[Hkk Hx]]%lookup_insert_Some Hl'.
      * rewrite ld64_new_page by (done || lia).
        destruct (pt_map t !! ((i * 512 + j) * 512 + l')) as [y|] eqn:Ey; [|done].
        apply Hmp in Ey as (_ & _ & Hs).
        replace (((i * 512 + j) * 512 + l') / 512) with (i * 512 + j) in Hs by lia.
        rewrite Hnone in Hs. by apply is_Some_None in Hs.
      * rewrite Hother; [by apply M3|by eapply pte_in_tables| |done|by apply Hpt in Hx as (_ & ? & _)].
        left. intros <-. by apply (Hpq i x k x).
Qed.

(** The address of the leaf entry of [va], 0 when its table is missing. *)
Definition pte_addr (t : ptree) (va : Z) : Z :=
  match pt_pte t !! (vpn va / 512) with
  | Some q => q + 8 * (vpn va mod 512)
  | None => 0
  end.

Lemma kpage_nonzero p : kpage p -> p <> 0.
Proof. intros [[] _]. lia. Qed.

Lemma kpage_eqb p : kpage p -> (p =? 0) = false.
Proof. intros H. by apply Z.eqb_neq, kpage_nonzero. Qed.

Lemma vpn_split va :
  vpn va / 512 = (vpn va / 512 / 512) * 512 + (vpn va / 512) mod 512 /\
  0 <= vpn va / 512 / 512 < 4 /\ 0 <= (vpn va / 512) mod 512 < 512 /\
  0 <= vpn va mod 512 < 512.
Proof. pose proof (vpn_range va). lia. Qed.

(** Without [alloc], and with it when the tables exist, [walk] only looks. *)
Lemma walk_present s t va alloc q :
  pt_wf t -> pt_mem (kmem s) t -> pt_pte t !! (vpn va / 512) = Some q ->
  walk (pt_root t) va alloc s = Ok (pte_addr t va, s).
Proof.
  intros (Hr & Hpm & Hpt & _) (M1 & M2 & _) Hq. unfold walk, pte_addr. rewrite Hq.
  rewrite PGD_IDX_vpn, PMD_IDX_vpn, PTE_IDX_vpn.
  destruct (vpn_split va) as (E & ? & ? & ?).
  destruct (Hpt _ _ Hq) as (_ & Hkq & [p Hp]). destruct (Hpm _ _ Hp) as [_ Hkp].
  erewrite bind_ok by (apply (walk_level_some _ alloc false s p Hkp); by rewrite M1, Hp).
  rewrite (kpage_eqb p Hkp).
  erewrite bind_ok by (apply (walk_level_some _ alloc true s q Hkq); by rewrite (M2 _ _ _ Hp), <- E, Hq).
  by rewrite (kpage_eqb q Hkq).
Qed.

Lemma walk_absent s t va :
  pt_wf t -> pt_mem (kmem s) t -> pt_pte t !! (vpn va / 512) = None ->
  walk (pt_root t) va false s = Ok (0, s).
Proof.
  intros (Hr & Hpm & Hpt & _) (M1 & M2 & _) Hq. unfold walk.
  rewrite PGD_IDX_vpn, PMD_IDX_vpn.
  destruct (vpn_split va) as (E & ? & ? & ?).
  destruct (pt_pmd t !! (vpn va / 512 / 512)) as [p|] eqn:Hp.
  - destruct (Hpm _ _ Hp) as [_ Hkp].
    erewrite bind_ok by (apply (walk_level_some _ false false s p Hkp); by rewrite M1, Hp).
    rewrite (kpage_eqb p Hkp).
    erewrite bind_ok by (apply (walk_level_none _ true s); by rewrite (M2 _ _ _ Hp), <- E, Hq). done.
  - erewrite bind_ok by (apply (walk_level_none _ false s); by rewrite M1, Hp).
    done.
Qed.

Lemma walk_lookup s t va :
  pt_wf t -> pt_mem (kmem s) t -> walk (pt_root t) va false s = Ok (pte_addr t va, s).
Proof.
  intros Hwf Hm. destruct (pt_pte t !! (vpn va / 512)) as [q|] eqn:E.
  - by eapply walk_present.
  - rewrite walk_absent by done. unfold pte_addr. by rewrite E.
Qed.

(** What an allocating [walk] may change: free pages become (empty) tables. *)
Definition grown (k : nat) (s : kst) (l : list Z) (t : ptree) (s' : kst) (l' : list Z) (t' : ptree)
    : Prop :=
  pt_root t' = pt_root t /\ pt_map t' = pt_map t /\
  l ++ tables t ≡ₚ l' ++ tables t' /\ (length l <= length l' + k)%nat /\
  only_pages (l ++ tables t) (kmem s) (kmem s').

Lemma grown_refl k s l t : grown k s l t s l t.
Proof. split_and!; eauto with xv6. lia. Qed.

Lemma grown_trans i j s l t s1 l1 t1 s2 l2 t2 :
  grown i s l t s1 l1 t1 -> grown j s1 l1 t1 s2 l2 t2 -> grown (i + j) s l t s2 l2 t2.
Proof.
  intros (H1 & H2 & H3 & Hi & H4) (H5 & H6 & H7 & Hj & H8). split_and!; [congruence..| |lia|].
  - by rewrite H3.
  - eapply only_pages_trans; [done|]. eapply only_pages_mono; [|done].
    intros x. by rewrite H3.
Qed.

Lemma grown_weaken i j s l t s' l' t' :
  (i <= j)%nat -> grown i s l t s' l' t' -> grown j s l t s' l' t'.
Proof. intros Hij (? & ? & ? & ? & ?). split_and!; try done. lia. Qed.

Lemma walk_first_level s l t R va :
  vinv s l t R ->
  exists r s' l' t', walk_level (pt_root t + 8 * PGD_IDX va) true false s = Ok (r, s') /\
    vinv s' l' t' R /\ grown 1 s l t s' l' t' /\
    ((r = 0 /\ l' = []) \/
     (kpage r /\ pt_pmd t' !! (vpn va / 512 / 512) = Some r /\ pt_pte t' = pt_pte t)).
Proof.
  intros Hv. rewrite PGD_IDX_vpn. destruct (vpn_split va) as (E & ? & ? & ?).
  pose proof Hv as (Hwf & _ & (_ & Hpm & _) & (M1 & _) & _).
  destruct (pt_pmd t !! (vpn va / 512 / 512)) as [p|] eqn:Hp.
  - destruct (Hpm _ _ Hp) as [_ Hkp]. exists p, s, l, t. split_and!; auto using grown_refl.
    apply walk_level_some; [done|]. by rewrite M1, Hp.
  - destruct l as [|p l].
    + exists 0, s, [], t. split_and!; auto using grown_refl.
      apply walk_level_nomem; [|done]. by rewrite M1, Hp.
    + destruct (walk_pgd_alloc s p l t R (vpn va / 512 / 512)) as (s' & E' & Hv' & Hm'); [done..|].
      exists p, s', l, (add_pmd t (vpn va / 512 / 512) p).
      destruct (vinv_cons_new _ _ _ _ _ Hv) as (Hkp & _).
      split_and!; try done.
      * split_and!; try done.
        -- rewrite tables_add_pmd by done. simpl. by rewrite Permutation_middle.
        -- simpl. lia.
        -- eapply only_pages_mono; [|done]. clear. unfold tables. set_solver.
      * right. split_and!; [apply Hkp..| |done]. apply lookup_insert_eq.
Qed.

Lemma walk_second_level s l t R va p :
  vinv s l t R -> pt_pmd t !! (vpn va / 512 / 512) = Some p ->
  exists r s' l' t', walk_level (p + 8 * PMD_IDX va) true true s = Ok (r, s') /\
    vinv s' l' t' R /\ grown 1 s l t s' l' t' /\
    ((r = 0 /\ l' = []) \/ (kpage r /\ pt_pte t' !! (vpn va / 512) = Some r)).
Proof.
  intros Hv Hp. rewrite PMD_IDX_vpn. destruct (vpn_split va) as (E & ? & ? & ?).
  pose proof Hv as (Hwf & _ & (_ & Hpm & Hpt & _) & (_ & M2 & _) & _).
  destruct (Hpm _ _ Hp) as [_ Hkp].
  destruct (pt_pte t !! (vpn va / 512)) as [q|] eqn:Hq.
  - destruct (Hpt _ _ Hq) as (_ & Hkq & _). exists q, s, l, t.
    split_and!; auto using grown_refl.
    apply walk_level_some; [done|]. by rewrite (M2 _ _ _ Hp), <- E, Hq.
  - destruct l as [|q l].
    + exists 0, s, [], t. split_and!; auto using grown_refl.
      apply walk_level_nomem; [|done]. by rewrite (M2 _ _ _ Hp), <- E, Hq.
    + destruct (walk_pmd_alloc s q l t R _ p ((vpn va / 512) mod 512) Hv Hp)
        as (s' & E' & Hv' & Hm'); [done|by rewrite <- E|].
      rewrite <- E in Hv'.
      exists q, s', l, (add_pte t (vpn va / 512) q).
      destruct (vinv_cons_new _ _ _ _ _ Hv) as (Hkq & _).
      split_and!; try done.
      * split_and!; try done.
        -- rewrite tables_add_pte by done. simpl. by rewrite Permutation_middle.
        -- simpl. lia.
        -- eapply only_pages_mono; [|done]. pose proof (pmd_in_tables _ _ _ Hp) as Hin.
           clear -Hin. set_solver.
      * right. split; [apply Hkq|]. apply lookup_insert_eq.
Qed.

(** With [alloc], [walk] finds the entry or runs out of memory; either way the
    mappings are untouched and every page it took became a table. *)
Lemma walk_alloc_ok s l t R va :
  vinv s l t R ->
  exists r s' l' t', walk (pt_root t) va true s = Ok (r, s') /\
    vinv s' l' t' R /\ grown 2 s l t s' l' t' /\
    ((r = 0 /\ l' = []) \/
     (exists q, pt_pte t' !! (vpn va / 512) = Some q /\ r = pte_addr t' va /\ r <> 0)).
Proof.
  intros Hv. destruct (walk_first_level s l t R va Hv) as (p & s1 & l1 & t1 & E1 & Hv1 & G1 & H1).
  unfold walk. rewrite (bind_ok _ _ _ _ _ E1).
  destruct H1 as [[-> ->]|(Hkp & Hp & _)].
  { exists 0, s1, [], t1. split_and!; auto. eapply grown_weaken; [|exact G1]. lia. }
  rewrite (kpage_eqb p Hkp).
  destruct (walk_second_level s1 l1 t1 R va p Hv1 Hp) as (q & s2 & l2 & t2 & E2 & Hv2 & G2 & H2).
  rewrite (bind_ok _ _ _ _ _ E2).
  destruct H2 as [[-> ->]|(Hkq & Hq)].
  { exists 0, s2, [], t2. split_and!; auto. exact (grown_trans 1 1 _ _ _ _ _ _ _ _ _ G1 G2). }
  rewrite (kpage_eqb q Hkq). rewrite PTE_IDX_vpn.
  eexists _, s2, l2, t2. split; [done|]. split; [done|].
  split; [exact (grown_trans 1 1 _ _ _ _ _ _ _ _ _ G1 G2)|]. right. exists q.
  unfold pte_addr. rewrite Hq. split_and!; try done.
  destruct (vpn_split va) as (_ & _ & _ & ?). destruct Hkq as [[] _]. lia.
Qed.

(** ** Writing a leaf entry *)

Definition upd_map (t : ptree) (v : Z) (o : option leaf) : ptree :=
  set_map t (partial_alter (fun _ => o) v (pt_map t)).

Lemma upd_map_insert t v x : upd_map t v (Some x) = set_map t (<[v := x]> (pt_map t)).
Proof. done. Qed.

Lemma upd_map_delete t v : upd_map t v None = set_map t (delete v (pt_map t)).
Proof. done. Qed.

Lemma pt_wf_upd t v o q :
  pt_wf t -> pt_pte t !! (v / 512) = Some q -> 0 <= v < 2 ^ 20 ->
  (forall x, o = Some x -> leaf_wf x) -> pt_wf (upd_map t v o).
Proof.
  intros (Hr & Hpm & Hpt & Hmp) Hq Hv Ho. split_and!; simpl; try done.
  intros v' x. rewrite lookup_partial_alter. case_decide as Hvv; [subst v'|by apply Hmp].
  intros ->. eauto.
Qed.

Lemma enc_leaf_range o :
  (forall x, o = Some x -> leaf_wf x) -> 0 <= enc_leaf o < 2 ^ 64.
Proof.
  intros H. destruct o as [[pa ap]|]; simpl; [|lia].
  destruct (H _ eq_refl) as (_ & ? & _ & ?). simpl in *. lia.
Qed.

Lemma pt_mem_store m t va q o :
  pt_wf t -> NoDup (tables t) -> pt_mem m t -> pt_pte t !! (vpn va / 512) = Some q ->
  (forall x, o = Some x -> leaf_wf x) ->
  pt_mem (st64 m (pte_addr t va) (enc_leaf o)) (upd_map t (vpn va) o).
Proof.
  intros Hwf Hnd (M1 & M2 & M3) Hq Ho. pose proof (tables_kpage t Hwf) as Htk.
  rewrite Forall_forall in Htk. destruct (tables_sep t Hnd) as (_ & Hqr & Hpq & _ & Hqi).
  destruct (vpn_split va) as (_ & _ & _ & Hl).
  unfold pte_addr. rewrite Hq. set (l0 := vpn va mod 512) in *.
  assert (Hother : forall p j, p ∈ tables t -> (p <> q \/ j <> l0) -> 0 <= j < 512 ->
    ld64 (st64 m (q + 8 * l0) (enc_leaf o)) (p + 8 * j) = ld64 m (p + 8 * j)).
  { intros p j Hp Hne Hj. apply ld64_st64_disj.
    assert (page p) as Hpp by (by apply Htk). pose proof (pte_in_tables _ _ _ Hq) as Hqt.
    assert (page q) as Hqq by (by apply Htk). unfold page in *.
    destruct (decide (p = q)); subst; lia. }
  split_and!; simpl.
  - intros i Hi. rewrite Hother; [by apply M1|apply root_in_tables| |lia].
    left. intros <-. by apply (Hqr _ _ Hq).
  - intros i p j Hp Hj. rewrite Hother; [by apply M2|by eapply pmd_in_tables| |lia].
    left. by eapply Hpq.
  - intros k q' j Hq' Hj. rewrite lookup_partial_alter. case_decide as Hv.
    + assert (k = vpn va / 512 /\ j = l0) as [-> ->] by (unfold l0; lia).
      rewrite Hq in Hq'. injection Hq' as <-. rewrite ld64_st64_same.
      by apply u64_small, enc_leaf_range.
    + rewrite Hother; [by apply M3|by eapply pte_in_tables| |lia].
      destruct (decide (q' = q)) as [->|]; [|by left]. right.
      rewrite (Hqi k (vpn va / 512) q Hq' Hq) in Hv. unfold l0. lia.
Qed.

Lemma only_pages_pte m t va q v :
  pt_pte t !! (vpn va / 512) = Some q -> only_pages (tables t) m (st64 m (pte_addr t va) v).
Proof.
  intros Hq. unfold pte_addr. rewrite Hq. destruct (vpn_split va) as (_ & _ & _ & Hl).
  eapply only_pages_mono; [|by apply only_pages_st64].
  pose proof (pte_in_tables _ _ _ Hq). intros x ->%list_elem_of_singleton. done.
Qed.

(** Storing a leaf entry in a state where free pages and frames are accounted for. *)
Lemma vinv_store s l t R va q o R' :
  vinv s l t R -> pt_pte t !! (vpn va / 512) = Some q ->
  (forall x, o = Some x -> leaf_wf x) -> Forall page R' ->
  frames t ++ R ≡ₚ frames (upd_map t (vpn va) o) ++ R' ->
  vinv (mkkst (st64 (kmem s) (pte_addr t va) (enc_leaf o)) (freelist s)) l
    (upd_map t (vpn va) o) R'.
Proof.
  intros Hv Hq Ho HR' Hperm. pose proof (vinv_NoDup_tables _ _ _ _ Hv) as Hndt.
  destruct (vinv_disj _ _ _ _ Hv) as (Hlt & _).
  destruct Hv as (Hwf & Hkl & Hpw & Hpm & HR & Hnd). split_and!; try done.
  - eapply (kwf_frame s _ l (tables t)); [done|by eapply only_pages_pte| |done].
    by apply kpage_page, tables_kpage.
  - eapply pt_wf_upd; eauto. apply vpn_range.
  - by eapply pt_mem_store.
  - rewrite <- Hperm. exact Hnd.
Qed.

Lemma frames_insert t v x :
  pt_map t !! v = None -> frames (upd_map t v (Some x)) ≡ₚ leaf_frame x :: frames t.
Proof. intros H. rewrite upd_map_insert. unfold frames. simpl. by rewrite mvals_insert. Qed.

Lemma frames_delete t v x :
  pt_map t !! v = Some x -> frames t ≡ₚ leaf_frame x :: frames (upd_map t v None).
Proof. intros H. rewrite upd_map_delete. unfold frames. simpl. by rewrite <- mvals_delete. Qed.

(** The word a routine loads from a leaf entry. *)
Lemma load_pte s t va q :
  pt_mem (kmem s) t -> pt_pte t !! (vpn va / 512) = Some q ->
  load64 (pte_addr t va) s = Ok (enc_leaf (pt_map t !! vpn va), s).
Proof.
  intros (_ & _ & M3) Hq. unfold load64, gets, pte_addr. rewrite Hq.
  destruct (vpn_split va) as (_ & _ & _ & Hl). rewrite (M3 _ _ _ Hq) by done.
  do 5 f_equal. lia.
Qed.

(** What a lookup of a mapped page finds. *)
Lemma walk_leaf s t va x :
  pt_wf t -> pt_mem (kmem s) t -> pt_map t !! vpn va = Some x ->
  walk (pt_root t) va false s = Ok (pte_addr t va, s) /\ (pte_addr t va =? 0) = false /\
  load64 (pte_addr t va) s = Ok (enc_leaf (Some x), s) /\ leaf_wf x.
Proof.
  intros Hpw Hpm Hx. pose proof Hpw as (_ & _ & Hpt & Hmp).
  destruct (Hmp _ _ Hx) as (_ & Hlw & [q Hq]).
  split; [by apply walk_lookup|]. split; [|split; [by rewrite (load_pte s t va q Hpm Hq), Hx|done]].
  apply Z.eqb_neq. unfold pte_addr. rewrite Hq. destruct (Hpt _ _ Hq) as (_ & [[? _] _] & _).
  destruct (vpn_split va) as (_ & _ & _ & ?). lia.
Qed.
