(* ===== verification/Boot.v ===== *)
(** kernel/start.c: the page tables the kernel boots with, and what the translation
    hardware makes of them. *)

From S2P Require Import Prelude Mem Mmu VmTree.

Definition GICBASE : Z := 0x08000000.
Definition UARTBASE : Z := 0x09000000.
Definition VIRTIOBASE : Z := 0x0a000000.
Definition DEV_SZ : Z := 0x01000000.
Definition ENTRY_BLOCK : Z := 0x00.
Definition AP_0 : Z := Z.shiftl 0 6.
Definition UXN : Z := Z.shiftl 1 54.
Definition PMD_SZ : Z := Z.shiftl 1 PMD_SHIFT.
Definition PMD_MASK : Z := Z.lnot (PMD_SZ - 1).

Section Boot.
(** The addresses of [_kernel_pgtbl], [_user_pgtbl], [_K_l2_pgtbl] and [_U_l2_pgtbl]. *)
Context (kernel_pgtbl user_pgtbl K_l2 U_l2 : Z).
Notation B := (M mem).

Definition load (a : Z) : B Z := gets (fun m => ld64 m a).
Definition store (a v : Z) : B unit := modify (fun m => st64 m a v).

(** One loop of [init_PGD_table] from [i], with [n] turns to go. *)
Fixpoint pgd_loop (n : nat) (table l2 i : Z) : B unit :=
  match n with
  | O => ret tt
  | S n' =>
      store (table + 8 * i) (Z.lor (l2 + 4096 * i) (Z.lor ENTRY_VALID ENTRY_TABLE)) ;;;
      pgd_loop n' table l2 (i + 1)
  end.
Definition init_PGD_table : B unit :=
  pgd_loop 4 kernel_pgtbl K_l2 0 ;;;
  pgd_loop 4 user_pgtbl U_l2 0.

(** lines 67-74 *)
Definition block_entry (pa : Z) (dev_mem : bool) : Z :=
  Z.lor (Z.land pa PMD_MASK)
    (if dev_mem then Z.lor (Z.lor (Z.lor (Z.lor ACCESS_FLAG AP_0) (MEM_ATTR_IDX 0)) ENTRY_BLOCK) ENTRY_VALID
     else Z.lor (Z.lor (Z.lor (Z.lor (Z.lor (Z.lor (Z.lor ACCESS_FLAG SH_IN_SH) AP_0) ENTRY_NS) (MEM_ATTR_IDX 4)) ENTRY_BLOCK) ENTRY_VALID) UXN).

Fixpoint bvmmap_loop (fuel : nat) (va pa end_ : Z) (dev_mem : bool) : B unit :=
  match fuel with
  | O => nofuel
  | S f =>
      let pde := block_entry pa dev_mem in
      e <- load (kernel_pgtbl + 8 * PGD_IDX va) ;;
      store (Z.land e PG_ADDR_MASK + 8 * PMD_IDX va) pde ;;;
      e <- load (user_pgtbl + 8 * PGD_IDX va) ;;
      store (Z.land e PG_ADDR_MASK + 8 * PMD_IDX va) pde ;;;
      let va := u64 (va + PMD_SZ) in
      let pa := u64 (pa + PMD_SZ) in
      if end_ <=? va then ret tt else bvmmap_loop f va pa end_ dev_mem
  end.
(** boot virtual memory map *)
Definition bvmmap (va pa sz : Z) (dev_mem : bool) : B unit :=
  bvmmap_loop (Z.to_nat (u32 sz / PMD_SZ + 1)) va pa (u64 (va + u32 sz)) dev_mem.

Definition init_boot_pgtbl : B unit :=
  bvmmap PHYSTART PHYSTART KERN_SZ false ;;;
  bvmmap (u64 (KERNBASE + PHYSTART)) PHYSTART KERN_SZ false ;;;
  bvmmap UARTBASE UARTBASE DEV_SZ true ;;;
  bvmmap VIRTIOBASE VIRTIOBASE DEV_SZ true ;;;
  bvmmap (u64 (KERNBASE + GICBASE)) GICBASE DEV_SZ true ;;;
  bvmmap (u64 (KERNBASE + UARTBASE)) UARTBASE DEV_SZ true ;;;
  bvmmap (u64 (KERNBASE + VIRTIOBASE)) VIRTIOBASE DEV_SZ true.

(** The part of [start] that the first CPU runs before it turns translation on. *)
Definition start_tables : B unit := init_PGD_table ;;; init_boot_pgtbl.

(** What the hardware makes of a table with blocks of 2 MiB: the physical address, the
    memory attributes, and whether user code may access it. *)
Record translation := mktr { tr_pa : Z; tr_attr : Z; tr_user : bool }.
Definition translate (m : mem) (table va : Z) : option translation :=
  let e1 := ld64 m (table + 8 * PGD_IDX va) in
  if negb (Z.land e1 3 =? 3) then None else
  let e2 := ld64 m (Z.land e1 PG_ADDR_MASK + 8 * PMD_IDX va) in
  if negb (Z.land e2 3 =? 1) then None else
  Some (mktr (Z.land (Z.land e2 (2 ^ 48 - 1)) PMD_MASK + va mod PMD_SZ) (Z.land (Z.shiftr e2 2) 7) (Z.testbit e2 6)).

(** ** The tables as arrays of 2048 blocks *)

Definition slot_of (va : Z) : Z := (va / 2 ^ 21) mod 2048.

Lemma slot_split va : 512 * PGD_IDX va + PMD_IDX va = slot_of va /\ 0 <= PGD_IDX va < 4 /\ 0 <= PMD_IDX va < 512.
Proof. rewrite PGD_IDX_eq, PMD_IDX_eq. unfold slot_of. change (2 ^ 30) with (2 ^ 21 * 512). rewrite <- Z.div_div by lia. set (q := va / 2 ^ 21). lia. Qed.

(** The level 2 tables are four pages each, and the four tables do not overlap. *)
Record layout : Prop := mklayout {
  ly_k : page kernel_pgtbl; ly_u : page user_pgtbl;
  ly_kl : 0 <= K_l2 /\ K_l2 mod 4096 = 0 /\ K_l2 + 16384 <= 2 ^ 48; ly_ul : 0 <= U_l2 /\ U_l2 mod 4096 = 0 /\ U_l2 + 16384 <= 2 ^ 48;
  ly_ku : kernel_pgtbl + 4096 <= user_pgtbl \/ user_pgtbl + 4096 <= kernel_pgtbl;
  ly_kl2 : K_l2 + 16384 <= U_l2 \/ U_l2 + 16384 <= K_l2;
  ly_t : forall t l, t = kernel_pgtbl \/ t = user_pgtbl -> l = K_l2 \/ l = U_l2 -> t + 4096 <= l \/ l + 16384 <= t }.
Hypothesis Hly : layout.

Definition pgds (m : mem) : Prop := forall i, 0 <= i < 4 ->
  ld64 m (kernel_pgtbl + 8 * i) = Z.lor (K_l2 + 4096 * i) 3 /\ ld64 m (user_pgtbl + 8 * i) = Z.lor (U_l2 + 4096 * i) 3.

Lemma table_entry l i : 0 <= l -> l mod 4096 = 0 -> l + 16384 <= 2 ^ 48 -> 0 <= i < 4 ->
  Z.lor (l + 4096 * i) 3 = l + 4096 * i + 3 /\ Z.land (Z.lor (l + 4096 * i) 3) PG_ADDR_MASK = l + 4096 * i /\ Z.land (Z.lor (l + 4096 * i) 3) 3 = 3.
Proof.
  intros H1 H2 H3 Hi. assert (E : Z.lor (l + 4096 * i) 3 = l + 4096 * i + 3) by (apply (lor_disjoint_add _ _ 12); lia). rewrite E. split; [done|].
  split; [apply land_mask; lia|]. rewrite land_low by lia. done.
Qed.

Lemma block_entry_eq k dev : 0 <= k < 1024 -> block_entry (k * 2 ^ 21) dev = k * 2 ^ 21 + (if dev then 0x401 else 2 ^ 54 + 0x731).
Proof.
  intros Hk. unfold block_entry. change PMD_MASK with (Z.lnot (Z.ones 21)). rewrite land_lnot_ones, Z.mod_mul, Z.sub_0_r by lia. destruct dev.
  - apply (lor_disjoint_add _ _ 21); [lia|by rewrite Z.mod_mul by lia|split; [done|reflexivity]].
  - change (Z.lor _ UXN) with (Z.lor 0x731 (2 ^ 54)). rewrite Z.lor_assoc, (lor_disjoint_add (k * 2 ^ 21) 0x731 21) by (rewrite ?Z.mod_mul by lia; lia).
    rewrite Z.lor_comm, (lor_disjoint_add (2 ^ 54) _ 54) by lia. lia.
Qed.

(** One turn of the loop writes the block of [va] in both tables. *)
Definition put_block (m : mem) (va e : Z) : mem := st64 (st64 m (K_l2 + 8 * slot_of va) e) (U_l2 + 8 * slot_of va) e.

Lemma slot_range va : 0 <= slot_of va < 2048.
Proof. unfold slot_of. lia. Qed.

Lemma put_block_at m va e l k : l = K_l2 \/ l = U_l2 -> 0 <= k < 2048 -> 0 <= e < 2 ^ 64 -> ld64 (put_block m va e) (l + 8 * k) = if decide (k = slot_of va) then e else ld64 m (l + 8 * k).
Proof.
  intros Hl Hk He. pose proof (slot_range va). pose proof (ly_kl2 Hly) as Hd. unfold put_block. destruct Hl as [->| ->].
  - rewrite ld64_st64_disj by lia. case_decide as E; [subst k; by rewrite ld64_st64_same, u64_small|]. by rewrite ld64_st64_disj by lia.
  - case_decide as E; [subst k; by rewrite ld64_st64_same, u64_small|]. by rewrite !ld64_st64_disj by lia.
Qed.

Lemma put_block_pgds m va e : pgds m -> pgds (put_block m va e).
Proof.
  intros H i Hi. pose proof (slot_range va). pose proof (ly_t Hly) as Hd. pose proof (Hd kernel_pgtbl K_l2 ltac:(tauto) ltac:(tauto)). pose proof (Hd kernel_pgtbl U_l2 ltac:(tauto) ltac:(tauto)).
  pose proof (Hd user_pgtbl K_l2 ltac:(tauto) ltac:(tauto)). pose proof (Hd user_pgtbl U_l2 ltac:(tauto) ltac:(tauto)). unfold put_block. rewrite !ld64_st64_disj by lia. by apply H.
Qed.

Lemma put_block_run m va e : pgds m ->
  (e1 <- load (kernel_pgtbl + 8 * PGD_IDX va) ;; store (Z.land e1 PG_ADDR_MASK + 8 * PMD_IDX va) e ;;;
   e2 <- load (user_pgtbl + 8 * PGD_IDX va) ;; store (Z.land e2 PG_ADDR_MASK + 8 * PMD_IDX va) e) m = Ok (tt, put_block m va e).
Proof.
  intros H. destruct (slot_split va) as (Es & Hi & Hj). destruct (ly_kl Hly) as (A1 & A2 & A3), (ly_ul Hly) as (B1 & B2 & B3).
  destruct (table_entry K_l2 (PGD_IDX va) A1 A2 A3 Hi) as (_ & Ek & _), (table_entry U_l2 (PGD_IDX va) B1 B2 B3 Hi) as (_ & Eu & _).
  unfold load, store, bind, gets, modify. rewrite (proj1 (H _ Hi)), Ek. pose proof (ly_t Hly user_pgtbl K_l2 ltac:(tauto) ltac:(tauto)). rewrite ld64_st64_disj by lia. rewrite (proj2 (H _ Hi)), Eu.
  unfold put_block. rewrite <- Es. replace (K_l2 + 4096 * PGD_IDX va + 8 * PMD_IDX va) with (K_l2 + 8 * (512 * PGD_IDX va + PMD_IDX va)) by lia.
  by replace (U_l2 + 4096 * PGD_IDX va + 8 * PMD_IDX va) with (U_l2 + 8 * (512 * PGD_IDX va + PMD_IDX va)) by lia.
Qed.

(** The [n] blocks from [slot_of va] on map [pa], [pa + 2 MiB], ...; the rest is as in [m]. *)
Definition mapped (m m' : mem) (s pa n : Z) (dev : bool) : Prop :=
  pgds m' /\ forall l k, l = K_l2 \/ l = U_l2 -> 0 <= k < 2048 ->
    ld64 m' (l + 8 * k) = if decide (s <= k < s + n) then block_entry ((pa + (k - s)) * 2 ^ 21) dev else ld64 m (l + 8 * k).

Lemma bvmmap_loop_run n : forall fuel m va p dev, (n < fuel)%nat -> pgds m -> 0 <= va -> va + (Z.of_nat n + 1) * 2 ^ 21 < 2 ^ 64 -> 0 <= p -> p + Z.of_nat n < 1024 ->
  slot_of va + Z.of_nat n < 2048 ->
  exists m', bvmmap_loop fuel va (p * 2 ^ 21) (va + (Z.of_nat n + 1) * 2 ^ 21) dev m = Ok (tt, m') /\ mapped m m' (slot_of va) p (Z.of_nat n + 1) dev.
Proof.
  induction n as [|n IH]; intros fuel m va p dev Hf Hm Hva Hend Hp Hpn Hs; (destruct fuel as [|fuel]; [lia|]); cbn [bvmmap_loop];
    change PMD_SZ with (2 ^ 21); rewrite (u64_small (va + 2 ^ 21)), (u64_small (p * 2 ^ 21 + 2 ^ 21)) by lia; set (e := block_entry (p * 2 ^ 21) dev);
    assert (He : 0 <= e < 2 ^ 64) by (unfold e; rewrite block_entry_eq by lia; destruct dev; lia); pose proof (put_block_run m va e Hm) as Hrun;
    pose proof (put_block_pgds m va e Hm) as Hm1.
  - exists (put_block m va e). split.
    + unfold bind in Hrun |- *. destruct (load _ m) as [[e1 m1]| | |]; try done. destruct (store _ e m1) as [[[] m2]| | |]; try done. destruct (load _ m2) as [[e2 m3]| | |]; try done.
      rewrite Hrun. destruct (Z.leb_spec (va + (Z.of_nat 0 + 1) * 2 ^ 21) (va + 2 ^ 21)); [done|lia].
    + split; [done|]. intros l k Hl Hk. rewrite put_block_at by done. repeat case_decide; try lia; try done. unfold e. do 2 f_equal. lia.
  - assert (Es : slot_of (va + 2 ^ 21) = slot_of va + 1).
    { unfold slot_of in *. replace ((va + 2 ^ 21) / 2 ^ 21) with (va / 2 ^ 21 + 1) by (rewrite <- (Z.mul_1_l (2 ^ 21)) at 2; by rewrite Z.div_add by lia). set (q := va / 2 ^ 21) in *. lia. }
    destruct (IH fuel (put_block m va e) (va + 2 ^ 21) (p + 1) dev) as (m' & E & Hm' & Hat); [lia|done|lia|lia|lia|lia|lia|]. exists m'. split.
    + replace (p * 2 ^ 21 + 2 ^ 21) with ((p + 1) * 2 ^ 21) by lia. replace (va + (Z.of_nat (S n) + 1) * 2 ^ 21) with (va + 2 ^ 21 + (Z.of_nat n + 1) * 2 ^ 21) by lia.
      rewrite <- E. unfold bind in Hrun |- *. destruct (load _ m) as [[e1 m1]| | |]; try done. destruct (store _ e m1) as [[[] m2]| | |]; try done. destruct (load _ m2) as [[e2 m3]| | |]; try done.
      rewrite Hrun. destruct (Z.leb_spec (va + 2 ^ 21 + (Z.of_nat n + 1) * 2 ^ 21) (va + 2 ^ 21)); [lia|done].
    + split; [done|]. intros l k Hl Hk. rewrite (Hat l k Hl Hk), Es, put_block_at by done. repeat case_decide; try lia; try done; unfold e; do 2 f_equal; lia.
Qed.

Lemma bvmmap_run n m va p dev : pgds m -> 0 <= va -> va + (Z.of_nat n + 1) * 2 ^ 21 < 2 ^ 64 -> 0 <= p -> p + Z.of_nat n < 1024 -> slot_of va + Z.of_nat n < 2048 ->
  exists m', bvmmap va (p * 2 ^ 21) ((Z.of_nat n + 1) * 2 ^ 21) dev m = Ok (tt, m') /\ mapped m m' (slot_of va) p (Z.of_nat n + 1) dev.
Proof.
  intros Hm Hva Hend Hp Hpn Hs. unfold bvmmap. change PMD_SZ with (2 ^ 21). rewrite (u32_small ((Z.of_nat n + 1) * 2 ^ 21)), (u64_small (va + _)), Z.div_mul by lia. apply bvmmap_loop_run; try done. lia.
Qed.

Lemma init_PGD_table_run m : exists m', init_PGD_table m = Ok (tt, m') /\ pgds m'.
Proof.
  eexists. split; [reflexivity|]. destruct (ly_kl Hly) as (A1 & A2 & A3), (ly_ul Hly) as (B1 & B2 & B3), (ly_k Hly) as (C1 & C2 & C3), (ly_u Hly) as (D1 & D2 & D3). pose proof (ly_ku Hly) as Hku.
  assert (Ek : forall i, 0 <= i < 4 -> u64 (Z.lor (K_l2 + 4096 * i) 3) = Z.lor (K_l2 + 4096 * i) 3) by (intros i Hi; apply u64_small; rewrite (proj1 (table_entry K_l2 i A1 A2 A3 Hi)); lia).
  assert (Eu : forall i, 0 <= i < 4 -> u64 (Z.lor (U_l2 + 4096 * i) 3) = Z.lor (U_l2 + 4096 * i) 3) by (intros i Hi; apply u64_small; rewrite (proj1 (table_entry U_l2 i B1 B2 B3 Hi)); lia).
  change (Z.lor ENTRY_VALID ENTRY_TABLE) with 3. intros i Hi. split.
  - rewrite <- (Ek i Hi). assert (Hc : i = 0 \/ i = 1 \/ i = 2 \/ i = 3) by lia. destruct Hc as [->|[->|[->| ->]]]; repeat (rewrite ld64_st64_disj by lia); by rewrite ld64_st64_same.
  - rewrite <- (Eu i Hi). assert (Hc : i = 0 \/ i = 1 \/ i = 2 \/ i = 3) by lia. destruct Hc as [->|[->|[->| ->]]]; repeat (rewrite ld64_st64_disj by lia); by rewrite ld64_st64_same.
Qed.

(** All the blocks that are mapped in the end, in both tables. *)
Lemma start_tables_run m : exists m', start_tables m = Ok (tt, m') /\ pgds m' /\ forall l k, l = K_l2 \/ l = U_l2 ->
  (64 <= k < 88 -> ld64 m' (l + 8 * k) = block_entry (k * 2 ^ 21) true) /\ (k = 512 -> ld64 m' (l + 8 * k) = block_entry (k * 2 ^ 21) false).
Proof.
  destruct (init_PGD_table_run m) as (m0 & E0 & P0). unfold start_tables. rewrite (bind_ok _ _ _ _ _ E0). unfold init_boot_pgtbl.
  destruct (bvmmap_run 0 m0 PHYSTART 512 false P0) as (m1 & E1 & P1 & H1); [by vm_compute..|]. rewrite (bind_ok _ _ _ _ _ E1).
  destruct (bvmmap_run 0 m1 (u64 (KERNBASE + PHYSTART)) 512 false P1) as (m2 & E2 & P2 & H2); [by vm_compute..|]. rewrite (bind_ok _ _ _ _ _ E2).
  destruct (bvmmap_run 7 m2 UARTBASE 72 true P2) as (m3 & E3 & P3 & H3); [by vm_compute..|]. rewrite (bind_ok _ _ _ _ _ E3).
  destruct (bvmmap_run 7 m3 VIRTIOBASE 80 true P3) as (m4 & E4 & P4 & H4); [by vm_compute..|]. rewrite (bind_ok _ _ _ _ _ E4).
  destruct (bvmmap_run 7 m4 (u64 (KERNBASE + GICBASE)) 64 true P4) as (m5 & E5 & P5 & H5); [by vm_compute..|]. rewrite (bind_ok _ _ _ _ _ E5).
  destruct (bvmmap_run 7 m5 (u64 (KERNBASE + UARTBASE)) 72 true P5) as (m6 & E6 & P6 & H6); [by vm_compute..|]. rewrite (bind_ok _ _ _ _ _ E6).
  destruct (bvmmap_run 7 m6 (u64 (KERNBASE + VIRTIOBASE)) 80 true P6) as (m7 & E7 & P7 & H7); [by vm_compute..|]. exists m7. split; [exact E7|]. split; [exact P7|].
  change (slot_of (u64 (KERNBASE + VIRTIOBASE))) with 80 in H7. change (slot_of (u64 (KERNBASE + UARTBASE))) with 72 in H6. change (slot_of (u64 (KERNBASE + GICBASE))) with 64 in H5.
  change (slot_of VIRTIOBASE) with 80 in H4. change (slot_of UARTBASE) with 72 in H3. change (slot_of (u64 (KERNBASE + PHYSTART))) with 512 in H2. change (Z.of_nat 7 + 1) with 8 in *. change (Z.of_nat 0 + 1) with 1 in *.
  intros l k Hl. split; intros Hk; (rewrite (H7 l k Hl) by lia); (case_decide; [first [lia | do 2 f_equal; lia]|]); (rewrite (H6 l k Hl) by lia); (case_decide; [first [lia | do 2 f_equal; lia]|]);
    (rewrite (H5 l k Hl) by lia); (case_decide; [first [lia | do 2 f_equal; lia]|]); [lia|]. rewrite (H4 l k Hl), decide_False, (H3 l k Hl), decide_False, (H2 l k Hl), decide_True by lia. do 2 f_equal. lia.
Qed.

Lemma translate_block m table l va k e base attr user : pgds m -> (table = kernel_pgtbl /\ l = K_l2) \/ (table = user_pgtbl /\ l = U_l2) -> slot_of va = k -> ld64 m (l + 8 * k) = e ->
  Z.land e 3 = 1 -> Z.land (Z.land e (2 ^ 48 - 1)) PMD_MASK = base -> Z.land (Z.shiftr e 2) 7 = attr -> Z.testbit e 6 = user ->
  translate m table va = Some (mktr (base + va mod 2 ^ 21) attr user).
Proof.
  intros Hm Ht Hs He F1 F2 F3 F4. destruct (slot_split va) as (Es & Hi & Hj). destruct (ly_kl Hly) as (A1 & A2 & A3), (ly_ul Hly) as (B1 & B2 & B3). unfold translate.
  assert (Hl : exists e1, ld64 m (table + 8 * PGD_IDX va) = e1 /\ Z.land e1 3 = 3 /\ Z.land e1 PG_ADDR_MASK = l + 4096 * PGD_IDX va).
  { destruct Ht as [[-> ->]|[-> ->]].
    - destruct (table_entry K_l2 (PGD_IDX va) A1 A2 A3 Hi) as (_ & ? & ?). eexists. split; [by apply Hm|done].
    - destruct (table_entry U_l2 (PGD_IDX va) B1 B2 B3 Hi) as (_ & ? & ?). eexists. split; [by apply Hm|done]. }
  destruct Hl as (e1 & -> & -> & ->). replace (l + 4096 * PGD_IDX va + 8 * PMD_IDX va) with (l + 8 * k) by lia. rewrite He, F1. cbn [negb Z.eqb]. by rewrite F2, F3, F4.
Qed.

(** The fields of the entries for devices and for memory. *)
Lemma block_fields k : 64 <= k < 88 \/ k = 512 -> let e := block_entry (k * 2 ^ 21) (bool_decide (k < 88)) in
  Z.land e 3 = 1 /\ Z.land (Z.land e (2 ^ 48 - 1)) PMD_MASK = k * 2 ^ 21 /\ Z.land (Z.shiftr e 2) 7 = (if bool_decide (k < 88) then 0 else 4) /\ Z.testbit e 6 = false.
Proof.
  intros Hk. assert (Hin : k ∈ seqZ 64 24 ++ [512]) by (rewrite elem_of_app, elem_of_seqZ, list_elem_of_singleton; lia).
  assert (Hall : Forall (fun k => let e := block_entry (k * 2 ^ 21) (bool_decide (k < 88)) in
    Z.land e 3 = 1 /\ Z.land (Z.land e (2 ^ 48 - 1)) PMD_MASK = k * 2 ^ 21 /\ Z.land (Z.shiftr e 2) 7 = (if bool_decide (k < 88) then 0 else 4) /\ Z.testbit e 6 = false) (seqZ 64 24 ++ [512])).
  { change (seqZ 64 24 ++ [512]) with [64; 65; 66; 67; 68; 69; 70; 71; 72; 73; 74; 75; 76; 77; 78; 79; 80; 81; 82; 83; 84; 85; 86; 87; 512]. repeat constructor. }
  rewrite Forall_forall in Hall. by apply Hall.
Qed.
End Boot.

(** C25: However memory looks before, the tables that [start] builds map, for the
    kernel's and the user's translation base alike, the first 2 MiB of RAM both at their
    physical and at their kernel addresses, as normal memory, and the registers of the
    interrupt controller, the UART and the disk at their kernel addresses, as device
    memory; none of it is accessible to user code. *)
Theorem boot_tables_translate kernel_pgtbl user_pgtbl K_l2 U_l2 m :
  layout kernel_pgtbl user_pgtbl K_l2 U_l2 ->
  exists m', start_tables kernel_pgtbl user_pgtbl K_l2 U_l2 m = Ok (tt, m') /\
  forall table pa, table = kernel_pgtbl \/ table = user_pgtbl ->
    (PHYSTART <= pa < PHYSTART + KERN_SZ -> translate m' table pa = Some (mktr pa 4 false) /\ translate m' table (P2V pa) = Some (mktr pa 4 false)) /\
    (GICBASE <= pa < VIRTIOBASE + DEV_SZ -> translate m' table (P2V pa) = Some (mktr pa 0 false)).
Proof.
  intros Hly. destruct (start_tables_run kernel_pgtbl user_pgtbl K_l2 U_l2 Hly m) as (m' & E & Hm & Hat). exists m'. split; [exact E|].
  intros table pa Ht. assert (Hl : exists l, ((table = kernel_pgtbl /\ l = K_l2) \/ (table = user_pgtbl /\ l = U_l2)) /\ (l = K_l2 \/ l = U_l2)) by (destruct Ht; [exists K_l2|exists U_l2]; tauto).
  destruct Hl as (l & Hl & Hl'). unfold P2V, PHYSTART, KERN_SZ, GICBASE, VIRTIOBASE, DEV_SZ in *. split.
  - intros Hpa. destruct (Hat l 512 Hl') as [_ Hk]. specialize (Hk eq_refl). destruct (block_fields 512 ltac:(by right)) as (F1 & F2 & F3 & F4).
    assert (Hgo : forall va, slot_of va = 512 -> va mod 2 ^ 21 = pa mod 2 ^ 21 -> translate m' table va = Some (mktr pa 4 false)).
    { intros va Hs Hmod. rewrite (translate_block _ _ _ _ Hly m' table l va 512 _ _ _ _ Hm Hl Hs Hk F1 F2 F3 F4), Hmod. do 2 f_equal. lia. }
    split; apply Hgo; unfold slot_of, KERNBASE; rewrite ?u64_small by lia; lia.
  - intros Hpa. set (k := pa / 2 ^ 21). assert (Hk' : 64 <= k < 88) by (unfold k; lia). destruct (Hat l k Hl') as [Hk _]. specialize (Hk Hk'). destruct (block_fields k ltac:(by left)) as (F1 & F2 & F3 & F4).
    rewrite (bool_decide_eq_true_2 (k < 88)) in F1, F2, F3, F4 by lia. unfold KERNBASE. rewrite u64_small by lia.
    rewrite (translate_block _ _ _ _ Hly m' table l (pa + 0xFFFFFFFF00000000) k _ _ _ _ Hm Hl ltac:(unfold slot_of, k; lia) Hk F1 F2 F3 F4). do 2 f_equal. unfold k. lia.
Qed.

Lemma boot_tables_translate_witness : layout 0x40080000 0x40081000 0x40082000 0x40086000 /\ exists m', start_tables 0x40080000 0x40081000 0x40082000 0x40086000 ∅ = Ok (tt, m') /\
  translate m' 0x40080000 0xFFFFFFFF40012345 = Some (mktr 0x40012345 4 false).
Proof.
  assert (Hly : layout 0x40080000 0x40081000 0x40082000 0x40086000) by (constructor; unfold page; try lia; intros t l [->| ->] [->| ->]; lia). split; [exact Hly|].
  destruct (boot_tables_translate 0x40080000 0x40081000 0x40082000 0x40086000 ∅ Hly) as (m' & E & H). exists m'. split; [exact E|].
  exact (proj2 (proj1 (H 0x40080000 0x40012345 (or_introl eq_refl)) ltac:(unfold PHYSTART, KERN_SZ; lia))).
Defined.
