(* ===== verification/VmMap.v ===== *)
(** Mapping and unmapping ranges of pages: [mappages] and [uvmunmap] change the
    logical map of [VmTree] on exactly the pages they are given. *)

From S2P Require Import Prelude Mem KString Mmu Kalloc Vm VmTree.

(** ** The logical effect *)

(** [k] pages from page number [v], at consecutive physical pages from [pa]. *)
Fixpoint map_range (mp : gmap Z leaf) (v pa ap : Z) (k : nat) : gmap Z leaf :=
  match k with
  | O => mp
  | S k' => map_range (<[v := (pa, ap)]> mp) (v + 1) (pa + 4096) ap k'
  end.

Fixpoint unmap_range (mp : gmap Z leaf) (v : Z) (k : nat) : gmap Z leaf :=
  match k with
  | O => mp
  | S k' => unmap_range (delete v mp) (v + 1) k'
  end.

(** The frames of [k] consecutive physical pages. *)
Fixpoint frame_range (pa : Z) (k : nat) : list Z :=
  match k with
  | O => []
  | S k' => P2V pa :: frame_range (pa + 4096) k'
  end.

Lemma lookup_map_range mp v pa ap k w :
  map_range mp v pa ap k !! w =
  if decide (v <= w < v + Z.of_nat k) then Some (pa + 4096 * (w - v), ap) else mp !! w.
Proof.
  revert mp v pa. induction k as [|k IH]; intros mp v pa; simpl.
  - case_decide; [lia|done].
  - rewrite IH, lookup_insert. repeat case_decide; try lia; try done.
    all: do 2 f_equal; lia.
Qed.

Lemma lookup_unmap_range mp v k w :
  unmap_range mp v k !! w = if decide (v <= w < v + Z.of_nat k) then None else mp !! w.
Proof.
  revert mp v. induction k as [|k IH]; intros mp v; simpl.
  - case_decide; [lia|done].
  - rewrite IH, lookup_delete. repeat case_decide; try lia; done.
Qed.

Lemma unmap_map_range mp v pa ap k :
  (forall w, v <= w < v + Z.of_nat k -> mp !! w = None) ->
  unmap_range (map_range mp v pa ap k) v k = mp.
Proof.
  intros H. apply map_eq. intros w. rewrite lookup_unmap_range, lookup_map_range.
  repeat case_decide; [|done]. symmetry. by apply H.
Qed.

(** Page numbers of consecutive addresses below 4 GiB. *)
Lemma vpn_low a : 0 <= a < 2 ^ 32 -> vpn a = a / 4096.
Proof. intros ?. unfold vpn. rewrite Z.mod_small; [done|lia]. Qed.

Lemma vpn_next a : a mod 4096 = 0 -> 0 <= a -> a + 4096 < 2 ^ 32 -> vpn (a + 4096) = vpn a + 1.
Proof. intros. rewrite !vpn_low by lia. lia. Qed.

Definition ap_ok (ap : Z) : Prop := ap = 0 \/ ap = 64 \/ ap = 128 \/ ap = 192.

Lemma P2V_kpage pa : pa mod 4096 = 0 -> 0 < pa < 2 ^ 32 -> kpage (P2V pa).
Proof.
  intros Ha Hr. unfold kpage, page, P2V, KERNBASE. rewrite u64_small by lia. lia.
Qed.

Lemma leaf_wf_range pa ap : pa mod 4096 = 0 -> 0 < pa < 2 ^ 32 -> ap_ok ap -> leaf_wf (pa, ap).
Proof. intros. split; [by apply P2V_kpage|]. split; [done|]. by split. Qed.

Lemma grown_set_map k s l t s' l' t' mp :
  grown k s l t s' l' t' -> pt_map t' = pt_map t ->
  l ++ tables t ≡ₚ l' ++ tables (set_map t' mp).
Proof. intros (_ & _ & H & _) _. exact H. Qed.

(** ** mappages *)

(** One iteration on an unmapped page: the entry is written, or memory ran out. *)
Lemma map_step s l t R va pa ap :
  vinv s l t (P2V pa :: R) -> leaf_wf (pa, ap) -> pt_map t !! vpn va = None ->
  exists r s' l' t', walk (pt_root t) va true s = Ok (r, s') /\ grown 2 s l t s' l' t' /\
    ((r = 0 /\ l' = [] /\ vinv s' l' t' (P2V pa :: R)) \/
     (r <> 0 /\ load64 r s' = Ok (0, s') /\
      exists s'', store64 r (leaf_entry pa ap) s' = Ok (tt, s'') /\
        vinv s'' l' (upd_map t' (vpn va) (Some (pa, ap))) R /\
        only_pages (l ++ tables t) (kmem s) (kmem s''))).
Proof.
  intros Hv Hl Hn. destruct (walk_alloc_ok s l t _ va Hv) as (r & s' & l' & t' & E & Hv' & G & H).
  exists r, s', l', t'. split; [done|]. split; [done|].
  destruct H as [[-> ->]|(q & Hq & -> & Hnz)]; [by left|right].
  destruct G as (Gr & Gm & Gp & Gl & Go).
  split; [done|]. pose proof Hv' as (_ & _ & _ & Hpm & HR & _). split.
  { rewrite (load_pte _ _ _ _ Hpm Hq), Gm, Hn. done. }
  eexists. split; [done|]. rewrite (leaf_entry_eq _ _ Hl).
  change (pa + ap + 1843) with (enc_leaf (Some (pa, ap))). split.
  - apply Forall_cons in HR as [_ HR].
    eapply vinv_store; eauto; [by intros x [= <-]|].
    rewrite frames_insert by (by rewrite Gm). simpl. by rewrite Permutation_middle.
  - eapply only_pages_trans; [exact Go|]. eapply only_pages_mono; [|by eapply only_pages_pte].
    intros x Hx. rewrite Gp. apply elem_of_app. by right.
Qed.

Lemma mappages_loop_ok n : forall fuel s l t R a pa ap,
  (n < fuel)%nat ->
  vinv s l t (frame_range pa (S n) ++ R) -> ap_ok ap ->
  a mod 4096 = 0 -> 0 <= a -> a + 4096 * (Z.of_nat n + 1) <= 2 ^ 32 ->
  pa mod 4096 = 0 -> 0 < pa -> pa + 4096 * (Z.of_nat n + 1) <= 2 ^ 32 ->
  (forall w, vpn a <= w <= vpn a + Z.of_nat n -> pt_map t !! w = None) ->
  exists r k s' l' t',
    mappages_loop fuel (pt_root t) a (a + 4096 * Z.of_nat n) pa ap s = Ok (r, s') /\
    (r = 0 /\ k = S n \/ r = -1 /\ (k <= n)%nat /\ l' = []) /\
    vinv s' l' t' (frame_range (pa + 4096 * Z.of_nat k) (S n - k) ++ R) /\
    pt_root t' = pt_root t /\ pt_map t' = map_range (pt_map t) (vpn a) pa ap k /\
    l ++ tables t ≡ₚ l' ++ tables t' /\ only_pages (l ++ tables t) (kmem s) (kmem s') /\
    (length l <= length l' + 2 * S n)%nat.
Proof.
  induction n as [|n IH]; intros fuel s l t R a pa ap Hf Hv Hap Ha1 Ha2 Ha3 Hp1 Hp2 Hp3 Hn.
  all: destruct fuel as [|f]; [lia|].
  all: destruct (map_step s l t _ a pa ap Hv) as (r & s1 & l1 & t1 & E1 & G & H);
    [apply leaf_wf_range; lia || done|apply Hn; lia|].
  all: cbn [mappages_loop]; rewrite (bind_ok _ _ _ _ _ E1).
  all: destruct G as (Gr & Gm & Gp & Gl & Go).
  all: destruct H as [(-> & -> & Hv1)|(Hr & E2 & s2 & E3 & Hv2 & Ho2)].
  1,3: exists (-1), O, s1, [], t1; rewrite Nat.sub_0_r;
    replace (pa + 4096 * Z.of_nat 0) with pa by lia;
    split; [done|]; split; [right; split_and!; [done|lia|done]|]; split_and!; done || lia.
  all: rewrite (proj2 (Z.eqb_neq r 0) Hr), (bind_ok _ _ _ _ _ E2), Z.land_0_l, Z.eqb_refl;
    cbn [negb].
  all: rewrite (bind_ok _ _ _ _ _ E3).
  - rewrite Z.mul_0_r, Z.add_0_r, Z.eqb_refl.
    exists 0, 1%nat, s2, l1, (upd_map t1 (vpn a) (Some (pa, ap))).
    split_and!; auto. simpl. by rewrite Gm.
  - rewrite (proj2 (Z.eqb_neq a _)) by lia. unfold PGSIZE.
    rewrite !u64_small by lia.
    replace (a + 4096 * Z.of_nat (S n)) with (a + 4096 + 4096 * Z.of_nat n) by lia.
    replace (pt_root t) with (pt_root (upd_map t1 (vpn a) (Some (pa, ap)))) by done.
    destruct (IH f s2 l1 (upd_map t1 (vpn a) (Some (pa, ap))) R (a + 4096) (pa + 4096) ap)
      as (r' & k & s' & l' & t' & E & Hres & Hv' & Hroot & Hmap & Hperm & Hon & Hlen);
      try lia; try done.
    { intros w Hw. rewrite vpn_next in Hw by lia. simpl.
      rewrite lookup_partial_alter_ne by lia. rewrite Gm. apply Hn. lia. }
    exists r', (S k), s', l', t'. split; [exact E|]. split; [|split; [|split_and!]].
    + destruct Hres as [[-> ->]|(-> & ? & ->)]; [left|right]; split_and!; auto; lia.
    + replace (pa + 4096 * Z.of_nat (S k)) with (pa + 4096 + 4096 * Z.of_nat k) by lia.
      exact Hv'.
    + by rewrite Hroot.
    + rewrite Hmap. simpl. rewrite vpn_next by lia. by rewrite <- Gm.
    + by rewrite Gp.
    + eapply only_pages_trans; [done|]. eapply only_pages_mono; [|done].
      intros x. rewrite Gp. done.
    + lia.
Qed.

(** Number of pages, less one, of the range [va, va + size). *)
Definition extra_pages (va size : Z) : nat := Z.to_nat ((va + size - 1) / 4096 - va / 4096).

Lemma mappages_loop_eq pagetable va size pa ap :
  0 <= va -> 0 < size -> va + size <= 2 ^ 32 ->
  mappages pagetable va size pa ap =
  mappages_loop (S (extra_pages va size)) pagetable (va - va mod 4096)
    (va - va mod 4096 + 4096 * Z.of_nat (extra_pages va size)) pa ap.
Proof.
  intros. unfold mappages, extra_pages. rewrite !PGROUNDDOWN_eq, u64_small by lia.
  unfold PGSIZE. f_equal; [f_equal; f_equal; lia|lia].
Qed.

(** Mapping one page, the case the allocation routines use. *)
Lemma mappages_page s l t R a pa ap :
  vinv s l t (P2V pa :: R) -> ap_ok ap -> a mod 4096 = 0 -> 0 <= a -> a + 4096 <= 2 ^ 32 ->
  pa mod 4096 = 0 -> 0 < pa -> pa + 4096 <= 2 ^ 32 -> pt_map t !! vpn a = None ->
  exists r s' l' t', mappages (pt_root t) a PGSIZE pa ap s = Ok (r, s') /\
    pt_root t' = pt_root t /\ l ++ tables t ≡ₚ l' ++ tables t' /\
    only_pages (l ++ tables t) (kmem s) (kmem s') /\ (length l <= length l' + 2)%nat /\
    ((r = 0 /\ vinv s' l' t' R /\ pt_map t' = <[vpn a := (pa, ap)]> (pt_map t)) \/
     (r = -1 /\ l' = [] /\ vinv s' l' t' (P2V pa :: R) /\ pt_map t' = pt_map t)).
Proof.
  intros Hv Hap Ha1 Ha2 Ha3 Hp1 Hp2 Hp3 Hn. unfold PGSIZE.
  rewrite mappages_loop_eq by lia. rewrite Ha1, Z.sub_0_r.
  assert (extra_pages a 4096 = O) as -> by (unfold extra_pages; lia).
  destruct (mappages_loop_ok 0 1 s l t R a pa ap) as
    (r & k & s' & l' & t' & E & Hres & Hv' & Hroot & Hmap & Hperm & Hon & Hlen); try lia; try done.
  { intros w Hw. replace w with (vpn a) by lia. done. }
  exists r, s', l', t'. split_and!; try done.
  destruct Hres as [[-> ->]|(-> & Hk & ->)]; [left|right].
  - split_and!; try done.
  - assert (k = O) as -> by lia. split_and!; try done.
    replace (pa + 4096 * Z.of_nat 0) with pa in Hv' by lia. done.
Qed.

(** ** uvmunmap *)

Lemma perm_free_frame {A} (x : A) (l T F R : list A) :
  (x :: l) ++ T ++ F ++ R ≡ₚ l ++ T ++ (x :: F) ++ R.
Proof.
  simpl. rewrite (Permutation_middle l (T ++ F ++ R) x). f_equiv.
  by rewrite (Permutation_middle T (F ++ R) x).
Qed.

Lemma unmap_step s l t R va x :
  vinv s l t R -> pt_map t !! vpn va = Some x ->
  exists s', (kfree (leaf_frame x) ;;; store64 (pte_addr t va) 0) s = Ok (tt, s') /\
    vinv s' (leaf_frame x :: l) (upd_map t (vpn va) None) R /\
    only_pages (leaf_frame x :: tables t) (kmem s) (kmem s').
Proof.
  intros Hv Hx. destruct (vinv_disj _ _ _ _ Hv) as (Hlt & Hlf & HlR & Htf & HtR & HfR).
  destruct Hv as (Hwf & Hkl & Hpw & Hpm & HR & Hnd).
  pose proof (frame_in_frames _ _ _ Hx) as Hin.
  pose proof Hpw as (_ & _ & _ & Hmp). destruct (Hmp _ _ Hx) as (_ & [Hkf _] & [q Hq]).
  fold (leaf_frame x) in Hkf. assert (Hpf : page (leaf_frame x)) by apply Hkf.
  assert (Hnl : leaf_frame x ∉ l) by (intros H; by apply (Hlf (leaf_frame x))).
  pose proof (disj_singleton _ _ _ Htf Hin) as Hnt.
  destruct (kfree_ok s l (leaf_frame x)) as (s1 & E1 & Hwf1 & Hm1); [done..|].
  rewrite (bind_ok _ _ _ _ _ E1). eexists. split; [done|].
  pose proof (kpage_page _ (tables_kpage t Hpw)) as Htp.
  assert (Hm2 : only_pages (tables t) (kmem s1) (st64 (kmem s1) (pte_addr t va) 0))
    by (by eapply only_pages_pte).
  assert (Hpm1 : pt_mem (kmem s1) t).
  { eapply (pt_mem_frame [leaf_frame x]); eauto. }
  assert (Hndt : NoDup (tables t)).
  { apply NoDup_app in Hnd as (_ & _ & Hnd). by apply NoDup_app in Hnd as (? & _). }
  rewrite (frames_delete t (vpn va) x Hx) in Hnd.
  split; [split; [|split; [|split; [|split; [|split]]]]|].
  - apply (kwf_frame s1 _ _ (tables t)); [done..|].
    intros y [->|Hy]%elem_of_cons Hyt; [|by apply (Hlt y)].
    apply (Hnt (leaf_frame x)); [done|]. by apply list_elem_of_singleton.
  - by constructor.
  - eapply pt_wf_upd; eauto; [apply vpn_range|done].
  - by apply (pt_mem_store (kmem s1) t va q None).
  - done.
  - change (tables (upd_map t (vpn va) None)) with (tables t).
    by rewrite <- perm_free_frame in Hnd.
  - eapply only_pages_trans.
    + eapply only_pages_mono; [|exact Hm1]. clear. set_solver.
    + eapply only_pages_mono; [|exact Hm2]. clear. set_solver.
Qed.

(** Only the leaf map of the tree changed, and frames moved to the free list. *)
Definition freed (s : kst) (l : list Z) (t : ptree) (s' : kst) (l' : list Z) (t' : ptree)
    : Prop :=
  t' = set_map t (pt_map t') /\ l ++ frames t ≡ₚ l' ++ frames t' /\ l ⊆ l' /\
  only_pages (tables t ++ l') (kmem s) (kmem s').

Lemma freed_refl s l t : freed s l t s l t.
Proof. split_and!; [by destruct t|done|done|apply only_pages_refl]. Qed.

Lemma freed_tables s l t s' l' t' : freed s l t s' l' t' -> tables t' = tables t.
Proof. intros (-> & _). done. Qed.

Lemma freed_root s l t s' l' t' : freed s l t s' l' t' -> pt_root t' = pt_root t.
Proof. intros (-> & _). done. Qed.

Lemma uvmunmap_loop_ok n : forall fuel s l t R a,
  (n < fuel)%nat -> vinv s l t R ->
  a mod 4096 = 0 -> 0 <= a -> a + 4096 * Z.of_nat n <= 2 ^ 32 ->
  (forall w, a / 4096 <= w < a / 4096 + Z.of_nat n -> is_Some (pt_map t !! w)) ->
  exists s' l' t',
    uvmunmap_loop fuel (pt_root t) a (a + 4096 * Z.of_nat n) true s = Ok (tt, s') /\
    vinv s' l' t' R /\ pt_map t' = unmap_range (pt_map t) (a / 4096) n /\
    freed s l t s' l' t'.
Proof.
  induction n as [|n IH]; intros fuel s l t R a Hf Hv Ha1 Ha2 Ha3 Hm.
  all: destruct fuel as [|f]; [lia|]; cbn [uvmunmap_loop].
  { rewrite Z.mul_0_r, Z.add_0_r, Z.ltb_irrefl.
    exists s, l, t. split_and!; auto using freed_refl. }
  rewrite (proj2 (Z.ltb_lt _ _)) by lia.
  pose proof Hv as (_ & _ & Hpw & Hpm & _). pose proof Hpw as (_ & _ & _ & Hmp).
  destruct (Hm (a / 4096)) as [x Hx]; [lia|]. rewrite <- vpn_low in Hx by lia.
  destruct (Hmp _ _ Hx) as (_ & Hlw & [q Hq]).
  rewrite (bind_ok _ _ _ _ _ (walk_lookup s t a Hpw Hpm)).
  assert (Hnz : pte_addr t a <> 0).
  { unfold pte_addr. rewrite Hq. pose proof Hpw as (_ & _ & Hpt & _).
    destruct (Hpt _ _ Hq) as (_ & [[? _] _] & _). destruct (vpn_split a) as (_ & _ & _ & ?). lia. }
  rewrite (proj2 (Z.eqb_neq _ _) Hnz), (bind_ok _ _ _ _ _ (load_pte s t a q Hpm Hq)), Hx.
  destruct (enc_leaf_some x Hlw) as (_ & Hval & Hpg & Hpa & _).
  rewrite (proj2 (Z.eqb_neq _ _) Hval), (proj2 (Z.eqb_neq _ _) Hpg), Hpa.
  change (P2V x.1) with (leaf_frame x).
  destruct (unmap_step s l t R a x Hv Hx) as (s1 & E1 & Hv1 & Hm1).
  rewrite <- bind_assoc, (bind_ok _ _ _ _ _ E1).
  change (pt_root t) with (pt_root (upd_map t (vpn a) None)). unfold PGSIZE.
  replace (a + 4096 * Z.of_nat (S n)) with (a + 4096 + 4096 * Z.of_nat n) by lia.
  destruct (IH f s1 _ _ R (a + 4096) ltac:(lia) Hv1) as (s' & l' & t' & E & Hv' & Hmap & Hfr);
    try lia.
  { intros w Hw. simpl. rewrite lookup_partial_alter_ne by (rewrite vpn_low; lia).
    apply Hm. lia. }
  exists s', l', t'. split; [exact E|]. split; [done|].
  destruct Hfr as (Ht & Hp & Hll & Ho). split; [|split; [|split; [|split]]].
  - rewrite Hmap. simpl. rewrite vpn_low by lia. f_equal. lia.
  - exact Ht.
  - rewrite <- Hp, (frames_delete t (vpn a) x Hx). simpl. by rewrite Permutation_middle.
  - clear -Hll. set_solver.
  - eapply only_pages_trans.
    + eapply only_pages_mono; [|exact Hm1]. clear -Hll. set_solver.
    + exact Ho.
Qed.

Lemma uvmunmap_ok s l t R va n :
  vinv s l t R -> va mod 4096 = 0 -> 0 <= va -> 0 <= n -> va + 4096 * n <= 2 ^ 32 ->
  (forall w, va / 4096 <= w < va / 4096 + n -> is_Some (pt_map t !! w)) ->
  exists s' l' t', uvmunmap (pt_root t) va n true s = Ok (tt, s') /\
    vinv s' l' t' R /\ pt_map t' = unmap_range (pt_map t) (va / 4096) (Z.to_nat n) /\
    freed s l t s' l' t'.
Proof.
  intros Hv Ha1 Ha2 Hn Ha3 Hm. unfold uvmunmap, PGSIZE. rewrite Ha1. simpl negb. cbv iota.
  rewrite u64_small by lia.
  replace (va + n * 4096) with (va + 4096 * Z.of_nat (Z.to_nat n)) by lia.
  apply uvmunmap_loop_ok; try lia; try done. intros w Hw. apply Hm. lia.
Qed.

(** ** Properties *)

(** On a range with no mapping yet, [mappages] either maps every page
    of it to consecutive frames with the given permission and returns 0, or
    returns -1 because memory ran out, having mapped a prefix; nothing else of the
    address space, and no page owned by others, changes, and at most two table
    pages are taken for every page mapped. *)
Theorem mappages_maps s l t R va size pa ap :
  let n := extra_pages va size in
  vinv s l t (frame_range pa (S n) ++ R) -> ap_ok ap ->
  0 <= va -> 0 < size -> va + size <= 2 ^ 32 ->
  pa mod 4096 = 0 -> 0 < pa -> pa + 4096 * (Z.of_nat n + 1) <= 2 ^ 32 ->
  (forall w, va / 4096 <= w <= va / 4096 + Z.of_nat n -> pt_map t !! w = None) ->
  exists r k s' l' t', mappages (pt_root t) va size pa ap s = Ok (r, s') /\
    (r = 0 /\ k = S n \/ r = -1 /\ (k <= n)%nat /\ l' = []) /\
    vinv s' l' t' (frame_range (pa + 4096 * Z.of_nat k) (S n - k) ++ R) /\
    pt_map t' = map_range (pt_map t) (va / 4096) pa ap k /\
    only_pages (l ++ tables t) (kmem s) (kmem s') /\
    (length l <= length l' + 2 * S n)%nat.
Proof.
  intros n Hv Hap Hva Hsz Hend Hp1 Hp2 Hp3 Hn.
  assert (Hnn : Z.of_nat n = (va + size - 1) / 4096 - va / 4096) by (unfold n, extra_pages; lia).
  rewrite mappages_loop_eq by lia. fold n. set (a := va - va mod 4096).
  assert (Ha : a mod 4096 = 0 /\ 0 <= a /\ a / 4096 = va / 4096 /\
    a + 4096 * (Z.of_nat n + 1) <= 2 ^ 32) by (unfold a; lia).
  destruct Ha as (Ha1 & Ha2 & Ha3 & Ha4).
  destruct (mappages_loop_ok n (S n) s l t R a pa ap) as
    (r & k & s' & l' & t' & E & Hres & Hv' & _ & Hmap & _ & Hon & Hlen); try lia; try done.
  { intros w Hw. rewrite vpn_low in Hw by lia. apply Hn. lia. }
  exists r, k, s', l', t'. split_and!; try done. by rewrite Hmap, vpn_low, Ha3 by lia.
Qed.

(** [mappages] never overwrites a mapping: if the first page of the range
    is mapped it panics. *)
Theorem mappages_remap s l t R va size pa ap :
  vinv s l t R -> 0 <= va -> 0 < size -> va + size <= 2 ^ 32 ->
  is_Some (pt_map t !! (va / 4096)) ->
  mappages (pt_root t) va size pa ap s = Panic "remap".
Proof.
  intros Hv Hva Hsz Hend [x Hx]. rewrite mappages_loop_eq by lia. cbn [mappages_loop].
  pose proof Hv as (_ & _ & Hpw & Hpm & _). pose proof Hpw as (_ & _ & Hpt & Hmp).
  set (a := va - va mod 4096). assert (Hva' : vpn a = va / 4096) by (unfold a; rewrite vpn_low; lia).
  rewrite <- Hva' in Hx. destruct (Hmp _ _ Hx) as (_ & Hlw & [q Hq]).
  erewrite bind_ok by (by eapply (walk_present s t a true q)).
  assert (Hnz : pte_addr t a <> 0).
  { unfold pte_addr. rewrite Hq. destruct (Hpt _ _ Hq) as (_ & [[? _] _] & _).
    destruct (vpn_split a) as (_ & _ & _ & ?). lia. }
  rewrite (proj2 (Z.eqb_neq _ _) Hnz).
  rewrite (bind_ok _ _ _ _ _ (load_pte s t a q Hpm Hq)), Hx.
  destruct (enc_leaf_some x Hlw) as (Hv1 & _).
  by rewrite (proj2 (Z.eqb_neq _ _) Hv1).
Qed.

(** Unmapping mapped pages removes exactly those mappings and puts
    their frames, and no other page, on the free list; memory changes only in the
    tables and in pages that are free afterwards. *)
Theorem uvmunmap_frees s l t R va n :
  vinv s l t R -> va mod 4096 = 0 -> 0 <= va -> 0 <= n -> va + 4096 * n <= 2 ^ 32 ->
  (forall w, va / 4096 <= w < va / 4096 + n -> is_Some (pt_map t !! w)) ->
  exists s' l' t', uvmunmap (pt_root t) va n true s = Ok (tt, s') /\
    vinv s' l' t' R /\ pt_map t' = unmap_range (pt_map t) (va / 4096) (Z.to_nat n) /\
    l ++ frames t ≡ₚ l' ++ frames t' /\ tables t' = tables t /\
    only_pages (tables t ++ l') (kmem s) (kmem s').
Proof.
  intros Hv Ha1 Ha2 Hn Ha3 Hm.
  destruct (uvmunmap_ok s l t R va n) as (s' & l' & t' & E & Hv' & Hmap & Hfr); try done.
  exists s', l', t'. split_and!; try done; [by apply Hfr|by eapply freed_tables|by apply Hfr].
Qed.
