(* ===== verification/VmUser.v ===== *)
(** User address spaces: growing ([uvmalloc]), shrinking ([uvmdealloc]),
    duplicating ([uvmcopy]) and destroying ([uvmfree], [freewalk]) them.  The
    specification of an address space of size [sz] is [uspace]: exactly the page
    numbers below [PGROUNDUP sz] are mapped. *)

From S2P Require Import Prelude Mem KString Mmu Kalloc Vm VmTree VmMap.

(** ** Allocation steps in a state with a page table *)

Lemma perm_alloc_page {A} (x : A) (l T F R : list A) :
  (x :: l) ++ T ++ F ++ R ≡ₚ l ++ T ++ F ++ x :: R.
Proof.
  rewrite perm_free_frame. do 2 f_equiv. simpl. by rewrite Permutation_middle.
Qed.

Lemma vinv_kalloc s p l t R :
  vinv s (p :: l) t R ->
  exists s', kalloc s = Ok (p, s') /\ vinv s' l t (p :: R) /\ kpage p /\
    zero_page (kmem s') p /\ only_pages [p] (kmem s) (kmem s').
Proof.
  intros Hv. destruct (vinv_cons_new _ _ _ _ _ Hv) as (Hk & Hnl & Hnt & Hnf & HnR).
  destruct Hv as (Hwf & Hkl & Hpw & Hpm & HR & Hnd).
  destruct (kalloc_cons s p l Hwf) as (s' & E & Hwf' & Hp & _ & Hz & Hm).
  exists s'. apply Forall_cons in Hkl as [_ Hkl].
  split; [done|]. split; [|by split_and!]. split_and!; try done.
  - eapply (pt_mem_frame [p]); eauto. set_solver.
  - by constructor.
  - by rewrite perm_alloc_page in Hnd.
Qed.

Lemma vinv_kalloc_nil s t R : vinv s [] t R -> kalloc s = Ok (0, s).
Proof. intros (Hwf & _). by apply kalloc_nil. Qed.

Lemma vinv_kfree s p l t R :
  vinv s l t (p :: R) -> kpage p ->
  exists s', kfree p s = Ok (tt, s') /\ vinv s' (p :: l) t R /\
    only_pages [p] (kmem s) (kmem s').
Proof.
  intros Hv Hk. destruct (vinv_disj _ _ _ _ Hv) as (_ & _ & HlR & _ & HtR & _).
  destruct Hv as (Hwf & Hkl & Hpw & Hpm & HR & Hnd).
  apply Forall_cons in HR as [Hp HR].
  destruct (kfree_ok s l p Hwf Hp) as (s' & E & Hwf' & Hm); [set_solver|].
  exists s'. split; [done|]. split; [|done]. split_and!; try done.
  - by constructor.
  - eapply (pt_mem_frame [p]); eauto. set_solver.
  - by rewrite perm_alloc_page.
Qed.

(** Writing into pages owned by others, or into user frames. *)
Lemma vinv_write s l t R m' ps :
  vinv s l t R -> only_pages ps (kmem s) m' -> ps ⊆ frames t ++ R ->
  vinv (mkkst m' (freelist s)) l t R.
Proof.
  intros Hv Hm Hps. destruct (vinv_disj _ _ _ _ Hv) as (_ & HlF & HlR & HtF & HtR & _).
  destruct Hv as (Hwf & Hkl & Hpw & Hpm & HR & Hnd).
  assert (Hpp : Forall page ps).
  { pose proof (kpage_page _ (frames_kpage t Hpw)) as HF.
    apply Forall_forall. intros x Hx%Hps. rewrite Forall_forall in HF, HR.
    apply elem_of_app in Hx as [|]; auto. }
  split_and!; try done; simpl.
  - eapply kwf_frame; eauto. clear -HlF HlR Hps. set_solver.
  - eapply (pt_mem_frame ps); eauto. clear -HtF HtR Hps. set_solver.
Qed.

Lemma only_pages_zero ps m m' p :
  only_pages ps m m' -> Forall page ps -> page p -> p ∉ ps ->
  zero_page m p -> zero_page m' p.
Proof. intros Hm Hps Hp Hn Hz a Ha. rewrite <- (Hz a Ha). by eapply only_pages_ldb. Qed.

Lemma pt_mem_keeps m m' t : pt_wf t -> keeps (tables t) m m' -> pt_mem m t -> pt_mem m' t.
Proof.
  intros (Hr & Hp & Hq & _) Hk (M1 & M2 & M3).
  assert (Hw : forall p j, p ∈ tables t -> 0 <= j < 512 -> ld64 m' (p + 8 * j) = ld64 m (p + 8 * j)).
  { intros p j Hpt Hj. apply ld64_ext. intros i Hi. apply (Hk p); [done|]. unfold in_page. lia. }
  split_and!.
  - intros i Hi. rewrite Hw by (eauto with xv6 || lia). by apply M1.
  - intros i p j Hi Hj. rewrite Hw by eauto with xv6. by apply (M2 i p).
  - intros i p j Hi Hj. rewrite Hw by eauto with xv6. by apply (M3 i p).
Qed.

Lemma flist_keeps m m' hd l : keeps l m m' -> flist m hd l -> flist m' hd l.
Proof.
  revert hd. induction l as [|p l IH]; intros hd Hk; simpl; [done|]. intros (-> & Hp & Hl).
  split_and!; [done|done|]. assert (ld64 m' p = ld64 m p) as ->.
  { apply ld64_ext. intros i Hi. apply (Hk p); [by left|]. unfold in_page. lia. }
  apply IH; [|done]. eapply keeps_mono; [|exact Hk]. clear. set_solver.
Qed.

(** The representation only depends on the free pages and the tables. *)
Lemma vinv_keeps_own s l t R m' :
  vinv s l t R -> keeps (l ++ tables t) (kmem s) m' -> vinv (mkkst m' (freelist s)) l t R.
Proof.
  intros ([Hf Hndl] & Hkl & Hpw & Hpm & HR & Hnd) Hk. split_and!; try done; simpl.
  - split; [|done]. eapply flist_keeps; [|exact Hf]. eapply keeps_mono; [|exact Hk]. clear. set_solver.
  - eapply pt_mem_keeps; [done| |done]. eapply keeps_mono; [|exact Hk]. clear. set_solver.
Qed.

(** ** Address spaces of a given size *)

Definition npages (sz : Z) : Z := (sz + 4095) / 4096.

Definition uspace (t : ptree) (sz : Z) : Prop :=
  forall w, is_Some (pt_map t !! w) <-> 0 <= w < npages sz.

Lemma uspace_npages t sz sz' : npages sz = npages sz' -> uspace t sz -> uspace t sz'.
Proof. intros E H w. rewrite <- E. apply H. Qed.

Lemma uspace_none t sz w : uspace t sz -> npages sz <= w -> pt_map t !! w = None.
Proof.
  intros H Hw. apply eq_None_not_Some. intros Hs. apply H in Hs. lia.
Qed.

Lemma PGROUNDUP_npages sz : 0 <= sz -> sz + 4095 < 2 ^ 64 -> PGROUNDUP sz = npages sz * 4096.
Proof. intros. unfold npages. by apply PGROUNDUP_eq. Qed.

Lemma npages_round n : 0 <= n -> npages (n * 4096) = n.
Proof. unfold npages. lia. Qed.

(** The routine that shrinks: on an address space of size [oldsz] it leaves one of
    size [newsz], with the remaining mappings untouched. *)
Lemma uvmdealloc_ok s l t R oldsz newsz :
  vinv s l t R -> 0 <= newsz -> 0 <= oldsz <= 2 ^ 32 - 4096 ->
  (forall w, npages newsz <= w < npages oldsz -> is_Some (pt_map t !! w)) ->
  exists s' l' t', uvmdealloc (pt_root t) oldsz newsz s = Ok (Z.min oldsz newsz, s') /\
    vinv s' l' t' R /\
    pt_map t' = unmap_range (pt_map t) (npages newsz) (Z.to_nat (npages oldsz - npages newsz)) /\
    freed s l t s' l' t'.
Proof.
  intros Hv Hn Ho Hm. unfold uvmdealloc.
  destruct (Z.leb_spec oldsz newsz) as [Hle|Hgt].
  { assert (Z.to_nat (npages oldsz - npages newsz) = O) as -> by (unfold npages; lia).
    rewrite Z.min_l by done. exists s, l, t. split_and!; auto using freed_refl. }
  rewrite Z.min_r by lia.
  rewrite !PGROUNDUP_npages by lia.
  destruct (Z.ltb_spec (npages newsz * 4096) (npages oldsz * 4096)) as [Hlt|Hge].
  - assert (Hs : s32 ((npages oldsz * 4096 - npages newsz * 4096) / PGSIZE)
      = npages oldsz - npages newsz).
    { unfold PGSIZE. rewrite s32_small; unfold npages in *; lia. }
    rewrite Hs, u64_small by (unfold npages in *; lia).
    destruct (uvmunmap_ok s l t R (npages newsz * 4096) (npages oldsz - npages newsz))
      as (s' & l' & t' & E & Hv' & Hmap & Hfr); try done.
    1-4: unfold npages in *; lia.
    { intros w Hw. apply Hm. lia. }
    rewrite (bind_ok _ _ _ _ _ E). exists s', l', t'. split_and!; try done.
    by rewrite Hmap, Z.div_mul.
  - assert (Z.to_nat (npages oldsz - npages newsz) = O) as -> by lia.
    exists s, l, t. split_and!; auto using freed_refl.
Qed.

Lemma uspace_unmap t t' oldsz newsz :
  uspace t oldsz -> 0 <= newsz -> npages newsz <= npages oldsz ->
  pt_map t' = unmap_range (pt_map t) (npages newsz) (Z.to_nat (npages oldsz - npages newsz)) ->
  uspace t' newsz /\ (forall w, w < npages newsz -> pt_map t' !! w = pt_map t !! w).
Proof.
  intros Hu Hn Hle Hm. split.
  - intros w. rewrite Hm, lookup_unmap_range. case_decide.
    + split; [by intros []|lia].
    + rewrite (Hu w). lia.
  - intros w Hw. rewrite Hm, lookup_unmap_range. by case_decide; [lia|].
Qed.

Definition owned (t : ptree) : list Z := tables t ++ frames t.

(** What neither the free list nor the tables own is not touched. *)
Lemma vinv_keeps s l t R ps m m' :
  vinv s l t R -> only_pages ps m m' -> ps ⊆ l ++ tables t -> keeps (frames t ++ R) m m'.
Proof.
  intros Hv Hm Hps. destruct (vinv_disj _ _ _ _ Hv) as (_ & HlF & HlR & HtF & HtR & _).
  pose proof Hv as (_ & Hkl & Hpw & _ & HR & _).
  apply (only_pages_keeps (l ++ tables t)).
  - by eapply only_pages_mono.
  - apply Forall_app. eauto with xv6.
  - apply Forall_app. eauto with xv6.
  - clear -HlF HlR HtF HtR. set_solver.
Qed.

Lemma frames_sub t t0 : pt_map t0 ⊆ pt_map t -> frames t0 ⊆ frames t.
Proof.
  intros Hs x Hx. apply elem_of_mvals in Hx as (i & y & Hy & ->).
  eapply frame_in_frames. by eapply lookup_weaken.
Qed.

(** The state [s'], free list [l'] and tree [t'] reached from [s], [l], [t]: the
    invariant holds, no page was lost or invented, and the pages [U] are untouched. *)
Definition evolves (U R : list Z) (s : kst) (l : list Z) (t : ptree)
    (s' : kst) (l' : list Z) (t' : ptree) : Prop :=
  vinv s' l' t' R /\ pt_root t' = pt_root t /\ l ++ owned t ≡ₚ l' ++ owned t' /\
  keeps U (kmem s) (kmem s').

Lemma evolves_refl U R s l t : vinv s l t R -> evolves U R s l t s l t.
Proof. intros H. split_and!; auto with xv6. Qed.

Lemma evolves_trans U R s l t s1 l1 t1 s2 l2 t2 :
  evolves U R s l t s1 l1 t1 -> evolves U R s1 l1 t1 s2 l2 t2 -> evolves U R s l t s2 l2 t2.
Proof.
  intros (_ & Hr1 & Hp1 & Hk1) (Hv & Hr2 & Hp2 & Hk2). split_and!; [done|congruence| |].
  - by rewrite Hp1.
  - by eapply keeps_trans.
Qed.

Lemma evolves_mono U U' R s l t s' l' t' :
  U' ⊆ U -> evolves U R s l t s' l' t' -> evolves U' R s l t s' l' t'.
Proof. intros HU (? & ? & ? & ?). split_and!; eauto using keeps_mono. Qed.

(** Freeing user frames is such a change; what is left mapped is untouched. *)
Lemma freed_evolves s l t R s' l' t' :
  vinv s' l' t' R -> freed s l t s' l' t' -> evolves (frames t' ++ R) R s l t s' l' t'.
Proof.
  intros Hv Hfr. pose proof (freed_tables _ _ _ _ _ _ Hfr) as Ht.
  split_and!; [done|by eapply freed_root| |].
  - destruct Hfr as (_ & Hp & _). unfold owned. rewrite Ht. clear -Hp. perm_solve.
  - destruct Hfr as (_ & _ & _ & Ho). eapply vinv_keeps; [done..|]. rewrite Ht. clear. set_solver.
Qed.

(** ** uvmalloc *)

(** The address space reached when the loop of [uvmalloc] is at [a]: the old
    mappings, and zeroed frames for the pages from [lo] to [a]. *)
Definition grown_to (t0 : ptree) (lo hi : Z) (s : kst) (t : ptree) : Prop :=
  (forall w, ~ (lo <= w < hi) -> pt_map t !! w = pt_map t0 !! w) /\
  (forall w, lo <= w < hi -> exists pa, pt_map t !! w = Some ((pa, AP_1) : leaf) /\
     zero_page (kmem s) (P2V pa)).

Lemma uvmalloc_undo s l t R t0 n0 n :
  vinv s l t R -> 0 <= n0 <= n -> n * 4096 <= 2 ^ 32 - 4096 ->
  (forall w, ~ (n0 <= w < n) -> pt_map t !! w = pt_map t0 !! w) ->
  (forall w, n0 <= w < n -> is_Some (pt_map t !! w)) ->
  (forall w, n0 <= w -> pt_map t0 !! w = None) ->
  exists s' l' t', uvmdealloc (pt_root t) (n * 4096) (n0 * 4096) s = Ok (n0 * 4096, s') /\
    pt_map t' = pt_map t0 /\ evolves (frames t0 ++ R) R s l t s' l' t'.
Proof.
  intros Hv Hn Hmax Hold Hnew H0.
  destruct (uvmdealloc_ok s l t R (n * 4096) (n0 * 4096)) as (s' & l' & t' & E & Hv' & Hmap & Hfr);
    try done; try lia.
  { rewrite !npages_round by lia. done. }
  rewrite !npages_round in Hmap by lia. rewrite Z.min_r in E by lia.
  assert (Hm' : pt_map t' = pt_map t0).
  { rewrite Hmap. apply map_eq. intros w. rewrite lookup_unmap_range. case_decide.
    - symmetry. apply H0. lia.
    - apply Hold. lia. }
  exists s', l', t'. split_and!; try done. unfold frames at 1. rewrite <- Hm'.
  by apply freed_evolves.
Qed.

(** Allocate a frame, fill it, map it: the body shared by the loops of [uvmalloc]
    and [uvmcopy].  [m1] is the memory after the frame [p] was filled. *)
Lemma alloc_map s p l t R a ap :
  vinv s (p :: l) t R -> ap_ok ap -> a mod 4096 = 0 -> 0 <= a -> a + 4096 <= 2 ^ 32 ->
  pt_map t !! vpn a = None ->
  exists s1, kalloc s = Ok (p, s1) /\ kpage p /\ zero_page (kmem s1) p /\
    only_pages [p] (kmem s) (kmem s1) /\
  forall m1, only_pages [p] (kmem s1) m1 ->
  exists r s2 l2 t2,
    mappages (pt_root t) a PGSIZE (V2P p) ap (mkkst m1 (freelist s1)) = Ok (r, s2) /\
    (forall x, in_page p x -> ldb (kmem s2) x = ldb m1 x) /\
    ((r = 0 /\ pt_map t2 = <[vpn a := (V2P p, ap)]> (pt_map t) /\
      (length l <= length l2 + 2)%nat /\
      evolves (frames t ++ R) R s (p :: l) t s2 l2 t2) \/
     (r = -1 /\ (length l <= 2)%nat /\ pt_map t2 = pt_map t /\ pt_root t2 = pt_root t /\
      exists s3, kfree p s2 = Ok (tt, s3) /\
        evolves (frames t ++ R) R s (p :: l) t s3 [p] t2)).
Proof.
  intros Hv Hap Ha1 Ha2 Ha3 Hn.
  destruct (vinv_cons_new _ _ _ _ _ Hv) as (_ & Hnl & Hnt & _).
  destruct (vinv_kalloc s p l t R Hv) as (s1 & E1 & Hv1 & Hk & Hz & Hm1).
  exists s1. split_and!; try done; [by apply Hk..|]. intros m1 Hm.
  assert (Hv2 : vinv (mkkst m1 (freelist s1)) l t (p :: R)).
  { apply (vinv_write s1 l t (p :: R) m1 [p]); [done|done|]. clear. set_solver. }
  destruct (V2P_kpage p Hk) as (_ & Hr & Hal).
  rewrite <- (P2V_V2P p Hk) in Hv2 at 1.
  destruct (mappages_page _ l t R a (V2P p) ap Hv2) as (r & s2 & l2 & t2 & E2 & Hroot & Hp2 & Ho2 & Hlen & H);
    try lia; try done. simpl in Ho2.
  pose proof Hv as (_ & Hkl & Hpw & _). apply Forall_cons in Hkl as [_ Hkl].
  assert (Hpp : Forall page (l ++ tables t)).
  { apply Forall_app. split; apply kpage_page; [done|by apply tables_kpage]. }
  assert (Ho : only_pages (p :: l ++ tables t) (kmem s) (kmem s2)).
  { eapply only_pages_trans; [eapply only_pages_trans|].
    - eapply only_pages_mono; [|exact Hm1]. clear. set_solver.
    - eapply only_pages_mono; [|exact Hm]. clear. set_solver.
    - eapply only_pages_mono; [|exact Ho2]. clear. set_solver. }
  exists r, s2, l2, t2. split; [done|]. split.
  { intros x Hx. eapply only_pages_ldb; eauto; [apply Hk|]. clear -Hnl Hnt. set_solver. }
  destruct H as [(-> & Hv3 & Hmap)|(-> & -> & Hv3 & Hmap)]; [left|right].
  - do 3 (split; [done|]). split_and!; try done.
    + unfold owned. assert (frames t2 ≡ₚ p :: frames t) as ->.
      { unfold frames. rewrite Hmap, mvals_insert by done. unfold leaf_frame. simpl.
        by rewrite P2V_V2P. }
      clear -Hp2. perm_solve.
    + eapply vinv_keeps; [exact Hv|exact Ho|]. clear. set_solver.
  - split_and!; try done. rewrite P2V_V2P in Hv3 by done.
    destruct (vinv_kfree s2 p [] t2 R Hv3 Hk) as (s3 & E3 & Hv4 & Hm4).
    exists s3. split; [done|]. split_and!; try done.
    + unfold owned, frames. rewrite Hmap. clear -Hp2. perm_solve.
    + eapply vinv_keeps; [exact Hv| |].
      * eapply only_pages_trans; [exact Ho|]. eapply only_pages_mono; [|exact Hm4].
        clear. set_solver.
      * clear. set_solver.
Qed.

Lemma grown_to_sub s0 t0 lo hi t :
  (forall w, lo <= w -> pt_map t0 !! w = None) -> grown_to t0 lo hi s0 t ->
  pt_map t0 ⊆ pt_map t.
Proof.
  intros Hn [Ho _]. apply map_subseteq_spec. intros w x Hw. rewrite Ho; [done|].
  intros ?. rewrite Hn in Hw by lia. done.
Qed.

Lemma grown_to_step s s' t0 t t' lo hi p :
  grown_to t0 lo hi s t -> pt_map t' = <[hi := (V2P p, AP_1)]> (pt_map t) -> lo <= hi ->
  kpage p -> zero_page (kmem s') p -> keeps (frames t) (kmem s) (kmem s') ->
  grown_to t0 lo (hi + 1) s' t'.
Proof.
  intros [Ho Hz] Hm Hle Hp Hzp Hk. split.
  - intros w Hw. rewrite Hm, lookup_insert_ne by lia. apply Ho. lia.
  - intros w Hw. rewrite Hm. destruct (decide (w = hi)) as [->|Hne].
    + rewrite lookup_insert_eq. exists (V2P p). by rewrite P2V_V2P.
    + rewrite lookup_insert_ne by done. destruct (Hz w) as (pa & Hpa & Hzw); [lia|].
      exists pa. split; [done|]. intros a Ha. rewrite <- (Hzw a Ha).
      apply (Hk (P2V pa)); [|done]. by apply (frame_in_frames _ _ _ Hpa).
Qed.

Lemma uvmalloc_loop_ok t0 R n0 newsz n : forall fuel s l t hi,
  (n < fuel)%nat -> vinv s l t R -> 0 <= n0 <= hi -> newsz <= 2 ^ 32 - 4096 ->
  Z.of_nat n = npages newsz - hi -> grown_to t0 n0 hi s t ->
  (forall w, n0 <= w -> pt_map t0 !! w = None) ->
  exists r s' l' t',
    uvmalloc_loop fuel (pt_root t) (hi * 4096) (n0 * 4096) newsz s = Ok (r, s') /\
    evolves (frames t0 ++ R) R s l t s' l' t' /\
    (r = newsz /\ grown_to t0 n0 (npages newsz) s' t' \/
     r = 0 /\ pt_map t' = pt_map t0 /\ (length l <= 3 * n)%nat).
Proof.
  induction n as [|n IH]; intros fuel s l t hi Hf Hv Hn0 Hmax Hn Hg H0.
  all: destruct fuel as [|f]; [lia|]; cbn [uvmalloc_loop].
  { rewrite (proj2 (Z.ltb_ge _ _)) by (unfold npages in *; lia).
    assert (hi = npages newsz) as -> by lia.
    exists newsz, s, l, t. split_and!; auto using evolves_refl. }
  rewrite (proj2 (Z.ltb_lt _ _)) by (unfold npages in *; lia).
  assert (Hfs : frames t0 ++ R ⊆ frames t ++ R).
  { pose proof (frames_sub _ _ (grown_to_sub _ _ _ _ _ H0 Hg)) as Hfs. clear -Hfs. set_solver. }
  assert (Hsome : forall w, n0 <= w < hi -> is_Some (pt_map t !! w)).
  { intros w Hw. destruct (proj2 Hg w Hw) as (pa & E & _). by eexists. }
  assert (Hhi : hi * 4096 <= 2 ^ 32 - 8192) by (unfold npages in *; lia).
  assert (Hvpn : vpn (hi * 4096) = hi) by (rewrite vpn_low; lia).
  destruct l as [|p l].
  { rewrite (bind_ok _ _ _ _ _ (vinv_kalloc_nil _ _ _ Hv)), Z.eqb_refl.
    destruct (uvmalloc_undo s [] t R t0 n0 hi) as (s' & l' & t' & E & Hm' & Hev);
      try done; [lia|apply Hg|].
    rewrite (bind_ok _ _ _ _ _ E). exists 0, s', l', t'. split_and!; auto.
    right. split_and!; auto. simpl. lia. }
  destruct (alloc_map s p l t R (hi * 4096) AP_1) as (s1 & E1 & Hk & Hz1 & Ho1 & Hmp); try done.
  1: by right; left. 1-3: lia.
  { rewrite Hvpn, (proj1 Hg) by lia. apply H0. lia. }
  rewrite (bind_ok _ _ _ _ _ E1), (kpage_eqb p Hk).
  destruct (Hmp (memset (kmem s1) p 0 PGSIZE)) as (r & s2 & l2 & t2 & E2 & Hp2 & H).
  { apply only_pages_memset. }
  rewrite (bind_ok _ _ _ tt (mkkst (memset (kmem s1) p 0 PGSIZE) (freelist s1))) by done.
  rewrite (bind_ok _ _ _ _ _ E2), Hvpn in *.
  destruct H as [(-> & Hm2 & Hlen & Hev)|(-> & Hlen & Hm2 & Hroot & s3 & E3 & Hev)].
  - pose proof Hev as (Hv2 & Hroot & _ & Hk2).
    assert (Hg' : grown_to t0 n0 (hi + 1) s2 t2).
    { apply (grown_to_step s _ _ t _ _ _ p); [exact Hg|exact Hm2|lia|exact Hk| |].
      - intros a Ha. rewrite (Hp2 a Ha). by apply (zero_page_memset (kmem s1) p).
      - eapply keeps_mono; [|exact Hk2]. clear. set_solver. }
    destruct (IH f s2 l2 t2 (hi + 1) ltac:(lia) Hv2 ltac:(lia) Hmax ltac:(lia) Hg' H0)
      as (r & s' & l' & t' & E & Hev' & H).
    rewrite Hroot in E. replace ((hi + 1) * 4096) with (hi * 4096 + PGSIZE) in E
      by (unfold PGSIZE; lia).
    exists r, s', l', t'. split; [exact E|].
    split; [|destruct H as [?|(? & ? & ?)]; [by left|right; split_and!; auto; simpl; lia]].
    eapply evolves_trans; [|exact Hev']. by eapply evolves_mono.
  - change (negb (-1 =? 0)) with true. cbv iota.
    rewrite (bind_ok _ _ _ _ _ E3). pose proof Hev as (Hv3 & _).
    destruct (uvmalloc_undo s3 [p] t2 R t0 n0 hi Hv3 Hn0 ltac:(lia)) as (s' & l' & t' & E & Hm' & Hev').
    1-2: rewrite Hm2; apply Hg || exact Hsome. 1: exact H0.
    rewrite Hroot in E. rewrite (bind_ok _ _ _ _ _ E). exists 0, s', l', t'.
    split; [reflexivity|]. split; [|right; split_and!; [reflexivity|exact Hm'|simpl; lia]]. eapply evolves_trans; [|exact Hev']. by eapply evolves_mono.
Qed.

(** ** Properties *)

(** C23: growing an address space of [oldsz] bytes to [newsz] either maps
    every new page to its own zero-filled frame and returns [newsz], or, only
    when fewer than three pages per new page were free, returns 0 and leaves the
    mappings as they were; in both cases the existing frames and everybody
    else's pages keep their contents and no page is lost. *)
Theorem uvmalloc_grows s l t R oldsz newsz :
  vinv s l t R -> uspace t oldsz -> 0 <= oldsz <= newsz -> newsz <= 2 ^ 32 - 4096 ->
  exists r s' l' t', uvmalloc (pt_root t) oldsz newsz s = Ok (r, s') /\
    evolves (frames t ++ R) R s l t s' l' t' /\
    (r = newsz /\ uspace t' newsz /\ grown_to t (npages oldsz) (npages newsz) s' t' \/
     r = 0 /\ pt_map t' = pt_map t /\
     Z.of_nat (length l) <= 3 * (npages newsz - npages oldsz)).
Proof.
  intros Hv Hu Ho Hmax. unfold uvmalloc. rewrite (proj2 (Z.ltb_ge _ _)) by lia.
  rewrite PGROUNDUP_npages by lia.
  assert (Hnp : npages oldsz <= npages newsz /\ 0 <= npages oldsz) by (unfold npages; lia).
  destruct (uvmalloc_loop_ok t R (npages oldsz) newsz (Z.to_nat (npages newsz - npages oldsz))
    (S (Z.to_nat ((newsz - npages oldsz * 4096 + PGSIZE - 1) / PGSIZE))) s l t (npages oldsz))
    as (r & s' & l' & t' & E & Hev & H); try done; try lia.
  { unfold PGSIZE, npages in *. lia. }
  { split; [done|intros; lia]. }
  { intros w Hw. by eapply uspace_none. }
  exists r, s', l', t'. split_and!; [done..|].
  destruct H as [[-> [G1 G2]]|(-> & Hm & Hl)]; [left|right; split_and!; auto; lia].
  split; [done|]. split; [|by split]. intros w.
  destruct (decide (npages oldsz <= w < npages newsz)) as [Hw|Hw].
  - destruct (G2 w Hw) as (pa & -> & _). split; [lia|by eexists].
  - rewrite (G1 w Hw), (Hu w). lia.
Qed.

(** Shrinking an address space of [oldsz] bytes to [newsz] leaves one
    of [newsz] bytes with the remaining mappings and their contents unchanged;
    every frame that was dropped is on the free list. *)
Theorem uvmdealloc_shrinks s l t R oldsz newsz :
  vinv s l t R -> uspace t oldsz -> 0 <= newsz <= oldsz -> oldsz <= 2 ^ 32 - 4096 ->
  exists s' l' t', uvmdealloc (pt_root t) oldsz newsz s = Ok (newsz, s') /\
    uspace t' newsz /\ (forall w, w < npages newsz -> pt_map t' !! w = pt_map t !! w) /\
    tables t' = tables t /\ l ++ frames t ≡ₚ l' ++ frames t' /\
    evolves (frames t' ++ R) R s l t s' l' t'.
Proof.
  intros Hv Hu Hn Hmax.
  destruct (uvmdealloc_ok s l t R oldsz newsz) as (s' & l' & t' & E & Hv' & Hm & Hfr);
    try done; try lia.
  { intros w Hw. apply Hu. unfold npages in *. lia. }
  rewrite Z.min_r in E by lia.
  destruct (uspace_unmap t t' oldsz newsz) as [Hu' Hk]; try done; [unfold npages; lia..|].
  exists s', l', t'. split_and!; try done; [by eapply freed_tables|by apply Hfr|].
  by apply freed_evolves.
Qed.
