(* ===== verification/VmFree.v ===== *)
(** Destroying address spaces: [freewalk] returns every table page of an empty
    page table to the allocator, [uvmfree] every frame and every table. *)

From S2P Require Import Prelude Mem KString Mmu Kalloc Vm VmTree VmMap VmUser.

(** ** Looking up all the keys of a finite map *)

Lemma omap_ext_in {A B} (f g : A -> option B) (ks : list A) :
  (forall k, k ∈ ks -> f k = g k) -> omap f ks = omap g ks.
Proof.
  induction ks as [|k ks IH]; intros H; [done|]. csimpl.
  rewrite (H k) by set_solver. rewrite IH; [done|]. intros k' Hk'. apply H. set_solver.
Qed.

Lemma omap_insert_key (m : gmap Z Z) i x (ks : list Z) :
  m !! i = None -> NoDup ks -> i ∈ ks ->
  omap (fun k => <[i := x]> m !! k) ks ≡ₚ x :: omap (fun k => m !! k) ks.
Proof.
  intros Hn Hnd Hi. apply list_elem_of_split in Hi as (k1 & k2 & ->).
  apply NoDup_app in Hnd as (_ & Hd & [H2 _]%NoDup_cons).
  rewrite !omap_app. csimpl. rewrite lookup_insert_eq, Hn.
  rewrite <- Permutation_middle. f_equiv. f_equiv.
  - erewrite omap_ext_in; [done|]. intros k Hk. simpl. apply lookup_insert_ne.
    intros <-. apply (Hd i Hk). set_solver.
  - erewrite omap_ext_in; [done|]. intros k Hk. simpl. apply lookup_insert_ne.
    intros <-. done.
Qed.

Lemma omap_all_keys (m : gmap Z Z) (ks : list Z) :
  NoDup ks -> (forall i x, m !! i = Some x -> i ∈ ks) ->
  omap (fun k => m !! k) ks ≡ₚ mvals id m.
Proof.
  intros Hnd. induction m as [|i x m Hi IH] using map_ind; intros Hk.
  - unfold mvals. rewrite map_to_list_empty. clear. induction ks as [|k ks IH]; [done|].
    csimpl. by rewrite lookup_empty.
  - rewrite omap_insert_key, mvals_insert, IH; try done.
    + intros j y Hj. apply (Hk j y). rewrite lookup_insert_ne; [done|]. congruence.
    + apply (Hk i x). apply lookup_insert_eq.
Qed.

Lemma omap_cons {A B} (f : A -> option B) x (l : list A) :
  omap f (x :: l) = match f x with Some y => y :: omap f l | None => omap f l end.
Proof. done. Qed.

Lemma seqZ_S' j n : seqZ j (Z.of_nat (S n)) = j :: seqZ (j + 1) (Z.of_nat n).
Proof. rewrite seqZ_cons by lia. f_equal. f_equal; lia. Qed.

(** ** The loops of freewalk *)

Definition clear_table (m : mem) (q : Z) : Prop :=
  forall k, 0 <= k < 512 -> ld64 m (q + 8 * k) = 0.

Lemma freewalk_ptes_ok n : forall s q k,
  0 <= k -> k + Z.of_nat n = 512 -> clear_table (kmem s) q ->
  freewalk_ptes n q k s = Ok (tt, s).
Proof.
  induction n as [|n IH]; intros s q k Hk Hn Hc; [done|]. cbn [freewalk_ptes].
  erewrite bind_ok by done. rewrite Hc by lia. rewrite Z.land_0_l, Z.eqb_refl. cbn [negb].
  apply IH; [lia..|done].
Qed.

Lemma clear_table_frame ps m m' q :
  only_pages ps m m' -> Forall page ps -> page q -> q ∉ ps -> clear_table m q ->
  clear_table m' q.
Proof. intros Ho Hps Hq Hn Hc k Hk. rewrite <- (Hc k Hk). by eapply only_pages_ld64. Qed.

Lemma table_entry_set p :
  kpage p ->
  negb (Z.land (enc_tbl (Some p)) ENTRY_VALID =? 0) &&
  negb (Z.land (enc_tbl (Some p)) ENTRY_TABLE =? 0) = true.
Proof.
  intros H. destruct (enc_tbl_some p H) as (_ & H1 & H2 & _).
  by rewrite (proj2 (Z.eqb_neq _ _) H1), (proj2 (Z.eqb_neq _ _) H2).
Qed.

(** Freeing one clear page of PTEs. *)
Lemma free_table s l q :
  kwf s l -> kpage q -> q ∉ l -> clear_table (kmem s) q ->
  exists s', (freewalk_ptes 512 q 0 ;;; kfree q) s = Ok (tt, s') /\ kwf s' (q :: l) /\
    only_pages [q] (kmem s) (kmem s').
Proof.
  intros Hwf Hk Hn Hc. erewrite bind_ok by (apply freewalk_ptes_ok; [lia..|done]).
  apply kfree_ok; [done|apply Hk|done].
Qed.

(** From slot [j] on, the page [p] holds the tables [f]. *)
Lemma freewalk_pmds_ok n : forall s l p j (f : Z -> option Z),
  kwf s l -> kpage p -> 0 <= j -> j + Z.of_nat n = 512 ->
  (forall k, j <= k < 512 -> ld64 (kmem s) (p + 8 * k) = enc_tbl (f k)) ->
  (forall k q, j <= k < 512 -> f k = Some q -> kpage q /\ clear_table (kmem s) q) ->
  NoDup (p :: omap f (seqZ j (Z.of_nat n)) ++ l) ->
  exists s' l', freewalk_pmds n p j s = Ok (tt, s') /\ kwf s' l' /\
    l' ≡ₚ omap f (seqZ j (Z.of_nat n)) ++ l /\
    only_pages (omap f (seqZ j (Z.of_nat n))) (kmem s) (kmem s').
Proof.
  induction n as [|n IH]; intros s l p j f Hwf Hp Hj Hn He Hc Hnd.
  { exists s, l. split_and!; auto with xv6. }
  cbn [freewalk_pmds]. erewrite bind_ok by done. rewrite He by lia.
  rewrite seqZ_S', omap_cons in Hnd |- *.
  destruct (f j) as [q|] eqn:Ef.
  - destruct (Hc j q) as [Hkq Hcq]; [lia|done|].
    rewrite (table_entry_set q Hkq). destruct (enc_tbl_some q Hkq) as (_ & _ & _ & _ & ->).
    cbv zeta. pose proof Hnd as [Hnp [Hnq _]%NoDup_cons]%NoDup_cons. fold (app (A:=Z)) in Hnq.
    assert (Hqp : q <> p) by (clear -Hnp; set_solver).
    destruct (free_table s l q) as (s1 & E1 & Hwf1 & Ho1);
      [done|done|clear -Hnq; set_solver|done|].
    rewrite (bind_ok _ _ _ _ _ E1). clear E1.
    assert (Hpq : Forall page [q]) by (apply Forall_singleton, Hkq).
    destruct (IH s1 (q :: l) p (j + 1) f) as (s' & l' & E & Hwf' & Hp' & Ho); try done; try lia.
    { intros k Hk. rewrite <- He by lia. eapply only_pages_ld64; eauto; [apply Hp|set_solver|lia]. }
    { intros k x Hk Hx. destruct (Hc k x) as [Hkx Hcx]; [lia|done|]. split; [done|].
      eapply clear_table_frame; eauto; [apply Hkx|]. intros ->%list_elem_of_singleton.
      apply Hnq, elem_of_app. left. apply list_elem_of_omap. exists k. split; [|done].
      apply elem_of_seqZ. lia. }
    { by rewrite <- Permutation_middle. }
    exists s', l'. split; [exact E|]. split; [done|]. split.
    + rewrite Hp'. clear. perm_solve.
    + eapply only_pages_trans; [eapply only_pages_mono; [|exact Ho1]|eapply only_pages_mono; [|exact Ho]];
        clear; set_solver.
  - change (enc_tbl None) with 0. rewrite Z.land_0_l, Z.eqb_refl. cbn [negb andb].
    rewrite (bind_ok _ _ _ tt s) by done.
    apply IH; try done; try lia; intros; (apply He || eapply Hc; eauto); lia.
Qed.

(** ** The outer loop *)

(** Number of entries of a table, kept from unfolding in the proofs below. *)
Definition slots : nat := 512.

Lemma slots_eq : Z.of_nat slots = 512.
Proof. reflexivity. Qed.

Section Pgds.
Context (g f : Z -> option Z).

Definition pte_pages (i : Z) : list Z := 
  omap (fun j => f (i * 512 + j)) (seqZ 0 (Z.of_nat slots)).

Definition pmd_pages (i : Z) : list Z :=
  match g i with Some p => p :: pte_pages i | None => [] end.

(** Page [p] holds the tables of slot [i], which are clear. *)
Definition pmd_ok (m : mem) (i p : Z) : Prop :=
  kpage p /\
  (forall j, 0 <= j < 512 -> ld64 m (p + 8 * j) = enc_tbl (f (i * 512 + j))) /\
  (forall j q, 0 <= j < 512 -> f (i * 512 + j) = Some q -> kpage q /\ clear_table m q).

Lemma elem_of_pte_pages i q :
  q ∈ pte_pages i <-> exists j, 0 <= j < 512 /\ f (i * 512 + j) = Some q.
Proof.
  unfold pte_pages. rewrite slots_eq, list_elem_of_omap. split; intros (j & Hj & Hq); exists j;
    rewrite elem_of_seqZ in *; split; done || lia.
Qed.

Lemma pmd_ok_pages m i p : pmd_ok m i p -> Forall page (p :: pte_pages i).
Proof.
  intros (Hp & _ & Hq). apply Forall_cons. split; [apply Hp|]. apply Forall_forall.
  intros q (j & Hj & E)%elem_of_pte_pages. by apply (Hq j q).
Qed.

Lemma pmd_ok_frame ps m m' i p :
  only_pages ps m m' -> Forall page ps -> (p :: pte_pages i) ## ps ->
  pmd_ok m i p -> pmd_ok m' i p.
Proof.
  intros Ho Hps Hd (Hp & He & Hq). split_and!; [done| |].
  - intros j Hj. rewrite <- He by done.
    eapply only_pages_ld64; eauto; [apply Hp|]. intros Hin. apply (Hd p); [by left|done].
  - intros j q Hj E. destruct (Hq j q Hj E) as [Hk Hc]. split; [done|].
    eapply clear_table_frame; eauto; [apply Hk|]. intros Hin.
    apply (Hd q); [right|done]. apply elem_of_pte_pages. eauto.
Qed.

(** [n] stands for 512, the number of slots. *)
Lemma free_pmd_slots n s l i p :
  let qs : list Z := omap (fun j => f (i * 512 + j)) (seqZ 0 (Z.of_nat n)) in
  Z.of_nat n = 512 -> kwf s l -> pmd_ok (kmem s) i p -> NoDup ((p :: qs) ++ l) ->
  exists s' l', (freewalk_pmds n p 0 ;;; kfree p) s = Ok (tt, s') /\ kwf s' l' /\
    l' ≡ₚ (p :: qs) ++ l /\ only_pages (p :: qs) (kmem s) (kmem s').
Proof.
  intros qs Hn Hwf (Hp & He & Hq) Hnd.
  destruct (freewalk_pmds_ok n s l p 0 (fun j => f (i * 512 + j)) Hwf Hp ltac:(lia)
    ltac:(lia) He Hq Hnd) as (s1 & l1 & E1 & Hwf1 & Hp1 & Ho1).
  fold qs in Hp1, Ho1. clearbody qs. rewrite (bind_ok _ _ _ _ _ E1). clear E1.
  destruct (kfree_ok s1 l1 p) as (s2 & E2 & Hwf2 & Ho2); [done|apply Hp| |].
  { rewrite Hp1. by apply NoDup_cons in Hnd as [? _]. }
  exists s2, (p :: l1). split_and!; [done|done| |].
  - by rewrite Hp1.
  - eapply only_pages_trans; [eapply only_pages_mono; [|exact Ho1]|
      eapply only_pages_mono; [|exact Ho2]]; clear; set_solver.
Qed.

Lemma free_pmd s l i p :
  kwf s l -> pmd_ok (kmem s) i p -> NoDup ((p :: pte_pages i) ++ l) ->
  exists s' l', (freewalk_pmds 512 p 0 ;;; kfree p) s = Ok (tt, s') /\ kwf s' l' /\
    l' ≡ₚ (p :: pte_pages i) ++ l /\ only_pages (p :: pte_pages i) (kmem s) (kmem s').
Proof. exact (free_pmd_slots slots s l i p slots_eq). Qed.

#[local] Opaque freewalk_pmds slots pte_pages.

Definition all_pages (i : Z) (n : nat) : list Z := flat_map pmd_pages (seqZ i (Z.of_nat n)).

Lemma pmd_in_all i n k p :
  i <= k < i + Z.of_nat n -> g k = Some p -> p :: pte_pages k ⊆ all_pages i n.
Proof.
  intros Hk Hg x Hx. unfold all_pages. apply list_elem_of_In, in_flat_map. exists k.
  rewrite <- !list_elem_of_In, elem_of_seqZ. unfold pmd_pages. rewrite Hg. split; [lia|done].
Qed.

Lemma freewalk_pgds_S n r i s :
  freewalk_pgds (S n) r i s =
  ((let pgd := ld64 (kmem s) (r + 8 * i) in
    if negb (Z.land pgd ENTRY_VALID =? 0) && negb (Z.land pgd ENTRY_TABLE =? 0)
    then freewalk_pmds 512 (P2V (Z.land pgd PG_ADDR_MASK)) 0 ;;;
         kfree (P2V (Z.land pgd PG_ADDR_MASK))
    else ret tt) ;;; freewalk_pgds n r (i + 1)) s.
Proof. reflexivity. Qed.

Lemma freewalk_pgds_ok n : forall s l r i,
  kwf s l -> kpage r -> 0 <= i -> i + Z.of_nat n = 4 ->
  (forall k, i <= k < 4 -> ld64 (kmem s) (r + 8 * k) = enc_tbl (g k)) ->
  (forall k p, i <= k < 4 -> g k = Some p -> pmd_ok (kmem s) k p) ->
  NoDup (r :: all_pages i n ++ l) ->
  exists s' l', freewalk_pgds n r i s = Ok (tt, s') /\ kwf s' l' /\
    l' ≡ₚ all_pages i n ++ l /\ only_pages (all_pages i n) (kmem s) (kmem s').
Proof.
  induction n as [|n IH]; intros s l r i Hwf Hr Hi Hn He Hok Hnd.
  { exists s, l. split_and!; auto with xv6. }
  rewrite freewalk_pgds_S, He by lia. cbv zeta.
  assert (Ha : all_pages i (S n) = pmd_pages i ++ all_pages (i + 1) n).
  { unfold all_pages. by rewrite seqZ_S'. }
  rewrite Ha in *. unfold pmd_pages in *. destruct (g i) as [p|] eqn:Eg.
  - pose proof (Hok i p ltac:(lia) Eg) as Hpok. pose proof (pmd_ok_pages _ _ _ Hpok) as Hpp.
    assert (Hkp : kpage p) by apply Hpok.
    rewrite (table_entry_set p Hkp). destruct (enc_tbl_some p Hkp) as (_ & _ & _ & _ & ->).
    apply NoDup_cons in Hnd as [Hnr Hnd].
    rewrite <- app_assoc in Hnd. pose proof (NoDup_app_disj _ _ Hnd) as Hd.
    destruct (free_pmd s l i p Hwf Hpok) as (s1 & l1 & E1 & Hwf1 & Hp1 & Ho1).
    { eapply sublist_NoDup; [exact Hnd|]. apply sublist_app; [done|]. by apply sublist_inserts_l. }
    rewrite (bind_ok _ _ _ _ _ E1). clear E1.
    destruct (IH s1 l1 r (i + 1)) as (s' & l' & E & Hwf' & Hp' & Ho); try done; try lia.
    { intros k Hk. rewrite <- He by lia. eapply only_pages_ld64; eauto; [apply Hr| |lia].
      clear -Hnr. set_solver. }
    { intros k p' Hk Hg. eapply pmd_ok_frame; eauto; [|apply Hok; [lia|done]].
      pose proof (pmd_in_all (i + 1) n k p' ltac:(lia) Hg) as Hsub.
      clear -Hsub Hd. intros x Hx Hx'. apply (Hd x Hx'), elem_of_app. left. by apply Hsub. }
    { rewrite Hp1. apply NoDup_cons. split; [clear -Hnr; set_solver|].
      assert (all_pages (i + 1) n ++ (p :: pte_pages i) ++ l ≡ₚ
        (p :: pte_pages i) ++ all_pages (i + 1) n ++ l) as -> by (clear; perm_solve). done. }
    exists s', l'. split; [exact E|]. split; [done|]. split.
    + rewrite Hp', Hp1. clear. perm_solve.
    + eapply only_pages_trans; [eapply only_pages_mono; [|exact Ho1]|
        eapply only_pages_mono; [|exact Ho]]; clear; set_solver.
  - change (enc_tbl None) with 0. rewrite Z.land_0_l, Z.eqb_refl. cbn [negb andb].
    rewrite (bind_ok _ _ _ tt s) by done.
    apply IH; try done; try lia; intros; (apply He || eapply Hok; eauto); lia.
Qed.
End Pgds.

(** ** Trees without mappings *)

#[local] Opaque slots.

Lemma seqZ_join (g : Z -> option Z) a n m :
  omap g (seqZ a (Z.of_nat (n + m))) =
  omap g (seqZ a (Z.of_nat n)) ++ omap g (seqZ (a + Z.of_nat n) (Z.of_nat m)).
Proof. rewrite <- omap_app, Nat2Z.inj_add, seqZ_app by lia. done. Qed.

Lemma omap_seqZ_shift (f : Z -> option Z) b n :
  omap (fun j => f (b + j)) (seqZ 0 (Z.of_nat n)) = omap f (seqZ b (Z.of_nat n)).
Proof.
  cut (forall a, omap (fun j => f (b + j)) (seqZ a (Z.of_nat n)) = omap f (seqZ (b + a) (Z.of_nat n))).
  { intros H. rewrite H. by rewrite Z.add_0_r. }
  induction n as [|n IH]; intros a; [done|].
  rewrite !seqZ_S', !omap_cons, IH. by replace (b + a + 1) with (b + (a + 1)) by lia.
Qed.

Lemma pmd_pages_split t i :
  pt_wf t ->
  pmd_pages (fun i => pt_pmd t !! i) (fun k => pt_pte t !! k) i ≡ₚ
  omap (fun i => pt_pmd t !! i) [i] ++ omap (fun k => pt_pte t !! k) (seqZ (i * 512) (Z.of_nat slots)).
Proof.
  intros (_ & _ & Hpt & _). unfold pmd_pages, pte_pages. rewrite omap_cons.
  rewrite (omap_seqZ_shift (fun k => pt_pte t !! k) (i * 512) slots).
  destruct (pt_pmd t !! i) as [p|] eqn:Hp; [done|].
  rewrite (omap_ext_in (fun k => pt_pte t !! k) (fun _ => None)).
  - clear. change (omap _ []) with (@nil Z). induction (seqZ _ _) as [|k ks IH]; done.
  - intros k Hk. apply elem_of_seqZ in Hk. rewrite slots_eq in Hk.
    destruct (pt_pte t !! k) as [q|] eqn:Hq; [|done].
    apply Hpt in Hq as (_ & _ & Hs). replace (k / 512) with i in Hs by lia.
    rewrite Hp in Hs. by apply is_Some_None in Hs.
Qed.

(** The pages the outer loop frees are the tables below the root. *)
Lemma all_pages_tables t :
  pt_wf t ->
  all_pages (fun i => pt_pmd t !! i) (fun k => pt_pte t !! k) 0 4 ≡ₚ pmds t ++ ptes t.
Proof.
  intros Hw. pose proof Hw as (_ & Hpm & Hpt & _). unfold pmds, ptes.
  rewrite <- (omap_all_keys (pt_pmd t) [0; 1; 2; 3]), <- (omap_all_keys (pt_pte t)
    (seqZ 0 (Z.of_nat (slots + (slots + (slots + slots)))))).
  2,4: apply NoDup_seqZ || (repeat constructor; set_solver).
  2: { intros k q Hk. apply Hpt in Hk as (? & _). apply elem_of_seqZ. rewrite !Nat2Z.inj_add, slots_eq. lia. }
  2: { intros k q Hk. apply Hpm in Hk as (? & _).
       rewrite !elem_of_cons. lia. }
  rewrite !seqZ_join. unfold all_pages. change (seqZ 0 (Z.of_nat 4)) with [0; 1; 2; 3].
  cbn [flat_map]. rewrite !pmd_pages_split by done.
  change [0; 1; 2; 3] with ([0] ++ [1] ++ [2] ++ [3]). rewrite !omap_app, !slots_eq.
  change (0 * 512) with 0. change (1 * 512) with (0 + 512).
  change (2 * 512) with (0 + 512 + 512). change (3 * 512) with (0 + 512 + 512 + 512).
  clear. perm_solve.
Qed.

Lemma freewalk_ok s l t R :
  vinv s l t R -> pt_map t = ∅ ->
  exists s' l', freewalk (pt_root t) s = Ok (tt, s') /\ kwf s' l' /\
    l' ≡ₚ l ++ tables t /\ only_pages (tables t) (kmem s) (kmem s').
Proof.
  intros Hv Hemp. pose proof Hv as (Hwf & _ & Hpw & Hpm & _ & Hnd).
  pose proof Hpw as (Hr & Hp & Hq & _). destruct Hpm as (M1 & M2 & M3).
  pose proof (all_pages_tables t Hpw) as Hall.
  set (A := all_pages (fun i => pt_pmd t !! i) (fun k => pt_pte t !! k) 0 4) in *.
  assert (Hnd' : NoDup (pt_root t :: A ++ l)).
  { rewrite app_assoc in Hnd. apply NoDup_app in Hnd as (Hnd & _ & _).
    rewrite Hall, (Permutation_app_comm (pmds t ++ ptes t) l).
    rewrite (Permutation_middle l). done. }
  destruct (freewalk_pgds_ok (fun i => pt_pmd t !! i) (fun k => pt_pte t !! k) 4 s l (pt_root t) 0)
    as (s1 & l1 & E1 & Hwf1 & Hp1 & Ho1); try done.
  { intros k p Hk Hkp. split_and!; [by apply Hp in Hkp as []|intros j Hj; by apply (M2 k p)|].
    intros j q Hj Hjq. split; [by apply Hq in Hjq as (_ & ? & _)|].
    intros i Hi. rewrite (M3 _ _ _ Hjq Hi), Hemp, lookup_empty. done. }
  unfold freewalk. rewrite (bind_ok _ _ _ _ _ E1). clear E1. fold A in Hp1, Ho1.
  apply NoDup_cons in Hnd' as [Hnr _].
  destruct (kfree_ok s1 l1 (pt_root t)) as (s2 & E2 & Hwf2 & Ho2); [done|apply Hr|by rewrite Hp1|].
  exists s2, (pt_root t :: l1). split_and!; [done|done| |].
  - rewrite Hp1. unfold tables. clear -Hall. perm_solve.
  - assert (Hsub : A ⊆ tables t).
    { intros x Hx. apply elem_of_cons. right. by rewrite <- Hall. }
    clear -Ho1 Ho2 Hsub. eapply only_pages_trans.
    + eapply only_pages_mono; [exact Hsub|exact Ho1].
    + eapply only_pages_mono; [|exact Ho2]. set_solver.
Qed.

(** ** Properties *)

(** C18: destroying an address space of [sz] bytes does not panic, puts each
    of its frames and table pages on the free list exactly once, and touches no
    page of anybody else. *)
Theorem uvmfree_frees_all s l t R sz :
  vinv s l t R -> uspace t sz -> 0 <= sz <= 2 ^ 32 - 4096 ->
  exists s' l', uvmfree (pt_root t) sz s = Ok (tt, s') /\ kwf s' l' /\
    l' ≡ₚ l ++ owned t /\ keeps R (kmem s) (kmem s').
Proof.
  intros Hv Hu Hsz. unfold uvmfree.
  assert (H : exists s1 l1 t1,
    (if 0 <? sz then uvmunmap (pt_root t) 0 (PGROUNDUP sz / PGSIZE) true else ret tt) s = Ok (tt, s1) /\
    pt_map t1 = ∅ /\ evolves (frames t1 ++ R) R s l t s1 l1 t1).
  { destruct (Z.ltb_spec 0 sz) as [Hpos|Hz].
    - rewrite PGROUNDUP_npages by lia. unfold PGSIZE. rewrite Z.div_mul by lia.
      destruct (uvmunmap_ok s l t R 0 (npages sz)) as (s1 & l1 & t1 & E & Hv1 & Hm & Hfr);
        try done; try (unfold npages; lia).
      { intros w Hw. by apply Hu. }
      exists s1, l1, t1. split_and!; [done| |by apply freed_evolves].
      rewrite Hm. apply map_eq. intros w. rewrite lookup_unmap_range, lookup_empty.
      case_decide; [done|]. apply eq_None_not_Some. rewrite (Hu w). unfold npages in *. lia.
    - exists s, l, t. split_and!; [done| |by apply evolves_refl].
      apply map_eq. intros w. rewrite lookup_empty. apply eq_None_not_Some.
      rewrite (Hu w). unfold npages. lia. }
  destruct H as (s1 & l1 & t1 & E & Hm & Hv1 & Hr & Hp & Hk). rewrite (bind_ok _ _ _ _ _ E), <- Hr.
  destruct (freewalk_ok s1 l1 t1 R Hv1 Hm) as (s' & l' & E' & Hwf' & Hp' & Ho).
  exists s', l'. split_and!; [done|done| |].
  - rewrite Hp'. assert (frames t1 = []) as Hf by (unfold frames; by rewrite Hm).
    unfold owned in Hp at 2. rewrite Hf, app_nil_r in Hp. by rewrite Hp.
  - eapply keeps_trans; [eapply keeps_mono; [|exact Hk]; clear; set_solver|].
    eapply keeps_mono; [|eapply (vinv_keeps s1 l1 t1 R); [done|exact Ho|clear; set_solver]].
    clear. set_solver.
Qed.
