(* ===== verification/VmCopy.v ===== *)
(** Duplicating an address space: [uvmcopy], as [fork] uses it. *)

From S2P Require Import Prelude Mem KString Mmu Kalloc Vm VmTree VmMap VmUser.

(** The bytes of page [q] are those of page [p]. *)
Definition same_page (m : mem) (p q : Z) : Prop :=
  forall i, 0 <= i < 4096 -> ldb m (q + i) = ldb m (p + i).

(** The first [hi] pages of [told] are duplicated in [t], which maps nothing else. *)
Definition copied (m : mem) (told : ptree) (hi : Z) (t : ptree) : Prop :=
  (forall w, 0 <= w < hi -> exists pa pa' ap,
     pt_map told !! w = Some ((pa, ap) : leaf) /\ pt_map t !! w = Some ((pa', ap) : leaf) /\
     same_page m (P2V pa) (P2V pa')) /\
  (forall w, ~ (0 <= w < hi) -> pt_map t !! w = None).

Lemma same_page_keeps m m' p q ps :
  keeps ps m m' -> p ∈ ps -> q ∈ ps -> same_page m p q -> same_page m' p q.
Proof.
  intros Hk Hp Hq Hs i Hi. rewrite (Hk p (p + i)), (Hk q (q + i)); try done; try (unfold in_page; lia).
  by apply Hs.
Qed.

Lemma copied_keeps m m' told hi t :
  keeps (frames told ++ frames t) m m' -> copied m told hi t -> copied m' told hi t.
Proof.
  intros Hk [H1 H2]. split; [|done]. intros w Hw.
  destruct (H1 w Hw) as (pa & pa' & ap & Ho & Hn & Hs). exists pa, pa', ap. split_and!; try done.
  eapply same_page_keeps; [exact Hk|apply elem_of_app..|done].
  - left. by apply (frame_in_frames _ _ _ Ho).
  - right. by apply (frame_in_frames _ _ _ Hn).
Qed.

Lemma copied_step m m' told t t' hi pa pa' ap :
  copied m told hi t -> 0 <= hi -> pt_map told !! hi = Some ((pa, ap) : leaf) ->
  pt_map t' = <[hi := ((pa', ap) : leaf)]> (pt_map t) ->
  keeps (frames told ++ frames t) m m' -> same_page m' (P2V pa) (P2V pa') ->
  copied m' told (hi + 1) t'.
Proof.
  intros Hc Hh Ho Hm Hk Hs. destruct (copied_keeps _ _ _ _ _ Hk Hc) as [H1 H2]. split.
  - intros w Hw. destruct (decide (w = hi)) as [->|Hne].
    + exists pa, pa', ap. rewrite Hm, lookup_insert_eq. done.
    + rewrite Hm, lookup_insert_ne by done. apply H1. lia.
  - intros w Hw. rewrite Hm, lookup_insert_ne by lia. apply H2. lia.
Qed.

Lemma only_pages_memmove m p q : only_pages [q] m (memmove m q p PGSIZE).
Proof.
  intros a Ha. specialize (Ha q ltac:(set_solver)). unfold in_page, PGSIZE in *.
  rewrite ldb_memmove by lia. by rewrite decide_False.
Qed.

(** The new frame [p] holds the bytes of [q] after the copy and the mapping. *)
Lemma copy_frame s s1 s2 p q l t R ps :
  vinv s (p :: l) t R -> page q -> q ∈ R -> only_pages [p] (kmem s) (kmem s1) ->
  (forall x, in_page p x -> ldb (kmem s2) x = ldb (memmove (kmem s1) p q PGSIZE) x) ->
  keeps ps (kmem s) (kmem s2) -> q ∈ ps -> same_page (kmem s2) q p.
Proof.
  intros Hv Hq HqR Ho1 Hp2 Hk Hqs i Hi.
  destruct (vinv_cons_new _ _ _ _ _ Hv) as (Hkp & _ & _ & _ & HpR).
  assert (q <> p) by (intros ->; done).
  rewrite Hp2 by (unfold in_page; lia). unfold PGSIZE. rewrite ldb_memmove, decide_True by lia.
  rewrite (Hk q (q + i)) by (done || (unfold in_page; lia)).
  replace (q + (p + i - p)) with (q + i) by lia.
  apply (only_pages_ldb [p] _ _ q); [done|apply Forall_singleton, Hkp|done|set_solver|].
  unfold in_page. lia.
Qed.

Section Copy.
Context (told : ptree) (R : list Z) (Hold : pt_wf told).

(** The pages that are not the child's: the parent's and everybody else's. *)
Let R' : list Z := owned told ++ R.

(** The failure path empties the child again (and, like the success path,
    returns 0). *)
Lemma uvmcopy_bad_ok s l t hi :
  vinv s l t R' -> copied (kmem s) told hi t -> 0 <= hi -> hi * 4096 <= 2 ^ 32 ->
  exists s' l' t', uvmcopy_bad (pt_root t) (hi * 4096) s = Ok (0, s') /\
    evolves R' R' s l t s' l' t' /\ pt_map t' = ∅.
Proof.
  intros Hv [Hc1 Hc2] Hhi Hmax. unfold uvmcopy_bad, PGSIZE. rewrite Z.div_mul by lia.
  destruct (uvmunmap_ok s l t R' 0 hi) as (s' & l' & t' & E & Hv' & Hm & Hfr); try done; try lia.
  { intros w Hw. destruct (Hc1 w) as (? & ? & ? & _ & H & _); [lia|]. by eexists. }
  rewrite (bind_ok _ _ _ _ _ E). clear E. exists s', l', t'. split; [reflexivity|]. split.
  - eapply evolves_mono; [|by apply freed_evolves]. clear. set_solver.
  - rewrite Hm. apply map_eq. intros w. rewrite lookup_unmap_range, lookup_empty.
    case_decide; [done|]. apply Hc2. lia.
Qed.

Lemma uvmcopy_loop_ok sz n : forall fuel s l t hi,
  (n < fuel)%nat -> vinv s l t R' -> pt_mem (kmem s) told -> uspace told sz ->
  0 <= hi -> sz <= 2 ^ 32 - 4096 -> Z.of_nat n = npages sz - hi ->
  copied (kmem s) told hi t ->
  exists s' l' t', uvmcopy_loop fuel (pt_root told) (pt_root t) (hi * 4096) sz s = Ok (0, s') /\
    evolves R' R' s l t s' l' t' /\
    (copied (kmem s') told (npages sz) t' \/ pt_map t' = ∅ /\ (length l <= 3 * n)%nat).
Proof.
  induction n as [|n IH]; intros fuel s l t hi Hf Hv Hpm Hu Hhi Hmax Hn Hc.
  all: destruct fuel as [|f]; [lia|]; cbn [uvmcopy_loop].
  { rewrite (proj2 (Z.ltb_ge _ _)) by (unfold npages in *; lia).
    assert (hi = npages sz) as -> by lia.
    exists s, l, t. split_and!; auto using evolves_refl. }
  rewrite (proj2 (Z.ltb_lt _ _)) by (unfold npages in *; lia).
  assert (Hhm : hi * 4096 <= 2 ^ 32 - 8192) by (unfold npages in *; lia).
  assert (Hvpn : vpn (hi * 4096) = hi) by (rewrite vpn_low; lia).
  assert (Hs : is_Some (pt_map told !! hi)) by (apply Hu; lia). destruct Hs as [[pa ap] Hx].
  rewrite <- Hvpn in Hx at 1. destruct (walk_leaf s told _ _ Hold Hpm Hx) as (E1 & Hnz & E2 & Hlw).
  rewrite Hvpn in Hx. rewrite (bind_ok _ _ _ _ _ E1), Hnz, (bind_ok _ _ _ _ _ E2). clear E1 E2.
  destruct (enc_leaf_some _ Hlw) as (_ & Hval & _ & -> & -> & _).
  rewrite (proj2 (Z.eqb_neq _ _) Hval). cbv zeta. simpl fst. simpl snd.
  assert (Hap : ap_ok ap) by apply Hlw.
  rewrite u32_small by (unfold ap_ok in Hap; lia).
  destruct l as [|p l].
  { rewrite (bind_ok _ _ _ _ _ (vinv_kalloc_nil _ _ _ Hv)), Z.eqb_refl.
    destruct (uvmcopy_bad_ok s [] t hi) as (s' & l' & t' & E & Hev & Hm'); try done; [lia|].
    exists s', l', t'. split_and!; try done. right. split; [done|]. simpl. lia. }
  destruct (alloc_map s p l t R' (hi * 4096) ap) as (s1 & E1 & Hk & Hz1 & Ho1 & Hmp); try done; try lia.
  { rewrite Hvpn. apply Hc. lia. }
  rewrite (bind_ok _ _ _ _ _ E1), (kpage_eqb p Hk). clear E1.
  destruct (Hmp (memmove (kmem s1) p (P2V pa) PGSIZE)) as (r & s2 & l2 & t2 & E2 & Hp2 & H).
  { apply only_pages_memmove. }
  rewrite (bind_ok _ _ _ tt (mkkst (memmove (kmem s1) p (P2V pa) PGSIZE) (freelist s1))) by reflexivity.
  rewrite (bind_ok _ _ _ _ _ E2). clear E2. rewrite Hvpn in H.
  destruct H as [(-> & Hm2 & Hlen & Hev)|(-> & Hlen & Hm2 & Hroot & s3 & E3 & Hev)].
  - pose proof Hev as (Hv2 & Hroot & _ & Hk2).
    assert (Hfr : P2V pa ∈ frames told) by apply (frame_in_frames _ _ _ Hx).
    assert (Hc2 : copied (kmem s2) told (hi + 1) t2).
    { eapply copied_step; [exact Hc|done|exact Hx|exact Hm2| |].
      - eapply keeps_mono; [|exact Hk2]. unfold R', owned. clear. set_solver.
      - rewrite P2V_V2P by done. 
        apply (copy_frame s s1 s2 p (P2V pa) l t R' (frames t ++ R')); try done; [apply Hlw|..].
        all: unfold R', owned; clear -Hfr; set_solver. }
    destruct (IH f s2 l2 t2 (hi + 1)) as (s' & l' & t' & E & Hev' & H); try done; try lia.
    { eapply pt_mem_keeps; [done| |exact Hpm]. eapply keeps_mono; [|exact Hk2].
      unfold R', owned. clear. set_solver. }
    rewrite Hroot in E. replace ((hi + 1) * 4096) with (hi * 4096 + PGSIZE) in E
      by (unfold PGSIZE; lia).
    exists s', l', t'. split; [exact E|]. split.
    + eapply evolves_trans; [|exact Hev']. eapply evolves_mono; [|exact Hev]. clear. set_solver.
    + destruct H as [?|[? ?]]; [by left|right; split; [done|simpl; lia]].
  - change (negb (-1 =? 0)) with true. cbv iota. rewrite (bind_ok _ _ _ _ _ E3). clear E3.
    pose proof Hev as (Hv3 & _ & _ & Hk3).
    destruct (uvmcopy_bad_ok s3 [p] t2 hi) as (s' & l' & t' & E & Hev' & Hm'); try done; try lia.
    { destruct (copied_keeps (kmem s) (kmem s3) told hi t) as [Hc1 Hc2]; [|done|].
      - eapply keeps_mono; [|exact Hk3]. unfold R', owned. clear. set_solver.
      - split; rewrite Hm2; done. }
    rewrite Hroot in E. exists s', l', t'. split; [exact E|]. split.
    + eapply evolves_trans; [|exact Hev']. eapply evolves_mono; [|exact Hev]. clear. set_solver.
    + right. split; [done|simpl; lia].
Qed.
End Copy.

(** ** Properties *)

(** C9: copying an address space of [sz] bytes into an empty page table
    returns 0 and either gives the child, page for page, the parent's
    permissions and bytes in frames of its own, or leaves it empty, which
    happens only when fewer than three pages per page were free; the parent and
    everybody else are untouched. *)
Theorem uvmcopy_copies s l told t R sz :
  vinv s l t (owned told ++ R) -> pt_wf told -> pt_mem (kmem s) told ->
  uspace told sz -> pt_map t = ∅ -> 0 <= sz <= 2 ^ 32 - 4096 ->
  exists s' l' t', uvmcopy (pt_root told) (pt_root t) sz s = Ok (0, s') /\
    evolves (owned told ++ R) (owned told ++ R) s l t s' l' t' /\
    (copied (kmem s') told (npages sz) t' /\ uspace t' sz \/
     pt_map t' = ∅ /\ Z.of_nat (length l) <= 3 * npages sz).
Proof.
  intros Hv Hpw Hpm Hu Hemp Hsz. unfold uvmcopy.
  destruct (uvmcopy_loop_ok told R Hpw sz (Z.to_nat (npages sz))
    (S (Z.to_nat ((sz + PGSIZE - 1) / PGSIZE))) s l t 0) as (s' & l' & t' & E & Hev & H); try done; try lia.
  { unfold npages, PGSIZE. lia. }
  { unfold npages. lia. }
  { split; [lia|]. intros w _. by rewrite Hemp, lookup_empty. }
  exists s', l', t'. split; [exact E|]. split; [done|].
  destruct H as [Hc|[? ?]]; [left|right; split; [done|unfold npages in *; lia]].
  split; [done|]. intros w. destruct Hc as [H1 H2].
  destruct (decide (0 <= w < npages sz)) as [Hw|Hw].
  - destruct (H1 w Hw) as (pa & pa' & ap & _ & -> & _). split; [lia|by eexists].
  - rewrite (H2 w Hw). split; [by intros []|lia].
Qed.

(** C36: when no page is free, [uvmcopy] of a non-empty address space
    reports success (0) although it mapped nothing; destroying the child at the
    parent's size, as [exit] and [wait] do, then panics. *)
Theorem uvmcopy_failure_hidden s told t R sz :
  vinv s [] t (owned told ++ R) -> pt_wf told -> pt_mem (kmem s) told ->
  uspace told sz -> pt_map t = ∅ -> pt_pte t = ∅ -> 0 < sz <= 2 ^ 32 - 4096 ->
  uvmcopy (pt_root told) (pt_root t) sz s = Ok (0, s) /\
  uvmfree (pt_root t) sz s = Panic "uvmunmap: walk".
Proof.
  intros Hv Hpw Hpm Hu Hemp Hte Hsz. pose proof Hv as (_ & _ & Hpwt & Hpmt & _). split.
  - unfold uvmcopy. cbn [uvmcopy_loop]. rewrite (proj2 (Z.ltb_lt _ _)) by lia.
    assert (Hs : is_Some (pt_map told !! 0)) by (apply Hu; unfold npages; lia). destruct Hs as [x Hx].
    destruct (walk_leaf s told 0 x Hpw Hpm Hx) as (E1 & Hnz & E2 & Hlw).
    rewrite (bind_ok _ _ _ _ _ E1), Hnz, (bind_ok _ _ _ _ _ E2).
    destruct (enc_leaf_some _ Hlw) as (_ & Hval & _). rewrite (proj2 (Z.eqb_neq _ _) Hval). cbv zeta.
    rewrite (bind_ok _ _ _ _ _ (vinv_kalloc_nil _ _ _ Hv)), Z.eqb_refl. done.
  - unfold uvmfree. rewrite (proj2 (Z.ltb_lt _ _)) by lia. apply bind_panic.
    rewrite PGROUNDUP_npages by lia. unfold PGSIZE at 1. rewrite Z.div_mul by lia.
    unfold uvmunmap. change (negb (0 mod PGSIZE =? 0)) with false. cbv iota. cbn [uvmunmap_loop].
    rewrite u64_small, (proj2 (Z.ltb_lt _ _)) by (unfold PGSIZE, npages; lia).
    rewrite (bind_ok _ _ _ _ _ (walk_absent s t 0 Hpwt Hpmt ltac:(by rewrite Hte))).
    reflexivity.
Qed.
