(* ===== verification/VmIo.v ===== *)
(** Moving bytes between the kernel and user space: [walkaddr], [copyout],
    [copyin], [copyinstr], against the user memory the page table describes. *)

From S2P Require Import Prelude Mem KString Mmu Kalloc Vm VmTree VmMap VmUser.

(** The byte at user address [va], if its page is mapped. *)
Definition uaddr (t : ptree) (va : Z) : option Z :=
  (fun x : leaf => leaf_frame x + va mod 4096) <$> pt_map t !! vpn va.

Definition uget (m : mem) (t : ptree) (va : Z) : option Z := ldb m <$> uaddr t va.

Lemma walkaddr_ok s t va :
  pt_wf t -> pt_mem (kmem s) t ->
  walkaddr (pt_root t) va s = Ok (default 0 ((fun x : leaf => x.1) <$> pt_map t !! vpn va), s).
Proof.
  intros Hpw Hpm. unfold walkaddr. destruct (pt_map t !! vpn va) as [x|] eqn:Hx.
  - destruct (walk_leaf s t va x Hpw Hpm Hx) as (E1 & Hnz & E2 & Hlw).
    rewrite (bind_ok _ _ _ _ _ E1), Hnz, (bind_ok _ _ _ _ _ E2).
    destruct (enc_leaf_some _ Hlw) as (Hv & _ & _ & -> & _).
    by rewrite (proj2 (Z.eqb_neq _ _) Hv).
  - rewrite (bind_ok _ _ _ _ _ (walk_lookup s t va Hpw Hpm)).
    destruct (pt_pte t !! (vpn va / 512)) as [q|] eqn:Hq.
    + destruct (pte_addr t va =? 0); [done|].
      rewrite (bind_ok _ _ _ _ _ (load_pte s t va q Hpm Hq)), Hx. done.
    + unfold pte_addr. by rewrite Hq.
Qed.

Lemma vpn_page va : vpn (va - va mod 4096) = vpn va.
Proof. unfold vpn. f_equal. lia. Qed.

Lemma P2V_off pa o : 0 < pa < 2 ^ 32 -> pa mod 4096 = 0 -> 0 <= o < 4096 -> P2V (pa + o) = P2V pa + o.
Proof. intros. unfold P2V, KERNBASE. rewrite !u64_small; lia. Qed.

(** Different user addresses are different kernel addresses. *)
Lemma uaddr_page s l t R va va' x :
  vinv s l t R -> 0 <= va < 2 ^ 32 -> 0 <= va' < 2 ^ 32 ->
  pt_map t !! vpn va = Some x -> forall y, pt_map t !! vpn va' = Some y ->
  leaf_frame x = leaf_frame y -> va / 4096 = va' / 4096.
Proof.
  intros Hv H1 H2 Hx y Hy Hf. rewrite <- !vpn_low by done.
  destruct Hv as (_ & _ & _ & _ & _ & Hnd).
  apply (mvals_inj leaf_frame (pt_map t) _ _ x y); [|done..].
  apply NoDup_app in Hnd as (_ & _ & Hnd). apply NoDup_app in Hnd as (_ & _ & Hnd).
  by apply NoDup_app in Hnd as (Hnd & _).
Qed.

(** Writing [c] bytes from [src] at [va], inside one page. *)
Lemma uget_chunk s l t R va src c x va' :
  vinv s l t R -> 0 <= va < 2 ^ 32 -> pt_map t !! vpn va = Some x ->
  0 <= c -> va mod 4096 + c <= 4096 -> 0 <= va' < 2 ^ 32 ->
  uget (memmove (kmem s) (leaf_frame x + va mod 4096) src c) t va' =
  if decide (va <= va' < va + c) then Some (ldb (kmem s) (src + (va' - va))) else uget (kmem s) t va'.
Proof.
  intros Hv Hva Hx Hc Hc2 Hva'. unfold uget, uaddr.
  destruct (pt_map t !! vpn va') as [y|] eqn:Hy; simpl.
  - rewrite ldb_memmove by lia. destruct (decide (va <= va' < va + c)) as [Hin|Hout].
    + assert (vpn va' = vpn va) as E by (rewrite !vpn_low by lia; lia).
      rewrite E, Hx in Hy. simplify_eq. rewrite decide_True by lia. do 2 f_equal. lia.
    + rewrite decide_False; [done|]. intros Hi.
      assert (Hxy : leaf_frame x = leaf_frame y).
      { pose proof Hv as (_ & _ & (_ & _ & _ & Hmp) & _).
        destruct (Hmp _ _ Hx) as (_ & [[Hpx _] _] & _). destruct (Hmp _ _ Hy) as (_ & [[Hpy _] _] & _).
        unfold leaf_frame in *. apply (in_page_inj _ _ (P2V y.1 + va' mod 4096));
          [done|done|unfold in_page; lia..]. }
      pose proof (uaddr_page s l t R va va' x Hv Hva Hva' Hx y Hy Hxy). lia.
  - rewrite decide_False; [done|]. intros Hin.
    assert (vpn va' = vpn va) as E by (rewrite !vpn_low by lia; lia).
    rewrite E, Hx in Hy. done.
Qed.

(** The kernel range [a, a + n) lies outside the pages [ps]. *)
Definition outside (ps : list Z) (a n : Z) : Prop :=
  forall b p, a <= b < a + n -> p ∈ ps -> ~ in_page p b.

Lemma outside_only ps a n m m' b :
  outside ps a n -> only_pages ps m m' -> a <= b < a + n -> ldb m' b = ldb m b.
Proof. intros Ho Hm Hb. apply Hm. intros p Hp. by apply (Ho b p). Qed.

Section Copyout.
Context (l : list Z) (t : ptree) (R : list Z).

Definition copyout_post (s : kst) (dstva src len r : Z) (s' : kst) : Prop :=
  vinv s' l t R /\ only_pages (frames t) (kmem s) (kmem s') /\
  (forall va, 0 <= va < 2 ^ 32 -> ~ (dstva <= va < dstva + len) ->
     uget (kmem s') t va = uget (kmem s) t va) /\
  (r = 0 /\ (forall va, dstva <= va < dstva + len ->
     uget (kmem s') t va = Some (ldb (kmem s) (src + (va - dstva)))) \/
   r = -1 /\ exists va, dstva <= va < dstva + len /\ pt_map t !! vpn va = None).

Lemma copyout_post_refl s dstva src : vinv s l t R -> copyout_post s dstva src 0 0 s.
Proof. intros Hv. split_and!; auto with xv6. left. split; [done|]. lia. Qed.

(** One page, then the rest. *)
Lemma copyout_post_step s dstva src len c x r s1 s' :
  vinv s l t R -> 0 <= dstva -> dstva + len <= 2 ^ 32 -> 0 < c <= len ->
  dstva mod 4096 + c <= 4096 -> pt_map t !! vpn dstva = Some x ->
  outside (frames t) src len ->
  s1 = mkkst (memmove (kmem s) (leaf_frame x + dstva mod 4096) src c) (freelist s) ->
  copyout_post s1 (dstva + c) (src + c) (len - c) r s' -> copyout_post s dstva src len r s'.
Proof.
  intros Hv Hd Hmax Hc Hc2 Hx Hout -> (Hv' & Hm & Hne & Hres). simpl in *.
  assert (Hm1 : only_pages (frames t) (kmem s) (memmove (kmem s) (leaf_frame x + dstva mod 4096) src c)).
  { intros a Ha. rewrite ldb_memmove by lia. rewrite decide_False; [done|]. intros Hi.
    apply (Ha (leaf_frame x)); [by eapply frame_in_frames|]. unfold in_page. lia. }
  assert (Hg := fun va => uget_chunk s l t R dstva src c x va Hv ltac:(lia) Hx ltac:(lia) Hc2).
  split_and!; [done|by eapply only_pages_trans| |].
  - intros va Hva Hn. rewrite Hne, Hg by lia. rewrite decide_False by lia. done.
  - destruct Hres as [[-> Hw]|(-> & va & Hva & Hn)]; [left|right; split; [done|exists va; split; [lia|done]]].
    split; [done|]. intros va Hva. destruct (decide (dstva + c <= va)) as [Hlate|Hearly].
    + rewrite Hw by lia. f_equal. replace (src + c + (va - (dstva + c))) with (src + (va - dstva)) by lia.
      apply (outside_only (frames t) src len); [done..|lia].
    + rewrite Hne, Hg by lia. by rewrite decide_True by lia.
Qed.

Lemma copyout_loop_ok n : forall fuel s dstva src len,
  (n < fuel)%nat -> vinv s l t R -> 0 <= dstva -> 0 <= len -> dstva + len <= 2 ^ 32 ->
  dstva mod 4096 + len <= 4096 * Z.of_nat n \/ len = 0 -> outside (frames t) src len ->
  exists r s', copyout_loop fuel (pt_root t) dstva src len s = Ok (r, s') /\
    copyout_post s dstva src len r s'.
Proof.
  induction n as [|n IH]; intros fuel s dstva src len Hf Hv Hd Hl Hmax Hn Hout.
  all: destruct fuel as [|f]; [lia|]; cbn [copyout_loop].
  all: destruct (decide (len = 0)) as [->|Hnz];
    [exists 0, s; split; [done|by apply copyout_post_refl]|].
  { lia. }
  rewrite (proj2 (Z.ltb_lt _ _)) by lia. cbv zeta. rewrite !PGROUNDDOWN_eq.
  pose proof Hv as (_ & _ & Hpw & Hpm & _).
  rewrite (bind_ok _ _ _ _ _ (walkaddr_ok s t _ Hpw Hpm)), vpn_page.
  destruct (pt_map t !! vpn dstva) as [x|] eqn:Hx; simpl.
  2: { exists (-1), s. split; [done|]. split_and!; auto with xv6. right. split; [done|].
       exists dstva. split; [lia|done]. }
  destruct Hpw as (_ & _ & _ & Hmp). destruct (Hmp _ _ Hx) as (_ & (_ & Hpa & Hal & _) & _).
  rewrite (proj2 (Z.eqb_neq _ _)) by lia.
  replace (dstva - (dstva - dstva mod 4096)) with (dstva mod 4096) by lia.
  rewrite P2V_off by lia. unfold PGSIZE. rewrite u64_small by lia.
  set (c := Z.min (4096 - dstva mod 4096) len).
  set (s1 := mkkst (memmove (kmem s) (leaf_frame x + dstva mod 4096) src c) (freelist s)).
  rewrite (bind_ok _ _ _ tt s1) by reflexivity.
  assert (Hv1 : vinv s1 l t R).
  { apply (vinv_write s l t R _ [leaf_frame x]); [done| |].
    - intros a Ha. rewrite ldb_memmove by lia. rewrite decide_False; [done|]. intros Hi.
      apply (Ha (leaf_frame x)); [by left|]. unfold in_page. lia.
    - intros y ->%list_elem_of_singleton. apply elem_of_app. left. by eapply frame_in_frames. }
  assert (Hnext : dstva - dstva mod 4096 + 4096 = dstva + c \/ len - c = 0) by lia.
  destruct (IH f s1 (dstva - dstva mod 4096 + 4096) (src + c) (len - c)) as (r & s' & E & Hp);
    [lia|done|lia..| |].
  { intros b p Hb. apply Hout. lia. }
  exists r, s'. split; [exact E|].
  apply (copyout_post_step s dstva src len c x r s1); try done; try lia.
  destruct Hnext as [<-|Hz]; [done|]. rewrite Hz in *.
  destruct Hp as (Hv' & Hm & Hne & Hres). split_and!; try done.
  + intros va Hva _. apply Hne; lia.
  + destruct Hres as [[-> _]|(_ & va & Hva & _)]; [left; split; [done|lia]|lia].
Qed.
End Copyout.

Section Copyin.
Context (l : list Z) (t : ptree) (R : list Z).

Definition copyin_post (s : kst) (dst srcva len r : Z) (s' : kst) : Prop :=
  vinv s' l t R /\ (forall a, ~ (dst <= a < dst + len) -> ldb (kmem s') a = ldb (kmem s) a) /\
  (r = 0 /\ (forall va, srcva <= va < srcva + len ->
     uget (kmem s) t va = Some (ldb (kmem s') (dst + (va - srcva)))) \/
   r = -1 /\ exists va, srcva <= va < srcva + len /\ pt_map t !! vpn va = None).

Lemma copyin_post_refl s dst srcva : vinv s l t R -> copyin_post s dst srcva 0 0 s.
Proof. intros Hv. split_and!; auto. left. split; [done|]. lia. Qed.

(** Writes outside the free pages and the tables. *)
Lemma vinv_outside s m' a n :
  vinv s l t R -> outside (l ++ tables t ++ frames t) a n ->
  (forall b, ~ (a <= b < a + n) -> ldb m' b = ldb (kmem s) b) ->
  vinv (mkkst m' (freelist s)) l t R.
Proof.
  intros Hv Ho Hm. apply vinv_keeps_own; [done|]. intros p b Hp Hb. apply Hm. intros Hi.
  apply (Ho b p Hi); [|done]. rewrite app_assoc. apply elem_of_app. by left.
Qed.

(** User memory does not see writes to a kernel buffer. *)
Lemma uget_outside m m' a n va :
  outside (l ++ tables t ++ frames t) a n ->
  (forall b, ~ (a <= b < a + n) -> ldb m' b = ldb m b) -> uget m' t va = uget m t va.
Proof.
  intros Ho Hm. unfold uget, uaddr. destruct (pt_map t !! vpn va) as [x|] eqn:Hx; [|done].
  simpl. f_equal. apply Hm. intros Hi. apply (Ho _ (leaf_frame x) Hi).
  - rewrite !elem_of_app. right; right. by eapply frame_in_frames.
  - unfold in_page. lia.
Qed.

Lemma copyin_post_step s dst srcva len c x r s1 s' :
  0 <= srcva -> 0 < c <= len -> srcva + len <= 2 ^ 32 ->
  srcva mod 4096 + c <= 4096 -> pt_map t !! vpn srcva = Some x ->
  outside (l ++ tables t ++ frames t) dst len ->
  s1 = mkkst (memmove (kmem s) dst (leaf_frame x + srcva mod 4096) c) (freelist s) ->
  copyin_post s1 (dst + c) (srcva + c) (len - c) r s' -> copyin_post s dst srcva len r s'.
Proof.
  intros Hd Hc Hmax Hc2 Hx Hout -> (Hv' & Hne & Hres). simpl in *.
  assert (Hm1 : forall b, ~ (dst <= b < dst + len) ->
    ldb (memmove (kmem s) dst (leaf_frame x + srcva mod 4096) c) b = ldb (kmem s) b).
  { intros b Hb. rewrite ldb_memmove by lia. rewrite decide_False; [done|lia]. }
  split_and!; [done| |].
  - intros a Ha. rewrite Hne by lia. by apply Hm1.
  - destruct Hres as [[-> Hw]|(-> & va & Hva & Hn)]; [left|right; split; [done|exists va; split; [lia|done]]].
    split; [done|]. intros va Hva. rewrite <- (uget_outside _ _ _ _ va Hout Hm1).
    destruct (decide (srcva + c <= va)) as [Hlate|Hearly].
    + rewrite Hw by lia. do 2 f_equal. lia.
    + rewrite Hne by lia. rewrite ldb_memmove, decide_True by lia.
      rewrite (uget_outside _ _ _ _ va Hout Hm1). unfold uget, uaddr.
      assert (vpn va = vpn srcva) as -> by (rewrite !vpn_low by lia; lia).
      rewrite Hx. simpl. do 2 f_equal. lia.
Qed.

Lemma copyin_loop_ok n : forall fuel s dst srcva len,
  (n < fuel)%nat -> vinv s l t R -> 0 <= srcva -> 0 <= len -> srcva + len <= 2 ^ 32 ->
  srcva mod 4096 + len <= 4096 * Z.of_nat n \/ len = 0 ->
  outside (l ++ tables t ++ frames t) dst len ->
  exists r s', copyin_loop fuel (pt_root t) dst srcva len s = Ok (r, s') /\
    copyin_post s dst srcva len r s'.
Proof.
  induction n as [|n IH]; intros fuel s dst srcva len Hf Hv Hd Hl Hmax Hn Hout.
  all: destruct fuel as [|f]; [lia|]; cbn [copyin_loop].
  all: destruct (decide (len = 0)) as [->|Hnz];
    [exists 0, s; split; [done|by apply copyin_post_refl]|].
  { lia. }
  rewrite (proj2 (Z.ltb_lt _ _)) by lia. cbv zeta. rewrite !PGROUNDDOWN_eq.
  pose proof Hv as (_ & _ & Hpw & Hpm & _).
  rewrite (bind_ok _ _ _ _ _ (walkaddr_ok s t _ Hpw Hpm)), vpn_page.
  destruct (pt_map t !! vpn srcva) as [x|] eqn:Hx; simpl.
  2: { exists (-1), s. split; [done|]. split_and!; auto. right. split; [done|].
       exists srcva. split; [lia|done]. }
  destruct Hpw as (_ & _ & _ & Hmp). destruct (Hmp _ _ Hx) as (_ & (_ & Hpa & Hal & _) & _).
  rewrite (proj2 (Z.eqb_neq _ _)) by lia.
  replace (srcva - (srcva - srcva mod 4096)) with (srcva mod 4096) by lia.
  rewrite P2V_off by lia. unfold PGSIZE. rewrite u64_small by lia.
  set (c := Z.min (4096 - srcva mod 4096) len).
  set (s1 := mkkst (memmove (kmem s) dst (leaf_frame x + srcva mod 4096) c) (freelist s)).
  rewrite (bind_ok _ _ _ tt s1) by reflexivity.
  assert (Hv1 : vinv s1 l t R).
  { apply (vinv_outside s _ dst len); [done..|]. intros b Hb. rewrite ldb_memmove by lia.
    rewrite decide_False; [done|lia]. }
  assert (Hnext : srcva - srcva mod 4096 + 4096 = srcva + c \/ len - c = 0) by lia.
  destruct (IH f s1 (dst + c) (srcva - srcva mod 4096 + 4096) (len - c)) as (r & s' & E & Hp);
    [lia|done|lia..| |].
  { intros b p Hb. apply Hout. lia. }
  exists r, s'. split; [exact E|].
  apply (copyin_post_step s dst srcva len c x r s1); try done; try lia.
  destruct Hnext as [<-|Hz]; [done|]. rewrite Hz in *.
  destruct Hp as (Hv' & Hne & Hres). split_and!; try done.
  destruct Hres as [[-> _]|(_ & va & Hva & _)]; [left; split; [done|lia]|lia].
Qed.
End Copyin.

Section Copyinstr.
Context (l : list Z) (t : ptree) (R : list Z).

Lemma copyinstr_bytes_ok n : forall s p dst,
  (forall i j, 0 <= i < Z.of_nat n -> 0 <= j < Z.of_nat n -> p + i <> dst + j) ->
  exists g k s', copyinstr_bytes n p dst s = Ok ((g, k), s') /\ freelist s' = freelist s /\
    (forall a, ~ (dst <= a < dst + Z.of_nat n) -> ldb (kmem s') a = ldb (kmem s) a) /\
    (forall i, 0 <= i < k -> ldb (kmem s) (p + i) <> 0 /\
       ldb (kmem s') (dst + i) = ldb (kmem s) (p + i)) /\
    (g = true /\ 0 <= k < Z.of_nat n /\ ldb (kmem s) (p + k) = 0 /\ ldb (kmem s') (dst + k) = 0 \/
     g = false /\ k = Z.of_nat n).
Proof.
  induction n as [|n IH]; intros s p dst Hd; cbn [copyinstr_bytes].
  { exists false, 0, s. split_and!; auto. lia. }
  erewrite bind_ok by reflexivity.
  set (s1 := mkkst (stb (kmem s) dst (ldb (kmem s) p)) (freelist s)).
  rewrite (bind_ok _ _ _ tt s1) by reflexivity.
  assert (Hs1 : forall a, a <> dst -> ldb (kmem s1) a = ldb (kmem s) a).
  { intros a Ha. by apply ldb_stb_ne. }
  assert (Hb : ldb (kmem s1) dst = ldb (kmem s) p).
  { unfold s1. simpl. rewrite ldb_stb_eq. apply u8_small, ldb_range. }
  destruct (Z.eqb_spec (ldb (kmem s) p) 0) as [Hz|Hz].
  - exists true, 0, s1. split_and!; auto; [| |left]. 
    + intros a Ha. apply Hs1. lia.
    + lia.
    + rewrite !Z.add_0_r, Hb. split_and!; done || lia.
  - destruct (IH s1 (p + 1) (dst + 1)) as (g & k & s' & E & Hfl & Hne & Hk & Hend).
    { intros i j Hi Hj. specialize (Hd (i + 1) (j + 1)). lia. }
    assert (Hp : forall i, 0 <= i < Z.of_nat n -> ldb (kmem s1) (p + 1 + i) = ldb (kmem s) (p + (i + 1))).
    { intros i Hi. rewrite Hs1; [f_equal; lia|]. specialize (Hd (i + 1) 0). lia. }
    rewrite (bind_ok _ _ _ _ _ E). exists g, (k + 1), s'. split; [done|]. split; [by rewrite Hfl|].
    split; [intros a Ha; rewrite Hne by lia; apply Hs1; lia|]. split.
    + intros i Hi. destruct (decide (i = 0)) as [->|Hi0].
      * rewrite !Z.add_0_r. split; [done|]. rewrite Hne by lia. done.
      * destruct (Hk (i - 1)) as [H1 H2]; [lia|]. rewrite Hp in H1, H2 by lia.
        replace (i - 1 + 1) with i in * by lia. replace (dst + 1 + (i - 1)) with (dst + i) in H2 by lia.
        done.
    + destruct Hend as [(-> & Hkr & H1 & H2)|[-> ->]]; [left|right; split; [done|lia]].
      rewrite Hp in H1 by lia. replace (dst + 1 + k) with (dst + (k + 1)) in H2 by lia.
      split_and!; done || lia.
Qed.

(** [k] non-NUL bytes were copied. *)
Definition copyinstr_post (s : kst) (dst srcva max r : Z) (s' : kst) : Prop :=
  vinv s' l t R /\ (forall a, ~ (dst <= a < dst + max) -> ldb (kmem s') a = ldb (kmem s) a) /\
  exists k, 0 <= k <= max /\
    (forall i, 0 <= i < k -> uget (kmem s) t (srcva + i) = Some (ldb (kmem s') (dst + i)) /\
       ldb (kmem s') (dst + i) <> 0) /\
    (r = 0 /\ k < max /\ uget (kmem s) t (srcva + k) = Some 0 /\ ldb (kmem s') (dst + k) = 0 \/
     r = -1 /\ (k = max \/ k < max /\ pt_map t !! vpn (srcva + k) = None)).

Lemma uget_in_page m va i x :
  0 <= va -> 0 <= i -> va mod 4096 + i < 4096 -> va + i < 2 ^ 32 -> pt_map t !! vpn va = Some x ->
  uget m t (va + i) = Some (ldb m (leaf_frame x + va mod 4096 + i)).
Proof.
  intros H0 Hi Hc Hmax Hx. unfold uget, uaddr.
  assert (vpn (va + i) = vpn va) as -> by (rewrite !vpn_low by lia; lia).
  rewrite Hx. simpl. do 2 f_equal. lia.
Qed.

Lemma copyinstr_post_step s s1 dst srcva max c x r s' :
  0 <= srcva -> 0 < c <= max -> srcva + max <= 2 ^ 32 -> srcva mod 4096 + c <= 4096 ->
  pt_map t !! vpn srcva = Some x -> outside (l ++ tables t ++ frames t) dst max ->
  (forall a, ~ (dst <= a < dst + c) -> ldb (kmem s1) a = ldb (kmem s) a) ->
  (forall i, 0 <= i < c -> ldb (kmem s) (leaf_frame x + srcva mod 4096 + i) <> 0 /\
     ldb (kmem s1) (dst + i) = ldb (kmem s) (leaf_frame x + srcva mod 4096 + i)) ->
  copyinstr_post s1 (dst + c) (srcva + c) (max - c) r s' -> copyinstr_post s dst srcva max r s'.
Proof.
  intros Hd Hc Hmax Hc2 Hx Hout Hne1 Hb (Hv' & Hne & k & Hk & Hcp & Hend).
  assert (Hu : forall va, uget (kmem s1) t va = uget (kmem s) t va).
  { intros va. apply (uget_outside l t (kmem s) (kmem s1) dst max va Hout). intros b Hbb. apply Hne1. lia. }
  split_and!; [done|intros a Ha; rewrite Hne by lia; apply Hne1; lia|].
  exists (c + k). split; [lia|]. split.
  - intros i Hi. destruct (decide (i < c)) as [Hlt|Hge].
    + destruct (Hb i) as [Hb1 Hb2]; [lia|]. rewrite (uget_in_page _ _ _ x) by (done || lia).
      rewrite Hne, Hb2 by lia. done.
    + destruct (Hcp (i - c)) as [H1 H2]; [lia|]. rewrite Hu in H1.
      replace (srcva + c + (i - c)) with (srcva + i) in H1 by lia.
      replace (dst + c + (i - c)) with (dst + i) in * by lia. done.
  - rewrite Hu in Hend. replace (srcva + c + k) with (srcva + (c + k)) in Hend by lia.
    replace (dst + c + k) with (dst + (c + k)) in Hend by lia.
    destruct Hend as [(-> & ? & ? & ?)|[-> [?|[? ?]]]].
    + left. split_and!; auto. lia.
    + right. split; [done|]. left. lia.
    + right. split; [done|]. right. split; [lia|done].
Qed.

Lemma copyinstr_loop_ok n : forall fuel s dst srcva max,
  (n < fuel)%nat -> vinv s l t R -> 0 <= srcva -> 0 <= max -> srcva + max <= 2 ^ 32 ->
  srcva mod 4096 + max <= 4096 * Z.of_nat n \/ max = 0 ->
  outside (l ++ tables t ++ frames t) dst max ->
  exists r s', copyinstr_loop fuel (pt_root t) dst srcva max false s = Ok (r, s') /\
    copyinstr_post s dst srcva max r s'.
Proof.
  induction n as [|n IH]; intros fuel s dst srcva max Hf Hv Hd Hl Hmax Hn Hout.
  all: destruct fuel as [|f]; [lia|]; cbn [copyinstr_loop].
  all: destruct (decide (max = 0)) as [->|Hnz];
    [exists (-1), s; split; [done|]; split_and!; auto; exists 0; split_and!; [lia..|auto]|].
  { lia. }
  rewrite (proj2 (Z.ltb_lt 0 max)) by lia. cbn [negb andb]. cbv zeta. rewrite !PGROUNDDOWN_eq.
  pose proof Hv as (_ & _ & Hpw & Hpm & _).
  rewrite (bind_ok _ _ _ _ _ (walkaddr_ok s t _ Hpw Hpm)), vpn_page.
  destruct (pt_map t !! vpn srcva) as [x|] eqn:Hx; simpl.
  2: { exists (-1), s. split; [done|]. split_and!; auto. exists 0. split_and!; [lia..|].
       right. split; [done|]. right. rewrite Z.add_0_r. split; [lia|done]. }
  destruct Hpw as (_ & _ & _ & Hmp). destruct (Hmp _ _ Hx) as (_ & (_ & Hpa & Hal & _) & _).
  rewrite (proj2 (Z.eqb_neq _ _)) by lia.
  replace (srcva - (srcva - srcva mod 4096)) with (srcva mod 4096) by lia.
  rewrite P2V_off by lia. unfold PGSIZE. rewrite u64_small by lia.
  change (P2V x.1) with (leaf_frame x).
  set (c := Z.min (4096 - srcva mod 4096) max).
  destruct (copyinstr_bytes_ok (Z.to_nat c) s (leaf_frame x + srcva mod 4096) dst)
    as (g & k & s1 & E & Hfl & Hne & Hk & Hend).
  { intros i j Hi Hj Heq. apply (Hout (dst + j) (leaf_frame x)); [lia| |unfold in_page; lia].
    rewrite !elem_of_app. right; right. by eapply frame_in_frames. }
  rewrite (bind_ok _ _ _ _ _ E). clear E. simpl fst. simpl snd. rewrite Z2Nat.id in * by lia.
  assert (Hv1 : vinv s1 l t R).
  { destruct s1 as [m1 f1]. simpl in Hfl. subst f1.
    apply (vinv_outside l t R s m1 dst max Hv Hout). intros b Hb. apply Hne. lia. }
  destruct Hend as [(-> & Hkr & Hz1 & Hz2)|[-> ->]].
  - destruct f as [|f]; [lia|]. cbn [copyinstr_loop negb andb]. exists 0, s1. split; [done|].
    split_and!; [done|intros a Ha; apply Hne; lia|]. exists k. split_and!; [lia..| |left].
    + intros i Hi. destruct (Hk i Hi) as [H1 H2]. rewrite (uget_in_page _ _ _ x) by (done || lia).
      rewrite H2. done.
    + rewrite (uget_in_page _ _ _ x) by (done || lia). rewrite Hz1, Hz2. split_and!; done || lia.
  - assert (Hnext : srcva - srcva mod 4096 + 4096 = srcva + c \/ max - c = 0) by lia.
    destruct (IH f s1 (dst + c) (srcva - srcva mod 4096 + 4096) (max - c)) as (r & s' & E & Hp);
      [lia|done|lia..| |].
    { intros b p Hb. apply Hout. lia. }
    exists r, s'. split; [exact E|].
    apply (copyinstr_post_step s s1 dst srcva max c x); try done; try lia.
    destruct Hnext as [<-|Hz]; [done|]. rewrite Hz in *.
    destruct Hp as (Hv' & Hne' & k & Hk' & _ & Hres). split_and!; try done. exists 0.
    assert (k = 0) as -> by lia. split_and!; [lia..|].
    destruct Hres as [(_ & ? & _)|[-> [?|[? _]]]]; [lia|right; auto|lia].
Qed.
End Copyinstr.

(** ** Properties *)

Lemma copy_fuel_enough va len :
  0 <= va -> 0 <= len ->
  (Z.to_nat (len / 4096 + 2) < copy_fuel len)%nat /\
  va mod 4096 + len <= 4096 * Z.of_nat (Z.to_nat (len / 4096 + 2)).
Proof. intros. unfold copy_fuel, PGSIZE. lia. Qed.


(** Copying [len] bytes in from user address [srcva] either returns 0 with
    the kernel buffer equal to the user bytes, or returns -1 because a page of the
    range is not mapped; no memory outside the buffer changes. *)
Theorem copyin_reads l t R s dst srcva len :
  vinv s l t R -> 0 <= srcva -> 0 <= len -> srcva + len <= 2 ^ 32 ->
  outside (l ++ tables t ++ frames t) dst len ->
  exists r s', copyin (pt_root t) dst srcva len s = Ok (r, s') /\
    copyin_post l t R s dst srcva len r s'.
Proof.
  intros. destruct (copy_fuel_enough srcva len) as [Hf Hn]; [done..|].
  eapply copyin_loop_ok; eauto.
Qed.

(** Fetching a string returns 0 exactly when a NUL is found within
    [max] mapped bytes, the buffer then holding the string with its NUL; otherwise
    it returns -1 because an unmapped page or the bound [max] came first. *)
Theorem copyinstr_fetches l t R s dst srcva max :
  vinv s l t R -> 0 <= srcva -> 0 <= max -> srcva + max <= 2 ^ 32 ->
  outside (l ++ tables t ++ frames t) dst max ->
  exists r s', copyinstr (pt_root t) dst srcva max s = Ok (r, s') /\
    copyinstr_post l t R s dst srcva max r s'.
Proof.
  intros. destruct (copy_fuel_enough srcva max) as [Hf Hn]; [done..|].
  eapply copyinstr_loop_ok; eauto.
Qed.

(** [walk] has no counterpart of a bound on addresses: an address above 4 GiB
    reaches the page of the address modulo 4 GiB. *)
Lemma walkaddr_wraps s l t R va :
  vinv s l t R -> walkaddr (pt_root t) (va + 2 ^ 32) s = walkaddr (pt_root t) va s.
Proof.
  intros (_ & _ & Hpw & Hpm & _). rewrite !walkaddr_ok by done.
  assert (vpn (va + 2 ^ 32) = vpn va) as -> by (unfold vpn; lia). done.
Qed.

(** * The first address space ([uvmcreate], [uvminit]), stack guard pages
    ([uvmclear]) and the kernel's own map ([page_init]). *)

(** The TLB invalidation has no counterpart in the model: there is no TLB. *)
Definition page_init (_kernel_pgtbl : Z) : M kst unit :=
  mappages _kernel_pgtbl (P2V INIT_KERNTOP) (PHYSTOP - INIT_KERNTOP) INIT_KERNTOP AP_1 ;;; ret tt.

Definition empty_tree (p : Z) : ptree := mkptree p ∅ ∅ ∅.

Lemma uvmcreate_ok s p l R :
  kwf s (p :: l) -> Forall kpage (p :: l) -> Forall page R -> NoDup ((p :: l) ++ R) ->
  exists s', uvmcreate s = Ok (p, s') /\ vinv s' l (empty_tree p) R /\ only_pages [p] (kmem s) (kmem s').
Proof.
  intros Hwf Hk HR Hnd. apply Forall_cons in Hk as [Hp Hk].
  destruct (kalloc_cons s p l Hwf) as (s1 & E1 & Hwf1 & _ & Hnl & Hz & Ho).
  unfold uvmcreate. rewrite (bind_ok _ _ _ _ _ E1), (kpage_eqb p Hp). clear E1.
  remember (memset (kmem s1) p 0 PGSIZE) as m2 eqn:Em.
  assert (Ho2 : only_pages [p] (kmem s1) m2) by (rewrite Em; apply only_pages_memset).
  assert (Hz2 : zero_page m2 p) by (rewrite Em; apply zero_page_memset).
  assert (Hwf2 : kwf (mkkst m2 (freelist s1)) l).
  { apply (kwf_frame s1 m2 l [p]); [done|done|by apply Forall_singleton, Hp|]. clear -Hnl. set_solver. }
  exists (mkkst m2 (freelist s1)). split; [unfold bind, on_mem, modify; by rewrite <- Em|].
  clear Em. split; [|by eapply only_pages_trans]. split_and!; try done.
  - split_and!; simpl; [|by intros ??? ?%lookup_empty_Some..]. intros i Hi. rewrite lookup_empty.
    by apply (zero_page_ld64 m2 p i); [|lia].
  - unfold frames, tables, pmds, ptes, mvals, empty_tree. simpl. rewrite !map_to_list_empty. simpl.
    rewrite <- Permutation_middle. done.
Qed.

(** [src] lies in a page of another owner. *)
Definition foreign (R : list Z) (src n : Z) : Prop :=
  exists q, q ∈ R /\ forall i, 0 <= i < n -> in_page q (src + i).

Lemma uvminit_ok s p l t R src sz :
  vinv s (p :: l) t R -> pt_map t = ∅ -> (3 <= length l)%nat -> 0 <= sz < 4096 -> foreign R src sz ->
  exists s' l' t', uvminit (pt_root t) src sz s = Ok (tt, s') /\ vinv s' l' t' R /\
    pt_root t' = pt_root t /\ uspace t' 4096 /\
    (forall va, 0 <= va < 4096 ->
       uget (kmem s') t' va = Some (if decide (va < sz) then ldb (kmem s) (src + va) else 0)).
Proof.
  intros Hv Hemp Hl Hsz (q & HqR & Hq). unfold uvminit.
  rewrite (proj2 (Z.leb_gt _ _)) by (unfold PGSIZE; lia).
  destruct (alloc_map s p l t R 0 AP_1) as (s1 & E1 & Hk & _ & Ho1 & Hmp); [done|by right; left|lia..| |].
  { by rewrite Hemp, lookup_empty. }
  rewrite (bind_ok _ _ _ _ _ E1). clear E1.
  destruct (Hmp (memset (kmem s1) p 0 PGSIZE)) as (r & s2 & l2 & t2 & E2 & Hp2 & H).
  { apply only_pages_memset. }
  set (s1' := mkkst (memset (kmem s1) p 0 PGSIZE) (freelist s1)) in E2.
  rewrite (bind_ok _ _ _ tt s1') by reflexivity. rewrite (bind_ok _ _ _ _ _ E2). clear E2.
  destruct H as [(_ & Hm2 & _ & Hv2 & Hroot & _ & Hk2)|(_ & Hlen & _)]; [|lia].
  rewrite Hemp, insert_empty in Hm2. change (vpn 0) with 0 in Hm2.
  assert (Hleaf : pt_map t2 !! 0 = Some ((V2P p, AP_1) : leaf)) by (rewrite Hm2; apply lookup_singleton_eq).
  exists (mkkst (memmove (kmem s2) p src sz) (freelist s2)), l2, t2.
  split; [reflexivity|]. split_and!; try done.
  - apply (vinv_write s2 l2 t2 R _ [p]); [done| |].
    + intros a Ha. rewrite ldb_memmove by lia. rewrite decide_False; [done|]. intros Hi.
      apply (Ha p); [by left|]. unfold in_page. lia.
    + intros y ->%list_elem_of_singleton. apply elem_of_app. left.
      rewrite <- (P2V_V2P p Hk). by apply (frame_in_frames _ _ _ Hleaf).
  - intros w. rewrite Hm2. unfold npages. rewrite lookup_singleton_is_Some. lia.
  - intros va Hva. unfold uget, uaddr. assert (vpn va = 0) as -> by (rewrite vpn_low; lia).
    rewrite Hleaf. simpl. unfold leaf_frame. simpl. rewrite P2V_V2P, Z.mod_small by (done || lia).
    rewrite ldb_memmove by lia. f_equal. destruct (decide (va < sz)) as [Hlt|Hge].
    + rewrite decide_True by lia. replace (src + (p + va - p)) with (src + va) by lia.
      apply (Hk2 q); [apply elem_of_app; by right|apply Hq; lia].
    + rewrite decide_False by lia. rewrite Hp2 by (unfold in_page; lia).
      apply (zero_page_memset (kmem s1) p). unfold in_page. lia.
Qed.

Lemma uvmclear_ok s l t R va x :
  vinv s l t R -> pt_map t !! vpn va = Some x ->
  exists s', uvmclear (pt_root t) va s = Ok (tt, s') /\
    vinv s' l (upd_map t (vpn va) (Some (x.1, 0))) R /\ only_pages (tables t) (kmem s) (kmem s').
Proof.
  intros Hv Hx. pose proof Hv as (_ & _ & Hpw & Hpm & HR & _).
  destruct (walk_leaf s t va x Hpw Hpm Hx) as (E1 & Hnz & E2 & Hlw).
  destruct Hpw as (_ & _ & _ & Hmp). destruct (Hmp _ _ Hx) as (_ & _ & [q Hq]).
  unfold uvmclear. rewrite (bind_ok _ _ _ _ _ E1), Hnz, (bind_ok _ _ _ _ _ E2).
  destruct (enc_leaf_some _ Hlw) as (_ & _ & _ & _ & _ & ->).
  eexists. split; [reflexivity|]. split.
  - eapply vinv_store; eauto.
    + intros y [= <-]. destruct x as [pa ap], Hlw as (? & ? & ? & _). do 3 (split; [done|]). by left.
    + unfold frames. rewrite upd_map_insert. simpl.
      rewrite (mvals_delete leaf_frame (pt_map t) (vpn va) x Hx).
      rewrite <- (insert_delete_eq (pt_map t)), mvals_insert by apply lookup_delete_eq. done.
  - eapply only_pages_mono; [|by eapply only_pages_pte]. done.
Qed.

(** ** Properties *)

(** The address space of the first process: an empty page table, then initcode. *)
Definition first_space (src sz : Z) : M kst Z :=
  pagetable <- uvmcreate ;; uvminit pagetable src sz ;;; ret pagetable.

(** From five free pages, [uvmcreate] followed by [uvminit] builds an
    address space of one page whose first [sz] bytes are the initial program and
    whose remaining bytes are zero. *)
Theorem uvminit_loads s p l R src sz :
  kwf s (p :: l) -> Forall kpage (p :: l) -> Forall page R -> NoDup ((p :: l) ++ R) ->
  (4 <= length l)%nat -> 0 <= sz < 4096 -> foreign R src sz ->
  exists s' l' t', first_space src sz s = Ok (pt_root t', s') /\ vinv s' l' t' R /\
    uspace t' 4096 /\
    (forall va, 0 <= va < 4096 ->
       uget (kmem s') t' va = Some (if decide (va < sz) then ldb (kmem s) (src + va) else 0)).
Proof.
  intros Hwf Hk HR Hnd Hl Hsz Hf.
  destruct (uvmcreate_ok s p l R Hwf Hk HR Hnd) as (s1 & E1 & Hv1 & Ho1).
  destruct l as [|p1 l]; [simpl in Hl; lia|].
  destruct (uvminit_ok s1 p1 l (empty_tree p) R src sz) as (s' & l' & t' & E & Hv' & Hr & Hu & Hb);
    [done|reflexivity|simpl in Hl; lia|done..|].
  exists s', l', t'. unfold first_space. rewrite (bind_ok _ _ _ _ _ E1). simpl in E, Hr.
  rewrite (bind_ok _ _ _ _ _ E), Hr. split_and!; try done.
  intros va Hva. rewrite (Hb va Hva). destruct (decide (va < sz)); [|done]. f_equal.
  destruct Hf as (q & HqR & Hq). apply Ho1. intros x ->%list_elem_of_singleton Hin.
  specialize (Hq va ltac:(lia)). rewrite Forall_forall in HR. apply Forall_cons in Hk as [Hkp _].
  assert (p = q) as -> by (eapply in_page_inj; eauto; apply Hkp).
  apply NoDup_app in Hnd as (_ & Hd & _). apply (Hd q); [by left|done].
Qed.
