(* ===== verification/VmExample.v ===== *)
(** A concrete address space: one user page mapped at address 0, three free
    pages and one page of another owner.  It instantiates the hypotheses of the
    theorems on page tables. *)

From S2P Require Import Prelude Mem KString Mmu Kalloc Vm VmTree VmMap VmUser VmFree VmCopy VmIo.

Definition kp (k : Z) : Z := KERNBASE + 0x1000 * k.

(** Free list 0x20, 0x21, 0x22; root 1, PMD 2, PTEs 3; leaf for frame 0x10. *)
Definition ex_mem : mem :=
  st64 (st64 (st64 (st64 (st64 (st64 ∅
    (kp 0x20) (kp 0x21)) (kp 0x21) (kp 0x22)) (kp 0x22) 0)
    (kp 1) 0x2003) (kp 2) 0x3003) (kp 3) 0x10773.

Definition ex_state : kst := mkkst ex_mem (kp 0x20).
Definition ex_free : list Z := [kp 0x20; kp 0x21; kp 0x22].
Definition ex_tree : ptree :=
  mkptree (kp 1) {[ 0 := kp 2 ]} {[ 0 := kp 3 ]} {[ 0 := (0x10000, 64) ]}.
Definition ex_other : list Z := [kp 0x30].

Lemma kp_kpage k : 0 < k < 0x100000 -> kpage (kp k).
Proof. unfold kpage, page, kp, KERNBASE. lia. Qed.

Lemma ld64_empty a : ld64 ∅ a = 0.
Proof. apply ld64_zero. intros i _. unfold ldb. by rewrite lookup_empty. Qed.

Lemma ex_mem_other a :
  a mod 8 = 0 -> a <> kp 0x20 -> a <> kp 0x21 -> a <> kp 0x22 -> a <> kp 1 -> a <> kp 2 -> a <> kp 3 ->
  ld64 ex_mem a = 0.
Proof.
  unfold ex_mem, kp, KERNBASE. intros. rewrite !ld64_st64_disj by lia. apply ld64_empty.
Qed.

Lemma ex_flist : flist ex_mem (kp 0x20) ex_free.
Proof.
  unfold ex_free. cbn [flist].
  assert (forall k, 0 < k < 0x100000 -> page (kp k)) as Hp by (intros; by apply kp_kpage).
  repeat split; try (apply Hp; lia); vm_compute; reflexivity.
Qed.

Lemma NoDup_bool (l : list Z) : bool_decide (NoDup l) = true -> NoDup l.
Proof. by intros ?%bool_decide_eq_true. Qed.

Lemma ex_pt_wf : pt_wf ex_tree.
Proof.
  split_and!; simpl.
  - apply kp_kpage. lia.
  - intros i p [<- <-]%lookup_singleton_Some. split; [lia|]. apply kp_kpage. lia.
  - intros k q [<- <-]%lookup_singleton_Some. split; [lia|]. split; [apply kp_kpage; lia|].
    change (0 / 512) with 0. by rewrite lookup_singleton_eq.
  - intros v x [<- <-]%lookup_singleton_Some. split; [lia|]. split; [|by eexists].
    split; [|simpl; lia]. apply (kp_kpage 0x10). lia.
Qed.

Lemma ex_pt_mem : pt_mem ex_mem ex_tree.
Proof.
  split_and!; simpl.
  - intros i Hi. destruct (decide (i = 0)) as [->|Hne].
    + by vm_compute.
    + rewrite lookup_singleton_ne by done. apply ex_mem_other; unfold kp, KERNBASE; lia.
  - intros i p j [<- <-]%lookup_singleton_Some Hj. destruct (decide (j = 0)) as [->|Hne].
    + by vm_compute.
    + rewrite lookup_singleton_ne by lia. apply ex_mem_other; unfold kp, KERNBASE; lia.
  - intros k q j [<- <-]%lookup_singleton_Some Hj. destruct (decide (j = 0)) as [->|Hne].
    + by vm_compute.
    + rewrite lookup_singleton_ne by lia. apply ex_mem_other; unfold kp, KERNBASE; lia.
Qed.

Lemma ex_owned : owned ex_tree = [kp 1; kp 2; kp 3; kp 0x10].
Proof. by vm_compute. Qed.

Lemma ex_vinv : vinv ex_state ex_free ex_tree ex_other.
Proof.
  split_and!.
  - split; [apply ex_flist|]. by apply NoDup_bool.
  - unfold ex_free. rewrite !Forall_cons. split_and!; auto using Forall_nil_2; apply kp_kpage; lia.
  - apply ex_pt_wf.
  - apply ex_pt_mem.
  - apply Forall_singleton, kp_kpage. lia.
  - by apply NoDup_bool.
Qed.

Lemma ex_uspace : uspace ex_tree 4096.
Proof.
  intros w. unfold npages. simpl. rewrite lookup_singleton_is_Some. lia.
Qed.

(** ** The theorems at this address space *)

Lemma ex_range_unmapped w : 1 <= w <= 1 -> pt_map ex_tree !! w = None.
Proof. intros H. simpl. apply lookup_singleton_ne. lia. Qed.

Lemma mappages_maps_witness :
  let n := extra_pages 4096 4096 in
  exists r k s' l' t', mappages (pt_root ex_tree) 4096 4096 0x30000 64 ex_state = Ok (r, s') /\
    (r = 0 /\ k = S n \/ r = -1 /\ (k <= n)%nat /\ l' = []) /\
    vinv s' l' t' (frame_range (0x30000 + 4096 * Z.of_nat k) (S n - k) ++ []) /\
    pt_map t' = map_range (pt_map ex_tree) (4096 / 4096) 0x30000 64 k /\
    only_pages (ex_free ++ tables ex_tree) (kmem ex_state) (kmem s') /\
    (length ex_free <= length l' + 2 * S n)%nat.
Proof.
  apply (mappages_maps ex_state ex_free ex_tree [] 4096 4096 0x30000 64);
    [exact ex_vinv|by right; left|vm_compute; congruence..| |].
  - vm_compute. congruence.
  - exact ex_range_unmapped.
Defined.

Lemma mappages_remap_witness :
  mappages (pt_root ex_tree) 0 4096 0x30000 64 ex_state = Panic "remap".
Proof.
  apply (mappages_remap ex_state ex_free ex_tree ex_other); [exact ex_vinv|lia..|].
  by eexists.
Defined.

Lemma ex_page0 w : 0 <= w < 1 -> is_Some (pt_map ex_tree !! w).
Proof. intros H. assert (w = 0) as -> by lia. by eexists. Qed.

Lemma uvmunmap_frees_witness :
  exists s' l' t', uvmunmap (pt_root ex_tree) 0 1 true ex_state = Ok (tt, s') /\
    vinv s' l' t' ex_other /\ pt_map t' = unmap_range (pt_map ex_tree) (0 / 4096) (Z.to_nat 1) /\
    ex_free ++ frames ex_tree ≡ₚ l' ++ frames t' /\ tables t' = tables ex_tree /\
    only_pages (tables ex_tree ++ l') (kmem ex_state) (kmem s').
Proof.
  apply (uvmunmap_frees ex_state ex_free ex_tree ex_other 0 1); [exact ex_vinv|lia..|exact ex_page0].
Defined.

Lemma uvmalloc_grows_witness :
  exists r s' l' t', uvmalloc (pt_root ex_tree) 4096 8192 ex_state = Ok (r, s') /\
    evolves (frames ex_tree ++ ex_other) ex_other ex_state ex_free ex_tree s' l' t' /\
    (r = 8192 /\ uspace t' 8192 /\ grown_to ex_tree (npages 4096) (npages 8192) s' t' \/
     r = 0 /\ pt_map t' = pt_map ex_tree /\
     Z.of_nat (length ex_free) <= 3 * (npages 8192 - npages 4096)).
Proof. apply (uvmalloc_grows ex_state ex_free ex_tree ex_other); [exact ex_vinv|exact ex_uspace|lia..]. Defined.

Lemma uvmdealloc_shrinks_witness :
  exists s' l' t', uvmdealloc (pt_root ex_tree) 4096 0 ex_state = Ok (0, s') /\
    uspace t' 0 /\ (forall w, w < npages 0 -> pt_map t' !! w = pt_map ex_tree !! w) /\
    tables t' = tables ex_tree /\ ex_free ++ frames ex_tree ≡ₚ l' ++ frames t' /\
    evolves (frames t' ++ ex_other) ex_other ex_state ex_free ex_tree s' l' t'.
Proof. apply (uvmdealloc_shrinks ex_state ex_free ex_tree ex_other); [exact ex_vinv|exact ex_uspace|lia..]. Defined.

Lemma uvmfree_frees_all_witness :
  exists s' l', uvmfree (pt_root ex_tree) 4096 ex_state = Ok (tt, s') /\ kwf s' l' /\
    l' ≡ₚ ex_free ++ owned ex_tree /\ keeps ex_other (kmem ex_state) (kmem s').
Proof. apply (uvmfree_frees_all ex_state ex_free ex_tree ex_other); [exact ex_vinv|exact ex_uspace|lia]. Defined.

(** An empty child whose root is the other page. *)
Definition ex_child : ptree := mkptree (kp 0x30) ∅ ∅ ∅.

Lemma ex_child_vinv l fl :
  (l = ex_free /\ fl = kp 0x20 \/ l = [] /\ fl = 0) ->
  vinv (mkkst ex_mem fl) l ex_child (owned ex_tree ++ []).
Proof.
  intros Hl. rewrite app_nil_r. pose proof ex_vinv as (Hwf & Hkl & _ & _ & _ & _).
  assert (Hk : Forall kpage (owned ex_tree)).
  { apply Forall_app. split; [apply tables_kpage|apply frames_kpage]; apply ex_pt_wf. }
  split_and!.
  - destruct Hl as [[-> ->]|[-> ->]]; [exact Hwf|by split; [|constructor]].
  - by destruct Hl as [[-> ->]|[-> ->]].
  - split_and!; simpl; [apply kp_kpage; lia|by intros ?? ?%lookup_empty_Some..].
  - split_and!; simpl; [|by intros ??? ?%lookup_empty_Some..].
    intros i Hi. rewrite lookup_empty. apply ex_mem_other; unfold kp, KERNBASE; lia.
  - by apply kpage_page.
  - rewrite ex_owned. destruct Hl as [[-> ->]|[-> ->]]; by apply NoDup_bool.
Qed.

Lemma uvmcopy_copies_witness :
  exists s' l' t', uvmcopy (pt_root ex_tree) (pt_root ex_child) 4096 ex_state = Ok (0, s') /\
    evolves (owned ex_tree ++ []) (owned ex_tree ++ []) ex_state ex_free ex_child s' l' t' /\
    (copied (kmem s') ex_tree (npages 4096) t' /\ uspace t' 4096 \/
     pt_map t' = ∅ /\ Z.of_nat (length ex_free) <= 3 * npages 4096).
Proof.
  apply (uvmcopy_copies ex_state ex_free ex_tree ex_child []);
    [by apply ex_child_vinv; left|exact ex_pt_wf|exact ex_pt_mem|exact ex_uspace|reflexivity|lia].
Defined.

Lemma uvmcopy_failure_hidden_witness :
  uvmcopy (pt_root ex_tree) (pt_root ex_child) 4096 (mkkst ex_mem 0) = Ok (0, mkkst ex_mem 0) /\
  uvmfree (pt_root ex_child) 4096 (mkkst ex_mem 0) = Panic "uvmunmap: walk".
Proof.
  apply (uvmcopy_failure_hidden (mkkst ex_mem 0) ex_tree ex_child [] 4096);
    [by apply ex_child_vinv; right|exact ex_pt_wf|exact ex_pt_mem|exact ex_uspace|reflexivity..|lia].
Defined.

(** A kernel buffer in the other owner's page. *)
Lemma ex_buffer ps : (forall p, p ∈ ps -> p + 4096 <= kp 0x30 \/ kp 0x31 <= p) -> outside ps (kp 0x30) 4096.
Proof.
  intros H b p Hb Hp. specialize (H p Hp). unfold in_page, kp, KERNBASE in *. lia.
Qed.

Lemma ex_buffer_all : outside (ex_free ++ tables ex_tree ++ frames ex_tree) (kp 0x30) 4096.
Proof.
  apply ex_buffer. change (tables ex_tree ++ frames ex_tree) with (owned ex_tree). rewrite ex_owned.
  intros p Hp. unfold ex_free in Hp. simpl in Hp. rewrite !elem_of_cons in Hp.
  unfold kp, KERNBASE in *. destruct Hp as [?|[?|[?|[?|[?|[?|[?|[]%not_elem_of_nil]]]]]]]; lia.
Qed.


Lemma copyin_reads_witness :
  exists r s', copyin (pt_root ex_tree) (kp 0x30) 0 4096 ex_state = Ok (r, s') /\
    copyin_post ex_free ex_tree ex_other ex_state (kp 0x30) 0 4096 r s'.
Proof. apply (copyin_reads ex_free ex_tree ex_other); [exact ex_vinv|lia..|exact ex_buffer_all]. Defined.

Lemma copyinstr_fetches_witness :
  exists r s', copyinstr (pt_root ex_tree) (kp 0x30) 0 4096 ex_state = Ok (r, s') /\
    copyinstr_post ex_free ex_tree ex_other ex_state (kp 0x30) 0 4096 r s'.
Proof. apply (copyinstr_fetches ex_free ex_tree ex_other); [exact ex_vinv|lia..|exact ex_buffer_all]. Defined.

(** Five free pages, and initcode in the other owner's page. *)
Definition ex_boot : kst :=
  mkkst (st64 (st64 (st64 (st64 ∅ (kp 1) (kp 2)) (kp 2) (kp 3)) (kp 3) (kp 4)) (kp 4) (kp 5)) (kp 1).

Lemma uvminit_loads_witness :
  exists s' l' t', first_space (kp 0x30) 16 ex_boot = Ok (pt_root t', s') /\
    vinv s' l' t' ex_other /\ uspace t' 4096 /\
    (forall va, 0 <= va < 4096 -> uget (kmem s') t' va =
       Some (if decide (va < 16) then ldb (kmem ex_boot) (kp 0x30 + va) else 0)).
Proof.
  assert (Hk : Forall kpage [kp 1; kp 2; kp 3; kp 4; kp 5]).
  { rewrite !Forall_cons. split_and!; auto using Forall_nil_2; apply kp_kpage; lia. }
  apply (uvminit_loads ex_boot (kp 1) [kp 2; kp 3; kp 4; kp 5] ex_other).
  - split; [|by apply NoDup_bool]. pose proof (kpage_page _ Hk) as Hp.
    rewrite !Forall_cons in Hp. destruct Hp as (? & ? & ? & ? & ? & _).
    do 5 (split; [vm_compute; reflexivity|split; [assumption|]]). vm_compute. reflexivity.
  - exact Hk.
  - apply Forall_singleton, kp_kpage. lia.
  - by apply NoDup_bool.
  - simpl. lia.
  - lia.
  - exists (kp 0x30). split; [by left|]. intros i Hi. unfold in_page. lia.
Defined.
