(* ===== verification/Spinlock.v ===== *)
(** kernel/spinlock.c: spin locks and the nesting of interrupt disabling.  The
    routines are given for one CPU; [step] interleaves them over all CPUs, one
    shared-memory access at a time, and the theorems show mutual exclusion with
    interrupts off.  The other files treat the code between [acquire] and
    [release] of a lock as one step on this ground. *)

From S2P Require Import Prelude.

(** ** One CPU *)

(** struct cpu's [noff] and [intena], and the interrupt mask (DAIF.I clear). *)
Record cpu := mkcpu { noff : Z; intena : bool; intr_get : bool }.

(** struct spinlock; [lcpu] is 0 or the address of the holder's struct cpu. *)
Record spinlock := mkspinlock { locked : Z; lcpu : Z }.

Definition initlock : spinlock := mkspinlock 0 0.

Definition push_off : M cpu unit :=
  old <- gets intr_get ;;
  modify (fun c => mkcpu (noff c) (intena c) false) ;;;
  n <- gets noff ;;
  (if n =? 0 then modify (fun c => mkcpu (noff c) old (intr_get c)) else ret tt) ;;;
  modify (fun c => mkcpu (s32 (noff c + 1)) (intena c) (intr_get c)).

Definition pop_off : M cpu unit :=
  i <- gets intr_get ;;
  if (i : bool) then panic "pop_off - interruptible"
  else
    n <- gets noff ;;
    if n <? 1 then panic "pop_off"
    else
      modify (fun c => mkcpu (noff c - 1) (intena c) (intr_get c)) ;;;
      c <- get ;;
      if (noff c =? 0) && intena c
      then modify (fun c => mkcpu (noff c) (intena c) true)
      else ret tt.

Definition holding (me : Z) (lk : spinlock) : bool := negb (locked lk =? 0) && (lcpu lk =? me).

(** The accesses of [acquire] and [release], in order. *)
Definition acquire_enter (me : Z) (lk : spinlock) : M cpu unit :=
  push_off ;;; if holding me lk then panic "acquire" else ret tt.

(** [__sync_lock_test_and_set(&lk->locked, 1)] *)
Definition test_and_set (lk : spinlock) : Z * spinlock := (locked lk, mkspinlock 1 (lcpu lk)).

Definition acquire_own (me : Z) (lk : spinlock) : spinlock := mkspinlock (locked lk) me.

Definition release_check (me : Z) (lk : spinlock) : M cpu unit :=
  if negb (holding me lk) then panic "release" else ret tt.

Definition release_disown (lk : spinlock) : spinlock := mkspinlock (locked lk) 0.

(** [__sync_lock_release(&lk->locked)] *)
Definition release_unlock (lk : spinlock) : spinlock := mkspinlock 0 (lcpu lk).

(** ** All CPUs

    Where a CPU is in [acquire]/[release]; CPUs are numbered by the (non-zero)
    address of their struct cpu. *)
Inductive pc :=
| Out     (* not using the lock *)
| Spin    (* in the loop of acquire *)
| Won     (* test-and-set returned 0 *)
| In      (* between acquire and release *)
| Rel     (* release cleared lk->cpu *)
| Pop.    (* release cleared lk->locked *)

#[export] Instance pc_eq_dec : EqDecision pc.
Proof. solve_decision. Defined.

Record machine := mkmachine { lk : spinlock; cpus : Z -> cpu; pcs : Z -> pc }.

Definition upd {A} (f : Z -> A) (i : Z) (x : A) : Z -> A := fun j => if decide (j = i) then x else f j.

(** [acquire] and [release] by CPU [me]; other code on the CPU may nest further
    [push_off]s, pop those, and toggle interrupts when [noff] is 0. *)
Inductive step : machine -> machine -> Prop :=
| step_enter m me c' : me <> 0 -> pcs m me = Out -> noff (cpus m me) < 2 ^ 31 - 2 ->
    acquire_enter me (lk m) (cpus m me) = Ok (tt, c') ->
    step m (mkmachine (lk m) (upd (cpus m) me c') (upd (pcs m) me Spin))
| step_spin m me : pcs m me = Spin -> (test_and_set (lk m)).1 <> 0 ->
    step m (mkmachine (test_and_set (lk m)).2 (cpus m) (pcs m))
| step_win m me : pcs m me = Spin -> (test_and_set (lk m)).1 = 0 ->
    step m (mkmachine (test_and_set (lk m)).2 (cpus m) (upd (pcs m) me Won))
| step_own m me : pcs m me = Won ->
    step m (mkmachine (acquire_own me (lk m)) (cpus m) (upd (pcs m) me In))
| step_disown m me c' : pcs m me = In -> release_check me (lk m) (cpus m me) = Ok (tt, c') ->
    step m (mkmachine (release_disown (lk m)) (upd (cpus m) me c') (upd (pcs m) me Rel))
| step_unlock m me : pcs m me = Rel ->
    step m (mkmachine (release_unlock (lk m)) (cpus m) (upd (pcs m) me Pop))
| step_pop m me c' : pcs m me = Pop -> pop_off (cpus m me) = Ok (tt, c') ->
    step m (mkmachine (lk m) (upd (cpus m) me c') (upd (pcs m) me Out))
| step_nest m me c' : noff (cpus m me) < 2 ^ 31 - 2 -> push_off (cpus m me) = Ok (tt, c') ->
    step m (mkmachine (lk m) (upd (cpus m) me c') (pcs m))
| step_unnest m me c' : (if decide (pcs m me = Out) then 0 else 1) < noff (cpus m me) ->
    pop_off (cpus m me) = Ok (tt, c') ->
    step m (mkmachine (lk m) (upd (cpus m) me c') (pcs m))
| step_toggle m me b : noff (cpus m me) = 0 ->
    step m (mkmachine (lk m) (upd (cpus m) me (mkcpu 0 (intena (cpus m me)) b)) (pcs m)).

(** ** Nesting *)

(** Interrupts are off while [noff] is positive, and [noff] is in range. *)
Definition cpu_ok (c : cpu) : Prop := 0 <= noff c < 2 ^ 31 - 1 /\ (0 < noff c -> intr_get c = false).

Lemma push_off_ok c :
  cpu_ok c -> push_off c = Ok (tt, mkcpu (noff c + 1) (if noff c =? 0 then intr_get c else intena c) false).
Proof.
  intros [Hn Hi]. unfold push_off, bind, gets, modify, ret. simpl.
  destruct (noff c =? 0); simpl; rewrite s32_small by lia; done.
Qed.

Lemma pop_off_ok c :
  cpu_ok c -> 0 < noff c ->
  pop_off c = Ok (tt, mkcpu (noff c - 1) (intena c) ((noff c =? 1) && intena c)).
Proof.
  intros [Hn Hi] Hp. unfold pop_off, bind, gets, modify, get, ret. rewrite (Hi Hp).
  rewrite (proj2 (Z.ltb_ge _ _)) by lia. simpl.
  replace (noff c - 1 =? 0) with (noff c =? 1) by (destruct (Z.eqb_spec (noff c) 1), (Z.eqb_spec (noff c - 1) 0); lia || done).
  destruct ((noff c =? 1) && intena c); [done|]. by rewrite (Hi Hp).
Qed.

(** ** Invariant *)

Definition owner_pc (p : pc) : Prop := p = Won \/ p = In \/ p = Rel.

#[export] Instance owner_pc_dec p : Decision (owner_pc p).
Proof. unfold owner_pc. apply _. Defined.

Record inv (m : machine) : Prop := mkinv {
  inv_cpu : forall i, cpu_ok (cpus m i);
  inv_noff : forall i, pcs m i <> Out -> 1 <= noff (cpus m i);
  inv_id : forall i, pcs m i <> Out -> i <> 0;
  inv_one : forall i j, owner_pc (pcs m i) -> owner_pc (pcs m j) -> i = j;
  inv_locked : forall i, owner_pc (pcs m i) -> locked (lk m) = 1;
  inv_free : locked (lk m) <> 0 -> exists i, owner_pc (pcs m i);
  inv_lcpu : forall i, i <> 0 -> lcpu (lk m) = i <-> pcs m i = In
}.

Definition boot : machine := mkmachine initlock (fun _ => mkcpu 0 false false) (fun _ => Out).

Lemma upd_eq {A} (f : Z -> A) i x : upd f i x i = x.
Proof. unfold upd. by rewrite decide_True. Qed.

Lemma upd_ne {A} (f : Z -> A) i j x : j <> i -> upd f i x j = f j.
Proof. unfold upd. intros. by rewrite decide_False. Qed.

Lemma not_holding m me : inv m -> me <> 0 -> pcs m me <> In -> holding me (lk m) = false.
Proof.
  intros H Hme Hp. unfold holding. destruct (Z.eqb_spec (lcpu (lk m)) me) as [E|]; [|apply andb_false_r].
  apply (inv_lcpu m H me Hme) in E. done.
Qed.

Lemma is_holding m me : inv m -> me <> 0 -> pcs m me = In -> holding me (lk m) = true.
Proof.
  intros H Hme Hp. unfold holding.
  rewrite (inv_locked m H me) by (right; by left).
  rewrite (proj2 (inv_lcpu m H me Hme) Hp), Z.eqb_refl. done.
Qed.

(** A change of one CPU's own state. *)
Lemma inv_cpu_upd m me c' :
  inv m -> cpu_ok c' -> (pcs m me <> Out -> 1 <= noff c') ->
  inv (mkmachine (lk m) (upd (cpus m) me c') (pcs m)).
Proof.
  intros [] Hc Hn. split; simpl; try done.
  - intros i. unfold upd. by case_decide.
  - intros i Hi. unfold upd. case_decide; [subst; auto|auto].
Qed.

(** A CPU moves between locations that do not own the lock. *)
Lemma inv_pc_upd m me p :
  inv m -> ~ owner_pc (pcs m me) -> ~ owner_pc p ->
  (p <> Out -> 1 <= noff (cpus m me) /\ me <> 0) ->
  inv (mkmachine (lk m) (cpus m) (upd (pcs m) me p)).
Proof.
  intros H Ho Hp Hn. pose proof H as []. split; simpl; try done.
  - intros i. unfold upd. case_decide; [subst; intros; by apply Hn|auto].
  - intros i. unfold upd. case_decide; [subst; intros; by apply Hn|auto].
  - intros i j. unfold upd. repeat case_decide; try done. auto.
  - intros i. unfold upd. case_decide; [done|eauto].
  - intros Hl. destruct (inv_free0 Hl) as [i Hi]. exists i. rewrite upd_ne; [done|]. by intros ->.
  - intros i Hi. rewrite inv_lcpu0 by done. unfold upd. case_decide as Hd; [|done]. subst i.
    unfold owner_pc in *. split; intros E; rewrite E in *; exfalso; [apply Ho|apply Hp]; auto.
Qed.

(** The owner moves between locations that own the lock. *)
Lemma inv_owner_upd m me p l' :
  inv m -> owner_pc (pcs m me) -> owner_pc p -> locked l' = 1 ->
  (forall i, i <> 0 -> lcpu l' = i <-> i = me /\ p = In) ->
  inv (mkmachine l' (cpus m) (upd (pcs m) me p)).
Proof.
  intros H Ho Hp Hl Hc. pose proof H as [].
  assert (Hme : pcs m me <> Out) by (destruct Ho as [E|[E|E]]; rewrite E; done).
  split; simpl; try done.
  - intros i. unfold upd. case_decide; [subst; auto|auto].
  - intros i. unfold upd. case_decide; [subst; auto|auto].
  - intros i j. unfold upd. repeat case_decide; subst; intros ??; eauto.
  - intros Hl'. exists me. by rewrite upd_eq.
  - intros i Hi. rewrite (Hc i Hi). unfold upd. case_decide as Hd; [naive_solver|].
    split; [naive_solver|]. intros E. exfalso. apply Hd, inv_one0; [|done]. right. by left.
Qed.

Lemma cpu_ok_push c : cpu_ok c -> noff c < 2 ^ 31 - 2 ->
  cpu_ok (mkcpu (noff c + 1) (if noff c =? 0 then intr_get c else intena c) false).
Proof. intros [] ?. split; simpl; [lia|done]. Qed.

Lemma cpu_ok_pop c : cpu_ok c -> 0 < noff c ->
  cpu_ok (mkcpu (noff c - 1) (intena c) ((noff c =? 1) && intena c)).
Proof.
  intros [] ?. split; simpl; [lia|]. intros ?. rewrite (proj2 (Z.eqb_neq _ _)) by lia. done.
Qed.

Lemma step_inv m m' : inv m -> step m m' -> inv m'.
Proof.
  intros H Hs. pose proof (inv_cpu m H) as Hcpu. destruct Hs as
    [m me c' Hme Hp Hn E|m me Hp Hl|m me Hp Hl|m me Hp|m me c' Hp E|m me Hp|m me c' Hp E
    |m me c' Hn E|m me c' Hn E|m me b Hn].
  - unfold acquire_enter in E. rewrite (bind_ok _ _ _ _ _ (push_off_ok _ (Hcpu me))) in E.
    rewrite (not_holding m me H) in E by congruence. injection E as <-.
    pose proof (inv_cpu_upd m me _ H (cpu_ok_push _ (Hcpu me) Hn)) as H'.
    apply (inv_pc_upd _ me Spin) in H'; simpl.
    + exact H'.
    + destruct (Hcpu me). simpl. lia.
    + rewrite Hp. unfold owner_pc. naive_solver.
    + unfold owner_pc. naive_solver.
    + intros _. rewrite upd_eq. simpl. destruct (Hcpu me). split; [lia|done].
  - simpl in *. destruct (inv_free m H Hl) as [i Hi]. pose proof (inv_locked m H i Hi) as E.
    destruct m as [[l lc] cs ps]. simpl in *. by subst.
  - simpl in *. pose proof H as []. split; simpl; try done.
    + intros i. unfold upd. case_decide; [subst; intros _; apply inv_noff0; congruence|auto].
    + intros i. unfold upd. case_decide; [subst; intros _; apply inv_id0; congruence|auto].
    + intros i j. unfold upd. repeat case_decide; subst; try done; intros Hi Hj.
      all: exfalso; (pose proof (inv_locked0 _ Hi) as E; lia) || (pose proof (inv_locked0 _ Hj) as E; lia).
    + intros _. exists me. rewrite upd_eq. by left.
    + intros i Hi. rewrite inv_lcpu0 by done. unfold upd. case_decide; [|done]. subst.
      rewrite Hp. done.
  - assert (me <> 0) by (apply (inv_id m H); congruence).
    apply (inv_owner_upd m me In); simpl; try done.
    + rewrite Hp. by left.
    + right. by left.
    + apply (inv_locked m H me). rewrite Hp. by left.
    + naive_solver.
  - assert (Hme : me <> 0) by (apply (inv_id m H); congruence).
    unfold release_check in E. rewrite (is_holding m me H Hme Hp) in E. injection E as <-.
    pose proof (inv_cpu_upd m me (cpus m me) H (Hcpu me) (fun _ => inv_noff m H me ltac:(congruence))) as H'.
    apply (inv_owner_upd _ me Rel (release_disown (lk m))) in H'; simpl in *.
    + exact H'.
    + rewrite Hp. right. by left.
    + by right; right.
    + apply (inv_locked m H me). rewrite Hp. right. by left.
    + naive_solver.
  - pose proof H as []. assert (Ho : owner_pc (pcs m me)) by (rewrite Hp; by right; right).
    split; simpl; try done.
    + intros i. unfold upd. case_decide; [subst; intros _; apply inv_noff0; congruence|auto].
    + intros i. unfold upd. case_decide; [subst; intros _; apply inv_id0; congruence|auto].
    + intros i j. unfold upd. repeat case_decide; subst; auto; intros [|[|]]; done.
    + intros i. unfold upd. case_decide as Hd; [intros [|[|]]; done|]. intros Hi.
      exfalso. by apply Hd, inv_one0.
    + intros i Hi. rewrite inv_lcpu0 by done. unfold upd. case_decide; [|done]. subst. by rewrite Hp.
  - assert (Hn : 1 <= noff (cpus m me)) by (apply (inv_noff m H); congruence).
    rewrite (pop_off_ok _ (Hcpu me)) in E by lia. injection E as <-.
    assert (H1 : inv (mkmachine (lk m) (cpus m) (upd (pcs m) me Out))).
    { apply inv_pc_upd; try done; [rewrite Hp|]; intros [|[|]]; done. }
    apply (inv_cpu_upd _ me _ H1 (cpu_ok_pop _ (Hcpu me) ltac:(lia))). simpl. by rewrite upd_eq.
  - rewrite (push_off_ok _ (Hcpu me)) in E. injection E as <-.
    apply inv_cpu_upd; [done|by apply cpu_ok_push|]. simpl. destruct (Hcpu me). lia.
  - case_decide as Hd; rewrite (pop_off_ok _ (Hcpu me)) in E by lia; injection E as <-;
      (apply inv_cpu_upd; [done|apply cpu_ok_pop; [done|lia]|]); simpl; [done|lia].
  - apply inv_cpu_upd; [done| |].
    + split; simpl; lia.
    + intros Hp. pose proof (inv_noff m H me Hp). lia.
Qed.

Lemma boot_inv : inv boot.
Proof.
  split; simpl; try done.
  - intros i j [E|[E|E]]; discriminate E.
  - intros i [E|[E|E]]; discriminate E.
Qed.

Lemma reach_inv m : rtc step boot m -> inv m.
Proof.
  intros Hr. assert (Hb : inv boot) by apply boot_inv. revert Hb.
  induction Hr; eauto using step_inv.
Qed.

(** ** Properties *)

(** C11: in every interleaving at most one CPU is between [acquire] and
    [release] of a lock; it has interrupts off, is recorded as the holder, and
    its [release] passes the holding check. *)
Theorem spinlock_mutual_exclusion m i :
  rtc step boot m -> pcs m i = In ->
  (forall j, pcs m j = In -> j = i) /\ intr_get (cpus m i) = false /\
  holding i (lk m) = true /\ release_check i (lk m) (cpus m i) = Ok (tt, cpus m i).
Proof.
  intros Hr Hi. pose proof (reach_inv m Hr) as H.
  assert (i <> 0) by (apply (inv_id m H); congruence).
  assert (Hh : holding i (lk m) = true) by (by apply is_holding).
  split_and!; try done.
  - intros j Hj. apply (inv_one m H); right; left; done.
  - destruct (inv_cpu m H i) as [_ Hintr]. apply Hintr.
    assert (1 <= noff (cpus m i)) by (apply (inv_noff m H); congruence). lia.
  - unfold release_check. by rewrite Hh.
Qed.

(** A CPU that took the lock at boot. *)
Definition one_holder : machine :=
  mkmachine (mkspinlock 1 8) (upd (cpus boot) 8 (mkcpu 1 false false))
    (upd (upd (upd (pcs boot) 8 Spin) 8 Won) 8 In).

Lemma one_holder_reachable : rtc step boot one_holder.
Proof.
  eapply rtc_l; [apply (step_enter boot 8 (mkcpu 1 false false)); simpl; done || lia|].
  eapply rtc_l; [apply (step_win _ 8); done|].
  eapply rtc_l; [apply (step_own _ 8); done|]. apply rtc_refl.
Qed.

Lemma spinlock_mutual_exclusion_witness :
  (forall j, pcs one_holder j = In -> j = 8) /\ intr_get (cpus one_holder 8) = false /\
  holding 8 (lk one_holder) = true /\
  release_check 8 (lk one_holder) (cpus one_holder 8) = Ok (tt, cpus one_holder 8).
Proof. apply spinlock_mutual_exclusion; [exact one_holder_reachable|reflexivity]. Defined.

(** Nested [push_off]/[pop_off] pairs restore [noff] and the interrupt
    state, whatever well-nested code [body] ran in between. *)
Theorem push_pop_restores c body :
  cpu_ok c -> noff c < 2 ^ 31 - 2 ->
  (forall c1, cpu_ok c1 -> 0 < noff c1 -> exists c2, body c1 = Ok (tt, c2) /\ cpu_ok c2 /\
     noff c2 = noff c1 /\ intena c2 = intena c1) ->
  exists c', (push_off ;;; body ;;; pop_off) c = Ok (tt, c') /\
    noff c' = noff c /\ intr_get c' = intr_get c.
Proof.
  intros Hc Hn Hbody. rewrite (bind_ok _ _ _ _ _ (push_off_ok c Hc)).
  destruct (Hbody _ (cpu_ok_push c Hc Hn)) as (c2 & E & Hc2 & Hn2 & Hi2); [destruct Hc; simpl; lia|].
  rewrite (bind_ok _ _ _ _ _ E). simpl in Hn2, Hi2.
  rewrite (pop_off_ok c2 Hc2) by (destruct Hc; lia). eexists. split; [done|]. simpl.
  split; [lia|]. rewrite Hn2, Hi2. destruct Hc as [Hr Hi].
  destruct (Z.eqb_spec (noff c) 0) as [E0|E0].
  - by rewrite E0.
  - rewrite Hi by lia. rewrite (proj2 (Z.eqb_neq _ _)) by lia. done.
Qed.

Lemma push_pop_restores_witness :
  exists c', (push_off ;;; ret tt ;;; pop_off) (mkcpu 0 false true) = Ok (tt, c') /\
    noff c' = 0 /\ intr_get c' = true.
Proof.
  apply (push_pop_restores (mkcpu 0 false true) (ret tt)).
  - split; simpl; lia.
  - simpl. lia.
  - intros c1 Hc1 _. exists c1. repeat split; apply Hc1.
Defined.
