(* ===== verification/Sleeplock.v ===== *)
(** kernel/sleeplock.c: locks that a process may hold while it sleeps.  A
    process that finds the lock taken gives up the CPU: the outcome [Blocked].
    The spin lock [lk->lk] makes each routine one step. *)

From S2P Require Import Prelude.

Record sleeplock := mksleeplock { sl_locked : bool; sl_pid : Z }.

Definition initsleeplock : sleeplock := mksleeplock false 0.

(** [pid] is [myproc()->pid]. *)
Definition acquiresleep (pid : Z) : M sleeplock unit :=
  l <- gets sl_locked ;;
  if (l : bool) then block else put (mksleeplock true pid).

Definition releasesleep : M sleeplock unit := put (mksleeplock false 0).

Definition holdingsleep (pid : Z) (lk : sleeplock) : bool := sl_locked lk && (sl_pid lk =? pid).

Lemma acquiresleep_free pid lk :
  sl_locked lk = false -> acquiresleep pid lk = Ok (tt, mksleeplock true pid).
Proof. intros E. unfold acquiresleep, bind, gets. by rewrite E. Qed.

Lemma acquiresleep_taken pid lk : sl_locked lk = true -> acquiresleep pid lk = Blocked.
Proof. intros E. unfold acquiresleep, bind, gets. by rewrite E. Qed.

Lemma holdingsleep_acquired pid : holdingsleep pid (mksleeplock true pid) = true.
Proof. unfold holdingsleep. simpl. apply Z.eqb_refl. Qed.
