(* ===== verification/Bio.v ===== *)
(** kernel/bio.c and kernel/buf.h: the buffer cache, a ring of [NBUF] buffers in
    least-recently-used order, linked through [prev] and [next].  Buffers are
    named by their index in [bcache.buf]; index [NBUF] is [bcache.head].  The
    disk driver's contract, [virtio_disk_rw], transfers one block; the disk keeps
    the history of its writes, which the crash theorems of the log refer to. *)

From S2P Require Import Prelude Sleeplock.

Definition BSIZE : Z := 1024.
Definition NBUF : nat := 30.
Definition HEAD : nat := NBUF.

Notation block := (list Z) (only parsing).
Definition zero_block : block := replicate (Z.to_nat BSIZE) 0.

Record buf := mkbuf {
  valid : bool; bdev : Z; blockno : Z; block_lock : sleeplock; refcnt : Z;
  prev : nat; next : nat; bdata : block
}.

(** bcache, the running process, the disk and the writes it has served. *)
Record bst := mkbst {
  bufs : list buf; bpid : Z; dsk : gmap Z block; dtrace : list (Z * block)
}.

Definition buf0 : buf := mkbuf false 0 0 initsleeplock 0 0 0 zero_block.
#[export] Instance buf_inhabited : Inhabited buf := populate buf0.

Definition dread (d : gmap Z block) (n : Z) : block := default zero_block (d !! n).

Definition getb (i : nat) : M bst buf := gets (fun s => bufs s !!! i).
Definition with_bufs (s : bst) (bs : list buf) : bst := mkbst bs (bpid s) (dsk s) (dtrace s).
Definition updb (i : nat) (f : buf -> buf) : M bst unit :=
  modify (fun s => with_bufs s (alter f i (bufs s))).

Definition set_next (x : nat) (b : buf) : buf :=
  mkbuf (valid b) (bdev b) (blockno b) (block_lock b) (refcnt b) (prev b) x (bdata b).
Definition set_prev (x : nat) (b : buf) : buf :=
  mkbuf (valid b) (bdev b) (blockno b) (block_lock b) (refcnt b) x (next b) (bdata b).
Definition set_lock (l : sleeplock) (b : buf) : buf :=
  mkbuf (valid b) (bdev b) (blockno b) l (refcnt b) (prev b) (next b) (bdata b).
Definition set_refcnt (n : Z) (b : buf) : buf :=
  mkbuf (valid b) (bdev b) (blockno b) (block_lock b) n (prev b) (next b) (bdata b).
Definition set_valid (v : bool) (b : buf) : buf :=
  mkbuf v (bdev b) (blockno b) (block_lock b) (refcnt b) (prev b) (next b) (bdata b).
Definition set_data (d : block) (b : buf) : buf :=
  mkbuf (valid b) (bdev b) (blockno b) (block_lock b) (refcnt b) (prev b) (next b) d.

(** Sleep locks of buffers. *)
Definition on_lock {A} (i : nat) (m : M sleeplock A) : M bst A :=
  zoom (fun s => block_lock (bufs s !!! i))
       (fun l s => with_bufs s (alter (set_lock l) i (bufs s))) m.

(** The driver: [write] selects the direction.  The device number is not used. *)
Definition virtio_disk_rw (i : nat) (write : bool) : M bst unit :=
  b <- getb i ;;
  if (write : bool)
  then modify (fun s => mkbst (bufs s) (bpid s) (<[blockno b := bdata b]> (dsk s))
                          (dtrace s ++ [(blockno b, bdata b)]))
  else d <- gets dsk ;; updb i (set_data (dread d (blockno b))).

(** ** Operations *)

(** [b->next = bcache.head.next; b->prev = &bcache.head;
     bcache.head.next->prev = b; bcache.head.next = b;] *)
Definition insert_front (b : nat) : M bst unit :=
  h <- getb HEAD ;;
  updb b (set_next (next h)) ;;;
  updb b (set_prev HEAD) ;;;
  h <- getb HEAD ;;
  updb (next h) (set_prev b) ;;;
  updb HEAD (set_next b).

Fixpoint binit_loop (n : nat) (b : nat) : M bst unit :=
  match n with
  | O => ret tt
  | S n' =>
      h <- getb HEAD ;;
      updb b (set_next (next h)) ;;;
      updb b (set_prev HEAD) ;;;
      updb b (set_lock initsleeplock) ;;;
      h <- getb HEAD ;;
      updb (next h) (set_prev b) ;;;
      updb HEAD (set_next b) ;;;
      binit_loop n' (S b)
  end.

Definition binit : M bst unit :=
  updb HEAD (set_prev HEAD) ;;;
  updb HEAD (set_next HEAD) ;;;
  binit_loop NBUF 0.

(** The two searches of [bget]: forward for the block, backward for a free buffer. *)
Fixpoint find_block (fuel : nat) (b : nat) (dev bno : Z) : M bst (option nat) :=
  match fuel with
  | O => nofuel
  | S f =>
      if decide (b = HEAD) then ret None
      else
        x <- getb b ;;
        if (bdev x =? dev) && (blockno x =? bno) then ret (Some b)
        else find_block f (next x) dev bno
  end.

Fixpoint find_unused (fuel : nat) (b : nat) : M bst (option nat) :=
  match fuel with
  | O => nofuel
  | S f =>
      if decide (b = HEAD) then ret None
      else
        x <- getb b ;;
        if refcnt x =? 0 then ret (Some b) else find_unused f (prev x)
  end.

Definition ring_fuel : nat := S NBUF.

Definition recycle (dev bno : Z) (b : buf) : buf :=
  mkbuf false dev bno (block_lock b) 1 (prev b) (next b) (bdata b).

Definition bget (dev bno : Z) : M bst nat :=
  pid <- gets bpid ;;
  h <- getb HEAD ;;
  r <- find_block ring_fuel (next h) dev bno ;;
  match r with
  | Some b =>
      updb b (fun x => set_refcnt (u32 (refcnt x + 1)) x) ;;;
      on_lock b (acquiresleep pid) ;;;
      ret b
  | None =>
      h <- getb HEAD ;;
      r <- find_unused ring_fuel (prev h) ;;
      match r with
      | Some b =>
          updb b (recycle dev bno) ;;;
          on_lock b (acquiresleep pid) ;;;
          ret b
      | None => panic "bget: no buffers"
      end
  end.

Definition bread (dev bno : Z) : M bst nat :=
  b <- bget dev bno ;;
  x <- getb b ;;
  (if valid x then ret tt
   else virtio_disk_rw b false ;;; updb b (set_valid true)) ;;;
  ret b.

Definition bwrite (b : nat) : M bst unit :=
  pid <- gets bpid ;;
  x <- getb b ;;
  if negb (holdingsleep pid (block_lock x)) then panic "bwrite"
  else virtio_disk_rw b true.

Definition brelse (b : nat) : M bst unit :=
  pid <- gets bpid ;;
  x <- getb b ;;
  if negb (holdingsleep pid (block_lock x)) then panic "brelse"
  else
    on_lock b releasesleep ;;;
    updb b (fun x => set_refcnt (u32 (refcnt x - 1)) x) ;;;
    x <- getb b ;;
    if refcnt x =? 0 then
      updb (next x) (set_prev (prev x)) ;;;
      x <- getb b ;;
      updb (prev x) (set_next (next x)) ;;;
      insert_front b
    else ret tt.

Definition bpin (b : nat) : M bst unit := updb b (fun x => set_refcnt (u32 (refcnt x + 1)) x).
Definition bunpin (b : nat) : M bst unit := updb b (fun x => set_refcnt (u32 (refcnt x - 1)) x).
