(* ===== verification/BioRing.v ===== *)
(** The ring of buffers: a doubly linked list through the [prev] and [next]
    fields, as [binit], [brelse] and the searches of [bget] use it. *)

From S2P Require Import Prelude Sleeplock Bio.

(** ** Chains of links, on the link functions *)

(** From [x] through the nodes [l] to [y], forward by [nx] and backward by [pv]. *)
Fixpoint chain (nx pv : nat -> nat) (x : nat) (l : list nat) (y : nat) : Prop :=
  match l with
  | [] => nx x = y /\ pv y = x
  | z :: l' => nx x = z /\ pv z = x /\ chain nx pv z l' y
  end.

Definition fset (f : nat -> nat) (i v : nat) : nat -> nat := fun j => if decide (j = i) then v else f j.

Lemma fset_eq f i v : fset f i v i = v.
Proof. unfold fset. by rewrite decide_True. Qed.

Lemma fset_ne f i j v : j <> i -> fset f i v j = f j.
Proof. intros. unfold fset. by rewrite decide_False. Qed.

Lemma chain_ext nx pv nx' pv' x l y :
  (forall i, i ∈ x :: l -> nx' i = nx i) -> (forall i, i ∈ l ++ [y] -> pv' i = pv i) ->
  chain nx pv x l y -> chain nx' pv' x l y.
Proof.
  revert x. induction l as [|z l IH]; intros x Hn Hp; simpl.
  - intros [H1 H2]. rewrite Hn, Hp by set_solver. done.
  - intros (H1 & H2 & H3). rewrite Hn, Hp by set_solver. split_and!; [done..|].
    apply IH; [| |done]; intros i Hi; [apply Hn|apply Hp]; set_solver.
Qed.

Lemma chain_app nx pv x l1 z l2 y :
  chain nx pv x (l1 ++ z :: l2) y <-> chain nx pv x l1 z /\ chain nx pv z l2 y.
Proof.
  revert x. induction l1 as [|w l1 IH]; intros x; simpl; [tauto|]. rewrite IH. tauto.
Qed.

Lemma chain_last nx pv x l y : chain nx pv x l y -> pv y ∈ x :: l.
Proof.
  revert x. induction l as [|z l IH]; intros x; simpl; [intros [_ ->]; set_solver|].
  intros (_ & _ & H). apply IH in H. set_solver.
Qed.

Lemma chain_first nx pv x l y : chain nx pv x l y -> nx x ∈ l ++ [y].
Proof. destruct l as [|z l]; simpl; [intros [-> _]|intros [-> _]]; set_solver. Qed.

(** [b->next->prev = b->prev; b->prev->next = b->next;] takes [b] out. *)
Lemma chain_unlink nx pv b l2 y : forall l1 x,
  NoDup (x :: l1 ++ b :: l2) -> y ∉ l1 ++ b :: l2 -> chain nx pv x (l1 ++ b :: l2) y ->
  chain (fset nx (pv b) (nx b)) (fset pv (nx b) (pv b)) x (l1 ++ l2) y.
Proof.
  induction l1 as [|w l1 IH]; intros x Hnd Hy; simpl.
  - intros (H1 & H2 & H3). rewrite H2. destruct l2 as [|z l2]; simpl in *.
    + destruct H3 as [-> _]. by rewrite !fset_eq.
    + destruct H3 as (-> & _ & H4). rewrite !fset_eq. split_and!; [done..|].
      eapply chain_ext; [| |exact H4]; intros i Hi; apply fset_ne; intros ->.
      * apply NoDup_cons in Hnd as [Hx _]. apply Hx. set_solver.
      * apply NoDup_cons in Hnd as [_ Hnd]. apply NoDup_cons in Hnd as [_ Hnd].
        apply NoDup_cons in Hnd as [Hz _].
        apply elem_of_app in Hi as [|Hi]; [done|]. set_solver.
  - intros (H1 & H2 & H3). apply NoDup_cons in Hnd as [Hx Hnd].
    pose proof H3 as H3'. apply chain_app in H3' as [Hc1 Hc2].
    pose proof (chain_last _ _ _ _ _ Hc1) as Hp. pose proof (chain_first _ _ _ _ _ Hc2) as Hn.
    assert (w ∉ l2) by (apply NoDup_cons in Hnd as [Hw _]; set_solver).
    rewrite !fset_ne.
    + split_and!; [done..|]. apply IH; [done|set_solver|done].
    + intros E. rewrite <- E in Hn. set_solver.
    + intros E. rewrite <- E in Hp. set_solver.
Qed.

(** Insertion of [b] behind the head [h]. *)
Lemma chain_insert nx pv h b l :
  b <> h -> b ∉ l -> h ∉ l -> NoDup l -> chain nx pv h l h ->
  chain (fset (fset nx b (nx h)) h b) (fset (fset pv b h) (nx h) b) h (b :: l) h.
Proof.
  intros Hbh Hb Hh Hnd Hc. pose proof (chain_first _ _ _ _ _ Hc) as Hn.
  assert (Hnb : nx h <> b) by (intros E; rewrite E in Hn; set_solver).
  simpl. rewrite fset_eq. split; [done|]. rewrite (fset_ne _ _ b), fset_eq by done. split; [done|].
  destruct l as [|z l]; simpl in *.
  - destruct Hc as [-> _]. rewrite fset_ne, fset_eq by done. rewrite fset_eq. done.
  - destruct Hc as (Hz & _ & Hc). rewrite Hz. rewrite fset_ne, fset_eq by done. rewrite fset_eq.
    split_and!; [done..|]. eapply chain_ext; [| |exact Hc]; intros i Hi.
    + rewrite fset_ne by (intros ->; set_solver). apply fset_ne. intros ->. set_solver.
    + rewrite fset_ne. { apply fset_ne. intros ->. set_solver. }
      intros ->. apply NoDup_cons in Hnd as [Hz' _]. set_solver.
Qed.

(** ** The ring in the buffers *)

Definition nxs (bs : list buf) (i : nat) : nat := next (bs !!! i).
Definition pvs (bs : list buf) (i : nat) : nat := prev (bs !!! i).

(** The buffers from most to least recently used. *)
Definition ring (bs : list buf) (order : list nat) : Prop :=
  length bs = S NBUF /\ order ≡ₚ seq 0 NBUF /\ chain (nxs bs) (pvs bs) HEAD order HEAD.

(** A buffer without its links. *)
Definition core (b : buf) : buf :=
  mkbuf (valid b) (bdev b) (blockno b) (block_lock b) (refcnt b) 0 0 (bdata b).
Definition cores (bs : list buf) : list buf := core <$> bs.

Lemma ring_nodup bs order : ring bs order -> NoDup (HEAD :: order).
Proof.
  intros (_ & Hp & _). apply NoDup_cons. rewrite Hp. split; [|apply NoDup_seq].
  rewrite elem_of_seq. unfold HEAD. lia.
Qed.

Lemma ring_elem bs order i : ring bs order -> i ∈ order <-> (i < NBUF)%nat.
Proof. intros (_ & Hp & _). rewrite Hp, elem_of_seq. lia. Qed.

Lemma cores_alter f i bs : (forall b, core (f b) = core b) -> cores (alter f i bs) = cores bs.
Proof.
  intros Hf. apply list_eq. intros j. unfold cores. rewrite !list_lookup_fmap.
  destruct (decide (j = i)) as [->|Hne].
  - rewrite list_lookup_alter_eq. destruct (bs !! i); simpl; [by rewrite Hf|done].
  - by rewrite list_lookup_alter_ne.
Qed.

Lemma alter_total f i j (bs : list buf) :
  (i < length bs)%nat -> alter f i bs !!! j = if decide (j = i) then f (bs !!! i) else bs !!! j.
Proof.
  intros Hi. case_decide as Hd.
  - subst. by apply list_lookup_total_alter_eq.
  - apply list_lookup_total_alter_ne. done.
Qed.

Lemma nxs_set_next bs i v j : (i < length bs)%nat -> nxs (alter (set_next v) i bs) j = if decide (j = i) then v else nxs bs j.
Proof. intros. unfold nxs. rewrite alter_total by done. by case_decide. Qed.

Lemma pvs_set_prev bs i v j : (i < length bs)%nat -> pvs (alter (set_prev v) i bs) j = if decide (j = i) then v else pvs bs j.
Proof. intros. unfold pvs. rewrite alter_total by done. by case_decide. Qed.

Lemma nxs_set_prev bs i v j : (i < length bs)%nat -> nxs (alter (set_prev v) i bs) j = nxs bs j.
Proof. intros. unfold nxs. rewrite alter_total by done. case_decide; by subst. Qed.

Lemma pvs_set_next bs i v j : (i < length bs)%nat -> pvs (alter (set_next v) i bs) j = pvs bs j.
Proof. intros. unfold pvs. rewrite alter_total by done. case_decide; by subst. Qed.

(** ** Relinking *)

Definition insert_links (bs : list buf) (b : nat) : list buf :=
  let h := nxs bs HEAD in
  alter (set_next b) HEAD (alter (set_prev b) h (alter (set_prev HEAD) b (alter (set_next h) b bs))).

Definition unlink_links (bs : list buf) (b : nat) : list buf :=
  let n := nxs bs b in let p := pvs bs b in
  alter (set_next n) p (alter (set_prev p) n bs).

Lemma insert_front_run s b :
  length (bufs s) = S NBUF -> (b < NBUF)%nat ->
  insert_front b s = Ok (tt, with_bufs s (insert_links (bufs s) b)).
Proof.
  intros Hlen Hb. unfold insert_front, insert_links, bind, getb, updb, gets, modify, with_bufs. simpl.
  rewrite !list_lookup_total_alter_ne by (unfold HEAD; lia). done.
Qed.

Lemma insert_ring bs b l :
  length bs = S NBUF -> (b < NBUF)%nat -> b ∉ l -> NoDup l ->
  Forall (fun i => (i < NBUF)%nat) l -> chain (nxs bs) (pvs bs) HEAD l HEAD ->
  length (insert_links bs b) = S NBUF /\ cores (insert_links bs b) = cores bs /\
  chain (nxs (insert_links bs b)) (pvs (insert_links bs b)) HEAD (b :: l) HEAD.
Proof.
  intros Hlen Hb Hbl Hnd Hl Hc. pose proof (chain_first _ _ _ _ _ Hc) as Hn.
  rewrite Forall_forall in Hl. unfold insert_links. set (h := nxs bs HEAD).
  assert (Hh : (h < S NBUF)%nat).
  { apply elem_of_app in Hn as [Hn%Hl|Hn%list_elem_of_singleton]; unfold h, HEAD in *; lia. }
  split; [by rewrite !length_alter|]. split; [by rewrite !cores_alter by done|].
  eapply chain_ext; [| |apply (chain_insert (nxs bs) (pvs bs) HEAD b l)]; try done.
  - intros i _. unfold fset.
    rewrite nxs_set_next, !nxs_set_prev, nxs_set_next by (rewrite ?length_alter; unfold HEAD; lia). done.
  - intros i _. unfold fset. fold h.
    rewrite pvs_set_next, !pvs_set_prev, pvs_set_next by (rewrite ?length_alter; unfold HEAD; lia). done.
  - unfold HEAD. lia.
  - intros Hin%Hl. unfold HEAD in Hin. lia.
Qed.

Lemma unlink_ring bs b l1 l2 :
  length bs = S NBUF -> NoDup (HEAD :: l1 ++ b :: l2) ->
  Forall (fun i => (i < NBUF)%nat) (l1 ++ b :: l2) ->
  chain (nxs bs) (pvs bs) HEAD (l1 ++ b :: l2) HEAD ->
  length (unlink_links bs b) = S NBUF /\ cores (unlink_links bs b) = cores bs /\
  chain (nxs (unlink_links bs b)) (pvs (unlink_links bs b)) HEAD (l1 ++ l2) HEAD.
Proof.
  intros Hlen Hnd Hl Hc. pose proof Hc as Hc'. apply chain_app in Hc' as [Hc1 Hc2].
  pose proof (chain_last _ _ _ _ _ Hc1) as Hp. pose proof (chain_first _ _ _ _ _ Hc2) as Hn.
  rewrite Forall_forall in Hl. unfold unlink_links. set (n := nxs bs b) in *. set (p := pvs bs b) in *.
  assert (n < S NBUF)%nat.
  { apply elem_of_app in Hn as [Hn|Hn%list_elem_of_singleton]; [|unfold HEAD in *; lia].
    assert (n < NBUF)%nat by (apply Hl; set_solver). lia. }
  assert (p < S NBUF)%nat.
  { apply elem_of_cons in Hp as [Hp|Hp]; [unfold HEAD in *; lia|].
    assert (p < NBUF)%nat by (apply Hl; set_solver). lia. }
  split; [by rewrite !length_alter|]. split; [by rewrite !cores_alter by done|].
  eapply chain_ext; [| |apply (chain_unlink (nxs bs) (pvs bs) b l2 HEAD l1 HEAD)]; try done.
  - intros i _. unfold fset. rewrite nxs_set_next, nxs_set_prev by (rewrite ?length_alter; lia). done.
  - intros i _. unfold fset. rewrite pvs_set_next, pvs_set_prev by (rewrite ?length_alter; lia). done.
  - apply NoDup_cons in Hnd as [? _]. done.
Qed.

(** The relinking of [brelse]: [b] becomes the most recently used buffer. *)
Definition to_front (bs : list buf) (b : nat) : list buf := insert_links (unlink_links bs b) b.

Lemma ring_to_front bs l1 b l2 :
  ring bs (l1 ++ b :: l2) -> ring (to_front bs b) (b :: l1 ++ l2) /\ cores (to_front bs b) = cores bs.
Proof.
  intros Hr. pose proof (ring_nodup _ _ Hr) as Hnd. pose proof Hr as (Hlen & Hp & Hc).
  assert (Hl : Forall (fun i => (i < NBUF)%nat) (l1 ++ b :: l2)).
  { apply Forall_forall. intros i. apply (ring_elem _ _ _ Hr). }
  destruct (unlink_ring bs b l1 l2 Hlen Hnd Hl Hc) as (Hlen1 & Hco1 & Hc1).
  rewrite <- Permutation_middle in Hl. apply Forall_cons in Hl as [Hb Hl].
  apply NoDup_cons in Hnd as [_ Hnd]. rewrite <- Permutation_middle in Hnd.
  apply NoDup_cons in Hnd as [Hbn Hnd].
  destruct (insert_ring (unlink_links bs b) b (l1 ++ l2)) as (Hlen2 & Hco2 & Hc2); try done.
  split; [|by rewrite <- Hco1]. split_and!; try done. by rewrite Permutation_middle.
Qed.
