(* ===== verification/BioSpec.v ===== *)
(** What the buffer cache promises: at every block number there is one current
    content, in the cache or on disk ([view]); [bread] returns it, and no
    operation but a write to a held buffer changes it. *)

From S2P Require Import Prelude Sleeplock Bio BioRing.

(** ** The searches *)

Definition matches (bs : list buf) (dev bno : Z) (i : nat) : bool :=
  (bdev (bs !!! i) =? dev) && (blockno (bs !!! i) =? bno).

Lemma find_block_ok s dev bno : forall l x fuel,
  chain (nxs (bufs s)) (pvs (bufs s)) x l HEAD -> HEAD ∉ l -> (length l < fuel)%nat ->
  find_block fuel (nxs (bufs s) x) dev bno s = Ok (List.find (matches (bufs s) dev bno) l, s).
Proof.
  induction l as [|z l IH]; intros x fuel Hc Hh Hf; (destruct fuel as [|f]; [simpl in Hf; lia|]).
  - destruct Hc as [-> _]. cbn [find_block]. by rewrite decide_True.
  - destruct Hc as (-> & _ & Hc). cbn [find_block]. rewrite decide_False by set_solver.
    erewrite bind_ok by reflexivity. cbn [List.find]. unfold matches at 1.
    destruct ((bdev (bufs s !!! z) =? dev) && (blockno (bufs s !!! z) =? bno)); [done|].
    apply IH; [done|set_solver|simpl in Hf; lia].
Qed.

Lemma chain_rev nx pv x l y : chain nx pv x l y -> chain pv nx y (rev l) x.
Proof.
  revert x. induction l as [|z l IH]; intros x; simpl; [tauto|].
  intros (H1 & H2 & H3). apply IH in H3. apply chain_app. simpl. done.
Qed.

Lemma find_unused_ok s : forall l x fuel,
  chain (pvs (bufs s)) (nxs (bufs s)) x l HEAD -> HEAD ∉ l -> (length l < fuel)%nat ->
  find_unused fuel (pvs (bufs s) x) s = Ok (List.find (fun i => refcnt (bufs s !!! i) =? 0) l, s).
Proof.
  induction l as [|z l IH]; intros x fuel Hc Hh Hf; (destruct fuel as [|f]; [simpl in Hf; lia|]).
  - destruct Hc as [-> _]. cbn [find_unused]. by rewrite decide_True.
  - destruct Hc as (-> & _ & Hc). cbn [find_unused]. rewrite decide_False by set_solver.
    erewrite bind_ok by reflexivity. cbn [List.find].
    destruct (refcnt (bufs s !!! z) =? 0); [done|].
    apply IH; [done|set_solver|simpl in Hf; lia].
Qed.

(** ** Invariant *)
Section Cache.
Context (D : Z).

(** The cache serves the one device [D]; a buffer never used has device 0. *)
Definition buf_ok (d : gmap Z block) (b : buf) : Prop :=
  0 <= refcnt b < 2 ^ 31 /\ (sl_locked (block_lock b) = true -> 1 <= refcnt b) /\
  (bdev b = 0 /\ valid b = false \/ bdev b = D) /\
  (valid b = true -> refcnt b = 0 -> bdata b = dread d (blockno b)).

Definition bufs_ok (bs : list buf) (d : gmap Z block) : Prop :=
  length bs = S NBUF /\ (forall i, (i < NBUF)%nat -> buf_ok d (bs !!! i)) /\
  (forall i j, (i < NBUF)%nat -> (j < NBUF)%nat -> bdev (bs !!! i) = D -> bdev (bs !!! j) = D ->
     blockno (bs !!! i) = blockno (bs !!! j) -> i = j).

Definition bok (s : bst) (order : list nat) : Prop :=
  ring (bufs s) order /\ bufs_ok (bufs s) (dsk s).

(** Buffer [i] is the one for block [n]. *)
Definition is_buf (bs : list buf) (n : Z) (i : nat) : Prop :=
  (i < NBUF)%nat /\ bdev (bs !!! i) = D /\ blockno (bs !!! i) = n.

Definition cached (bs : list buf) (n : Z) : option nat := List.find (matches bs D n) (seq 0 NBUF).

(** The current content of block [n]. *)
Definition view (s : bst) (n : Z) : block :=
  match cached (bufs s) n with
  | Some i => if valid (bufs s !!! i) then bdata (bufs s !!! i) else dread (dsk s) n
  | None => dread (dsk s) n
  end.

Lemma matches_spec bs n i : matches bs D n i = true <-> bdev (bs !!! i) = D /\ blockno (bs !!! i) = n.
Proof. unfold matches. rewrite andb_true_iff, !Z.eqb_eq. done. Qed.

Lemma find_matches bs n l :
  (forall i, i ∈ l <-> (i < NBUF)%nat) ->
  match List.find (matches bs D n) l with
  | Some i => is_buf bs n i
  | None => forall i, ~ is_buf bs n i
  end.
Proof.
  intros Hl. destruct (List.find _ l) as [i|] eqn:E.
  - apply List.find_some in E as [Hi Hm]. apply list_elem_of_In, Hl in Hi.
    apply matches_spec in Hm as []. done.
  - intros i (Hi & H1 & H2). apply Hl, list_elem_of_In in Hi.
    pose proof (List.find_none _ _ E i Hi) as Hm. by rewrite (proj2 (matches_spec bs n i)) in Hm.
Qed.

Lemma cached_spec bs n :
  match cached bs n with Some i => is_buf bs n i | None => forall i, ~ is_buf bs n i end.
Proof. apply find_matches. intros i. rewrite elem_of_seq. lia. Qed.

Lemma is_buf_unique bs d n i j : bufs_ok bs d -> is_buf bs n i -> is_buf bs n j -> i = j.
Proof. intros (_ & _ & Hu) (? & ? & ?) (? & ? & ?). apply Hu; try done. congruence. Qed.

Lemma view_buf s n i : bufs_ok (bufs s) (dsk s) -> is_buf (bufs s) n i ->
  view s n = if valid (bufs s !!! i) then bdata (bufs s !!! i) else dread (dsk s) n.
Proof.
  intros Hok Hi. unfold view. pose proof (cached_spec (bufs s) n) as Hc.
  destruct (cached (bufs s) n) as [j|]; [|by destruct (Hc i)].
  by rewrite (is_buf_unique _ _ _ _ _ Hok Hi Hc).
Qed.

Lemma view_none s n : (forall i, ~ is_buf (bufs s) n i) -> view s n = dread (dsk s) n.
Proof.
  intros Hn. unfold view. pose proof (cached_spec (bufs s) n) as Hc.
  destruct (cached (bufs s) n) as [j|]; [by destruct (Hn j)|done].
Qed.

(** The search over the ring finds the same buffer. *)
Lemma ring_find s order n :
  bok s order -> List.find (matches (bufs s) D n) order = cached (bufs s) n.
Proof.
  intros [Hr Hok]. pose proof (find_matches (bufs s) n order (fun i => ring_elem _ _ i Hr)) as H1.
  pose proof (cached_spec (bufs s) n) as H2.
  destruct (List.find _ order) as [i|], (cached _ _) as [j|]; try done.
  - f_equal. by eapply is_buf_unique.
  - by destruct (H2 i).
  - by destruct (H1 j).
Qed.

(** ** Changing one buffer *)

Lemma find_ext {A} (f g : A -> bool) l : (forall x, f x = g x) -> List.find f l = List.find g l.
Proof. intros H. induction l as [|x l IH]; simpl; [done|]. by rewrite H, IH. Qed.

Definition same_links (f : buf -> buf) : Prop := forall b, prev (f b) = prev b /\ next (f b) = next b.

Lemma ring_alter bs order i f :
  ring bs order -> (i < NBUF)%nat -> same_links f -> ring (alter f i bs) order.
Proof.
  intros (Hlen & Hp & Hc) Hi Hf. split_and!; [by rewrite length_alter|done|].
  eapply chain_ext; [| |exact Hc]; intros j _; unfold nxs, pvs; rewrite alter_total by lia;
    case_decide; subst; try done; apply Hf.
Qed.

Lemma bufs_ok_alter bs d i f :
  bufs_ok bs d -> (i < NBUF)%nat -> buf_ok d (f (bs !!! i)) ->
  (bdev (f (bs !!! i)) = D -> forall j, j <> i -> ~ is_buf bs (blockno (f (bs !!! i))) j) ->
  bufs_ok (alter f i bs) d.
Proof.
  intros (Hlen & Hb & Hu) Hi Hf Hn. split_and!; [by rewrite length_alter| |].
  - intros j Hj. rewrite alter_total by lia. case_decide; [done|auto].
  - intros j k Hj Hk. rewrite !alter_total by lia. repeat case_decide; subst; try done; intros E1 E2 E3.
    + exfalso. by apply (Hn E1 k); [|split_and!].
    + exfalso. by apply (Hn E2 j); [|split_and!].
    + by apply Hu.
Qed.

Lemma bufs_ok_same_block bs d i f :
  bufs_ok bs d -> (i < NBUF)%nat -> buf_ok d (f (bs !!! i)) ->
  bdev (f (bs !!! i)) = bdev (bs !!! i) -> blockno (f (bs !!! i)) = blockno (bs !!! i) ->
  bufs_ok (alter f i bs) d.
Proof.
  intros Hok Hi Hf E1 E2. apply bufs_ok_alter; try done. rewrite E1, E2. intros Ed j Hj Hb.
  apply Hj. eapply is_buf_unique; eauto. by split_and!.
Qed.

(** Every other block keeps its content, and so does this one if its buffer's does. *)
Lemma view_alter s i f n :
  bufs_ok (bufs s) (dsk s) -> (i < NBUF)%nat ->
  bdev (f (bufs s !!! i)) = bdev (bufs s !!! i) -> blockno (f (bufs s !!! i)) = blockno (bufs s !!! i) ->
  (is_buf (bufs s) n i ->
   (if valid (f (bufs s !!! i)) then bdata (f (bufs s !!! i)) else dread (dsk s) n) = view s n) ->
  view (with_bufs s (alter f i (bufs s))) n = view s n.
Proof.
  intros Hok Hi E1 E2 Hv. pose proof Hok as (Hlen & _).
  assert (Hc : cached (alter f i (bufs s)) n = cached (bufs s) n).
  { unfold cached. apply find_ext. intros j. unfold matches. rewrite alter_total by lia.
    case_decide; subst; [by rewrite E1, E2|done]. }
  unfold view at 1. simpl. rewrite Hc. pose proof (cached_spec (bufs s) n) as Hs.
  destruct (cached (bufs s) n) as [j|] eqn:Ej.
  - rewrite alter_total by lia. case_decide; subst; [by apply Hv|]. unfold view. by rewrite Ej.
  - unfold view. by rewrite Ej.
Qed.

(** ** bget *)

(** The block's buffer is not locked by anybody, or one can be recycled. *)
Definition available (s : bst) (n : Z) : Prop :=
  (exists i, is_buf (bufs s) n i /\ sl_locked (block_lock (bufs s !!! i)) = false /\
     refcnt (bufs s !!! i) + 1 < 2 ^ 31) \/
  ((forall i, ~ is_buf (bufs s) n i) /\ exists i, (i < NBUF)%nat /\ refcnt (bufs s !!! i) = 0).

Lemma on_lock_acquire s i pid :
  sl_locked (block_lock (bufs s !!! i)) = false ->
  on_lock i (acquiresleep pid) s =
  Ok (tt, with_bufs s (alter (set_lock (mksleeplock true pid)) i (bufs s))).
Proof. intros E. unfold on_lock. erewrite zoom_ok by (by apply acquiresleep_free). done. Qed.

Lemma with_bufs_twice s bs bs' : with_bufs (with_bufs s bs) bs' = with_bufs s bs'.
Proof. done. Qed.

Lemma alter_alter (f g : buf -> buf) i (bs : list buf) : alter f i (alter g i bs) = alter (f ∘ g) i bs.
Proof. revert i. induction bs as [|b bs IH]; intros [|i]; csimpl; [done..|]. by rewrite IH. Qed.

Lemma find_order s order n :
  bok s order ->
  find_block ring_fuel (next (bufs s !!! HEAD)) D n s = Ok (cached (bufs s) n, s).
Proof.
  intros Hb. pose proof Hb as [Hr _]. pose proof Hr as (_ & Hp & Hc).
  rewrite <- (ring_find s order n Hb). apply find_block_ok; [done| |].
  - pose proof (ring_nodup _ _ Hr) as [? _]%NoDup_cons. done.
  - rewrite Hp, length_seq. unfold ring_fuel. lia.
Qed.

(** The buffer recycled is the least recently used one that is free. *)
Lemma find_lru s order :
  bok s order ->
  find_unused ring_fuel (prev (bufs s !!! HEAD)) s =
  Ok (List.find (fun i => refcnt (bufs s !!! i) =? 0) (rev order), s).
Proof.
  intros [Hr _]. pose proof Hr as (_ & Hp & Hc). apply find_unused_ok.
  - by apply chain_rev.
  - pose proof (ring_nodup _ _ Hr) as [? _]%NoDup_cons. by rewrite list_elem_of_In, <- in_rev, <- list_elem_of_In.
  - rewrite length_rev, Hp, length_seq. unfold ring_fuel. lia.
Qed.

(** A buffer the running process holds, with the current content of block [n]. *)
Definition locked_buf (s : bst) (b : nat) (n : Z) : Prop :=
  is_buf (bufs s) n b /\ block_lock (bufs s !!! b) = mksleeplock true (bpid s) /\
  1 <= refcnt (bufs s !!! b).

(** Recycling a free buffer changes no content. *)
Lemma view_recycle s b f n m :
  bufs_ok (bufs s) (dsk s) -> bufs_ok (alter f b (bufs s)) (dsk s) -> (b < NBUF)%nat ->
  (forall i, ~ is_buf (bufs s) n i) -> refcnt (bufs s !!! b) = 0 ->
  is_buf (alter f b (bufs s)) n b -> valid (f (bufs s !!! b)) = false ->
  view (with_bufs s (alter f b (bufs s))) m = view s m.
Proof.
  intros Hok Hok' Hb Hno Hz Hib Hv. pose proof Hok as (Hlen & Hbufs & _).
  assert (Hbb : alter f b (bufs s) !!! b = f (bufs s !!! b)) by (rewrite alter_total, decide_True by (done || lia); done).
  destruct (decide (m = n)) as [->|Hne].
  - rewrite (view_none s n Hno). rewrite (view_buf (with_bufs s _) n b) by done. simpl. by rewrite Hbb, Hv.
  - pose proof (cached_spec (bufs s) m) as Hc. destruct (cached (bufs s) m) as [j|].
    + destruct (decide (j = b)) as [->|Hjb].
      * rewrite (view_buf s m b) by done. rewrite (view_none (with_bufs s _)).
        -- destruct (Hbufs b Hb) as (_ & _ & _ & Hcl). destruct Hc as (_ & _ & <-).
           destruct (valid (bufs s !!! b)); [by rewrite Hcl|done].
        -- simpl. intros i (Hi & H1 & H2). rewrite alter_total in H1, H2 by lia.
           case_decide; [subst i; destruct Hib as (_ & _ & H3); rewrite Hbb in H3; congruence|].
           assert (i = b) by (apply (is_buf_unique (bufs s) (dsk s) m i b Hok); [by split_and!|done]). done.
      * rewrite (view_buf s m j) by done.
        assert (Hj : is_buf (alter f b (bufs s)) m j).
        { destruct Hc as (? & ? & ?). split_and!; [done|..]; rewrite alter_total by lia; by rewrite decide_False. }
        rewrite (view_buf (with_bufs s _) m j) by done. simpl. rewrite alter_total by lia.
        by rewrite decide_False.
    + rewrite (view_none s m Hc), (view_none (with_bufs s _)); [done|]. simpl. intros i (Hi & H1 & H2).
      rewrite alter_total in H1, H2 by lia. case_decide.
      * subst i. destruct Hib as (_ & _ & H3). rewrite Hbb in H3. congruence.
      * apply (Hc i). by split_and!.
Qed.

(** The end of both branches of [bget]. *)
Lemma take_buf s b g :
  (b < length (bufs s))%nat -> sl_locked (block_lock (g (bufs s !!! b))) = false ->
  (updb b g ;;; on_lock b (acquiresleep (bpid s)) ;;; ret b) s =
  Ok (b, with_bufs s (alter (set_lock (mksleeplock true (bpid s)) ∘ g) b (bufs s))).
Proof.
  intros Hb Hl. rewrite (bind_ok _ _ _ _ _ (eq_refl : updb b g s = Ok (tt, with_bufs s (alter g b (bufs s))))).
  erewrite bind_ok by (apply on_lock_acquire; simpl; rewrite alter_total by done; by rewrite decide_True).
  simpl. by rewrite alter_alter.
Qed.

(** What [bget] changes: one buffer [b], by [f]. *)
Lemma bget_ok s order n :
  bok s order -> available s n ->
  exists b f, bget D n s = Ok (b, with_bufs s (alter f b (bufs s))) /\
    bok (with_bufs s (alter f b (bufs s))) order /\
    locked_buf (with_bufs s (alter f b (bufs s))) b n /\
    (forall m, view (with_bufs s (alter f b (bufs s))) m = view s m) /\
    refcnt (f (bufs s !!! b)) = refcnt (bufs s !!! b) + 1 /\
    (cached (bufs s) n = None -> refcnt (bufs s !!! b) = 0).
Proof.
  intros Hb Hav. pose proof Hb as [Hr Hok]. pose proof Hok as (Hlen & Hbufs & _).
  unfold bget. do 2 (erewrite bind_ok by reflexivity).
  rewrite (bind_ok _ _ _ _ _ (find_order s order n Hb)).
  pose proof (cached_spec (bufs s) n) as Hc. destruct (cached (bufs s) n) as [b|] eqn:Ec.
  - assert (Hfree : sl_locked (block_lock (bufs s !!! b)) = false /\ refcnt (bufs s !!! b) + 1 < 2 ^ 31).
    { destruct Hav as [(i & Hi & Hl & Hn)|[Hno _]]; [|by destruct (Hno b)].
      by rewrite (is_buf_unique _ _ _ _ _ Hok Hc Hi). }
    destruct Hfree as [Hfl Hfn].
    pose proof Hc as (Hbn & Hdev & Hbno). destruct (Hbufs b Hbn) as (Hrc & Hlk & Hd & Hcl).
    rewrite take_buf by (done || lia). eexists b, _. split; [reflexivity|]. split; [split|].
    + apply ring_alter; [done..|]. by intros x.
    + apply bufs_ok_same_block; try done. simpl. rewrite u32_small by lia.
      split_and!; simpl; [lia|lia|intros; lia|done|intros; lia].
    + split; [split_and!|split].
      * split_and!; [done|..]; simpl; rewrite alter_total, decide_True by (done || lia); done.
      * simpl. rewrite alter_total, decide_True by (done || lia). done.
      * simpl. rewrite alter_total, decide_True by (done || lia). simpl. rewrite u32_small; lia.
      * intros m. apply view_alter; try done. intros Hm. simpl. symmetry. by apply view_buf.
      * simpl. rewrite u32_small by lia. done.
  - erewrite bind_ok by reflexivity. rewrite (bind_ok _ _ _ _ _ (find_lru s order Hb)).
    destruct (List.find _ (rev order)) as [b|] eqn:Ef.
    2: { exfalso. destruct Hav as [(i & Hi & _)|(_ & i & Hi & Hz)]; [by destruct (Hc i)|].
         apply (ring_elem _ _ _ Hr), list_elem_of_In, in_rev in Hi.
         pose proof (List.find_none _ _ Ef i Hi) as Hf. simpl in Hf. by rewrite Hz in Hf. }
    apply List.find_some in Ef as [Hin Hz]. apply in_rev, list_elem_of_In, (ring_elem _ _ _ Hr) in Hin.
    apply Z.eqb_eq in Hz. destruct (Hbufs b Hin) as (Hrc & Hlk & Hd & Hcl).
    rewrite take_buf; [|lia|].
    2: { simpl. destruct (sl_locked _); [|done]. specialize (Hlk eq_refl). lia. }
    eexists b, _. split; [reflexivity|]. set (f := _ ∘ recycle D n).
    assert (Hok' : bufs_ok (alter f b (bufs s)) (dsk s)).
    { apply bufs_ok_alter; [done..| |].
      - split_and!; simpl; [lia|lia|intros; lia|by right|done].
      - intros _ j Hj. apply Hc. }
    assert (Hib : is_buf (alter f b (bufs s)) n b).
    { split_and!; [done|..]; rewrite alter_total, decide_True by (done || lia); done. }
    split; [split; [apply ring_alter; [done..|]; by intros x|done]|].
    split; [split_and!; [done|..]; simpl; rewrite alter_total, decide_True by (done || lia); done|].
    split; [|split; [rewrite Hz; done|done]]. intros m. by apply (view_recycle s b f n).
Qed.

(** ** The operations *)

(** A held buffer that has been read. *)
Definition held (s : bst) (b : nat) (n : Z) : Prop := locked_buf s b n /\ valid (bufs s !!! b) = true.

(** Only buffer [b] differs, up to links. *)
Definition only_buf (b : nat) (s s' : bst) : Prop :=
  bpid s' = bpid s /\ forall j, (j < NBUF)%nat -> j <> b -> core (bufs s' !!! j) = core (bufs s !!! j).

Lemma bread_ok s order n :
  bok s order -> available s n ->
  exists b s', bread D n s = Ok (b, s') /\ bok s' order /\ held s' b n /\
    bdata (bufs s' !!! b) = view s n /\ (forall m, view s' m = view s m) /\
    only_buf b s s' /\ dsk s' = dsk s /\ dtrace s' = dtrace s /\
    refcnt (bufs s' !!! b) = refcnt (bufs s !!! b) + 1 /\
    (cached (bufs s) n = None -> refcnt (bufs s !!! b) = 0).
Proof.
  intros Hb Hav. destruct (bget_ok s order n Hb Hav) as (b & f & E & [Hr1 Hok1] & Hl & Hv & Hrc & Hnone).
  pose proof Hb as [_ (Hlen & _)]. pose proof Hl as ((Hbn & Hdev & Hbno) & Hlock & Href).
  unfold bread. rewrite (bind_ok _ _ _ _ _ E). set (s1 := with_bufs s (alter f b (bufs s))) in *.
  erewrite bind_ok by reflexivity.
  assert (Hframe : only_buf b s s1).
  { split; [done|]. intros j Hj Hne. simpl. rewrite alter_total by lia. by rewrite decide_False. }
  assert (Hbb : bufs s1 !!! b = f (bufs s !!! b)).
  { simpl. rewrite alter_total by lia. by rewrite decide_True. }
  destruct (valid (bufs s1 !!! b)) eqn:Ev.
  - exists b, s1. split; [done|]. split_and!; try done.
    + rewrite <- Hv, (view_buf s1 n b Hok1) by done. by rewrite Ev.
    + by rewrite Hbb.
  - set (d := dread (dsk s) n).
    set (s2 := with_bufs s1 (alter (set_valid true ∘ set_data d) b (bufs s1))).
    assert (Es : (virtio_disk_rw b false ;;; updb b (set_valid true)) s1 = Ok (tt, s2)).
    { unfold virtio_disk_rw, s2, bind, getb, gets, updb, modify, with_bufs. simpl. rewrite alter_alter.
      unfold d. rewrite <- Hbno. done. }
    rewrite (bind_ok _ _ _ _ _ Es).
    assert (Hlen1 : length (bufs s1) = S NBUF) by (simpl; by rewrite length_alter).
    assert (Hbb2 : bufs s2 !!! b = set_valid true (set_data d (bufs s1 !!! b))).
    { change (bufs s2) with (alter (set_valid true ∘ set_data d) b (bufs s1)).
      rewrite alter_total by lia. by rewrite decide_True. }
    assert (Hok2 : bufs_ok (bufs s2) (dsk s2)).
    { apply bufs_ok_same_block; try done. destruct Hok1 as (_ & H1 & _).
      destruct (H1 b Hbn) as (? & ? & Hd & _). split; [done|]. split; [done|]. split; [by right|].
      intros _ _. unfold d. rewrite <- Hbno. done. }
    exists b, s2. split; [done|]. split; [split; [by apply ring_alter; [..|intros x]|done]|].
    split; [split; [split; [split; [done|]|]|]; rewrite Hbb2; done|]. split_and!; try done.
    + rewrite Hbb2. simpl. rewrite <- Hv, (view_buf s1 n b Hok1) by done. by rewrite Ev.
    + intros m. rewrite <- Hv. apply view_alter; try done. intros (_ & _ & Hm).
      rewrite (view_buf s1 m b Hok1) by done. rewrite Ev. simpl. unfold d. by rewrite <- Hm, Hbno.
    + split; [done|]. intros j Hj Hne. simpl. rewrite !alter_total by (rewrite ?length_alter; lia).
      by rewrite !decide_False.
    + rewrite Hbb2. simpl. by rewrite <- Hrc, <- Hbb.
Qed.

(** The client writes into a buffer it holds. *)
Lemma set_data_ok s order b n d :
  bok s order -> held s b n ->
  let s' := with_bufs s (alter (set_data d) b (bufs s)) in
  updb b (set_data d) s = Ok (tt, s') /\ bok s' order /\ held s' b n /\
  (forall m, view s' m = if decide (m = n) then d else view s m) /\ only_buf b s s' /\
  bufs s' !!! b = set_data d (bufs s !!! b).
Proof.
  intros [Hr Hok] [((Hbn & Hdev & Hbno) & Hl & Hrc) Hv] s'. pose proof Hok as (Hlen & Hbufs & _).
  assert (Hbb : bufs s' !!! b = set_data d (bufs s !!! b)).
  { simpl. rewrite alter_total by lia. by rewrite decide_True. }
  assert (Hok' : bufs_ok (bufs s') (dsk s')).
  { apply bufs_ok_same_block; try done. destruct (Hbufs b Hbn) as (? & ? & ? & _).
    do 3 (split; [done|]). simpl. intros. lia. }
  assert (Hh : held s' b n).
  { split; [split; [split; [done|]|]|]; rewrite Hbb; done. }
  split; [done|]. split; [split; [by apply ring_alter; [..|intros x]|done]|].
  split; [done|]. split; [|split; [|done]].
  - intros m. case_decide as Hd.
    + subst m. rewrite (view_buf s' n b Hok') by apply Hh. rewrite Hbb. simpl. by rewrite Hv.
    + apply view_alter; try done. intros (_ & _ & Hm). congruence.
  - split; [done|]. intros j Hj Hne. simpl. rewrite alter_total by lia. by rewrite decide_False.
Qed.

Lemma holding_held s b n : held s b n -> holdingsleep (bpid s) (block_lock (bufs s !!! b)) = true.
Proof. intros [(_ & -> & _) _]. apply holdingsleep_acquired. Qed.

Lemma bwrite_ok s order b n :
  bok s order -> held s b n ->
  let s' := mkbst (bufs s) (bpid s) (<[n := bdata (bufs s !!! b)]> (dsk s))
              (dtrace s ++ [(n, bdata (bufs s !!! b))]) in
  bwrite b s = Ok (tt, s') /\ bok s' order /\ (forall m, view s' m = view s m).
Proof.
  intros [Hr Hok] Hh s'. pose proof Hh as [((Hbn & Hdev & Hbno) & Hl & Hrc) Hv].
  split; [|split].
  - unfold bwrite. do 2 (erewrite bind_ok by reflexivity). rewrite (holding_held s b n Hh). cbn [negb].
    unfold virtio_disk_rw. erewrite bind_ok by reflexivity. unfold s'. by rewrite <- Hbno.
  - split; [done|]. destruct Hok as (Hlen & Hbufs & Hu). split_and!; [done| |done].
    intros i Hi. destruct (Hbufs i Hi) as (H1 & H2 & H3 & H4). do 3 (split; [done|]). simpl.
    intros E1 E2. unfold dread. rewrite lookup_insert. case_decide as Hd; [|by apply H4].
    assert (i = b) as ->; [|lia]. apply Hu; try done; [|congruence].
    destruct H3 as [[_ H3]|H3]; [congruence|done].
  - intros m. unfold view. simpl. pose proof (cached_spec (bufs s) m) as Hc.
    destruct (cached (bufs s) m) as [i|].
    + destruct (valid (bufs s !!! i)) eqn:Evi; [done|]. unfold dread. rewrite lookup_insert_ne; [done|].
      intros E. assert (i = b) as ->; [|congruence].
      apply (is_buf_unique (bufs s) (dsk s) m i b Hok Hc). split_and!; done || congruence.
    + unfold dread. rewrite lookup_insert_ne; [done|]. intros <-. apply (Hc b). by split_and!.
Qed.

(** Adding references. *)
Lemma bpin_ok s order b :
  bok s order -> (b < NBUF)%nat -> refcnt (bufs s !!! b) + 1 < 2 ^ 31 ->
  let s' := with_bufs s (alter (fun x => set_refcnt (refcnt x + 1) x) b (bufs s)) in
  bpin b s = Ok (tt, s') /\ bok s' order /\ (forall m, view s' m = view s m) /\
  bufs s' !!! b = set_refcnt (refcnt (bufs s !!! b) + 1) (bufs s !!! b) /\ only_buf b s s'.
Proof.
  intros [Hr Hok] Hb Hn s'. pose proof Hok as (Hlen & Hbufs & _).
  destruct (Hbufs b Hb) as (H1 & H2 & H3 & H4). split; [|split; [|split; [|split]]].
  - unfold bpin, updb, modify, s', with_bufs. do 3 f_equal. apply list_eq. intros j.
    rewrite !list_lookup_alter. case_decide; [|done]. subst j.
    destruct (bufs s !! b) as [x|] eqn:Ex; [|done]. simpl. do 2 f_equal.
    apply list_lookup_total_correct in Ex. rewrite Ex in *. apply u32_small. lia.
  - split; [by apply ring_alter; [..|intros x]|]. apply bufs_ok_same_block; try done.
    split; [simpl; lia|]. split; [simpl; lia|]. split; [done|]. simpl. lia.
  - intros m. apply view_alter; try done. intros Hm. symmetry. by apply view_buf.
  - simpl. rewrite alter_total by lia. by rewrite decide_True.
  - split; [done|]. intros j Hj Hne. simpl. rewrite alter_total by lia. by rewrite decide_False.
Qed.

(** Dropping one, when the buffer stays in use or is clean. *)
Lemma unref_ok s order b f :
  bok s order -> (b < NBUF)%nat -> 1 <= refcnt (bufs s !!! b) ->
  (refcnt (bufs s !!! b) = 1 -> valid (bufs s !!! b) = true ->
   bdata (bufs s !!! b) = dread (dsk s) (blockno (bufs s !!! b))) ->
  (forall x, exists l, f x = set_lock l (set_refcnt (u32 (refcnt x - 1)) x)) ->
  (sl_locked (block_lock (f (bufs s !!! b))) = true -> 2 <= refcnt (bufs s !!! b)) ->
  let s' := with_bufs s (alter f b (bufs s)) in
  bok s' order /\ (forall m, view s' m = view s m) /\ bufs s' !!! b = f (bufs s !!! b) /\
  only_buf b s s' /\ refcnt (f (bufs s !!! b)) = refcnt (bufs s !!! b) - 1.
Proof.
  intros [Hr Hok] Hb Hn Hcl Hf Hlk s'. pose proof Hok as (Hlen & Hbufs & _).
  destruct (Hbufs b Hb) as (H1 & H2 & H3 & H4). destruct (Hf (bufs s !!! b)) as [l Efb].
  assert (Erc : refcnt (f (bufs s !!! b)) = refcnt (bufs s !!! b) - 1).
  { rewrite Efb. simpl. apply u32_small. lia. }
  split; [|split; [|split; [|split; [|done]]]].
  - split.
    + apply ring_alter; [done..|]. intros x. by destruct (Hf x) as [lx ->].
    + apply bufs_ok_same_block; try (done || by rewrite Efb). split; [rewrite Erc; lia|].
      split; [intros E; rewrite Erc; specialize (Hlk E); lia|]. rewrite Efb in *. simpl in *.
      split; [done|]. intros E1 E2. apply Hcl; [lia|done].
  - intros m. apply view_alter; try (done || by rewrite Efb). intros Hm. rewrite Efb. simpl.
    symmetry. by apply view_buf.
  - simpl. rewrite alter_total by lia. by rewrite decide_True.
  - split; [done|]. intros j Hj Hne. simpl. rewrite alter_total by lia. by rewrite decide_False.
Qed.

(** ** Contents do not depend on the links *)

Lemma cores_total bs i : (i < length bs)%nat -> cores bs !!! i = core (bs !!! i).
Proof. intros Hi. unfold cores. by apply list_lookup_total_fmap. Qed.

Lemma cores_core bs bs' i :
  cores bs' = cores bs -> (i < length bs)%nat -> core (bs' !!! i) = core (bs !!! i).
Proof.
  intros E Hi. assert (Hl : length bs' = length bs).
  { apply (f_equal length) in E. unfold cores in E. by rewrite !length_fmap in E. }
  rewrite <- !cores_total by lia. by rewrite E.
Qed.

Lemma bufs_ok_cores bs bs' d : cores bs' = cores bs -> bufs_ok bs d -> bufs_ok bs' d.
Proof.
  intros E (Hlen & Hb & Hu). assert (Hl : length bs' = length bs).
  { apply (f_equal length) in E. unfold cores in E. by rewrite !length_fmap in E. }
  assert (Hc : forall i, (i < NBUF)%nat -> core (bs' !!! i) = core (bs !!! i)).
  { intros i Hi. apply cores_core; [done|lia]. }
  split_and!; [lia| |].
  - intros i Hi. change (buf_ok d (core (bs' !!! i))). rewrite Hc by done. exact (Hb i Hi).
  - intros i j Hi Hj E1 E2 E3. apply Hu; try done.
    + etransitivity; [symmetry; exact (f_equal bdev (Hc i Hi))|done].
    + etransitivity; [symmetry; exact (f_equal bdev (Hc j Hj))|done].
    + etransitivity; [symmetry; exact (f_equal blockno (Hc i Hi))|].
      etransitivity; [exact E3|exact (f_equal blockno (Hc j Hj))].
Qed.

Lemma view_cores s bs' n :
  bufs_ok (bufs s) (dsk s) -> cores bs' = cores (bufs s) -> view (with_bufs s bs') n = view s n.
Proof.
  intros (Hlen & _) E.
  assert (Hc : forall i, (i < NBUF)%nat -> core (bs' !!! i) = core (bufs s !!! i)).
  { intros i Hi. apply cores_core; [done|lia]. }
  assert (Hca : cached bs' n = cached (bufs s) n).
  { unfold cached. assert (Hin : forall i, i ∈ seq 0 NBUF -> (i < NBUF)%nat)
      by (intros i; rewrite elem_of_seq; lia).
    induction (seq 0 NBUF) as [|i l IH]; [done|]. cbn [List.find].
    assert (matches bs' D n i = matches (bufs s) D n i) as ->.
    { unfold matches. pose proof (Hc i (Hin i ltac:(set_solver))) as Ci.
      pose proof (f_equal bdev Ci) as C1. pose proof (f_equal blockno Ci) as C2. simpl in C1, C2.
      by rewrite C1, C2. }
    rewrite IH; [done|]. intros j Hj. apply Hin. set_solver. }
  unfold view. simpl. rewrite Hca. pose proof (cached_spec (bufs s) n) as Hs.
  destruct (cached (bufs s) n) as [i|]; [|done]. destruct Hs as (Hi & _). specialize (Hc i Hi).
  pose proof (f_equal valid Hc) as C1. pose proof (f_equal bdata Hc) as C2. simpl in C1, C2.
  by rewrite C1, C2.
Qed.

(** ** brelse *)

Lemma relink_run s order b :
  ring (bufs s) order -> (b < NBUF)%nat ->
  (x <- getb b ;; updb (next x) (set_prev (prev x)) ;;; x <- getb b ;;
   updb (prev x) (set_next (next x)) ;;; insert_front b) s =
  Ok (tt, with_bufs s (to_front (bufs s) b)).
Proof.
  intros Hr Hb. pose proof Hr as (Hlen & _ & Hc). pose proof Hb as Hin.
  apply (ring_elem _ _ _ Hr) in Hin. apply list_elem_of_split in Hin as (l1 & l2 & ->).
  pose proof (ring_nodup _ _ Hr) as Hnd. apply chain_app in Hc as [_ Hc2].
  pose proof (chain_first _ _ _ _ _ Hc2) as Hn.
  assert (Hne : b <> nxs (bufs s) b).
  { intros E. rewrite <- E in Hn. apply NoDup_cons in Hnd as [Hh Hnd].
    apply NoDup_app in Hnd as (_ & _ & [Hb2 _]%NoDup_cons). 
    apply elem_of_app in Hn as [?|Hn%list_elem_of_singleton]; [done|]. unfold HEAD in Hn. lia. }
  set (s1 := with_bufs s (alter (set_prev (prev (bufs s !!! b))) (next (bufs s !!! b)) (bufs s))).
  rewrite (bind_ok _ _ _ (bufs s !!! b) s), (bind_ok _ _ _ tt s1) by reflexivity.
  erewrite bind_ok by reflexivity.
  assert (Eb : bufs s1 !!! b = bufs s !!! b).
  { simpl. apply list_lookup_total_alter_ne. unfold nxs in Hne. congruence. }
  rewrite Eb. erewrite bind_ok by reflexivity.
  rewrite insert_front_run; [done| |done]. simpl. by rewrite !length_alter.
Qed.

(** A released buffer: unlocked, one reference less. *)
Definition released (b : buf) : buf := set_lock (mksleeplock false 0) (set_refcnt (u32 (refcnt b - 1)) b).

Lemma brelse_ok s order b n :
  bok s order -> held s b n ->
  (refcnt (bufs s !!! b) = 1 -> bdata (bufs s !!! b) = dread (dsk s) n) ->
  exists s' order', brelse b s = Ok (tt, s') /\ bok s' order' /\
    (forall m, view s' m = view s m) /\ only_buf b s s' /\ dsk s' = dsk s /\ dtrace s' = dtrace s /\
    core (bufs s' !!! b) = core (set_lock (mksleeplock false 0) (set_refcnt (refcnt (bufs s !!! b) - 1) (bufs s !!! b))) /\
    (if decide (refcnt (bufs s !!! b) = 1)
     then exists l1 l2, order = l1 ++ b :: l2 /\ order' = b :: l1 ++ l2 else order' = order).
Proof.
  intros Hb Hh Hcl. pose proof Hh as [((Hbn & Hdev & Hbno) & Hl & Hrc) Hv].
  pose proof Hb as [Hr Hok]. pose proof Hok as (Hlen & Hbufs & _).
  destruct (unref_ok s order b released Hb Hbn Hrc) as ([Hr1 Hok1] & Hv1 & Hb1 & Ho1 & Hrc1).
  { intros E _. rewrite Hbno. auto. } { intros x. by eexists. } { done. }
  set (s1 := with_bufs s (alter released b (bufs s))) in *.
  assert (Hrel : released (bufs s !!! b) =
    set_lock (mksleeplock false 0) (set_refcnt (refcnt (bufs s !!! b) - 1) (bufs s !!! b))).
  { rewrite <- Hrc1. done. }
  unfold brelse. do 2 (erewrite bind_ok by reflexivity). rewrite (holding_held s b n Hh). cbn [negb].
  do 2 (erewrite bind_ok by reflexivity).
  assert (Es : with_bufs s (alter (fun x => set_refcnt (u32 (refcnt x - 1)) x) b
    (alter (set_lock (mksleeplock false 0)) b (bufs s))) = s1).
  { unfold s1. by rewrite alter_alter. }
  rewrite !with_bufs_twice. simpl bufs. rewrite Es. erewrite bind_ok by reflexivity. rewrite Hb1, Hrc1.
  case_decide as Hone.
  - rewrite (proj2 (Z.eqb_eq _ _)) by lia.
    pose proof (relink_run s1 order b Hr1 Hbn) as E. erewrite bind_ok in E by reflexivity.
    rewrite Hb1 in E. rewrite E.
    pose proof Hbn as Hin. apply (ring_elem _ _ _ Hr) in Hin. apply list_elem_of_split in Hin as (l1 & l2 & ->).
    destruct (ring_to_front (bufs s1) l1 b l2 Hr1) as [Hr2 Hco].
    exists (with_bufs s1 (to_front (bufs s1) b)), (b :: l1 ++ l2). split; [done|].
    split; [split; [done|by eapply bufs_ok_cores]|].
    assert (Hl1 : length (bufs s1) = S NBUF) by apply Hr1. split_and!; try done.
    + intros m. rewrite view_cores by done. apply Hv1.
    + split; [done|]. intros j Hj Hne. simpl bufs. rewrite (cores_core (bufs s1)) by (done || lia). by apply Ho1.
    + simpl bufs. rewrite (cores_core (bufs s1)) by (done || lia). by rewrite Hb1, Hrel.
    + eauto.
  - rewrite (proj2 (Z.eqb_neq _ _)) by lia. exists s1, order. split; [done|]. split; [done|].
    split_and!; try done. by rewrite Hb1, Hrel.
Qed.

Lemma bunpin_ok s order b :
  bok s order -> (b < NBUF)%nat -> 1 <= refcnt (bufs s !!! b) ->
  (sl_locked (block_lock (bufs s !!! b)) = true -> 2 <= refcnt (bufs s !!! b)) ->
  (refcnt (bufs s !!! b) = 1 -> valid (bufs s !!! b) = true ->
   bdata (bufs s !!! b) = dread (dsk s) (blockno (bufs s !!! b))) ->
  exists s', bunpin b s = Ok (tt, s') /\ bok s' order /\ (forall m, view s' m = view s m) /\
    bufs s' !!! b = set_refcnt (refcnt (bufs s !!! b) - 1) (bufs s !!! b) /\ only_buf b s s' /\
    dsk s' = dsk s /\ dtrace s' = dtrace s.
Proof.
  intros Hb Hbn Hrc Hlk Hcl. eexists. split; [reflexivity|].
  destruct (unref_ok s order b (fun x => set_refcnt (u32 (refcnt x - 1)) x) Hb Hbn Hrc Hcl)
    as (Hb' & Hv & Hbb & Ho & Hr).
  { intros x. by exists (block_lock x). } { done. }
  split; [done|]. split; [done|]. split; [|done]. etransitivity; [exact Hbb|]. simpl in Hr. by rewrite Hr.
Qed.
End Cache.

(** ** binit *)

Lemma alter_lock_same bs b l :
  (b < length bs)%nat -> block_lock (bs !!! b) = l -> alter (set_lock l) b bs = bs.
Proof.
  intros Hb E. apply list_eq. intros j. rewrite list_lookup_alter. case_decide as Hd; [|done]. subst j.
  destruct (bs !! b) as [x|] eqn:Ex; [|done]. apply list_lookup_total_correct in Ex. rewrite Ex in E.
  simpl. subst l. by destruct x.
Qed.

Lemma binit_step n b s :
  length (bufs s) = S NBUF -> (b < NBUF)%nat -> block_lock (bufs s !!! b) = initsleeplock ->
  binit_loop (S n) b s = binit_loop n (S b) (with_bufs s (insert_links (bufs s) b)).
Proof.
  intros Hlen Hb Hl. cbn [binit_loop].
  unfold bind at 1 2 3 4 5 6 7, getb, updb, gets, modify, with_bufs, insert_links. simpl.
  rewrite (alter_lock_same (alter (set_prev HEAD) b _) b initsleeplock).
  - rewrite !list_lookup_total_alter_ne by (unfold HEAD; lia). done.
  - rewrite !length_alter. lia.
  - rewrite !list_lookup_total_alter_eq by (rewrite ?length_alter; lia). done.
Qed.

Lemma binit_loop_ok n : forall k s,
  (k + n = NBUF)%nat -> length (bufs s) = S NBUF ->
  (forall i, (i < NBUF)%nat -> block_lock (bufs s !!! i) = initsleeplock) ->
  chain (nxs (bufs s)) (pvs (bufs s)) HEAD (rev (seq 0 k)) HEAD ->
  exists bs', binit_loop n k s = Ok (tt, with_bufs s bs') /\ ring bs' (rev (seq 0 NBUF)) /\
    cores bs' = cores (bufs s).
Proof.
  induction n as [|n IH]; intros k s Hk Hlen Hlk Hc.
  - exists (bufs s). split; [by destruct s|]. assert (k = NBUF) as -> by lia.
    split; [|done]. split_and!; [done| |done]. by rewrite <- Permutation_rev.
  - rewrite binit_step; [|done|lia|apply Hlk; lia].
    assert (Hin : forall i, i ∈ rev (seq 0 k) -> (i < k)%nat).
    { intros i. rewrite <- Permutation_rev, elem_of_seq. lia. }
    destruct (insert_ring (bufs s) k (rev (seq 0 k))) as (Hlen' & Hco & Hc'); try done; try lia.
    + intros Hi%Hin. lia.
    + rewrite <- Permutation_rev. apply NoDup_seq.
    + apply Forall_forall. intros i Hi%Hin. lia.
    + destruct (IH (S k) (with_bufs s (insert_links (bufs s) k))) as (bs' & E & Hr & Hco'); try done; try lia.
      * intros i Hi. simpl. rewrite <- (Hlk i Hi).
        exact (f_equal block_lock (cores_core (bufs s) _ i Hco ltac:(lia))).
      * rewrite seq_S, rev_app_distr. exact Hc'.
      * exists bs'. split; [exact E|]. split; [done|]. by rewrite Hco', <- Hco.
Qed.

(** From zeroed buffers [binit] builds the cache: all buffers unused and invalid,
    so every block has the content the disk has. *)
Lemma binit_ok D s :
  D <> 0 -> bufs s = replicate (S NBUF) buf0 ->
  exists s', binit s = Ok (tt, s') /\ bok D s' (rev (seq 0 NBUF)) /\
    (forall n, view D s' n = dread (dsk s) n) /\ dsk s' = dsk s /\ bpid s' = bpid s /\
    (forall i, (i < NBUF)%nat -> core (bufs s' !!! i) = core buf0).
Proof.
  intros HD Hz. unfold binit. do 2 (erewrite bind_ok by reflexivity).
  set (s1 := with_bufs _ _). assert (Hlen : length (bufs s1) = S NBUF).
  { simpl. rewrite !length_alter, Hz. apply length_replicate. }
  assert (Hco : cores (bufs s1) = cores (replicate (S NBUF) buf0)).
  { simpl. rewrite !cores_alter by done. by rewrite Hz. }
  assert (Hb0 : forall i, (i < NBUF)%nat -> core (bufs s1 !!! i) = core buf0).
  { intros i Hi. rewrite (cores_core _ _ i Hco) by (rewrite length_replicate; lia).
    by rewrite lookup_total_replicate_2 by lia. }
  assert (H1 : forall i, (i < NBUF)%nat -> block_lock (bufs s1 !!! i) = initsleeplock).
  { intros i Hi. exact (f_equal block_lock (Hb0 i Hi)). }
  assert (H2 : chain (nxs (bufs s1)) (pvs (bufs s1)) HEAD (rev (seq 0 0)) HEAD).
  { simpl. assert (HEAD < length (bufs s))%nat by (rewrite Hz, length_replicate; unfold HEAD; lia).
    unfold nxs, pvs. rewrite !list_lookup_total_alter_eq by (rewrite ?length_alter; done). split; reflexivity. }
  destruct (binit_loop_ok NBUF 0 s1 ltac:(lia) Hlen H1 H2) as (bs' & E & Hr & Hco').
  exists (with_bufs s1 bs'). split; [exact E|]. clear E.
  assert (Hall : forall i, (i < NBUF)%nat -> core (bs' !!! i) = core buf0).
  { intros i Hi. rewrite (cores_core (bufs s1) _ i Hco') by lia. by apply Hb0. }
  assert (Hdev : forall i, (i < NBUF)%nat -> bdev (bs' !!! i) = 0).
  { intros i Hi. exact (f_equal bdev (Hall i Hi)). }
  split; [split; [done|]|split].
  - split_and!; [apply Hr| |].
    + intros i Hi. change (buf_ok D (dsk s) (core (bs' !!! i))). rewrite Hall by done.
      split; [simpl; lia|]. split; [done|]. split; [by left|done].
    + intros i j Hi Hj E1. rewrite Hdev in E1 by done. congruence.
  - intros n. rewrite (view_none D); [done|]. intros i (Hi & Hd & _). simpl in Hd. rewrite Hdev in Hd by done. congruence.
  - split_and!; done.
Qed.
