(* ===== verification/BioThm.v ===== *)
(** The buffer cache implements a store of blocks, and recycles the least
    recently used free buffer. *)

From S2P Require Import Prelude Sleeplock Bio BioRing BioSpec.

(** ** Histories of cache operations

    The steps of processes using the cache, with the writes they make to the
    contents of blocks; a process modifies, writes back, pins and releases only
    buffers it holds, and leaves a buffer clean when it drops the last reference. *)
Inductive bstep (D : Z) (s : bst) : bst -> list (Z * block) -> Prop :=
| step_bread s' n b : available D s n -> bread D n s = Ok (b, s') -> bstep D s s' []
| step_data s' b n d : held D s b n -> updb b (set_data d) s = Ok (tt, s') -> bstep D s s' [(n, d)]
| step_bwrite s' b n : held D s b n -> bwrite b s = Ok (tt, s') -> bstep D s s' []
| step_brelse s' b n : held D s b n ->
    (refcnt (bufs s !!! b) = 1 -> bdata (bufs s !!! b) = dread (dsk s) n) ->
    brelse b s = Ok (tt, s') -> bstep D s s' []
| step_bpin s' b n : held D s b n -> refcnt (bufs s !!! b) + 1 < 2 ^ 31 ->
    bpin b s = Ok (tt, s') -> bstep D s s' []
| step_bunpin s' b n : held D s b n -> 2 <= refcnt (bufs s !!! b) ->
    bunpin b s = Ok (tt, s') -> bstep D s s' [].

Inductive bsteps (D : Z) : bst -> bst -> list (Z * block) -> Prop :=
| bsteps_refl s : bsteps D s s []
| bsteps_step s s1 s2 ws ws' : bstep D s s1 ws -> bsteps D s1 s2 ws' -> bsteps D s s2 (ws ++ ws').

(** The specification: a map of blocks, updated by the writes in order. *)
Definition store (d : gmap Z block) (ws : list (Z * block)) : gmap Z block :=
  fold_left (fun m w => <[w.1 := w.2]> m) ws d.

Lemma store_app d ws ws' : store d (ws ++ ws') = store (store d ws) ws'.
Proof. apply fold_left_app. Qed.

Lemma bstep_ok D s s' ws order d :
  bok D s order -> bstep D s s' ws -> (forall n, view D s n = dread d n) ->
  exists order', bok D s' order' /\ forall n, view D s' n = dread (store d ws) n.
Proof.
  intros Hb Hs Hv. destruct Hs as
    [s' n b Hav E|s' b n x Hh E|s' b n Hh E|s' b n Hh Hcl E|s' b n Hh Hr E|s' b n Hh Hr E].
  - destruct (bread_ok D s order n Hb Hav) as (b' & s2 & E2 & Hb2 & _ & _ & Hv2 & _).
    rewrite E in E2. injection E2 as -> ->. exists order. split; [done|]. intros m. by rewrite Hv2, Hv.
  - destruct (set_data_ok D s order b n x Hb Hh) as (E2 & Hb2 & _ & Hv2 & _).
    rewrite E in E2. injection E2 as ->. exists order. split; [done|]. intros m. rewrite Hv2, Hv.
    unfold dread, store. simpl. rewrite lookup_insert. repeat case_decide; simpl; congruence.
  - destruct (bwrite_ok D s order b n Hb Hh) as (E2 & Hb2 & Hv2).
    rewrite E in E2. injection E2 as ->. exists order. split; [done|]. intros m. by rewrite Hv2, Hv.
  - destruct (brelse_ok D s order b n Hb Hh Hcl) as (s2 & order' & E2 & Hb2 & Hv2 & _).
    rewrite E in E2. injection E2 as ->. exists order'. split; [done|]. intros m. by rewrite Hv2, Hv.
  - assert (Hbn : (b < NBUF)%nat) by apply Hh.
    destruct (bpin_ok D s order b Hb Hbn Hr) as (E2 & Hb2 & Hv2 & _).
    rewrite E in E2. injection E2 as ->. exists order. split; [done|]. intros m. by rewrite Hv2, Hv.
  - assert (Hbn : (b < NBUF)%nat) by apply Hh.
    destruct (bunpin_ok D s order b Hb Hbn) as (s2 & E2 & Hb2 & Hv2 & _); try done; try lia.
    rewrite E in E2. injection E2 as ->. exists order. split; [done|]. intros m. by rewrite Hv2, Hv.
Qed.

Lemma bsteps_ok D s s' ws order d :
  bok D s order -> bsteps D s s' ws -> (forall n, view D s n = dread d n) ->
  exists order', bok D s' order' /\ forall n, view D s' n = dread (store d ws) n.
Proof.
  intros Hb Hs. revert order d Hb. induction Hs as [s|s s1 s2 ws ws' H1 _ IH]; intros order d Hb Hv.
  - eauto.
  - destruct (bstep_ok D s s1 ws order d Hb H1 Hv) as (order1 & Hb1 & Hv1).
    rewrite store_app. eauto.
Qed.

(** Referenced buffers at the end of the ring are skipped. *)
Lemma find_skip (bs : list buf) l l' :
  Forall (fun i => refcnt (bs !!! i) <> 0) l ->
  List.find (fun i => refcnt (bs !!! i) =? 0) (rev l ++ l') =
  List.find (fun i => refcnt (bs !!! i) =? 0) l'.
Proof.
  intros H. rewrite (Permutation_rev l) in H. induction (rev l) as [|i r IH]; [done|].
  apply Forall_cons in H as [Hi H]. simpl. rewrite (proj2 (Z.eqb_neq _ _) Hi). by apply IH.
Qed.

(** ** Properties *)

(** C5: after [binit] and any history of cache operations, [bread] of a block
    returns a locked buffer holding the last content written to that block, or the
    disk's original content: the cache implements a store of blocks. *)
Theorem bcache_refines_store D s0 s1 s ws n :
  D <> 0 -> bufs s0 = replicate (S NBUF) buf0 -> binit s0 = Ok (tt, s1) -> bsteps D s1 s ws ->
  available D s n ->
  exists b s', bread D n s = Ok (b, s') /\ held D s' b n /\
    bdata (bufs s' !!! b) = dread (store (dsk s0) ws) n.
Proof.
  intros HD Hz E Hs Hav. destruct (binit_ok D s0 HD Hz) as (s1' & E' & Hb & Hv & _).
  rewrite E in E'. injection E' as <-.
  destruct (bsteps_ok D s1 s ws _ (dsk s0) Hb Hs Hv) as (order & Hb' & Hv').
  destruct (bread_ok D s order n Hb' Hav) as (b & s' & Er & _ & Hh & Hd & _).
  exists b, s'. split; [done|]. split; [done|]. by rewrite Hd, Hv'.
Qed.

(** When a block is not cached, [bget] recycles the least recently used
    buffer without references; when every buffer is referenced it panics. *)
Theorem bget_recycles_lru D s order n :
  bok D s order -> (forall i, ~ is_buf D (bufs s) n i) ->
  (forall l1 b l2, order = l1 ++ b :: l2 -> refcnt (bufs s !!! b) = 0 ->
     Forall (fun i => refcnt (bufs s !!! i) <> 0) l2 -> exists s', bget D n s = Ok (b, s')) /\
  (Forall (fun i => refcnt (bufs s !!! i) <> 0) order -> bget D n s = Panic "bget: no buffers").
Proof.
  intros Hb Hno. pose proof (find_order D s order n Hb) as Ef.
  pose proof (cached_spec D (bufs s) n) as Hc.
  destruct (cached D (bufs s) n) as [i|]; [by destruct (Hno i)|].
  pose proof (find_lru D s order Hb) as El. split.
  - intros l1 b l2 -> Hz Hl2.
    destruct (bget_ok D s (l1 ++ b :: l2) n Hb) as (b' & f & E & _).
    { right. split; [done|]. exists b. split; [|done]. destruct Hb as [Hr _].
      apply (ring_elem _ _ _ Hr). set_solver. }
    assert (Hb' : b' = b); [|subst b'; eauto].
    rewrite rev_app_distr in El. simpl in El. rewrite <- app_assoc in El. simpl in El.
    rewrite find_skip in El by done.
    cbn [List.find] in El. rewrite Hz, Z.eqb_refl in El.
    unfold bget in E. do 2 (erewrite bind_ok in E by reflexivity). rewrite (bind_ok _ _ _ _ _ Ef) in E.
    erewrite bind_ok in E by reflexivity. rewrite (bind_ok _ _ _ _ _ El) in E.
    apply bind_ok_inv in E as (? & ? & _ & E). apply bind_ok_inv in E as (? & ? & _ & E).
    by injection E.
  - intros Hall. unfold bget. do 2 (erewrite bind_ok by reflexivity). rewrite (bind_ok _ _ _ _ _ Ef).
    erewrite bind_ok by reflexivity. rewrite (bind_ok _ _ _ _ _ El).
    rewrite <- (app_nil_r (rev order)), find_skip by done. done.
Qed.

(** ** The theorems at the boot state *)

Definition ex_disk : bst := mkbst (replicate (S NBUF) buf0) 1 {[ 7 := replicate (Z.to_nat BSIZE) 42 ]} [].

Lemma ex_boot_free s : (forall i, (i < NBUF)%nat -> core (bufs s !!! i) = core buf0) ->
  forall n, (forall i, ~ is_buf 1 (bufs s) n i) /\ refcnt (bufs s !!! 0%nat) = 0.
Proof.
  intros H n. split.
  - intros i (Hi & Hd & _). pose proof (f_equal bdev (H i Hi)) as E. simpl in E. lia.
  - exact (f_equal refcnt (H 0%nat ltac:(unfold NBUF; lia))).
Qed.

Lemma bcache_refines_store_witness :
  exists s1, binit ex_disk = Ok (tt, s1) /\
  exists b s', bread 1 7 s1 = Ok (b, s') /\ held 1 s' b 7 /\
    bdata (bufs s' !!! b) = dread (store (dsk ex_disk) []) 7.
Proof.
  destruct (binit_ok 1 ex_disk) as (s1 & E & _ & _ & _ & _ & Hc); [lia|reflexivity|].
  exists s1. split; [exact E|].
  apply (bcache_refines_store 1 ex_disk s1 s1 [] 7); [lia|reflexivity|exact E|apply bsteps_refl|].
  destruct (ex_boot_free s1 Hc 7) as [Hno Hz]. right. split; [exact Hno|]. exists 0%nat. split; [unfold NBUF; lia|exact Hz].
Defined.

Lemma bget_recycles_lru_witness :
  exists s1, binit ex_disk = Ok (tt, s1) /\ exists s', bget 1 7 s1 = Ok (0%nat, s').
Proof.
  destruct (binit_ok 1 ex_disk) as (s1 & E & Hb & _ & _ & _ & Hc); [lia|reflexivity|].
  exists s1. split; [exact E|]. clear E. destruct (ex_boot_free s1 Hc 7) as [Hno Hz].
  apply (proj1 (bget_recycles_lru 1 s1 _ 7 Hb Hno) (rev (seq 1 29)) 0%nat []); [reflexivity|exact Hz|constructor].
Defined.
