(* ===== verification/BioCst.v ===== *)
(** The cache as one process uses it while no other process holds a buffer: the
    blocks [P] pinned by the log and the buffers [H] the process holds determine
    every lock and reference count, and each operation moves between such
    states. *)

From S2P Require Import Prelude Sleeplock Bio BioRing BioSpec.

Section Cst.
Context (D : Z).

Definition pinned (P : list Z) (b : buf) : Z := if decide (bdev b = D /\ blockno b ∈ P) then 1 else 0.
Definition holds (H : list (nat * Z)) (i : nat) : Z := if decide (i ∈ H.*1) then 1 else 0.

Record cst (s : bst) (order : list nat) (P : list Z) (H : list (nat * Z)) : Prop := mkcst {
  cst_ok : bok D s order;
  cst_held : forall b n, (b, n) ∈ H -> held D s b n;
  cst_nodup : NoDup H.*1;
  cst_free : forall i, (i < NBUF)%nat -> i ∉ H.*1 -> sl_locked (block_lock (bufs s !!! i)) = false;
  cst_ref : forall i, (i < NBUF)%nat -> refcnt (bufs s !!! i) = pinned P (bufs s !!! i) + holds H i;
  cst_pin : forall n, n ∈ P -> exists i, is_buf D (bufs s) n i /\ valid (bufs s !!! i) = true;
  cst_nodupP : NoDup P
}.

Lemma pinned_range P b : 0 <= pinned P b <= 1.
Proof. unfold pinned. case_decide; lia. Qed.

Lemma holds_range H i : 0 <= holds H i <= 1.
Proof. unfold holds. case_decide; lia. Qed.

Lemma holds_in H i : i ∈ H.*1 -> holds H i = 1.
Proof. intros. unfold holds. by rewrite decide_True. Qed.

Lemma holds_out H i : i ∉ H.*1 -> holds H i = 0.
Proof. intros. unfold holds. by rewrite decide_False. Qed.

(** A block that is not pinned has its current content on disk or is held. *)
Lemma cst_clean s order P H n :
  cst s order P H -> n ∉ P -> n ∉ H.*2 -> view D s n = dread (dsk s) n.
Proof.
  intros Hc HP HH. destruct (cst_ok _ _ _ _ Hc) as [_ Hok].
  unfold view. pose proof (cached_spec D (bufs s) n) as Hs.
  destruct (cached D (bufs s) n) as [i|]; [|done].
  destruct (valid (bufs s !!! i)) eqn:Ev; [|done].
  pose proof Hs as (Hi & Hd & <-). destruct Hok as (_ & Hb & _).
  destruct (Hb i Hi) as (_ & _ & _ & Hcl). apply Hcl; [done|].
  rewrite (cst_ref _ _ _ _ Hc i Hi). unfold pinned, holds.
  rewrite (decide_False (P := _ /\ _)) by tauto. rewrite decide_False; [lia|].
  intros Hin. apply list_elem_of_fmap in Hin as ([b m] & -> & Hbm). simpl in *.
  destruct (cst_held _ _ _ _ Hc b m Hbm) as [((_ & _ & E) & _) _].
  apply HH. rewrite E. apply list_elem_of_fmap. exists (b, m). done.
Qed.

(** Fewer pins and holds than buffers leave a free one. *)
Lemma cst_free_buf s order P H :
  cst s order P H -> (length P + length H < NBUF)%nat ->
  exists i, (i < NBUF)%nat /\ refcnt (bufs s !!! i) = 0.
Proof.
  intros Hc Hlt. destruct (cst_ok _ _ _ _ Hc) as [_ Hok].
  destruct (List.find (fun i => refcnt (bufs s !!! i) =? 0) (seq 0 NBUF)) as [i|] eqn:E.
  { apply List.find_some in E as [Hi Hz]. apply list_elem_of_In, elem_of_seq in Hi.
    exists i. split; [lia|]. by apply Z.eqb_eq. }
  exfalso. set (g := fun i => if decide (i ∈ H.*1) then inl i else inr (blockno (bufs s !!! i)) : nat + Z).
  assert (Hall : forall i, i ∈ seq 0 NBUF -> (i < NBUF)%nat /\ g i ∈ (inl <$> H.*1) ++ (inr <$> P) /\
    (i ∉ H.*1 -> bdev (bufs s !!! i) = D)).
  { intros i Hi. pose proof (List.find_none _ _ E i (proj1 (list_elem_of_In _ _) Hi)) as Hz.
    apply elem_of_seq in Hi. assert (Hi' : (i < NBUF)%nat) by lia. split; [done|].
    apply Z.eqb_neq in Hz. rewrite (cst_ref _ _ _ _ Hc i Hi') in Hz. unfold g, holds, pinned in *.
    rewrite elem_of_app. destruct (decide (i ∈ H.*1)) as [Hin|Hin].
    { split; [left; by apply list_elem_of_fmap_2|done]. }
    case_decide as Hp; [|lia]. destruct Hp as [Hd Hp]. split; [right; by apply list_elem_of_fmap_2|done]. }
  assert (Hnd : NoDup (g <$> seq 0 NBUF)).
  { apply NoDup_fmap_2_strong; [|apply NoDup_seq]. intros i j Hi Hj.
    destruct (Hall i Hi) as (Hi' & _ & Di), (Hall j Hj) as (Hj' & _ & Dj). unfold g.
    repeat case_decide; intros Eij; simplify_eq; try done. destruct Hok as (_ & _ & Hu). apply Hu; auto. }
  assert (Hsub : (length (g <$> seq 0 NBUF) <= length ((inl <$> H.*1) ++ (inr <$> P) : list (nat + Z)))%nat).
  { apply submseteq_length, NoDup_submseteq; [done|]. intros x Hx.
    apply list_elem_of_fmap in Hx as (i & -> & Hi). by apply Hall. }
  rewrite length_app, !length_fmap, length_seq in Hsub. lia.
Qed.

Lemma cores_field {A} (f : buf -> A) b b' :
  (forall x, f (core x) = f x) -> core b' = core b -> f b' = f b.
Proof. intros Hf E. by rewrite <- (Hf b'), E. Qed.

(** One buffer changes, and only its block is pinned or unpinned. *)
Lemma cst_update s s' order order' P P' H H' b n :
  cst s order P H -> bok D s' order' -> only_buf b s s' -> is_buf D (bufs s') n b ->
  (forall m, m <> n -> m ∈ P' <-> m ∈ P) -> NoDup P' -> NoDup H'.*1 ->
  (forall j, j <> b -> j ∈ H'.*1 <-> j ∈ H.*1) -> (forall c m, (c, m) ∈ H' -> c <> b -> (c, m) ∈ H) ->
  (forall m, (b, m) ∈ H' -> held D s' b m) ->
  (b ∉ H'.*1 -> sl_locked (block_lock (bufs s' !!! b)) = false) ->
  refcnt (bufs s' !!! b) = (if decide (n ∈ P') then 1 else 0) + holds H' b ->
  valid (bufs s' !!! b) = true -> (forall m, m ∈ P -> m <> n -> ~ is_buf D (bufs s) m b) ->
  cst s' order' P' H'.
Proof.
  intros Hc Hok' [Hpid Hcore] Hib HP HndP HndH HH HH' Hbh Hbl Hrc Hv Hother.
  assert (Hf : forall {A} (f : buf -> A) j, (j < NBUF)%nat -> j <> b -> (forall x, f (core x) = f x) ->
    f (bufs s' !!! j) = f (bufs s !!! j)) by (intros; eapply cores_field; eauto).
  assert (Hib' : forall j m, j <> b -> is_buf D (bufs s) m j <-> is_buf D (bufs s') m j).
  { intros j m Hj. unfold is_buf. split; intros (H1 & H2 & H3); (split; [done|]); revert H2 H3;
      rewrite (Hf _ bdev j), (Hf _ blockno j) by done; done. }
  split; [done| |done| | | |done].
  - intros c m Hcm. destruct (decide (c = b)) as [->|Hne]; [by apply Hbh|].
    destruct (cst_held _ _ _ _ Hc c m (HH' _ _ Hcm Hne)) as [(H1 & H2 & H3) H4].
    split; [split; [|split]|].
    + by apply Hib'.
    + rewrite (Hf _ block_lock) by (done || apply H1). by rewrite H2, Hpid.
    + by rewrite (Hf _ refcnt) by (done || apply H1).
    + by rewrite (Hf _ valid) by (done || apply H1).
  - intros i Hi Hin. destruct (decide (i = b)) as [->|Hne]; [by apply Hbl|].
    rewrite (Hf _ block_lock) by done. apply (cst_free _ _ _ _ Hc); [done|]. by rewrite <- HH.
  - intros i Hi. destruct (decide (i = b)) as [->|Hne].
    + rewrite Hrc. destruct Hib as (_ & Hd & Hb). unfold pinned. rewrite Hd, Hb. f_equal.
      repeat case_decide; tauto.
    + rewrite (Hf _ refcnt) by done. rewrite (cst_ref _ _ _ _ Hc i Hi). f_equal.
      * unfold pinned. rewrite (Hf _ bdev), (Hf _ blockno) by done.
        apply decide_ext. split; intros [Hd Hp]; (split; [done|]); apply HP; try done; intros E;
          apply Hne, (is_buf_unique D _ _ n _ _ (proj2 Hok')); try done; apply Hib'; done.
      * unfold holds. apply decide_ext. symmetry. by apply HH.
  - intros m Hm. destruct (decide (m = n)) as [->|Hne]; [by exists b|].
    apply HP in Hm; [|done]. destruct (cst_pin _ _ _ _ Hc m Hm) as (i & Hi & Hvi).
    assert (i <> b) by (intros ->; by apply (Hother m)). exists i. split; [by apply Hib'|].
    by rewrite (Hf _ valid) by (done || apply Hi).
Qed.

(** ** The operations on such states *)

Definition cache (s : bst) (P : list Z) (H : list (nat * Z)) : Prop := exists order, cst s order P H.

Definition same_disk (s s' : bst) : Prop :=
  dsk s' = dsk s /\ dtrace s' = dtrace s /\ bpid s' = bpid s.

Definition same_view (s s' : bst) : Prop := forall m, view D s' m = view D s m.

(** Dropping one held buffer. *)
Definition unhold (b : nat) (H : list (nat * Z)) : list (nat * Z) := filter (fun x => x.1 <> b) H.

Lemma elem_of_unhold b c m H : (c, m) ∈ unhold b H <-> c <> b /\ (c, m) ∈ H.
Proof. unfold unhold. by rewrite list_elem_of_filter. Qed.

Lemma elem_of_unhold_fst b c H : c ∈ (unhold b H).*1 <-> c <> b /\ c ∈ H.*1.
Proof.
  rewrite !list_elem_of_fmap. split.
  - intros ([x y] & -> & [??]%elem_of_unhold). split; [done|]. by exists (x, y).
  - intros (? & [x y] & -> & ?). exists (x, y). split; [done|]. by apply elem_of_unhold.
Qed.

Lemma unhold_nodup b H : NoDup H.*1 -> NoDup (unhold b H).*1.
Proof.
  intros Hn. induction H as [|[c m] H IH]; [done|]. unfold unhold. rewrite filter_cons.
  cbn in Hn. apply NoDup_cons in Hn as [Hc Hn]. specialize (IH Hn). case_decide; [|done].
  cbn. apply NoDup_cons. split; [|done]. intros [_ ?]%elem_of_unhold_fst. done.
Qed.

Lemma unhold_other b H : b ∉ H.*1 -> unhold b H = H.
Proof.
  intros Hb. induction H as [|[c m] H IH]; [done|]. cbn in Hb. apply not_elem_of_cons in Hb as [H1 H2].
  unfold unhold. rewrite filter_cons_True by (cbn; congruence). f_equal. by apply IH.
Qed.

Lemma unhold_cons b n H : b ∉ H.*1 -> unhold b ((b, n) :: H) = H.
Proof. intros Hb. unfold unhold. rewrite filter_cons_False by (cbn; tauto). by apply unhold_other. Qed.

Lemma held_fst b n (H : list (nat * Z)) : (b, n) ∈ H -> b ∈ H.*1.
Proof. intros ?. apply list_elem_of_fmap. by exists (b, n). Qed.

Lemma cache_held s P H b n : cache s P H -> (b, n) ∈ H -> held D s b n.
Proof. intros [order Hc]. apply (cst_held _ _ _ _ Hc). Qed.

Lemma cache_data s P H b n : cache s P H -> (b, n) ∈ H -> bdata (bufs s !!! b) = view D s n.
Proof.
  intros [order Hc] Hin. destruct (cst_held _ _ _ _ Hc b n Hin) as [(Hi & _) Hv].
  rewrite (view_buf D s n b (proj2 (cst_ok _ _ _ _ Hc)) Hi). by rewrite Hv.
Qed.

Lemma cache_clean s P H n : cache s P H -> n ∉ P -> n ∉ H.*2 -> view D s n = dread (dsk s) n.
Proof. intros [order Hc]. by apply (cst_clean s order P H). Qed.

Lemma cst_available s order P H n :
  cst s order P H -> n ∉ H.*2 -> n ∈ P \/ (length P + length H < NBUF)%nat -> available D s n.
Proof.
  intros Hc Hn Hlt. pose proof (cached_spec D (bufs s) n) as Hs.
  destruct (cached D (bufs s) n) as [i|].
  - left. exists i. split; [done|]. destruct Hs as (Hi & Hd & Hb).
    assert (Hin : i ∉ H.*1).
    { intros Hin. apply list_elem_of_fmap in Hin as ([c m] & -> & Hcm).
      destruct (cst_held _ _ _ _ Hc c m Hcm) as [((_ & _ & E) & _) _]. apply Hn, list_elem_of_fmap.
      exists (c, m). split; [cbn in *; congruence|done]. }
    split; [by apply (cst_free _ _ _ _ Hc)|]. rewrite (cst_ref _ _ _ _ Hc i Hi).
    pose proof (pinned_range P (bufs s !!! i)). pose proof (holds_range H i). lia.
  - right. split; [done|]. destruct Hlt as [(i & Hi & _)%(cst_pin _ _ _ _ Hc)|Hlt]; [by destruct (Hs i)|].
    by apply (cst_free_buf s order P H).
Qed.

(** The buffer [bread] returns was the block's own or free. *)
Lemma bread_source s s' order' n b :
  bok D s' order' -> is_buf D (bufs s') n b -> only_buf b s s' ->
  (cached D (bufs s) n = None -> refcnt (bufs s !!! b) = 0) ->
  is_buf D (bufs s) n b \/ cached D (bufs s) n = None /\ refcnt (bufs s !!! b) = 0.
Proof.
  intros Hb Hib Ho Hnone. pose proof (cached_spec D (bufs s) n) as Hs.
  destruct (cached D (bufs s) n) as [i|] eqn:Ec; [|by right; split; [|apply Hnone]].
  destruct (decide (i = b)) as [->|Hne]; [by left|]. exfalso.
  apply Hne, (is_buf_unique D (bufs s') (dsk s') n _ _ (proj2 Hb)); [|done]. destruct Hs as (Hi1 & Hi2 & Hi3).
  pose proof (proj2 Ho i Hi1 Hne) as Hco. split; [done|].
  by rewrite (cores_field bdev _ _ (fun _ => eq_refl) Hco), (cores_field blockno _ _ (fun _ => eq_refl) Hco).
Qed.

Lemma cache_bread s P H n :
  cache s P H -> n ∉ H.*2 -> n ∈ P \/ (length P + length H < NBUF)%nat ->
  exists b s', bread D n s = Ok (b, s') /\ b ∉ H.*1 /\ cache s' P ((b, n) :: H) /\
    same_view s s' /\ same_disk s s'.
Proof.
  intros [order Hc] Hn Hlt.
  destruct (bread_ok D s order n (cst_ok _ _ _ _ Hc) (cst_available _ _ _ _ _ Hc Hn Hlt))
    as (b & s' & E & Hb & Hh & Hd & Hv & Ho & H1 & H2 & Hr & Hnone).
  pose proof Hh as [(Hib & Hl & Hr1) Hval]. pose proof Hib as (Hbn & _).
  pose proof (bread_source _ _ _ _ _ Hb Hib Ho Hnone) as Hsrc.
  assert (HbH : b ∉ H.*1).
  { intros Hin. apply list_elem_of_fmap in Hin as ([c m] & -> & Hcm). cbn [fst] in *.
    destruct (cst_held _ _ _ _ Hc c m Hcm) as [((_ & _ & Hi) & Hlk & Hrc) _].
    destruct Hsrc as [(_ & _ & Hs)|[_ Hs]]; [|lia]. apply Hn, list_elem_of_fmap. exists (c, m).
    split; [cbn; congruence|done]. }
  pose proof (cst_ref _ _ _ _ Hc b Hbn) as Hrf.
  assert (Hh0 : holds H b = 0) by (by apply holds_out).
  assert (HbP : forall m, m ∈ P -> m <> n -> ~ is_buf D (bufs s) m b).
  { intros m Hm Hmn (_ & Hd1 & Hb1). unfold pinned in Hrf. rewrite decide_True in Hrf by (split; [done|by rewrite Hb1]).
    destruct Hsrc as [(_ & _ & Hs)|[_ Hs]]; [congruence|lia]. }
  assert (Hpin : pinned P (bufs s !!! b) = if decide (n ∈ P) then 1 else 0).
  { destruct Hsrc as [(_ & Hs1 & Hs2)|[Hs1 Hs2]].
    - unfold pinned. rewrite Hs1, Hs2. repeat case_decide; tauto.
    - rewrite decide_False; [pose proof (pinned_range P (bufs s !!! b)); lia|].
      intros (i & Hi & _)%(cst_pin _ _ _ _ Hc). pose proof (cached_spec D (bufs s) n) as Hs'.
      rewrite Hs1 in Hs'. by apply (Hs' i). }
  exists b, s'. split; [done|]. split; [done|]. split; [|split; [done|split; [done|split; [done|apply Ho]]]].
  exists order. apply (cst_update s s' order order P P H _ b n); try done.
  - apply (cst_nodupP _ _ _ _ Hc).
  - cbn. apply NoDup_cons. split; [done|apply (cst_nodup _ _ _ _ Hc)].
  - intros j Hj. cbn. rewrite elem_of_cons. tauto.
  - intros c m [[= -> ->]|]%elem_of_cons Hne; done.
  - intros m [[= ->]|Hm]%elem_of_cons; [done|]. destruct HbH. by apply (held_fst b m).
  - intros Hin. destruct Hin. cbn. apply elem_of_cons. by left.
  - rewrite (holds_in ((b, n) :: H)) by (cbn; apply elem_of_cons; by left). lia.
Qed.

(** The facts about a held buffer the other rules need. *)
Lemma cst_at s order P H b n :
  cst s order P H -> (b, n) ∈ H ->
  held D s b n /\ is_buf D (bufs s) n b /\ (b < NBUF)%nat /\ b ∈ H.*1 /\
  refcnt (bufs s !!! b) = (if decide (n ∈ P) then 1 else 0) + 1 /\
  (forall m, m ∈ P -> m <> n -> ~ is_buf D (bufs s) m b) /\ (forall m, (b, m) ∈ H -> m = n).
Proof.
  intros Hc Hin. pose proof (cst_held _ _ _ _ Hc b n Hin) as Hh.
  pose proof Hh as [(Hib & _) _]. pose proof Hib as (Hbn & Hd & Hb).
  split; [done|]. split; [done|]. split; [done|]. split; [by apply (held_fst b n)|]. split; [|split].
  - rewrite (cst_ref _ _ _ _ Hc b Hbn), holds_in by (by apply (held_fst b n)). f_equal.
    unfold pinned. rewrite Hd, Hb. repeat case_decide; tauto.
  - intros m _ Hmn (_ & _ & E). congruence.
  - intros m Hm. destruct (cst_held _ _ _ _ Hc b m Hm) as [((_ & _ & E) & _) _]. congruence.
Qed.

(** Writing into, writing out, pinning and unpinning a held buffer. *)
Lemma cst_same_held s s' order order' P P' H b n :
  cst s order P H -> (b, n) ∈ H -> bok D s' order' -> only_buf b s s' ->
  core (bufs s' !!! b) = core (set_data (bdata (bufs s' !!! b)) (set_refcnt (refcnt (bufs s' !!! b)) (bufs s !!! b))) ->
  refcnt (bufs s' !!! b) = (if decide (n ∈ P') then 1 else 0) + 1 ->
  (forall m, m <> n -> m ∈ P' <-> m ∈ P) -> NoDup P' -> cst s' order' P' H.
Proof.
  intros Hc Hin Hb Ho Hco Hr HP HndP.
  destruct (cst_at _ _ _ _ _ _ Hc Hin) as ([(Hib & Hl & Hr1) Hv] & _ & Hbn & HbH & _ & HP' & Hu).
  assert (Hib' : is_buf D (bufs s') n b).
  { destruct Hib as (? & ? & ?). split; [done|].
    by rewrite (cores_field bdev _ _ (fun _ => eq_refl) Hco), (cores_field blockno _ _ (fun _ => eq_refl) Hco). }
  pose proof (cores_field valid _ _ (fun _ => eq_refl) Hco) as Hv'. simpl in Hv'. rewrite Hv in Hv'.
  pose proof (cores_field block_lock _ _ (fun _ => eq_refl) Hco) as Hl'. simpl in Hl'. rewrite Hl in Hl'.
  apply (cst_update s s' order order' P P' H H b n); try done.
  - apply (cst_nodup _ _ _ _ Hc).
  - intros m ->%Hu. split; [|done]. split; [done|]. split; [by rewrite Hl', (proj1 Ho)|].
    rewrite Hr. case_decide; lia.
  - by rewrite holds_in.
Qed.

Lemma cache_set_data s P H b n d :
  cache s P H -> (b, n) ∈ H ->
  exists s', updb b (set_data d) s = Ok (tt, s') /\ cache s' P H /\
    (forall m, view D s' m = if decide (m = n) then d else view D s m) /\ same_disk s s'.
Proof.
  intros [order Hc] Hin. destruct (cst_at _ _ _ _ _ _ Hc Hin) as (Hh & _ & Hbn & _ & Hr & _).
  destruct (set_data_ok D s order b n d (cst_ok _ _ _ _ Hc) Hh) as (E & Hb & Hh' & Hv & Ho & Hbb).
  eexists. split; [exact E|]. split; [|split; [done|done]]. exists order.
  apply (cst_same_held s _ order order P P H b n); try done; [by rewrite Hbb|by rewrite Hbb|].
  apply (cst_nodupP _ _ _ _ Hc).
Qed.

Lemma cache_bwrite s P H b n :
  cache s P H -> (b, n) ∈ H ->
  exists s', bwrite b s = Ok (tt, s') /\ cache s' P H /\ same_view s s' /\ bpid s' = bpid s /\
    dsk s' = <[n := view D s n]> (dsk s) /\ dtrace s' = dtrace s ++ [(n, view D s n)].
Proof.
  intros HC Hin. pose proof (cache_data _ _ _ _ _ HC Hin) as Hdata. destruct HC as [order Hc].
  destruct (cst_at _ _ _ _ _ _ Hc Hin) as (Hh & _ & Hbn & _ & Hr & _).
  destruct (bwrite_ok D s order b n (cst_ok _ _ _ _ Hc) Hh) as (E & Hb & Hv). rewrite Hdata in *.
  eexists. split; [exact E|]. split; [|done]. exists order.
  apply (cst_same_held s _ order order P P H b n); try done. apply (cst_nodupP _ _ _ _ Hc).
Qed.

Lemma cache_bpin s P H b n :
  cache s P H -> (b, n) ∈ H -> n ∉ P ->
  exists s', bpin b s = Ok (tt, s') /\ cache s' (P ++ [n]) H /\ same_view s s' /\ same_disk s s'.
Proof.
  intros [order Hc] Hin HnP. destruct (cst_at _ _ _ _ _ _ Hc Hin) as (Hh & _ & Hbn & _ & Hr & _).
  rewrite decide_False in Hr by done.
  destruct (bpin_ok D s order b (cst_ok _ _ _ _ Hc) Hbn) as (E & Hb & Hv & Hbb & Ho); [lia|].
  eexists. split; [exact E|]. split; [|done]. exists order.
  apply (cst_same_held s _ order order P _ H b n); try done; [by rewrite Hbb|..].
  - rewrite Hbb. simpl. rewrite Hr, decide_True by set_solver. done.
  - set_solver.
  - apply NoDup_app. split; [apply (cst_nodupP _ _ _ _ Hc)|]. split; [set_solver|apply NoDup_singleton].
Qed.

Lemma cache_bunpin s P Q H b n :
  cache s (P ++ n :: Q) H -> (b, n) ∈ H ->
  exists s', bunpin b s = Ok (tt, s') /\ cache s' (P ++ Q) H /\ same_view s s' /\ same_disk s s'.
Proof.
  intros [order Hc] Hin. destruct (cst_at _ _ _ _ _ _ Hc Hin) as (Hh & _ & Hbn & _ & Hr & _).
  pose proof (cst_nodupP _ _ _ _ Hc) as Hnd. rewrite decide_True in Hr by set_solver.
  destruct (bunpin_ok D s order b (cst_ok _ _ _ _ Hc) Hbn) as (s' & E & Hb & Hv & Hbb & Ho & H1 & H2); [lia..|].
  exists s'. split; [exact E|]. split; [|split; [done|split; [done|split; [done|apply Ho]]]]. exists order.
  apply NoDup_app in Hnd as (Hn1 & Hn2 & [Hn3 Hn4]%NoDup_cons).
  assert (HnP : n ∉ P ++ Q) by set_solver.
  apply (cst_same_held s _ order order (P ++ n :: Q) _ H b n); try done; [by rewrite Hbb|..].
  - rewrite Hbb. simpl. rewrite Hr, decide_False by done. done.
  - set_solver.
  - apply NoDup_app. split; [done|]. split; [set_solver|done].
Qed.

(** A buffer is released when its block is pinned or clean. *)
Lemma cache_brelse s P H b n :
  cache s P H -> (b, n) ∈ H -> (n ∉ P -> view D s n = dread (dsk s) n) ->
  exists s', brelse b s = Ok (tt, s') /\ cache s' P (unhold b H) /\ same_view s s' /\ same_disk s s'.
Proof.
  intros HC Hin Hcl. pose proof (cache_data _ _ _ _ _ HC Hin) as Hdata. destruct HC as [order Hc].
  destruct (cst_at _ _ _ _ _ _ Hc Hin) as (Hh & Hib & Hbn & HbH & Hr & HbP & Hu).
  destruct (brelse_ok D s order b n (cst_ok _ _ _ _ Hc) Hh)
    as (s' & order' & E & Hb & Hv & Ho & H1 & H2 & Hco & _).
  { intros Hone. rewrite Hdata. apply Hcl. intros HnP. rewrite decide_True in Hr by done. lia. }
  exists s'. split; [done|]. split; [|split; [done|split; [done|split; [done|apply Ho]]]]. exists order'.
  apply (cst_update s s' order order' P P H _ b n); try done.
  - destruct Hib as (? & ? & ?). split; [done|].
    by rewrite (cores_field bdev _ _ (fun _ => eq_refl) Hco), (cores_field blockno _ _ (fun _ => eq_refl) Hco).
  - apply (cst_nodupP _ _ _ _ Hc).
  - apply unhold_nodup, (cst_nodup _ _ _ _ Hc).
  - intros j Hj. rewrite elem_of_unhold_fst. tauto.
  - intros c m Hcm _. by apply elem_of_unhold in Hcm as [_ ?].
  - intros m [? _]%elem_of_unhold. done.
  - intros _. by rewrite (cores_field block_lock _ _ (fun _ => eq_refl) Hco).
  - rewrite (cores_field refcnt _ _ (fun _ => eq_refl) Hco). simpl.
    rewrite Hr, holds_out by (intros [? _]%elem_of_unhold_fst; done). lia.
  - rewrite (cores_field valid _ _ (fun _ => eq_refl) Hco). apply Hh.
Qed.

Lemma cache_binit s :
  D <> 0 -> bufs s = replicate (S NBUF) buf0 ->
  exists s', binit s = Ok (tt, s') /\ cache s' [] [] /\ dsk s' = dsk s /\ bpid s' = bpid s.
Proof.
  intros HD Hs. destruct (binit_ok D s HD Hs) as (s' & E & Hb & _ & H1 & H2 & Hco).
  exists s'. split; [exact E|]. clear E Hs. split; [|split; [exact H1|exact H2]]. exists (rev (seq 0 NBUF)).
  split; [exact Hb|set_solver|apply NoDup_nil_2| | |set_solver|apply NoDup_nil_2].
  - intros i Hi _. by rewrite (cores_field block_lock _ _ (fun _ => eq_refl) (Hco i Hi)).
  - intros i Hi. rewrite (cores_field refcnt _ _ (fun _ => eq_refl) (Hco i Hi)). unfold pinned, holds.
    rewrite !decide_False by set_solver. done.
Qed.
End Cst.
