(* ===== verification/Virtio.v ===== *)
(** kernel/virtio_disk.c: the driver of the virtio disk.  Threads call
    [virtio_disk_rw], the interrupt handler runs on any CPU, and the device reads and
    writes the shared queue at any time: a thread, the handler and the device take
    turns at the granularity of the driver's accesses to what the device can see.  A
    physical address in a descriptor names the object it is the address of. *)

From S2P Require Import Prelude Bio.

Definition NUM : nat := 8.
Definition VRING_DESC_F_NEXT : Z := 1.
Definition VRING_DESC_F_WRITE : Z := 2.
Definition VIRTIO_BLK_T_IN : Z := 0.
Definition VIRTIO_BLK_T_OUT : Z := 1.

(** What a descriptor can point to: [&disk.ops[i]], [b->data], [&disk.info[i].status]. *)
Inductive paddr := Pnull | Pop (i : nat) | Pdata (b : nat) | Pstatus (i : nat).

Record virtq_desc := mkdesc { d_addr : paddr; d_len : Z; d_flags : Z; d_next : nat }.
Record virtio_blk_req := mkreq { r_type : Z; r_reserved : Z; r_sector : Z }.
Record vinfo := mkinfo { i_b : option nat; i_status : Z }.

Definition desc0 : virtq_desc := mkdesc Pnull 0 0 0.
#[export] Instance desc_inhabited : Inhabited virtq_desc := populate desc0.
#[export] Instance req_inhabited : Inhabited virtio_blk_req := populate (mkreq 0 0 0).
#[export] Instance info_inhabited : Inhabited vinfo := populate (mkinfo None 0).

(** The pages shared with the device: descriptors, the ring and index of [avail], the
    ids and index of [used]. *)
Record vqueue := mkq { q_desc : list virtq_desc; q_avail : list nat; q_aidx : Z; q_used : list nat; q_uidx : Z }.

(** The driver's own fields of [struct disk], without the lock. *)
Record vdrv := mkdrv { v_free : list bool; v_used_idx : Z; v_info : list vinfo; v_ops : list virtio_blk_req }.

(** The fields of [struct buf] the driver uses. *)
Record vbuf := mkvbuf { vb_blockno : Z; vb_disk : bool; vb_data : list Z }.
#[export] Instance vbuf_inhabited : Inhabited vbuf := populate (mkvbuf 0 false []).

(** A call of [virtio_disk_rw]; [c_data] and [c_block] are the buffer and the block of
    the disk at the time of the call, which no code reads. *)
Record call := mkcall { c_b : nat; c_write : bool; c_data : list Z; c_block : list Z }.

(** Where a thread is in [virtio_disk_rw]: about to allocate, asleep on
    [&disk.free[0]], before line 226, 260 and 270 with its three descriptors, asleep on
    its buffer; [Returned] when it is done.  The flag of a sleeper says that it was
    woken. *)
Inductive pc :=
| Alloc
| AllocSleep (woken : bool)
| Format (i0 i1 i2 : nat)
| Publish (i0 i1 i2 : nat)
| Wait (i0 i1 i2 : nat)
| Asleep (i0 i1 i2 : nat) (woken : bool)
| Returned.

#[export] Instance pc_eq_dec : EqDecision pc.
Proof. solve_decision. Defined.

(** Who holds [vdisk_lock] *)
Inductive holder := Nobody | Thread (t : nat) | Handler.

(** The state of the device: how far it read the [avail] ring, and the requests it
    works on.  The disk is made of sectors of 512 bytes. *)
Record vdev := mkdev { dv_last : Z; dv_pend : list nat; dv_sect : Z -> list Z }.

Record vst := mkvst {
  v_q : vqueue; v_d : vdrv; v_bufs : gmap nat vbuf; v_thr : gmap nat (call * pc); v_lock : holder; v_dev : vdev;
  v_mmio : list (Z * Z)
}.

Definition set_q (f : vqueue -> vqueue) (s : vst) : vst := mkvst (f (v_q s)) (v_d s) (v_bufs s) (v_thr s) (v_lock s) (v_dev s) (v_mmio s).
Definition set_d (f : vdrv -> vdrv) (s : vst) : vst := mkvst (v_q s) (f (v_d s)) (v_bufs s) (v_thr s) (v_lock s) (v_dev s) (v_mmio s).
Definition set_bufs (f : gmap nat vbuf -> gmap nat vbuf) (s : vst) : vst := mkvst (v_q s) (v_d s) (f (v_bufs s)) (v_thr s) (v_lock s) (v_dev s) (v_mmio s).
Definition set_thr (f : gmap nat (call * pc) -> gmap nat (call * pc)) (s : vst) : vst := mkvst (v_q s) (v_d s) (v_bufs s) (f (v_thr s)) (v_lock s) (v_dev s) (v_mmio s).
Definition set_lock (h : holder) (s : vst) : vst := mkvst (v_q s) (v_d s) (v_bufs s) (v_thr s) h (v_dev s) (v_mmio s).
Definition set_dev (f : vdev -> vdev) (s : vst) : vst := mkvst (v_q s) (v_d s) (v_bufs s) (v_thr s) (v_lock s) (f (v_dev s)) (v_mmio s).
(** [*R(r) = v] *)
Definition set_reg (r v : Z) (s : vst) : vst := mkvst (v_q s) (v_d s) (v_bufs s) (v_thr s) (v_lock s) (v_dev s) (v_mmio s ++ [(r, v)]).

Notation V := (M vst).

Definition set_desc (i : nat) (d : virtq_desc) : vst -> vst := set_q (fun q => mkq (<[i := d]> (q_desc q)) (q_avail q) (q_aidx q) (q_used q) (q_uidx q)).
Definition set_free (i : nat) (b : bool) : vst -> vst := set_d (fun d => mkdrv (<[i := b]> (v_free d)) (v_used_idx d) (v_info d) (v_ops d)).
Definition set_info (i : nat) (f : vinfo -> vinfo) : vst -> vst := set_d (fun d => mkdrv (v_free d) (v_used_idx d) (alter f i (v_info d)) (v_ops d)).
Definition set_op (i : nat) (r : virtio_blk_req) : vst -> vst := set_d (fun d => mkdrv (v_free d) (v_used_idx d) (v_info d) (<[i := r]> (v_ops d))).
Definition set_vdisk (b : nat) (x : bool) : vst -> vst := set_bufs (alter (fun v => mkvbuf (vb_blockno v) x (vb_data v)) b).
Definition set_pc (t : nat) (p : pc) : vst -> vst := set_thr (alter (fun cp => (cp.1, p)) t).

(** [wakeup] on [&disk.free[0]] and on a buffer *)
Inductive vchan := Cfree | Cbuf (b : nat).
Definition woken_by (ch : vchan) (cp : call * pc) : call * pc :=
  match ch, cp.2 with
  | Cfree, AllocSleep _ => (cp.1, AllocSleep true)
  | Cbuf b, Asleep i0 i1 i2 w => if decide (c_b cp.1 = b) then (cp.1, Asleep i0 i1 i2 true) else cp
  | _, _ => cp
  end.
Definition vwakeup (ch : vchan) : V unit := modify (set_thr (fmap (woken_by ch))).

(** find a free descriptor, mark it non-free, return its index ([None] is -1) *)
Fixpoint alloc_loop (n i : nat) : V (option nat) :=
  match n with
  | O => ret None
  | S n' =>
      fr <- gets (fun s => v_free (v_d s) !!! i) ;;
      if fr : bool then modify (set_free i false) ;;; ret (Some i) else alloc_loop n' (S i)
  end.
Definition alloc_desc : V (option nat) := alloc_loop NUM 0.

Definition free_desc (i : nat) : V unit :=
  if (NUM <=? i)%nat then panic "free_desc 1" else
  fr <- gets (fun s => v_free (v_d s) !!! i) ;;
  if fr : bool then panic "free_desc 2" else
  modify (set_desc i desc0) ;;;
  modify (set_free i true) ;;;
  vwakeup Cfree.

Fixpoint free_chain (fuel : nat) (i : nat) : V unit :=
  match fuel with
  | O => nofuel
  | S f =>
      d <- gets (fun s => q_desc (v_q s) !!! i) ;;
      free_desc i ;;;
      if Z.land (d_flags d) VRING_DESC_F_NEXT =? 0 then ret tt else free_chain f (d_next d)
  end.

(** The [j] loop of [alloc3_desc] *)
Fixpoint free_descs (l : list nat) : V unit :=
  match l with
  | [] => ret tt
  | i :: l' => free_desc i ;;; free_descs l'
  end.

(** The [i] loop with [n] turns to go; [idx] is what it has so far. *)
Fixpoint alloc3_loop (n : nat) (idx : list nat) : V (option (list nat)) :=
  match n with
  | O => ret (Some idx)
  | S n' =>
      r <- alloc_desc ;;
      match r with
      | None => free_descs idx ;;; ret None
      | Some i => alloc3_loop n' (idx ++ [i])
      end
  end.
Definition alloc3_desc : V (option (list nat)) := alloc3_loop 3 [].

(** ** [virtio_disk_rw], cut where the device or another thread can come in between *)

Definition release : V unit := modify (set_lock Nobody).

(** lines 217-222: one turn of the allocation loop *)
Definition rw_alloc (t : nat) : V unit :=
  r <- alloc3_desc ;;
  match r with
  | Some [i0; i1; i2] => modify (set_pc t (Format i0 i1 i2))
  | _ => modify (set_pc t (AllocSleep false)) ;;; release
  end.

(** lines 226-258, with the sector of line 206 *)
Definition rw_format (t : nat) (c : call) (i0 i1 i2 : nat) : V unit :=
  bn <- gets (fun s => vb_blockno (v_bufs s !!! c_b c)) ;;
  let sector := u32 (bn * (BSIZE / 512)) in
  modify (set_op i0 (mkreq (if c_write c then VIRTIO_BLK_T_OUT else VIRTIO_BLK_T_IN) 0 sector)) ;;;
  modify (set_desc i0 (mkdesc (Pop i0) 16 VRING_DESC_F_NEXT i1)) ;;;
  modify (set_desc i1 (mkdesc (Pdata (c_b c)) BSIZE (if c_write c then VRING_DESC_F_NEXT else Z.lor VRING_DESC_F_NEXT VRING_DESC_F_WRITE) i2)) ;;;
  modify (set_info i0 (fun i => mkinfo (i_b i) 0xff)) ;;;
  modify (set_desc i2 (mkdesc (Pstatus i0) 1 VRING_DESC_F_WRITE 0)) ;;;
  modify (set_vdisk (c_b c) true) ;;;
  modify (set_info i0 (fun i => mkinfo (Some (c_b c)) (i_status i))) ;;;
  modify (set_q (fun q => mkq (q_desc q) (<[Z.to_nat (q_aidx q mod Z.of_nat NUM) := i0]> (q_avail q)) (q_aidx q) (q_used q) (q_uidx q))) ;;;
  modify (set_pc t (Publish i0 i1 i2)).

(** lines 260-267: the index, and the notification of the device *)
Definition rw_publish (t i0 i1 i2 : nat) : V unit :=
  modify (set_q (fun q => mkq (q_desc q) (q_avail q) (u16 (q_aidx q + 1)) (q_used q) (q_uidx q))) ;;;
  modify (set_reg 0x050 0) ;;;
  modify (set_pc t (Wait i0 i1 i2)).

(** lines 270-277: the test of the loop, and what follows it *)
Definition rw_wait (t : nat) (c : call) (i0 i1 i2 : nat) : V unit :=
  busy <- gets (fun s => vb_disk (v_bufs s !!! c_b c)) ;;
  if busy : bool then modify (set_pc t (Asleep i0 i1 i2 false)) ;;; release
  else
    modify (set_pc t Returned) ;;;
    modify (set_info i0 (fun i => mkinfo None (i_status i))) ;;;
    free_chain NUM i0 ;;;
    release.

(** What the thread that holds the lock does next. *)
Definition rw_step (t : nat) : V unit :=
  o <- gets (fun s => v_thr s !! t) ;;
  match o with
  | Some (_, Alloc) => rw_alloc t
  | Some (c, Format i0 i1 i2) => rw_format t c i0 i1 i2
  | Some (_, Publish i0 i1 i2) => rw_publish t i0 i1 i2
  | Some (c, Wait i0 i1 i2) => rw_wait t c i0 i1 i2
  | _ => ret tt
  end.

(** A woken thread takes the lock again. *)
Definition rw_resume (t : nat) : V unit :=
  o <- gets (fun s => v_thr s !! t) ;;
  match o with
  | Some (_, AllocSleep true) => modify (set_lock (Thread t)) ;;; modify (set_pc t Alloc)
  | Some (_, Asleep i0 i1 i2 true) => modify (set_lock (Thread t)) ;;; modify (set_pc t (Wait i0 i1 i2))
  | _ => ret tt
  end.

(** ** [virtio_disk_intr] *)

(** lines 283-293; [st] is what the status register reads *)
Definition intr_enter (st : Z) : V unit :=
  modify (set_lock Handler) ;;;
  modify (set_reg 0x064 (Z.land st 3)).

(** lines 298-312: the test of the loop, and one turn or the end *)
Definition intr_step : V unit :=
  d <- gets v_d ;;
  q <- gets v_q ;;
  if v_used_idx d =? q_uidx q then release
  else
    let id := q_used q !!! Z.to_nat (v_used_idx d mod Z.of_nat NUM) in
    if negb (i_status (v_info d !!! id) =? 0) then panic "virtio_disk_intr status"
    else
      match i_b (v_info d !!! id) with
      | None => panic "virtio_disk_intr: null pointer"
      | Some b =>
          modify (set_vdisk b false) ;;;
          vwakeup (Cbuf b) ;;;
          modify (set_d (fun d => mkdrv (v_free d) (u16 (v_used_idx d + 1)) (v_info d) (v_ops d)))
      end.

(** ** [virtio_disk_init]

    [reg] is what the registers of the device read, [pages] the address of
    [disk.pages]. *)
Definition clear_bit (k x : Z) : Z := Z.land x (Z.lnot (Z.shiftl 1 k)).
Definition virtio_disk_init (reg : Z -> Z) (pages : Z) : V unit :=
  if negb (reg 0x000 =? 0x74726976) || negb (reg 0x004 =? 1) || negb (reg 0x008 =? 2) || negb (reg 0x00c =? 0x554d4551)
  then panic "could not find virtio disk" else
  modify (set_reg 0x070 1) ;;;
  modify (set_reg 0x070 3) ;;;
  let features := clear_bit 28 (clear_bit 29 (clear_bit 27 (clear_bit 12 (clear_bit 11 (clear_bit 7 (clear_bit 5 (reg 0x010))))))) in
  modify (set_reg 0x010 (u32 features)) ;;;
  modify (set_reg 0x070 11) ;;;
  modify (set_reg 0x070 15) ;;;
  modify (set_reg 0x028 4096) ;;;
  modify (set_reg 0x030 0) ;;;
  let max := reg 0x034 in
  if (max =? 0) || (max <? Z.of_nat NUM) then panic "virtio disk max queue too short" else
  modify (set_reg 0x038 (Z.of_nat NUM)) ;;;
  modify (set_q (fun _ => mkq (replicate NUM desc0) (replicate NUM 0%nat) 0 (replicate NUM 0%nat) 0)) ;;;
  modify (set_reg 0x040 (u32 (Z.shiftr pages 12))) ;;;
  modify (set_d (fun d => mkdrv (replicate NUM true) (v_used_idx d) (v_info d) (v_ops d))).

(** ** The device, as the virtio specification describes it *)

Fixpoint read_sectors (n : nat) (k : Z) (m : Z -> list Z) : list Z :=
  match n with
  | O => []
  | S n' => m k ++ read_sectors n' (k + 1) m
  end.
Fixpoint write_sectors (n : nat) (k : Z) (data : list Z) (m : Z -> list Z) : Z -> list Z :=
  match n with
  | O => m
  | S n' => write_sectors n' (k + 1) (drop 512 data) (fun j => if j =? k then take 512 data else m j)
  end.

(** The device takes the next chain from the [avail] ring. *)
Definition dev_fetch (s : vst) : vst :=
  set_dev (fun d => mkdev (u16 (dv_last d + 1)) (dv_pend d ++ [q_avail (v_q s) !!! Z.to_nat (dv_last d mod Z.of_nat NUM)]) (dv_sect d)) s.

(** It writes the status byte, and reports the chain in the [used] ring. *)
Definition dev_report (head i : nat) (s : vst) : vst :=
  set_dev (fun d => mkdev (dv_last d) (filter (fun h => h <> head) (dv_pend d)) (dv_sect d))
    (set_q (fun q => mkq (q_desc q) (q_avail q) (q_aidx q) (<[Z.to_nat (q_uidx q mod Z.of_nat NUM) := head]> (q_used q)) (u16 (q_uidx q + 1)))
       (set_info i (fun x => mkinfo (i_b x) 0) s)).

(** It serves the chain at [head]; [None] when that is not a block request. *)
Definition dev_serve (head : nat) (s : vst) : option vst :=
  let q := v_q s in
  let d0 := q_desc q !!! head in
  let d1 := q_desc q !!! d_next d0 in
  let d2 := q_desc q !!! d_next d1 in
  match d_addr d0, d_addr d1, d_addr d2 with
  | Pop o, Pdata b, Pstatus i =>
      let r := v_ops (v_d s) !!! o in
      let n := Z.to_nat (d_len d1 / 512) in
      if negb ((d_flags d0 =? VRING_DESC_F_NEXT) && (d_len d0 =? 16) && (d_flags d2 =? VRING_DESC_F_WRITE) && (d_len d2 =? 1) && (d_len d1 mod 512 =? 0)) then None
      else if (r_type r =? VIRTIO_BLK_T_IN) && (d_flags d1 =? Z.lor VRING_DESC_F_NEXT VRING_DESC_F_WRITE) then
        Some (dev_report head i (set_bufs (alter (fun v => mkvbuf (vb_blockno v) (vb_disk v) (read_sectors n (r_sector r) (dv_sect (v_dev s)))) b) s))
      else if (r_type r =? VIRTIO_BLK_T_OUT) && (d_flags d1 =? VRING_DESC_F_NEXT) then
        Some (dev_report head i (set_dev (fun d => mkdev (dv_last d) (dv_pend d) (write_sectors n (r_sector r) (vb_data (v_bufs s !!! b)) (dv_sect d))) s))
      else None
  | _, _, _ => None
  end.

(** What a device may do: take the next request, serve any request it has in full, and
    anything at all once it has a chain that is not a block request. *)
Inductive virtio_spec (s : vst) : vst -> Prop :=
| dv_fetch : dv_last (v_dev s) <> q_aidx (v_q s) -> virtio_spec s (dev_fetch s)
| dv_serve head s' : head ∈ dv_pend (v_dev s) -> dev_serve head s = Some s' -> virtio_spec s s'
| dv_broken head s' : head ∈ dv_pend (v_dev s) -> dev_serve head s = None -> virtio_spec s s'.

(** ** Threads, interrupts and device together *)

Definition blockno (s : vst) (b : nat) : Z := vb_blockno (v_bufs s !!! b).
(** The block of the disk that buffer [b] is for *)
Definition block_of (s : vst) (b : nat) : list Z := read_sectors 2 (2 * blockno s b) (dv_sect (v_dev s)).

(** A buffer whose block is on a disk of less than 2^40 bytes *)
Definition buf_ok (v : vbuf) : Prop := 0 <= vb_blockno v < 2 ^ 30 /\ length (vb_data v) = Z.to_nat BSIZE.

(** No call on buffer [b], or on another buffer of its block, is under way: the lock of
    the buffer and the buffer cache see to that. *)
Definition idle (s : vst) (b : nat) (bn : Z) : Prop :=
  forall t c p, v_thr s !! t = Some (c, p) -> p <> Returned -> c_b c <> b /\ blockno s (c_b c) <> bn.

Definition can_start (s : vst) (t : nat) : Prop := match v_thr s !! t with None | Some (_, Returned) => True | _ => False end.
Definition can_resume (s : vst) (t : nat) : Prop := match v_thr s !! t with Some (_, AllocSleep true) | Some (_, Asleep _ _ _ true) => True | _ => False end.

(** The entry of [virtio_disk_rw] *)
Definition rw_enter (t b : nat) (write : bool) (s : vst) : vst :=
  set_lock (Thread t) (set_thr (<[t := (mkcall b write (vb_data (v_bufs s !!! b)) (block_of s b), Alloc)]>) s).

Section steps.
Context (device : vst -> vst -> Prop).

Inductive vstep (s : vst) : vst -> Prop :=
| vs_buf b v : idle s b (vb_blockno v) -> buf_ok v -> vstep s (set_bufs (<[b := v]>) s)
| vs_call t b w v : v_lock s = Nobody -> can_start s t -> v_bufs s !! b = Some v -> idle s b (vb_blockno v) -> vstep s (rw_enter t b w s)
| vs_run t s' : v_lock s = Thread t -> rw_step t s = Ok (tt, s') -> vstep s s'
| vs_resume t s' : v_lock s = Nobody -> can_resume s t -> rw_resume t s = Ok (tt, s') -> vstep s s'
| vs_irq st s' : v_lock s = Nobody -> intr_enter st s = Ok (tt, s') -> vstep s s'
| vs_intr s' : v_lock s = Handler -> intr_step s = Ok (tt, s') -> vstep s s'
| vs_dev s' : device s s' -> vstep s s'.
End steps.

(** Before [virtio_disk_init] the driver's memory is zero. *)
Definition boot (sect : Z -> list Z) : vst :=
  mkvst (mkq [] [] 0 [] 0) (mkdrv (replicate NUM false) 0 (replicate NUM (mkinfo None 0)) (replicate NUM (mkreq 0 0 0))) ∅ ∅ Nobody (mkdev 0 [] sect) [].

Definition vreach (device : vst -> vst -> Prop) (s : vst) : Prop :=
  exists reg pages sect s0, (forall k, length (sect k) = 512%nat) /\ virtio_disk_init reg pages (boot sect) = Ok (tt, s0) /\ rtc (vstep device) s0 s.
