(* ===== verification/VirtioInv.v ===== *)
(** The invariant of the virtio driver: who owns which descriptor, where each request
    is between the [avail] ring, the device and the [used] ring, and what has been
    transferred. *)

From S2P Require Import Prelude Bio Virtio.

(** ** Rings with free-running 16-bit indices *)

Definition cell (k : Z) : nat := Z.to_nat (k mod Z.of_nat NUM).

(** The entries of the ring between the indices [st] and [e] are [Q]. *)
Record ring_ok (ring : list nat) (st : Z) (Q : list nat) (e : Z) : Prop := mkring {
  rg_len : length ring = NUM; rg_st : 0 <= st < 2 ^ 16; rg_end : e = u16 (st + Z.of_nat (length Q)); rg_max : (length Q <= NUM)%nat;
  rg_at : forall k x, Q !! k = Some x -> ring !!! cell (st + Z.of_nat k) = x }.

Lemma cell_lt k : (cell k < NUM)%nat.
Proof. unfold cell, NUM. lia. Qed.

Lemma cell_u16 k : cell (u16 k) = cell k.
Proof. unfold cell, NUM, u16. f_equal. lia. Qed.

Lemma cell_ne st j k : 0 <= j < k -> k < 8 -> cell (st + j) <> cell (st + k).
Proof. unfold cell, NUM. intros Hj Hk E. lia. Qed.

Lemma ring_write ring st Q e x : ring_ok ring st Q e -> (length Q < NUM)%nat -> ring_ok (<[cell e := x]> ring) st Q e /\ <[cell e := x]> ring !!! cell e = x.
Proof.
  intros [H1 H2 H3 H4 H5] Hl. split; [|apply list_lookup_total_insert_eq; rewrite H1; apply cell_lt]. constructor; [by rewrite length_insert|done..|].
  intros k y Hk. pose proof (lookup_lt_Some _ _ _ Hk). rewrite list_lookup_total_insert_ne; [by apply H5|]. rewrite H3, cell_u16. intros E. unfold NUM in Hl. apply (cell_ne st (Z.of_nat k) (Z.of_nat (length Q))); [lia|lia|done].
Qed.

Lemma ring_bump ring st Q e x : ring_ok ring st Q e -> (length Q < NUM)%nat -> ring !!! cell e = x -> ring_ok ring st (Q ++ [x]) (u16 (e + 1)).
Proof.
  intros [H1 H2 H3 H4 H5] Hl Hx. constructor; [done|done| |rewrite length_app; cbn; lia|].
  - rewrite H3, length_app. cbn. unfold u16. lia.
  - intros k y [Hk|[Hk Hy]]%lookup_app_Some; [by apply H5|]. apply list_lookup_singleton_Some in Hy as [Hy <-]. rewrite <- Hx, H3, cell_u16. f_equal. f_equal. lia.
Qed.

Lemma ring_pop ring st x Q e : ring_ok ring st (x :: Q) e -> ring !!! cell st = x /\ ring_ok ring (u16 (st + 1)) Q e.
Proof.
  intros [H1 H2 H3 H4 H5]. split; [rewrite <- (H5 0%nat x eq_refl); f_equal; f_equal; lia|]. constructor; [done|unfold u16; lia| |cbn in H4; lia|].
  - rewrite H3. cbn [length]. unfold u16. lia.
  - intros k y Hk. rewrite <- (H5 (S k) y Hk). f_equal. rewrite <- cell_u16. rewrite <- (cell_u16 (st + Z.of_nat (S k))). f_equal. unfold u16. lia.
Qed.

Lemma ring_empty ring st Q e : ring_ok ring st Q e -> st = e <-> Q = [].
Proof.
  intros [H1 H2 H3 H4 H5]. unfold NUM in H4. split; [|intros ->; rewrite H3; cbn; unfold u16; lia]. intros E. destruct Q as [|x Q]; [done|]. exfalso. rewrite H3 in E. cbn [length] in *. unfold u16 in E. lia.
Qed.

(** ** Sectors *)

Lemma read_write_same k data m : length data = Z.to_nat BSIZE -> read_sectors 2 k (write_sectors 2 k data m) = data.
Proof.
  intros Hl. change (Z.to_nat BSIZE) with 1024%nat in Hl. cbn [read_sectors write_sectors]. rewrite app_nil_r, Z.eqb_refl. destruct (Z.eqb_spec k (k + 1)); [lia|]. rewrite Z.eqb_refl.
  rewrite (take_ge (drop 512 data)) by (rewrite length_drop; lia). apply take_drop.
Qed.

Lemma read_write_other k j data m : k <> j -> read_sectors 2 (2 * k) (write_sectors 2 (2 * j) data m) = read_sectors 2 (2 * k) m.
Proof.
  intros Hk. cbn [read_sectors write_sectors]. repeat match goal with |- context [?a =? ?b] => destruct (Z.eqb_spec a b); [lia|] end. done.
Qed.

Lemma write_sectors_len k data m j : length data = Z.to_nat BSIZE -> (forall i, length (m i) = 512%nat) -> length (write_sectors 2 k data m j) = 512%nat.
Proof.
  intros Hl Hm. change (Z.to_nat BSIZE) with 1024%nat in Hl. cbn [write_sectors]. do 2 (case_match; [rewrite length_take, ?length_drop; lia|]). apply Hm.
Qed.

Lemma read_sectors_len k m : (forall i, length (m i) = 512%nat) -> length (read_sectors 2 k m) = Z.to_nat BSIZE.
Proof. intros Hm. cbn [read_sectors]. rewrite !length_app, !Hm. done. Qed.

(** ** The invariant *)

Definition idx_of (p : pc) : list nat :=
  match p with Format i0 i1 i2 | Publish i0 i1 i2 | Wait i0 i1 i2 | Asleep i0 i1 i2 _ => [i0; i1; i2] | _ => [] end.

(** The request is with the device, or on its way there or back. *)
Definition head_of (p : pc) : option nat :=
  match p with Wait i0 _ _ | Asleep i0 _ _ _ => Some i0 | _ => None end.

Definition running (p : pc) : Prop := match p with Alloc | Format _ _ _ | Publish _ _ _ | Wait _ _ _ => True | _ => False end.

Record chain_ok (s : vst) (c : call) (i0 i1 i2 : nat) : Prop := mkchain {
  ch_op : v_ops (v_d s) !!! i0 = mkreq (if c_write c then VIRTIO_BLK_T_OUT else VIRTIO_BLK_T_IN) 0 (2 * blockno s (c_b c));
  ch_d0 : q_desc (v_q s) !!! i0 = mkdesc (Pop i0) 16 VRING_DESC_F_NEXT i1;
  ch_d1 : q_desc (v_q s) !!! i1 = mkdesc (Pdata (c_b c)) BSIZE (if c_write c then VRING_DESC_F_NEXT else Z.lor VRING_DESC_F_NEXT VRING_DESC_F_WRITE) i2;
  ch_d2 : q_desc (v_q s) !!! i2 = mkdesc (Pstatus i0) 1 VRING_DESC_F_WRITE 0;
  ch_b : i_b (v_info (v_d s) !!! i0) = Some (c_b c) }.

Definition bdata (s : vst) (b : nat) : list Z := vb_data (v_bufs s !!! b).
Definition busy (s : vst) (b : nat) : bool := vb_disk (v_bufs s !!! b).

Definition untouched (s : vst) (c : call) : Prop := bdata s (c_b c) = c_data c /\ block_of s (c_b c) = c_block c.
(** Buffer and block agree, and the side that was to be copied is as it was. *)
Definition transferred (s : vst) (c : call) : Prop :=
  bdata s (c_b c) = block_of s (c_b c) /\ if c_write c then bdata s (c_b c) = c_data c else block_of s (c_b c) = c_block c.

(** A request between [rw_publish] and the return: [Q] are the heads in the [avail]
    ring, [P] with the device, [U] in the [used] ring. *)
Definition posted (s : vst) (Q P U : list nat) (c : call) (h : nat) : Prop :=
  (h ∈ Q ++ P /\ busy s (c_b c) = true /\ untouched s c) \/
  (h ∈ U /\ busy s (c_b c) = true /\ i_status (v_info (v_d s) !!! h) = 0 /\ transferred s c) \/
  (h ∉ Q ++ P ++ U /\ busy s (c_b c) = false /\ transferred s c).

Definition stage (s : vst) (Q P U : list nat) (c : call) (p : pc) : Prop :=
  match p with
  | Alloc | AllocSleep _ | Format _ _ _ => untouched s c
  | Publish i0 i1 i2 => chain_ok s c i0 i1 i2 /\ untouched s c /\ busy s (c_b c) = true /\ q_avail (v_q s) !!! cell (q_aidx (v_q s)) = i0
  | Wait i0 i1 i2 | Asleep i0 i1 i2 _ => chain_ok s c i0 i1 i2 /\ posted s Q P U c i0
  | Returned => True
  end.

Definition few_free (fr : list bool) : Prop :=
  forall a b c, fr !! a = Some true -> fr !! b = Some true -> fr !! c = Some true -> a <> b -> b <> c -> a <> c -> False.

Definition sleeps (s : vst) (c : call) (p : pc) : Prop :=
  match p with AllocSleep false => few_free (v_free (v_d s)) | Asleep _ _ _ false => busy s (c_b c) = true | _ => True end.

Definition pend (s : vst) : list nat := dv_pend (v_dev s).

(** [X] are descriptors that a routine has in hand. *)
Record vinv (s : vst) (Q U X : list nat) : Prop := mkvinv {
  vi_len : length (v_free (v_d s)) = NUM /\ length (q_desc (v_q s)) = NUM /\ length (v_info (v_d s)) = NUM /\ length (v_ops (v_d s)) = NUM;
  vi_idx : forall t c p, v_thr s !! t = Some (c, p) -> NoDup (idx_of p) /\ Forall (fun i => i < NUM)%nat (idx_of p);
  vi_own : forall i, (i < NUM)%nat -> v_free (v_d s) !! i = Some false <-> i ∈ X \/ exists t c p, v_thr s !! t = Some (c, p) /\ i ∈ idx_of p;
  vi_disj : forall t t' c p c' p' i, v_thr s !! t = Some (c, p) -> v_thr s !! t' = Some (c', p') -> i ∈ idx_of p -> i ∈ idx_of p' -> t = t';
  vi_hand : NoDup X /\ Forall (fun i => i < NUM)%nat X /\ forall t c p i, v_thr s !! t = Some (c, p) -> i ∈ X -> i ∉ idx_of p;
  vi_bufs : (forall b v, v_bufs s !! b = Some v -> buf_ok v) /\ forall t c p, v_thr s !! t = Some (c, p) -> p <> Returned -> is_Some (v_bufs s !! c_b c);
  vi_sect : forall k, length (dv_sect (v_dev s) k) = 512%nat;
  vi_excl : forall t t' c p c' p', v_thr s !! t = Some (c, p) -> v_thr s !! t' = Some (c', p') -> p <> Returned -> p' <> Returned -> t <> t' -> c_b c <> c_b c' /\ blockno s (c_b c) <> blockno s (c_b c');
  vi_stage : forall t c p, v_thr s !! t = Some (c, p) -> stage s Q (pend s) U c p;
  vi_avail : ring_ok (q_avail (v_q s)) (dv_last (v_dev s)) Q (q_aidx (v_q s));
  vi_used : ring_ok (q_used (v_q s)) (v_used_idx (v_d s)) U (q_uidx (v_q s));
  vi_nodup : NoDup (Q ++ pend s ++ U);
  vi_heads : forall h, h ∈ Q ++ pend s ++ U -> exists t c p, v_thr s !! t = Some (c, p) /\ head_of p = Some h;
  vi_lock : forall t c p, v_thr s !! t = Some (c, p) -> running p -> v_lock s = Thread t }.

(** Who sleeps unwoken has something to wait for. *)
Definition vsleep (s : vst) : Prop := forall t c p, v_thr s !! t = Some (c, p) -> sleeps s c p.
(** A thread that has the lock is running. *)
Definition vheld (s : vst) : Prop := forall t, v_lock s = Thread t -> exists c p, v_thr s !! t = Some (c, p) /\ running p.

Lemma head_idx p h : head_of p = Some h -> h ∈ idx_of p.
Proof. destruct p; cbn; intros E; simplify_eq; set_solver. Qed.

Lemma nodup_bound (l : list nat) n : NoDup l -> Forall (fun i => i < n)%nat l -> (length l <= n)%nat.
Proof.
  intros Hn Hf. rewrite <- (length_seq n 0). apply submseteq_length, NoDup_submseteq; [done|]. intros x Hx. apply elem_of_seq. rewrite Forall_forall in Hf. specialize (Hf x Hx). lia.
Qed.

Lemma vi_head_lt s Q U X h : vinv s Q U X -> h ∈ Q ++ pend s ++ U -> (h < NUM)%nat.
Proof. intros I Hh. destruct (vi_heads _ _ _ _ I h Hh) as (t & c & p & Ht & Hp). destruct (vi_idx _ _ _ _ I t c p Ht) as [_ Hf]. rewrite Forall_forall in Hf. by apply Hf, head_idx. Qed.

(** A thread that has not submitted leaves room in both rings. *)
Lemma vi_room s Q U X h : vinv s Q U X -> (h < NUM)%nat -> h ∉ Q ++ pend s ++ U -> (length (Q ++ pend s ++ U) < NUM)%nat.
Proof.
  intros I Hh Hn. apply (nodup_bound (h :: Q ++ pend s ++ U) NUM).
  - constructor; [done|]. apply (vi_nodup _ _ _ _ I).
  - constructor; [done|]. apply Forall_forall. intros x Hx. by apply (vi_head_lt s Q U X).
Qed.

(** What a thread's stage depends on. *)
Lemma stage_frame s s' Q P U Q' P' U' c p :
  v_bufs s' !!! c_b c = v_bufs s !!! c_b c -> block_of s' (c_b c) = block_of s (c_b c) ->
  (forall i, i ∈ idx_of p -> q_desc (v_q s') !!! i = q_desc (v_q s) !!! i /\ v_ops (v_d s') !!! i = v_ops (v_d s) !!! i /\ v_info (v_d s') !!! i = v_info (v_d s) !!! i) ->
  (forall h, head_of p = Some h -> (h ∈ Q ++ P <-> h ∈ Q' ++ P') /\ (h ∈ U <-> h ∈ U')) ->
  (forall i0 i1 i2, p = Publish i0 i1 i2 -> q_avail (v_q s') = q_avail (v_q s) /\ q_aidx (v_q s') = q_aidx (v_q s)) ->
  stage s Q P U c p -> stage s' Q' P' U' c p.
Proof.
  intros Hb Hd Hi Hh Hp. assert (Hbn : blockno s' (c_b c) = blockno s (c_b c)) by (unfold blockno; by rewrite Hb).
  assert (Hch : forall i0 i1 i2, idx_of p = [i0; i1; i2] -> chain_ok s c i0 i1 i2 -> chain_ok s' c i0 i1 i2).
  { intros i0 i1 i2 E [C1 C2 C3 C4 C5]. rewrite E in Hi. destruct (Hi i0 ltac:(set_solver)) as (A1 & A2 & A3), (Hi i1 ltac:(set_solver)) as (B1 & _), (Hi i2 ltac:(set_solver)) as (D1 & _).
    split; [by rewrite A2, Hbn|by rewrite A1|by rewrite B1|by rewrite D1|by rewrite A3]. }
  assert (Hu : untouched s c -> untouched s' c) by (unfold untouched, bdata; by rewrite Hb, Hd).
  assert (Ht : transferred s c -> transferred s' c) by (unfold transferred, bdata; by rewrite Hb, Hd).
  assert (Hbusy : busy s' (c_b c) = busy s (c_b c)) by (unfold busy; by rewrite Hb).
  assert (Hpo : forall h, head_of p = Some h -> posted s Q P U c h -> posted s' Q' P' U' c h).
  { intros h E. destruct (Hh h E) as [G1 G2]. unfold posted. rewrite Hbusy. destruct (Hi h (head_idx _ _ E)) as (_ & _ & ->).
    intros [(K1 & K2 & K3)|[(K1 & K2 & K3 & K4)|(K1 & K2 & K3)]]; [left; by rewrite <- G1; auto|right; left; by rewrite <- G2; auto|right; right; split; [set_solver|auto]]. }
  destruct p as [|w|i0 i1 i2|i0 i1 i2|i0 i1 i2|i0 i1 i2 w|]; cbn; auto.
  - intros (K1 & K2 & K3 & K4). destruct (Hp _ _ _ eq_refl) as [-> ->]. rewrite Hbusy. auto.
  - intros [K1 K2]. split; [by apply Hch|by apply Hpo].
  - intros [K1 K2]. split; [by apply Hch|by apply Hpo].
Qed.

(** ** One thread moves *)

Definition idx_at (s : vst) (t : nat) : list nat := match v_thr s !! t with Some (_, p) => idx_of p | None => [] end.

Lemma idx_at_some s t c p : v_thr s !! t = Some (c, p) -> idx_at s t = idx_of p.
Proof. unfold idx_at. by intros ->. Qed.

Lemma vi_idx_at s Q U X t : vinv s Q U X -> NoDup (idx_at s t ++ X) /\ Forall (fun i => i < NUM)%nat (idx_at s t ++ X).
Proof.
  intros I. destruct (vi_hand _ _ _ _ I) as (H1 & H2 & H3). unfold idx_at. destruct (v_thr s !! t) as [[c p]|] eqn:E; [|done]. destruct (vi_idx _ _ _ _ I t c p E) as [K1 K2].
  split; [|by apply Forall_app]. apply NoDup_app. split; [done|]. split; [|done]. intros i Hi Hx. by apply (H3 t c p i).
Qed.

Lemma vinv_move s s' Q U X Q' X' t c p' : vinv s Q U X ->
  v_thr s' = <[t := (c, p')]> (v_thr s) -> v_free (v_d s') = v_free (v_d s) ->
  length (q_desc (v_q s')) = NUM /\ length (v_info (v_d s')) = NUM /\ length (v_ops (v_d s')) = NUM ->
  idx_of p' ++ X' ≡ₚ idx_at s t ++ X ->
  (forall b, blockno s' b = blockno s b) -> (forall b, is_Some (v_bufs s !! b) -> is_Some (v_bufs s' !! b)) -> (forall b v, v_bufs s' !! b = Some v -> buf_ok v) ->
  (forall k, length (dv_sect (v_dev s') k) = 512%nat) ->
  (p' <> Returned -> is_Some (v_bufs s' !! c_b c) /\ forall t' c' q, t' <> t -> v_thr s !! t' = Some (c', q) -> q <> Returned -> c_b c <> c_b c' /\ blockno s (c_b c) <> blockno s (c_b c')) ->
  (forall t' c' q, t' <> t -> v_thr s !! t' = Some (c', q) -> stage s Q (pend s) U c' q -> stage s' Q' (pend s') U c' q) ->
  stage s' Q' (pend s') U c p' ->
  ring_ok (q_avail (v_q s')) (dv_last (v_dev s')) Q' (q_aidx (v_q s')) -> ring_ok (q_used (v_q s')) (v_used_idx (v_d s')) U (q_uidx (v_q s')) ->
  NoDup (Q' ++ pend s' ++ U) ->
  (forall h, h ∈ Q' ++ pend s' ++ U -> head_of p' = Some h \/ h ∉ idx_at s t /\ h ∈ Q ++ pend s ++ U) ->
  v_lock s = Thread t \/ v_lock s = Nobody -> (running p' -> v_lock s' = Thread t) ->
  vinv s' Q' U X'.
Proof.
  intros I Et Ef (L1 & L2 & L3) Hperm Hbn Hbs Hbok Hse Hact Hoth Hown Ha Hu Hnd Hh Hl Hrun. destruct (vi_idx_at s Q U X t I) as [N1 N2]. rewrite <- Hperm in N1, N2.
  assert (Hmem : forall i, i ∈ idx_of p' \/ i ∈ X' <-> i ∈ idx_at s t \/ i ∈ X) by (intros i; rewrite <- !elem_of_app; by rewrite Hperm).
  assert (Hcase : forall t' c' q, v_thr s' !! t' = Some (c', q) -> (t' = t /\ c' = c /\ q = p') \/ (t' <> t /\ v_thr s !! t' = Some (c', q))).
  { intros t' c' q. rewrite Et. destruct (decide (t' = t)) as [->|Hne]; [rewrite lookup_insert_eq; intros [= <- <-]; by left|rewrite lookup_insert_ne by done; by right]. }
  assert (Hat : forall t' c' q i, t' <> t -> v_thr s !! t' = Some (c', q) -> i ∈ idx_of q -> i ∉ idx_at s t /\ i ∉ X).
  { intros t' c' q i Hne Hq Hi. split; [|intros Hx; by apply (proj2 (proj2 (vi_hand _ _ _ _ I)) t' c' q i)]. unfold idx_at. destruct (v_thr s !! t) as [[c0 p0]|] eqn:E; [|set_solver].
    intros Hi0. apply Hne. by eapply (vi_disj _ _ _ _ I t' t). }
  constructor; try done.
  - rewrite Ef. by destruct (vi_len _ _ _ _ I).
  - intros t' c' q [(-> & -> & ->)|[Hne Hq]]%Hcase; [|by apply (vi_idx _ _ _ _ I t' c')]. apply NoDup_app in N1 as [? _]. apply Forall_app in N2 as [? _]. done.
  - intros i Hi. rewrite Ef, (vi_own _ _ _ _ I i Hi). split.
    + intros [Hx|(t' & c' & q & Hq & Hiq)].
      * destruct (proj2 (Hmem i) (or_intror Hx)) as [Hx'|Hx']; [right; exists t, c, p'; rewrite Et, lookup_insert_eq; done|by left].
      * destruct (decide (t' = t)) as [->|Hne]; [|right; exists t', c', q; rewrite Et, lookup_insert_ne; done].
        rewrite <- (idx_at_some s t c' q Hq) in Hiq. destruct (proj2 (Hmem i) (or_introl Hiq)) as [Hx'|Hx']; [right; exists t, c, p'; rewrite Et, lookup_insert_eq; done|by left].
    + intros Hor. assert (Hm : i ∈ idx_of p' \/ i ∈ X' -> i ∈ X \/ exists t0 c0 p0, v_thr s !! t0 = Some (c0, p0) /\ i ∈ idx_of p0).
      { intros [Hx|Hx]%Hmem; [|by left]. unfold idx_at in Hx. destruct (v_thr s !! t) as [[c0 p0]|] eqn:E; [right; by exists t, c0, p0|set_solver]. }
      destruct Hor as [Hx|(t' & c' & q & [(-> & -> & ->)|[Hne Hq]]%Hcase & Hiq)]; [apply Hm; by right|apply Hm; by left|]. right. by exists t', c', q.
  - intros t1 t2 c1 p1 c2 p2 i [(-> & -> & ->)|[Hn1 H1]]%Hcase [(-> & -> & ->)|[Hn2 H2]]%Hcase Hi1 Hi2; [done| | |by eapply (vi_disj _ _ _ _ I)].
    + exfalso. destruct (Hat _ _ _ _ Hn2 H2 Hi2). destruct (proj1 (Hmem i) (or_introl Hi1)); done.
    + exfalso. destruct (Hat _ _ _ _ Hn1 H1 Hi1). destruct (proj1 (Hmem i) (or_introl Hi2)); done.
  - apply NoDup_app in N1 as (_ & Hd & ?). apply Forall_app in N2 as [_ ?]. split; [done|]. split; [done|]. intros t' c' q i [(-> & -> & ->)|[Hne Hq]]%Hcase Hi Hiq; [by apply (Hd i)|].
    destruct (Hat _ _ _ _ Hne Hq Hiq). destruct (proj1 (Hmem i) (or_intror Hi)); done.
  - split; [done|]. intros t' c' q [(-> & -> & ->)|[Hne Hq]]%Hcase Hr; [by apply Hact|]. apply Hbs. by apply (proj2 (vi_bufs _ _ _ _ I) t' c' q).
  - intros t1 t2 c1 p1 c2 p2 [(-> & -> & ->)|[Hn1 H1]]%Hcase [(-> & -> & ->)|[Hn2 H2]]%Hcase Hr1 Hr2 Hne; rewrite !Hbn; [done| | |by eapply (vi_excl _ _ _ _ I)].
    + by apply (proj2 (Hact Hr1) t2 c2 p2).
    + destruct (proj2 (Hact Hr2) t1 c1 p1 Hn1 H1 Hr1). split; congruence.
  - intros t' c' q [(-> & -> & ->)|[Hne Hq]]%Hcase; [done|]. apply (Hoth t' c' q Hne Hq). by apply (vi_stage _ _ _ _ I t').
  - intros h [Hp|[Hn Hin]]%Hh; [exists t, c, p'; by rewrite Et, lookup_insert_eq|]. destruct (vi_heads _ _ _ _ I h Hin) as (t' & c' & q & Hq & Hhq). exists t', c', q. split; [|done].
    rewrite Et, lookup_insert_ne; [done|]. intros <-. apply Hn. rewrite (idx_at_some s t c' q Hq). by apply head_idx.
  - intros t' c' q [(-> & -> & ->)|[Hne Hq]]%Hcase Hr; [by apply Hrun|]. pose proof (vi_lock _ _ _ _ I t' c' q Hq Hr). destruct Hl; congruence.
Qed.

(** * Every step of the virtio driver and its device keeps the invariant. *)

(** ** Wake-ups *)

Lemma woken_pc ch c p : exists p', woken_by ch (c, p) = (c, p') /\ idx_of p' = idx_of p /\ head_of p' = head_of p /\ (running p' <-> running p) /\ (p' = Returned <-> p = Returned) /\
  (forall s Q P U, stage s Q P U c p -> stage s Q P U c p') /\ (forall s, sleeps s c p -> sleeps s c p').
Proof.
  destruct ch as [|b], p as [|w|i0 i1 i2|i0 i1 i2|i0 i1 i2|i0 i1 i2 w|]; cbn; try case_decide; eexists; split; (reflexivity || cbn; naive_solver).
Qed.

Lemma woken_lookup ch (m : gmap nat (call * pc)) t c p' : (woken_by ch <$> m) !! t = Some (c, p') -> exists p, m !! t = Some (c, p) /\ woken_by ch (c, p) = (c, p').
Proof. rewrite lookup_fmap_Some. intros ([c0 p] & E & Hm). destruct (woken_pc ch c0 p) as (p1 & E1 & _). rewrite E1 in E. injection E as <- <-. by exists p. Qed.

Lemma woken_running ch (m : gmap nat (call * pc)) t c p : m !! t = Some (c, p) -> running p \/ p = Returned -> (woken_by ch <$> m) !! t = Some (c, p).
Proof. intros Hm Hr. rewrite lookup_fmap, Hm. cbn. f_equal. destruct ch, p; cbn; try done; by destruct Hr. Qed.

Definition wake (ch : vchan) (s : vst) : vst := set_thr (fmap (woken_by ch)) s.

Lemma vinv_wake ch s Q U X : vinv s Q U X -> vinv (wake ch s) Q U X.
Proof.
  intros I. constructor; try apply I.
  - intros t c p' (p & Hp & E)%woken_lookup. destruct (woken_pc ch c p) as (p1 & E1 & W1 & _). rewrite E1 in E. injection E as <-. rewrite W1. by apply (vi_idx _ _ _ _ I t c).
  - intros i Hi. rewrite (vi_own _ _ _ _ I i Hi). f_equiv. split.
    + intros (t & c & p & Hp & Hx). destruct (woken_pc ch c p) as (p1 & E1 & W1 & _). exists t, c, p1. split; [by cbn; rewrite lookup_fmap, Hp; cbn; rewrite E1|by rewrite W1].
    + intros (t & c & p' & (p & Hp & E)%woken_lookup & Hx). destruct (woken_pc ch c p) as (p1 & E1 & W1 & _). rewrite E1 in E. injection E as <-. rewrite W1 in Hx. by exists t, c, p.
  - intros t1 t2 c1 p1' c2 p2' i (p1 & H1 & E1)%woken_lookup (p2 & H2 & E2)%woken_lookup. destruct (woken_pc ch c1 p1) as (q1 & F1 & W1 & _), (woken_pc ch c2 p2) as (q2 & F2 & W2 & _).
    rewrite F1 in E1. rewrite F2 in E2. injection E1 as <-. injection E2 as <-. rewrite W1, W2. by apply (vi_disj _ _ _ _ I t1 t2 c1 p1 c2 p2).
  - destruct (vi_hand _ _ _ _ I) as (? & ? & Hd). split; [done|]. split; [done|]. intros t c p' i (p & Hp & E)%woken_lookup. destruct (woken_pc ch c p) as (p1 & E1 & W1 & _). rewrite E1 in E. injection E as <-. rewrite W1. by apply (Hd t c).
  - destruct (vi_bufs _ _ _ _ I) as (? & Hd). split; [done|]. intros t c p' (p & Hp & E)%woken_lookup Hr. destruct (woken_pc ch c p) as (p1 & E1 & _ & _ & _ & W & _). rewrite E1 in E. injection E as <-. apply (Hd t c p Hp). by rewrite <- W.
  - intros t1 t2 c1 p1' c2 p2' (p1 & H1 & E1)%woken_lookup (p2 & H2 & E2)%woken_lookup R1 R2. destruct (woken_pc ch c1 p1) as (q1 & F1 & _ & _ & _ & W1 & _), (woken_pc ch c2 p2) as (q2 & F2 & _ & _ & _ & W2 & _).
    rewrite F1 in E1. rewrite F2 in E2. injection E1 as <-. injection E2 as <-. apply (vi_excl _ _ _ _ I t1 t2 c1 p1 c2 p2 H1 H2); naive_solver.
  - intros t c p' (p & Hp & E)%woken_lookup. destruct (woken_pc ch c p) as (p1 & E1 & _ & _ & _ & _ & W & _). rewrite E1 in E. injection E as <-. apply W. eapply stage_frame; [..|by apply (vi_stage _ _ _ _ I t)]; done.
  - intros h Hh. destruct (vi_heads _ _ _ _ I h Hh) as (t & c & p & Hp & Hx). destruct (woken_pc ch c p) as (p1 & E1 & _ & W1 & _). exists t, c, p1. split; [by cbn; rewrite lookup_fmap, Hp; cbn; rewrite E1|by rewrite W1].
  - intros t c p' (p & Hp & E)%woken_lookup Hr. destruct (woken_pc ch c p) as (p1 & E1 & _ & _ & W & _). rewrite E1 in E. injection E as <-. apply (vi_lock _ _ _ _ I t c p Hp). by apply W.
Qed.

Lemma vsleep_wake ch s : vsleep s -> vsleep (wake ch s).
Proof.
  intros H t c p' (p & Hp & E)%woken_lookup. destruct (woken_pc ch c p) as (p1 & E1 & _ & _ & _ & _ & _ & W). rewrite E1 in E. injection E as <-. apply (W s). by apply (H t).
Qed.

(** ** Descriptors *)

Lemma free_lookup s Q U X i : vinv s Q U X -> (i < NUM)%nat -> v_free (v_d s) !! i = Some (v_free (v_d s) !!! i).
Proof. intros I Hi. apply list_lookup_lookup_total_lt. destruct (vi_len _ _ _ _ I) as (-> & _). done. Qed.

Lemma vinv_take s Q U X i : vinv s Q U X -> v_free (v_d s) !! i = Some true -> vinv (set_free i false s) Q U (X ++ [i]).
Proof.
  intros I Hi. destruct (vi_len _ _ _ _ I) as (L & Ls). pose proof (lookup_lt_Some _ _ _ Hi) as Hlt. rewrite L in Hlt.
  assert (Hno : i ∉ X /\ forall t c p, v_thr s !! t = Some (c, p) -> i ∉ idx_of p).
  { assert (Hf : ~ v_free (v_d s) !! i = Some false) by congruence. rewrite (vi_own _ _ _ _ I i Hlt) in Hf. split; [tauto|]. intros t c p Hp Hx. apply Hf. right. eauto. }
  constructor; try apply I; cbn.
  - by rewrite length_insert.
  - intros j Hj. rewrite elem_of_app, list_elem_of_singleton. destruct (decide (j = i)) as [->|Hne]; [rewrite list_lookup_insert_eq by lia; naive_solver|]. rewrite list_lookup_insert_ne by done.
    rewrite (vi_own _ _ _ _ I j Hj). naive_solver.
  - destruct (vi_hand _ _ _ _ I) as (H1 & H2 & H3). split; [apply NoDup_app; split; [done|split; [|apply NoDup_singleton]]; intros x Hx ->%list_elem_of_singleton; tauto|].
    split; [apply Forall_app; split; [done|by apply Forall_singleton]|]. intros t c p j Hp [Hj| ->%list_elem_of_singleton]%elem_of_app; [by apply (H3 t c)|by apply (proj2 Hno t c)].
  - intros t c p Hp. eapply stage_frame; [..|by apply (vi_stage _ _ _ _ I t)]; done.
Qed.

Lemma vsleep_take s i : vsleep s -> vsleep (set_free i false s).
Proof.
  intros H t c p Hp. specialize (H t c p Hp). destruct p as [|[]| | | |? ? ? []|]; cbn in *; try done. intros a b d Ha Hb Hd. apply (H a b d).
  all: match goal with Hx : _ !! ?k = Some true |- _ !! ?k = Some true => apply list_lookup_insert_Some in Hx as [(_ & ? & _)|[_ Hx]]; done end.
Qed.

(** What [free_desc] leaves *)
Definition freed (i : nat) (s : vst) : vst := wake Cfree (set_free i true (set_desc i desc0 s)).

Lemma free_desc_run s i : (i < NUM)%nat -> v_free (v_d s) !! i = Some false -> free_desc i s = Ok (tt, freed i s).
Proof. intros Hi Hf. unfold free_desc. destruct (Nat.leb_spec NUM i); [lia|]. unfold bind, gets. rewrite (list_lookup_total_correct _ _ _ Hf). done. Qed.

Lemma vinv_freed s Q U X i : vinv s Q U (i :: X) -> vinv (freed i s) Q U X.
Proof.
  intros I. apply vinv_wake. destruct (vi_len _ _ _ _ I) as (L & L2 & Ls). destruct (vi_hand _ _ _ _ I) as ([H0 H1]%NoDup_cons & [Hlt H2]%Forall_cons & H3).
  assert (Hno : forall t c p, v_thr s !! t = Some (c, p) -> i ∉ idx_of p) by (intros t c p Hp; apply (H3 t c p i Hp); set_solver).
  constructor; try apply I; cbn.
  - by rewrite !length_insert.
  - intros j Hj. destruct (decide (j = i)) as [->|Hne]; [rewrite list_lookup_insert_eq by lia; naive_solver|]. rewrite list_lookup_insert_ne by done.
    rewrite (vi_own _ _ _ _ I j Hj), elem_of_cons. naive_solver.
  - split; [done|]. split; [done|]. intros t c p j Hp Hj. apply (H3 t c p j Hp). set_solver.
  - intros t c p Hp. pose proof (Hno t c p Hp) as Hn. eapply stage_frame; [..|by apply (vi_stage _ _ _ _ I t)]; [done|done| |done|done].
    intros j Hj. cbn. rewrite list_lookup_total_insert_ne; [done|]. intros ->. done.
Qed.

Lemma vsleep_freed s i : vsleep s -> vsleep (freed i s).
Proof.
  intros H t c p' (p & Hp & E)%woken_lookup. specialize (H t c p Hp). destruct p as [|w|i0 i1 i2|i0 i1 i2|i0 i1 i2|i0 i1 i2 w|]; cbn in E; injection E as <-; try done.
Qed.

Lemma alloc_loop_run n : forall i s, (i + n <= length (v_free (v_d s)))%nat ->
  (exists j, (i <= j < i + n)%nat /\ v_free (v_d s) !! j = Some true /\ alloc_loop n i s = Ok (Some j, set_free j false s)) \/
  (alloc_loop n i s = Ok (None, s) /\ forall j, (i <= j < i + n)%nat -> v_free (v_d s) !! j = Some false).
Proof.
  induction n as [|n IH]; intros i s Hl; cbn [alloc_loop]; [right; split; [done|lia]|]. unfold bind, gets. destruct (lookup_lt_is_Some_2 (v_free (v_d s)) i ltac:(lia)) as [b Hb].
  rewrite (list_lookup_total_correct _ _ _ Hb). destruct b; [left; exists i; split; [lia|done]|]. destruct (IH (S i) s ltac:(lia)) as [(j & Hj & E)|[E Hj]].
  - left. exists j. split; [lia|done].
  - right. split; [done|]. intros j Hr. destruct (decide (j = i)) as [->|]; [done|]. apply Hj. lia.
Qed.

Lemma alloc_desc_run s Q U X : vinv s Q U X ->
  (exists j, v_free (v_d s) !! j = Some true /\ alloc_desc s = Ok (Some j, set_free j false s)) \/
  (alloc_desc s = Ok (None, s) /\ forall j, v_free (v_d s) !! j <> Some true).
Proof.
  intros I. destruct (vi_len _ _ _ _ I) as (L & _). destruct (alloc_loop_run NUM 0 s ltac:(lia)) as [(j & _ & Hj)|[E Hj]]; [left; by exists j|right]. split; [done|].
  intros j Ht. pose proof (lookup_lt_Some _ _ _ Ht). rewrite Hj in Ht; [done|lia].
Qed.

Lemma free_descs_run l : forall s Q U, vinv s Q U l -> vsleep s -> exists s', free_descs l s = Ok (tt, s') /\ vinv s' Q U [] /\ vsleep s' /\ v_lock s' = v_lock s /\
  (forall t c p, v_thr s !! t = Some (c, p) -> running p -> v_thr s' !! t = Some (c, p)) /\ forall j, v_free (v_d s') !! j = Some true -> j ∈ l \/ v_free (v_d s) !! j = Some true.
Proof.
  induction l as [|i l IH]; intros s Q U I Hs; [exists s; naive_solver|]. destruct (vi_hand _ _ _ _ I) as (_ & [Hlt _]%Forall_cons & _).
  assert (Hf : v_free (v_d s) !! i = Some false) by (apply (vi_own _ _ _ _ I i Hlt); left; set_solver).
  destruct (IH (freed i s) Q U (vinv_freed _ _ _ _ _ I) (vsleep_freed _ _ Hs)) as (s' & E & R1 & R2 & R3 & R4 & R5). exists s'. cbn [free_descs]. rewrite (bind_ok _ _ _ _ _ (free_desc_run s i Hlt Hf)).
  split; [done|]. split; [done|]. split; [done|]. split; [by rewrite R3|]. split.
  - intros t c p Hp Hr. apply R4; [|done]. cbn. apply woken_running; [done|by left].
  - intros j [Hj|Hj]%R5; [set_solver|]. cbn in Hj. apply list_lookup_insert_Some in Hj as [(<- & _)|[_ Hj]]; [left; set_solver|by right].
Qed.

(** Either three descriptors, or less than three were free. *)
Lemma alloc3_loop_run n : forall idx s Q U, vinv s Q U idx -> vsleep s -> exists r s', alloc3_loop n idx s = Ok (r, s') /\ vsleep s' /\ v_lock s' = v_lock s /\
  (forall t c p, v_thr s !! t = Some (c, p) -> running p -> v_thr s' !! t = Some (c, p)) /\
  match r with
  | Some l => length l = (n + length idx)%nat /\ vinv s' Q U l
  | None => vinv s' Q U [] /\ exists l, (length l < n + length idx)%nat /\ forall j, v_free (v_d s') !! j = Some true -> j ∈ l
  end.
Proof.
  induction n as [|n IH]; intros idx s Q U I Hs; cbn [alloc3_loop]; [exists (Some idx), s; done|]. destruct (alloc_desc_run s Q U idx I) as [(j & Hj & E)|[E Hj]]; rewrite (bind_ok _ _ _ _ _ E).
  - destruct (IH (idx ++ [j]) (set_free j false s) Q U (vinv_take _ _ _ _ _ I Hj) (vsleep_take _ _ Hs)) as (r & s' & R1 & R2 & R3 & R4 & R5). exists r, s'. split; [done|]. split; [done|]. split; [done|]. split; [done|].
    rewrite length_app in R5. cbn in R5. destruct r as [l|]; [destruct R5; split; [lia|done]|]. destruct R5 as [? (l & ? & ?)]. split; [done|]. exists l. split; [lia|done].
  - destruct (free_descs_run idx s Q U I Hs) as (s' & R1 & R2 & R3 & R4 & R5 & R6). rewrite (bind_ok _ _ _ _ _ R1). exists None, s'. split; [done|]. split; [done|]. split; [done|]. split; [done|]. split; [done|].
    exists idx. split; [lia|]. intros k [Hk|Hk]%R6; [done|]. by apply Hj in Hk.
Qed.

Lemma few_free_bound fr (l : list nat) : (length l < 3)%nat -> (forall j, fr !! j = Some true -> j ∈ l) -> few_free fr.
Proof.
  intros Hl Hin a b c Ha%Hin Hb%Hin Hc%Hin N1 N2 N3. assert (H3 : (3 <= length l)%nat).
  { apply (submseteq_length [a; b; c] l), NoDup_submseteq; [|set_solver]. constructor; [set_solver|]. constructor; [set_solver|]. apply NoDup_singleton. }
  lia.
Qed.

Definition vgood (s : vst) : Prop := exists Q U, vinv s Q U [] /\ vsleep s /\ vheld s.

Lemma set_pc_thr s t c p p' : v_thr s !! t = Some (c, p) -> v_thr (set_pc t p' s) = <[t := (c, p')]> (v_thr s).
Proof.
  intros H. cbn. apply map_eq. intros k. destruct (decide (k = t)) as [->|Hne]; [by rewrite lookup_alter_eq, lookup_insert_eq, H|by rewrite lookup_alter_ne, lookup_insert_ne].
Qed.

Lemma set_lock_id s : set_lock (v_lock s) s = s.
Proof. by destruct s. Qed.

(** The heads on the way to and from the device are those of other threads. *)
Lemma not_head s Q U X t c p i : vinv s Q U X -> v_thr s !! t = Some (c, p) -> i ∈ idx_of p -> head_of p <> Some i -> i ∉ Q ++ pend s ++ U.
Proof.
  intros I Ht Hi Hn Hin. destruct (vi_heads _ _ _ _ I i Hin) as (t' & c' & q & Hq & Hh). assert (t = t') by (eapply (vi_disj _ _ _ _ I t t'); eauto using head_idx). subst t'. congruence.
Qed.

Lemma head_other s Q U X t t' c p c' q h : vinv s Q U X -> v_thr s !! t = Some (c, p) -> v_thr s !! t' = Some (c', q) -> t' <> t -> head_of q = Some h -> h ∉ idx_of p.
Proof. intros I Ht Hq Hne Hh Hi. apply Hne. eapply (vi_disj _ _ _ _ I t' t); eauto using head_idx. Qed.

Lemma vinv_repc s Q U X X' t c p p' h' : vinv s Q U X -> v_thr s !! t = Some (c, p) -> v_lock s = Thread t \/ v_lock s = Nobody -> idx_of p' ++ X' ≡ₚ idx_of p ++ X ->
  (p = Returned -> p' = Returned) -> stage s Q (pend s) U c p' -> (forall h, head_of p = Some h -> head_of p' = Some h \/ h ∉ Q ++ pend s ++ U) -> (running p' -> h' = Thread t) ->
  vinv (set_lock h' (set_pc t p' s)) Q U X'.
Proof.
  intros I Ht Hl Hperm Hr Hst Hh Hrun. destruct (vi_len _ _ _ _ I) as (L1 & L2).
  apply (vinv_move s _ Q U X Q X' t c p' I); [by apply (set_pc_thr s t c p p')|done|done|by rewrite (idx_at_some s t c p Ht)|done|done|apply I|apply I| | | |apply I|apply I|apply I| |done|done].
  - intros Hp'. assert (Hp : p <> Returned) by (intros E; by apply Hp', Hr). split; [by apply (proj2 (vi_bufs _ _ _ _ I) t c p)|]. intros t' c' q Hne Hq Hrq. by apply (vi_excl _ _ _ _ I t t' c p c' q).
  - intros t' c' q Hne Hq. by apply stage_frame.
  - revert Hst. by apply stage_frame.
  - intros h Hin. destruct (vi_heads _ _ _ _ I h Hin) as (t' & c' & q & Hq & Hhq). destruct (decide (t' = t)) as [->|Hne].
    + rewrite Ht in Hq. injection Hq as <- <-. destruct (Hh h Hhq); [by left|done].
    + right. split; [|done]. rewrite (idx_at_some s t c p Ht). by apply (head_other s Q U X t t' c p c' q).
Qed.

Lemma vsleep_repc s t c p p' h' : vsleep s -> v_thr s !! t = Some (c, p) -> sleeps s c p' -> vsleep (set_lock h' (set_pc t p' s)).
Proof.
  intros H Ht Hp t' c' q Hq. change (v_thr (set_pc t p' s) !! t' = Some (c', q)) in Hq. rewrite (set_pc_thr s t c p p' Ht) in Hq. destruct (decide (t' = t)) as [->|Hne].
  - rewrite lookup_insert_eq in Hq. by injection Hq as <- <-.
  - rewrite lookup_insert_ne in Hq by done. by apply (H t').
Qed.

Lemma vheld_repc s t c p p' : v_thr s !! t = Some (c, p) -> running p' -> vheld (set_lock (Thread t) (set_pc t p' s)).
Proof. intros Ht Hr t' [= <-]. exists c, p'. split; [|done]. change (v_thr (set_pc t p' s) !! t = Some (c, p')). by rewrite (set_pc_thr s t c p p' Ht), lookup_insert_eq. Qed.

Lemma vheld_nobody s : vheld (set_lock Nobody s).
Proof. by intros t E. Qed.

(** ** The steps of [virtio_disk_rw] *)

Lemma rw_alloc_ok s t c : vgood s -> v_lock s = Thread t -> v_thr s !! t = Some (c, Alloc) -> exists s', rw_alloc t s = Ok (tt, s') /\ vgood s' /\ exists p', v_thr s' !! t = Some (c, p') /\ p' <> Returned.
Proof.
  intros (Q & U & I & Hs & _) Hl Ht. destruct (alloc3_loop_run 3 [] s Q U I Hs) as (r & s1 & E & R1 & R2 & R3 & R4). pose proof (R3 t c Alloc Ht Logic.I) as Ht1.
  unfold rw_alloc, alloc3_desc. rewrite (bind_ok _ _ _ _ _ E). rewrite <- R2 in Hl. destruct r as [l|].
  - destruct R4 as [Hlen I1]. destruct l as [|i0 [|i1 [|i2 [|i3 l]]]]; try done. pose proof (vi_stage _ _ _ _ I1 t c Alloc Ht1) as Hst. exists (set_pc t (Format i0 i1 i2) s1). split; [done|].
    split; [|eexists; split; [by rewrite (set_pc_thr s1 t c _ _ Ht1), lookup_insert_eq|done]].
    rewrite <- (set_lock_id (set_pc t (Format i0 i1 i2) s1)). change (v_lock (set_pc t (Format i0 i1 i2) s1)) with (v_lock s1). rewrite Hl. exists Q, U. split; [|split].
    + apply (vinv_repc s1 Q U [i0; i1; i2] [] t c Alloc); [done|done|by left|by rewrite app_nil_r|done|done|done|done].
    + by apply (vsleep_repc s1 t c Alloc).
    + by apply (vheld_repc s1 t c Alloc).
  - destruct R4 as [I1 (l & Hlen & Hin)]. pose proof (vi_stage _ _ _ _ I1 t c Alloc Ht1) as Hst. exists (set_lock Nobody (set_pc t (AllocSleep false) s1)). split; [done|].
    split; [|exists (AllocSleep false); split; [change (v_thr (set_pc t (AllocSleep false) s1) !! t = Some (c, AllocSleep false)); by rewrite (set_pc_thr s1 t c _ _ Ht1), lookup_insert_eq|done]]. exists Q, U. split; [|split].
    + by apply (vinv_repc s1 Q U [] [] t c Alloc); [done|done|by left|..].
    + apply (vsleep_repc s1 t c Alloc); [done|done|]. by apply (few_free_bound _ l).
    + apply vheld_nobody.
Qed.

Lemma rw_publish_ok s t c i0 i1 i2 : vgood s -> v_lock s = Thread t -> v_thr s !! t = Some (c, Publish i0 i1 i2) -> exists s', rw_publish t i0 i1 i2 s = Ok (tt, s') /\ vgood s' /\ exists p', v_thr s' !! t = Some (c, p') /\ p' <> Returned.
Proof.
  intros (Q & U & I & Hs & _) Hl Ht. pose proof (vi_stage _ _ _ _ I t _ _ Ht) as (C & Hu & Hb & Hslot). pose proof (not_head s Q U [] t c _ i0 I Ht ltac:(set_solver) ltac:(done)) as Hn.
  assert (Hlt : (i0 < NUM)%nat) by (destruct (vi_idx _ _ _ _ I t _ _ Ht) as [_ Hf]; by apply Forall_cons in Hf as [? _]).
  pose proof (vi_room s Q U [] i0 I Hlt Hn) as Hroom. rewrite length_app in Hroom. eexists. split; [reflexivity|]. set (s1 := set_reg _ _ _).
  assert (Ht1 : v_thr s1 !! t = Some (c, Publish i0 i1 i2)) by done. pose proof (set_pc_thr s1 t c _ (Wait i0 i1 i2) Ht1) as Et.
  split; [|eexists; split; [by rewrite Et, lookup_insert_eq|done]]. exists (Q ++ [i0]), U. split; [|split].
  - apply (vinv_move s _ Q U [] (Q ++ [i0]) [] t c (Wait i0 i1 i2) I Et); [done|apply I|by rewrite (idx_at_some s t _ _ Ht)|done|done|apply I|apply I| | | | |apply I| | |by left|done].
    + intros _. split; [by apply (proj2 (vi_bufs _ _ _ _ I) t _ _ Ht)|]. intros t' c' q Hne Hq Hrq. by apply (vi_excl _ _ _ _ I t t' c (Publish i0 i1 i2) c' q).
    + intros t' c' q Hne Hq. apply stage_frame; [done|done|done| |].
      * intros h Hh. pose proof (head_other s Q U [] t t' c _ c' q h I Ht Hq Hne Hh). set_solver.
      * intros j0 j1 j2 ->. pose proof (vi_lock _ _ _ _ I t' c' _ Hq Logic.I). congruence.
    + split; [destruct C; by split|]. left. split; [set_solver|]. done.
    + cbn. apply (ring_bump _ _ _ _ i0 (vi_avail _ _ _ _ I)); [lia|done].
    + pose proof (vi_nodup _ _ _ _ I) as Hnd. change (pend _) with (pend s). rewrite <- (assoc_L (++)). apply NoDup_app in Hnd as (N1 & N2 & N3). apply NoDup_app. split; [done|].
      split; [intros x Hx [->%list_elem_of_singleton|Hx']%elem_of_app; [set_solver|by apply (N2 x)]|]. cbn. constructor; [set_solver|done].
    + change (pend _) with (pend s). intros h Hh. rewrite (idx_at_some s t _ _ Ht). destruct (decide (h = i0)) as [->|Hne]; [by left|right]. assert (Hin : h ∈ Q ++ pend s ++ U) by set_solver.
      split; [|done]. destruct (vi_heads _ _ _ _ I h Hin) as (t' & c' & q & Hq & Hhq). apply (head_other s Q U [] t t' c _ c' q h I Ht Hq); [|done]. intros ->. rewrite Ht in Hq. by injection Hq as <- <-.
  - intros t' c' q. rewrite Et. destruct (decide (t' = t)) as [->|Hne]; [rewrite lookup_insert_eq; by intros [= <- <-]|]. rewrite lookup_insert_ne by done. apply (Hs t').
  - intros t' Hl'. assert (t' = t) as -> by (cbn in Hl'; congruence). exists c, (Wait i0 i1 i2). by rewrite Et, lookup_insert_eq.
Qed.

Lemma lookup_alter_total b (f : vbuf -> vbuf) (m : gmap nat vbuf) : is_Some (m !! b) -> alter f b m !!! b = f (m !!! b).
Proof. intros [v Hv]. rewrite !lookup_total_alt, lookup_alter_eq, Hv. done. Qed.

Lemma lookup_alter_total_ne b b' (f : vbuf -> vbuf) (m : gmap nat vbuf) : b <> b' -> alter f b m !!! b' = m !!! b'.
Proof. intros Hne. by rewrite !lookup_total_alt, lookup_alter_ne. Qed.

(** A change of [b->disk] alone. *)
Lemma set_vdisk_other s b x b' : b <> b' -> v_bufs (set_vdisk b x s) !!! b' = v_bufs s !!! b'.
Proof. apply lookup_alter_total_ne. Qed.

Lemma set_vdisk_same s b x : is_Some (v_bufs s !! b) -> v_bufs (set_vdisk b x s) !!! b = mkvbuf (blockno s b) x (bdata s b).
Proof. apply lookup_alter_total. Qed.

Lemma set_vdisk_blockno s b x b' : blockno (set_vdisk b x s) b' = blockno s b'.
Proof.
  unfold blockno. destruct (decide (b = b')) as [<-|Hne]; [|by rewrite set_vdisk_other]. unfold set_vdisk. cbn. rewrite !lookup_total_alt, lookup_alter_eq. by destruct (v_bufs s !! b).
Qed.

Lemma set_vdisk_bdata s b x b' : bdata (set_vdisk b x s) b' = bdata s b'.
Proof.
  unfold bdata. destruct (decide (b = b')) as [<-|Hne]; [|by rewrite set_vdisk_other]. unfold set_vdisk. cbn. rewrite !lookup_total_alt, lookup_alter_eq. by destruct (v_bufs s !! b).
Qed.

Lemma set_vdisk_ok s b x : (forall b v, v_bufs s !! b = Some v -> buf_ok v) -> (forall b' v, v_bufs (set_vdisk b x s) !! b' = Some v -> buf_ok v) /\ forall b', is_Some (v_bufs s !! b') -> is_Some (v_bufs (set_vdisk b x s) !! b').
Proof.
  intros H. split; intros b'; cbn; (destruct (decide (b = b')) as [<-|Hne]; [rewrite lookup_alter_eq|rewrite lookup_alter_ne by done; auto]).
  - intros v (v0 & Hv & ->)%fmap_Some. by apply (H b v0).
  - apply H.
  - intros [v Hv]. rewrite Hv. by eexists.
Qed.

Lemma rw_format_ok s t c i0 i1 i2 : vgood s -> v_lock s = Thread t -> v_thr s !! t = Some (c, Format i0 i1 i2) -> exists s', rw_format t c i0 i1 i2 s = Ok (tt, s') /\ vgood s' /\ exists p', v_thr s' !! t = Some (c, p') /\ p' <> Returned.
Proof.
  intros (Q & U & I & Hs & _) Hl Ht. pose proof (vi_stage _ _ _ _ I t _ _ Ht) as Hu. cbn in Hu. pose proof (not_head s Q U [] t c _ i0 I Ht ltac:(set_solver) ltac:(done)) as Hn.
  destruct (vi_idx _ _ _ _ I t _ _ Ht) as [Hnd Hf]. cbn in Hnd, Hf. rewrite !NoDup_cons in Hnd. destruct Hnd as (D1 & D2 & _). rewrite !Forall_cons in Hf. destruct Hf as (F0 & F1 & F2 & _).
  pose proof (vi_room s Q U [] i0 I F0 Hn) as Hroom. rewrite length_app in Hroom. destruct (vi_len _ _ _ _ I) as (L1 & L2 & L3 & L4).
  destruct (proj2 (vi_bufs _ _ _ _ I) t _ _ Ht ltac:(done)) as [v Hv]. pose proof (proj1 (vi_bufs _ _ _ _ I) _ _ Hv) as [Hbn _].
  assert (Esec : u32 (vb_blockno (v_bufs s !!! c_b c) * (BSIZE / 512)) = 2 * blockno s (c_b c)) by (unfold blockno; rewrite (lookup_total_correct _ _ _ Hv); change (BSIZE / 512) with 2; rewrite u32_small; lia).
  eexists. split; [unfold rw_format, bind, gets, modify; cbv beta zeta iota; reflexivity|]. match goal with |- vgood (set_pc t _ ?x) /\ _ => set (s1 := x) end.
  assert (Ht1 : v_thr s1 !! t = Some (c, Format i0 i1 i2)) by done. pose proof (set_pc_thr s1 t c _ (Publish i0 i1 i2) Ht1) as Et.
  assert (Eb : v_bufs s1 = v_bufs (set_vdisk (c_b c) true s)) by done. assert (Ed : v_dev s1 = v_dev s) by done.
  assert (Ebn : forall b, blockno (set_pc t (Publish i0 i1 i2) s1) b = blockno s b) by (intros b; apply (set_vdisk_blockno s (c_b c) true b)).
  destruct (ring_write _ _ _ _ i0 (vi_avail _ _ _ _ I) ltac:(lia)) as [Hr1 Hr2]. destruct (set_vdisk_ok s (c_b c) true (proj1 (vi_bufs _ _ _ _ I))) as [Hok1 Hok2].
  split; [|eexists; split; [by rewrite Et, lookup_insert_eq|done]]. exists Q, U. split; [|split].
  - apply (vinv_move s _ Q U [] Q [] t c (Publish i0 i1 i2) I Et); [done| |by rewrite (idx_at_some s t _ _ Ht)|exact Ebn|exact Hok2|exact Hok1|apply I| | | |exact Hr1|apply I|apply I| |by left|done].
    + cbn. rewrite !length_insert, !length_alter. done.
    + intros _. split; [apply Hok2; by exists v|]. intros t' c' q Hne Hq Hrq. by apply (vi_excl _ _ _ _ I t t' c (Format i0 i1 i2) c' q).
    + intros t' c' q Hne Hq. destruct (decide (q = Returned)) as [->|Hrq]; [done|]. destruct (vi_excl _ _ _ _ I t t' c (Format i0 i1 i2) c' q Ht Hq ltac:(done) Hrq ltac:(done)) as [Hcb _]. apply stage_frame.
      * exact (set_vdisk_other s (c_b c) true (c_b c') Hcb).
      * unfold block_of. by rewrite Ebn.
      * intros i Hi. assert (Hno : i ∉ [i0; i1; i2]) by (intros Hc; apply Hne; by eapply (vi_disj _ _ _ _ I t' t)). rewrite !not_elem_of_cons in Hno. destruct Hno as (N0 & N1 & N2 & _).
        cbn. rewrite !list_lookup_total_insert_ne, !list_lookup_total_alter_ne by done. done.
      * done.
      * intros j0 j1 j2 ->. pose proof (vi_lock _ _ _ _ I t' c' _ Hq Logic.I). congruence.
    + split; [|split; [|split]].
      * split; [rewrite Ebn| | | |]; cbn; rewrite ?Esec.
        -- by rewrite list_lookup_total_insert_eq by lia.
        -- rewrite list_lookup_total_insert_ne, list_lookup_total_insert_ne, list_lookup_total_insert_eq; [done|lia|set_solver|set_solver].
        -- rewrite list_lookup_total_insert_ne, list_lookup_total_insert_eq; [done|rewrite length_insert; lia|set_solver].
        -- rewrite list_lookup_total_insert_eq; [done|rewrite !length_insert; lia].
        -- rewrite list_lookup_total_alter_eq by (rewrite length_alter; lia). done.
      * unfold untouched, block_of in *. rewrite Ebn. split; [|apply Hu]. rewrite <- (proj1 Hu). exact (set_vdisk_bdata s (c_b c) true (c_b c)).
      * unfold busy. change (v_bufs (set_pc t (Publish i0 i1 i2) s1)) with (v_bufs s1). rewrite Eb, set_vdisk_same by (by exists v). done.
      * exact Hr2.
    + change (pend _) with (pend s). intros h Hin. right. split; [|done]. rewrite (idx_at_some s t _ _ Ht). destruct (vi_heads _ _ _ _ I h Hin) as (t' & c' & q & Hq & Hhq).
      apply (head_other s Q U [] t t' c _ c' q h I Ht Hq); [|done]. intros ->. rewrite Ht in Hq. by injection Hq as <- <-.
  - intros t' c' q. rewrite Et. destruct (decide (t' = t)) as [->|Hne]; [rewrite lookup_insert_eq; by intros [= <- <-]|]. rewrite lookup_insert_ne by done. intros Hq. specialize (Hs t' c' q Hq).
    destruct q as [|[]| | | |j0 j1 j2 []|]; try done. unfold sleeps, busy in *. change (v_bufs (set_pc t (Publish i0 i1 i2) s1)) with (v_bufs s1). rewrite Eb.
    destruct (vi_excl _ _ _ _ I t t' c (Format i0 i1 i2) c' _ Ht Hq ltac:(done) ltac:(done) ltac:(done)) as [Hcb _]. by rewrite set_vdisk_other.
  - intros t' Hl'. assert (t' = t) as -> by (cbn in Hl'; congruence). exists c, (Publish i0 i1 i2). by rewrite Et, lookup_insert_eq.
Qed.

Lemma vinv_info s Q U X i f : vinv s Q U X -> i ∈ X -> vinv (set_info i f s) Q U X.
Proof.
  intros I Hi. destruct (vi_len _ _ _ _ I) as (L1 & L2 & L3 & L4). constructor; try apply I; cbn.
  - rewrite length_alter. done.
  - intros t c p Hp. eapply stage_frame; [..|by apply (vi_stage _ _ _ _ I t)]; [done|done| |done|done]. intros j Hj. cbn. rewrite list_lookup_total_alter_ne; [done|].
    intros ->. by apply (proj2 (proj2 (vi_hand _ _ _ _ I)) t c p j).
Qed.

Lemma free_chain_run s Q U c i0 i1 i2 : vinv s Q U [i0; i1; i2] ->
  q_desc (v_q s) !!! i0 = mkdesc (Pop i0) 16 VRING_DESC_F_NEXT i1 -> q_desc (v_q s) !!! i2 = mkdesc (Pstatus i0) 1 VRING_DESC_F_WRITE 0 ->
  q_desc (v_q s) !!! i1 = mkdesc (Pdata (c_b c)) BSIZE (if c_write c then VRING_DESC_F_NEXT else Z.lor VRING_DESC_F_NEXT VRING_DESC_F_WRITE) i2 ->
  free_chain NUM i0 s = Ok (tt, freed i2 (freed i1 (freed i0 s))).
Proof.
  intros I E0 E2 E1. pose proof (vi_hand _ _ _ _ I) as (Hnd & Hf & _). rewrite !NoDup_cons in Hnd. destruct Hnd as (D1 & D2 & _). rewrite !Forall_cons in Hf. destruct Hf as (F0 & F1 & F2 & _).
  pose proof (vinv_freed _ _ _ _ _ I) as I1. pose proof (vinv_freed _ _ _ _ _ I1) as I2.
  assert (O0 : v_free (v_d s) !! i0 = Some false) by (apply (vi_own _ _ _ _ I); [done|left; set_solver]).
  assert (O1 : v_free (v_d (freed i0 s)) !! i1 = Some false) by (apply (vi_own _ _ _ _ I1); [done|left; set_solver]).
  assert (O2 : v_free (v_d (freed i1 (freed i0 s))) !! i2 = Some false) by (apply (vi_own _ _ _ _ I2); [done|left; set_solver]).
  assert (A1 : q_desc (v_q (freed i0 s)) !!! i1 = q_desc (v_q s) !!! i1) by (cbn; rewrite list_lookup_total_insert_ne; [done|set_solver]).
  assert (A2 : q_desc (v_q (freed i1 (freed i0 s))) !!! i2 = q_desc (v_q s) !!! i2) by (cbn; rewrite !list_lookup_total_insert_ne; [done|set_solver|set_solver]).
  unfold NUM. cbn [free_chain]. rewrite (bind_ok _ _ _ (q_desc (v_q s) !!! i0) s) by done. rewrite (bind_ok _ _ _ _ _ (free_desc_run s i0 F0 O0)), E0. cbn [d_flags d_next].
  change (Z.land VRING_DESC_F_NEXT VRING_DESC_F_NEXT =? 0) with false. cbn iota. rewrite (bind_ok _ _ _ (q_desc (v_q (freed i0 s)) !!! i1) (freed i0 s)) by done.
  rewrite (bind_ok _ _ _ _ _ (free_desc_run _ i1 F1 O1)), A1, E1. cbn [d_flags d_next].
  replace (Z.land (if c_write c then VRING_DESC_F_NEXT else Z.lor VRING_DESC_F_NEXT VRING_DESC_F_WRITE) VRING_DESC_F_NEXT =? 0) with false by (by destruct (c_write c)). cbn iota.
  rewrite (bind_ok _ _ _ (q_desc (v_q (freed i1 (freed i0 s))) !!! i2) (freed i1 (freed i0 s))) by done. rewrite (bind_ok _ _ _ _ _ (free_desc_run _ i2 F2 O2)), A2, E2. done.
Qed.

Lemma vinv_unlock s Q U X : vinv s Q U X -> (forall t c p, v_thr s !! t = Some (c, p) -> ~ running p) -> vinv (set_lock Nobody s) Q U X.
Proof.
  intros I Hr. constructor; try apply I; cbn.
  - intros t c p Hp. eapply stage_frame; [..|by apply (vi_stage _ _ _ _ I t)]; done.
  - intros t c p Hp Hrp. by apply Hr in Hp.
Qed.

Lemma rw_wait_ok s t c i0 i1 i2 : vgood s -> v_lock s = Thread t -> v_thr s !! t = Some (c, Wait i0 i1 i2) ->
  exists s', rw_wait t c i0 i1 i2 s = Ok (tt, s') /\ vgood s' /\
    if busy s (c_b c) then v_thr s' !! t = Some (c, Asleep i0 i1 i2 false) else v_thr s' !! t = Some (c, Returned) /\ transferred s' c.
Proof.
  intros (Q & U & I & Hs & _) Hl Ht. pose proof (vi_stage _ _ _ _ I t _ _ Ht) as (C & Hp). unfold rw_wait. rewrite (bind_ok _ _ _ (busy s (c_b c)) s) by done.
  destruct (busy s (c_b c)) eqn:Eb.
  - exists (set_lock Nobody (set_pc t (Asleep i0 i1 i2 false) s)). split; [done|]. split.
    + exists Q, U. split; [|split; [by apply (vsleep_repc s t c (Wait i0 i1 i2))|apply vheld_nobody]].
      apply (vinv_repc s Q U [] [] t c (Wait i0 i1 i2)); [done|done|by left|done|done|done|intros h Hh; by left|done].
    + change (v_thr (set_pc t (Asleep i0 i1 i2 false) s) !! t = Some (c, Asleep i0 i1 i2 false)). by rewrite (set_pc_thr s t c _ _ Ht), lookup_insert_eq.
  - assert (Hdone : i0 ∉ Q ++ pend s ++ U /\ transferred s c) by (destruct Hp as [(_ & Hb & _)|[(_ & Hb & _)|(Hn & _ & Htr)]]; [congruence|congruence|done]). destruct Hdone as [Hn Htr].
    assert (Hst : stage s Q (pend s) U c Returned) by done.
    assert (I1 : vinv (set_lock (Thread t) (set_pc t Returned s)) Q U [i0; i1; i2]).
    { apply (vinv_repc s Q U [] [i0; i1; i2] t c (Wait i0 i1 i2)); [done|done|by left|done|done|done| |done]. intros h [= <-]. by right. }
    assert (Hs1 : vsleep (set_lock (Thread t) (set_pc t Returned s))) by by apply (vsleep_repc s t c (Wait i0 i1 i2)).
    assert (El : set_lock (Thread t) (set_pc t Returned s) = set_pc t Returned s) by (rewrite <- Hl; by destruct s). rewrite El in I1, Hs1.
    assert (Et : v_thr (set_pc t Returned s) !! t = Some (c, Returned)) by (by rewrite (set_pc_thr s t c _ _ Ht), lookup_insert_eq).
    set (f := fun i => mkinfo None (i_status i)). pose proof (vinv_info _ _ _ _ i0 f I1 ltac:(set_solver)) as I2. set (s2 := set_info i0 f (set_pc t Returned s)) in *.
    destruct C as [C1 C2 C3 C4 C5]. pose proof (free_chain_run s2 Q U c i0 i1 i2 I2 C2 C4 C3) as Ef.
    pose proof (vinv_freed _ _ _ _ _ (vinv_freed _ _ _ _ _ (vinv_freed _ _ _ _ _ I2))) as I3. set (s3 := freed i2 (freed i1 (freed i0 s2))) in *.
    assert (Et3 : v_thr s3 !! t = Some (c, Returned)) by (cbn; do 3 (apply woken_running; [|by right]); exact Et).
    exists (set_lock Nobody s3). split; [|split; [|split; [exact Et3|exact Htr]]].
    + rewrite (bind_ok _ _ _ tt (set_pc t Returned s)) by done. rewrite (bind_ok _ _ _ tt s2) by done. by rewrite (bind_ok _ _ _ _ _ Ef).
    + exists Q, U. split; [|split; [|apply vheld_nobody]].
      * apply vinv_unlock; [done|]. intros t' c' p' Hp' Hr. pose proof (vi_lock _ _ _ _ I3 t' c' p' Hp' Hr) as Hl'. change (v_lock s3) with (v_lock s) in Hl'. rewrite Hl in Hl'. injection Hl' as <-.
        rewrite Et3 in Hp'. by injection Hp' as <- <-.
      * change (vsleep s3). by do 3 apply vsleep_freed.
Qed.

Lemma rw_resume_ok s t : vgood s -> v_lock s = Nobody -> can_resume s t -> exists s', rw_resume t s = Ok (tt, s') /\ vgood s'.
Proof.
  intros (Q & U & I & Hs & _) Hl Hc. unfold can_resume in Hc. unfold rw_resume. rewrite (bind_ok _ _ _ (v_thr s !! t) s) by done. destruct (v_thr s !! t) as [[c p]|] eqn:Ht; [|done].
  pose proof (vi_stage _ _ _ _ I t _ _ Ht) as Hst. destruct p as [|[]|i0 i1 i2|i0 i1 i2|i0 i1 i2|i0 i1 i2 []|]; try done.
  - exists (set_lock (Thread t) (set_pc t Alloc s)). split; [done|]. exists Q, U.
    split; [by apply (vinv_repc s Q U [] [] t c (AllocSleep true)); [done|done|by right|..]|]. split; [by apply (vsleep_repc s t c (AllocSleep true))|by apply (vheld_repc s t c (AllocSleep true))].
  - exists (set_lock (Thread t) (set_pc t (Wait i0 i1 i2) s)). split; [done|]. exists Q, U.
    split; [apply (vinv_repc s Q U [] [] t c (Asleep i0 i1 i2 true)); [done|done|by right|done|done|done|intros h Hh; by left|done]|].
    split; [by apply (vsleep_repc s t c (Asleep i0 i1 i2 true))|by apply (vheld_repc s t c (Asleep i0 i1 i2 true))].
Qed.

Lemma rw_enter_ok s t b w v : vgood s -> v_lock s = Nobody -> can_start s t -> v_bufs s !! b = Some v -> idle s b (vb_blockno v) -> vgood (rw_enter t b w s).
Proof.
  intros (Q & U & I & Hs & _) Hl Hc Hb Hidle. assert (Hbn : blockno s b = vb_blockno v) by (unfold blockno; by rewrite (lookup_total_correct _ _ _ Hb)).
  assert (Eidx : idx_at s t = []) by (unfold idx_at, can_start in *; destruct (v_thr s !! t) as [[c []]|]; done). exists Q, U. split; [|split].
  - apply (vinv_move s (rw_enter t b w s) Q U [] Q [] t (mkcall b w (vb_data (v_bufs s !!! b)) (block_of s b)) Alloc I eq_refl); [done|apply I|by rewrite Eidx|done|done|apply I|apply I| | |done|apply I|apply I|apply I| |by right|done].
    + intros _. split; [by exists v|]. intros t' c' q Hne Hq Hr. destruct (Hidle t' c' q Hq Hr) as [N1 N2]. rewrite <- Hbn in N2. cbn. split; congruence.
    + intros t' c' q Hne Hq. by apply stage_frame.
    + intros h Hh. right. rewrite Eidx. split; [set_solver|done].
  - intros t' c' q Hq. cbn in Hq. destruct (decide (t' = t)) as [->|Hne]; [rewrite lookup_insert_eq in Hq; by injection Hq as <- <-|]. rewrite lookup_insert_ne in Hq by done. by apply (Hs t').
  - intros t' [= <-]. eexists _, Alloc. split; [apply lookup_insert_eq|done].
Qed.
