(* ===== verification/VirtioThm.v ===== *)
(** The virtio driver: interrupts and the device keep the invariant; every request that
    returns has transferred its block, nothing panics, and no request is stuck. *)

From S2P Require Import Prelude Bio Virtio VirtioInv.

Lemma head_stage c p h : head_of p = Some h -> exists i1 i2, idx_of p = [h; i1; i2] /\ forall s Q P U, stage s Q P U c p <-> chain_ok s c h i1 i2 /\ posted s Q P U c h.
Proof. destruct p as [|w|i0 i1 i2|i0 i1 i2|i0 i1 i2|i0 i1 i2 w|]; cbn; intros [= <-]; by exists i1, i2. Qed.

(** ** The interrupt handler *)

Lemma intr_step_ok s : vgood s -> v_lock s = Handler -> exists s', intr_step s = Ok (tt, s') /\ vgood s'.
Proof.
  intros (Q & U & I & Hs & _) Hl. unfold intr_step. rewrite (bind_ok _ _ _ (v_d s) s), (bind_ok _ _ _ (v_q s) s) by done. pose proof (vi_used _ _ _ _ I) as Hring.
  destruct (Z.eqb_spec (v_used_idx (v_d s)) (q_uidx (v_q s))) as [E|E].
  - exists (set_lock Nobody s). split; [done|]. exists Q, U. split; [|split; [exact Hs|apply vheld_nobody]]. apply vinv_unlock; [done|]. intros t c p Hp Hr. pose proof (vi_lock _ _ _ _ I t c p Hp Hr). congruence.
  - destruct U as [|h U]; [by destruct E; apply (ring_empty _ _ _ _ Hring)|]. destruct (ring_pop _ _ _ _ _ Hring) as [Eh Hring']. unfold cell in Eh. rewrite Eh.
    destruct (vi_heads _ _ _ _ I h ltac:(set_solver)) as (t & c & p & Ht & Hh). destruct (head_stage c p h Hh) as (i1 & i2 & Hidx & Hiff). pose proof (proj1 (Hiff _ _ _ _) (vi_stage _ _ _ _ I t c p Ht)) as [C Hp].
    pose proof (vi_nodup _ _ _ _ I) as Hnd. assert (Hfresh : h ∉ Q ++ pend s ++ U).
    { rewrite (assoc_L (++)) in Hnd. apply NoDup_app in Hnd as (_ & N2 & N3%NoDup_cons). intros Hin. rewrite (assoc_L (++)), elem_of_app in Hin. destruct Hin as [Hin|Hin]; [apply (N2 h Hin); set_solver|by apply N3]. }
    assert (Hpo : i_status (v_info (v_d s) !!! h) = 0 /\ transferred s c) by (destruct Hp as [(Hin & _)|[(_ & _ & K)|(Hn & _)]]; [set_solver|done|set_solver]). destruct Hpo as [Hst Htr].
    rewrite Hst. cbn [negb Z.eqb]. rewrite (ch_b _ _ _ _ _ C). assert (Hact : p <> Returned) by (by intros ->). pose proof (proj2 (vi_bufs _ _ _ _ I) t c p Ht Hact) as Hbuf.
    set (s1 := set_d (fun d => mkdrv (v_free d) (u16 (v_used_idx d + 1)) (v_info d) (v_ops d)) (set_vdisk (c_b c) false s)). exists (wake (Cbuf (c_b c)) s1). split; [done|].
    destruct (set_vdisk_ok s (c_b c) false (proj1 (vi_bufs _ _ _ _ I))) as [Hok1 Hok2]. assert (Ebn : forall b, blockno s1 b = blockno s b) by (intros b; apply (set_vdisk_blockno s (c_b c) false b)).
    assert (Eoth : forall t' c' q, t' <> t -> v_thr s !! t' = Some (c', q) -> q <> Returned -> v_bufs s1 !!! c_b c' = v_bufs s !!! c_b c').
    { intros t' c' q Hne Hq Hr. apply (set_vdisk_other s (c_b c) false). by apply (vi_excl _ _ _ _ I t t' c p c' q). }
    exists Q, U. split; [apply vinv_wake|split; [|by intros t' E'; cbn in E'; congruence]].
    + constructor; try apply I; [| | | | |].
      * split; [exact Hok1|]. intros t' c' q Hq Hr. apply Hok2. by apply (proj2 (vi_bufs _ _ _ _ I) t' c' q).
      * intros t1 t2 c1 p1 c2 p2. rewrite !Ebn. apply (vi_excl _ _ _ _ I).
      * intros t' c' q Hq. pose proof (vi_stage _ _ _ _ I t' c' q Hq) as Hsq. destruct (decide (t' = t)) as [->|Hne].
        -- assert (E' : (c', q) = (c, p)) by (change (v_thr s !! t = Some (c', q)) in Hq; congruence). injection E' as -> ->. apply Hiff. split; [destruct C as [C1 C2 C3 C4 C5]; split; rewrite ?Ebn; done|]. right. right.
           split; [exact Hfresh|]. split; [unfold busy; change (v_bufs s1) with (v_bufs (set_vdisk (c_b c) false s)); by rewrite set_vdisk_same|].
           unfold transferred, block_of in *. rewrite Ebn. change (bdata s1) with (bdata (set_vdisk (c_b c) false s)). by rewrite set_vdisk_bdata.
        -- destruct (decide (q = Returned)) as [->|Hr]; [done|]. revert Hsq. apply stage_frame; [by apply (Eoth t' c' q)|unfold block_of; by rewrite Ebn|done| |done].
           intros h' Hh'. assert (h' <> h) by (intros ->; apply Hne; eapply (vi_disj _ _ _ _ I t' t); eauto using head_idx). set_solver.
      * exact Hring'.
      * change (pend s1) with (pend s). eapply sublist_NoDup; [exact Hnd|]. apply sublist_app; [done|]. apply sublist_app; [done|]. by apply sublist_cons.
      * intros h' Hin. apply (vi_heads _ _ _ _ I). change (pend s1) with (pend s) in Hin. set_solver.
    + intros t' c' q' (q & Hq & Ew)%woken_lookup. specialize (Hs t' c' q Hq). destruct q as [|w|j0 j1 j2|j0 j1 j2|j0 j1 j2|j0 j1 j2 w|]; cbn in Ew; try (injection Ew as <-; done).
      case_decide as Hd; injection Ew as <-; [done|]. destruct w; [done|]. unfold sleeps, busy in *. cbn in Hd. change (v_bufs (wake (Cbuf (c_b c)) s1)) with (v_bufs (set_vdisk (c_b c) false s)). by rewrite set_vdisk_other.
Qed.

(** ** The device *)

Lemma dev_fetch_ok s : vgood s -> dv_last (v_dev s) <> q_aidx (v_q s) -> vgood (dev_fetch s).
Proof.
  intros (Q & U & I & Hs & Hh) E. pose proof (vi_avail _ _ _ _ I) as Hring. destruct Q as [|h Q]; [by destruct E; apply (ring_empty _ _ _ _ Hring)|]. destruct (ring_pop _ _ _ _ _ Hring) as [Eh Hring'].
  assert (Ep : pend (dev_fetch s) = pend s ++ [h]) by (unfold dev_fetch, pend; cbn; by rewrite <- Eh). assert (Hperm : Q ++ pend (dev_fetch s) ++ U ≡ₚ (h :: Q) ++ pend s ++ U).
  { rewrite Ep. cbn. rewrite <- (assoc_L (++)). cbn. by rewrite !Permutation_middle. }
  exists Q, U. split; [|split; [exact Hs|exact Hh]]. constructor; try apply I.
  - intros t c p Hp. eapply stage_frame; [..|by apply (vi_stage _ _ _ _ I t)]; [done|done|done| |done]. intros h' Hh'. rewrite Ep. set_solver.
  - exact Hring'.
  - rewrite Hperm. apply I.
  - intros h' Hin. rewrite Hperm in Hin. by apply (vi_heads _ _ _ _ I).
Qed.

(** What the transfer itself changes: the buffer of a read, the block of a write. *)
Lemma dev_transfer s Q U t c p h i1 i2 : vinv s Q U [] -> v_thr s !! t = Some (c, p) -> p <> Returned -> chain_ok s c h i1 i2 -> untouched s c -> exists s1, dev_serve h s = Some (dev_report h h s1) /\
  v_q s1 = v_q s /\ v_d s1 = v_d s /\ v_thr s1 = v_thr s /\ v_lock s1 = v_lock s /\ dv_last (v_dev s1) = dv_last (v_dev s) /\ pend s1 = pend s /\
  (forall k, length (dv_sect (v_dev s1) k) = 512%nat) /\ (forall b v, v_bufs s1 !! b = Some v -> buf_ok v) /\ (forall b, is_Some (v_bufs s !! b) -> is_Some (v_bufs s1 !! b)) /\
  (forall b, blockno s1 b = blockno s b) /\ (forall b, busy s1 b = busy s b) /\ (forall b, b <> c_b c -> v_bufs s1 !!! b = v_bufs s !!! b) /\
  (forall b, blockno s b <> blockno s (c_b c) -> block_of s1 b = block_of s b) /\ transferred s1 c.
Proof.
  intros I Ht Hr [C1 C2 C3 C4 C5] [Hu1 Hu2]. destruct (proj2 (vi_bufs _ _ _ _ I) t c p Ht Hr) as [v Hv]. pose proof (proj1 (vi_bufs _ _ _ _ I) _ _ Hv) as [Hbn Hlen].
  assert (Edata : bdata s (c_b c) = vb_data v) by (unfold bdata; by rewrite (lookup_total_correct _ _ _ Hv)).
  unfold dev_serve. rewrite C2. cbn [d_next d_addr d_flags d_len]. rewrite C3. cbn [d_next d_addr d_flags d_len]. rewrite C4. cbn [d_next d_addr d_flags d_len]. rewrite C1. cbn [r_type r_sector].
  change (Z.to_nat (BSIZE / 512)) with 2%nat. destruct (c_write c) eqn:Ew.
  - eexists. split; [reflexivity|]. do 6 (split; [done|]). split; [intros k; cbn [set_dev v_dev dv_sect]; apply write_sectors_len; [|apply I]; fold (bdata s (c_b c)); by rewrite Edata|].
    split; [apply I|]. split; [done|]. split; [done|]. split; [done|]. split; [done|]. split.
    + intros b Hb. unfold block_of. by apply read_write_other.
    + unfold transferred. rewrite Ew. split; [|exact Hu1]. unfold block_of. cbn [set_dev v_dev dv_sect]. change (blockno (set_dev _ s) (c_b c)) with (blockno s (c_b c)).
      symmetry. apply read_write_same. change (length (bdata s (c_b c)) = Z.to_nat BSIZE). by rewrite Edata.
  - eexists. split; [reflexivity|]. do 6 (split; [done|]). split; [apply I|]. set (f := fun v => mkvbuf _ _ _). set (s1 := set_bufs _ s).
    assert (Ebn : forall b, blockno s1 b = blockno s b /\ busy s1 b = busy s b).
    { intros b. unfold blockno, busy, s1. cbn [set_bufs v_bufs]. destruct (decide (b = c_b c)) as [->|Hne]; [|by rewrite lookup_alter_total_ne]. by rewrite lookup_alter_total. }
    split; [intros b v'; cbn; destruct (decide (b = c_b c)) as [->|Hne]; [rewrite lookup_alter_eq, Hv; intros [= <-]|rewrite lookup_alter_ne by done; apply I]|].
    { split; [done|]. cbn [f vb_data]. apply read_sectors_len, I. }
    split; [intros b; cbn; destruct (decide (b = c_b c)) as [->|Hne]; [rewrite lookup_alter_eq, Hv; by eexists|by rewrite lookup_alter_ne]|].
    split; [apply Ebn|]. split; [apply Ebn|]. split; [intros b Hb; unfold s1; cbn [set_bufs v_bufs]; by apply lookup_alter_total_ne|].
    split; [intros b _; unfold block_of; by rewrite (proj1 (Ebn b))|].
    assert (Eblk : block_of s1 (c_b c) = block_of s (c_b c)) by (unfold block_of; by rewrite (proj1 (Ebn (c_b c)))).
    unfold transferred. rewrite Ew, Eblk. split; [|exact Hu2]. unfold bdata, s1. cbn [set_bufs v_bufs]. rewrite lookup_alter_total by (by exists v). done.
Qed.

Lemma dev_serve_ok s h : vgood s -> h ∈ dv_pend (v_dev s) -> exists s', dev_serve h s = Some s' /\ vgood s'.
Proof.
  intros (Q & U & I & Hs & Hheld) Hin. destruct (vi_heads _ _ _ _ I h) as (t & c & p & Ht & Hh); [unfold pend; set_solver|]. destruct (head_stage c p h Hh) as (i1 & i2 & Hidx & Hiff).
  pose proof (proj1 (Hiff _ _ _ _) (vi_stage _ _ _ _ I t c p Ht)) as [C Hp]. assert (Hact : p <> Returned) by (by intros ->). pose proof (vi_nodup _ _ _ _ I) as Hnd.
  assert (HnU : h ∉ U /\ h ∉ Q) by (apply NoDup_app in Hnd as (_ & N2 & (_ & N4 & _)%NoDup_app); split; [by apply N4|intros Hq; apply (N2 h Hq); set_solver]).
  assert (Hun : busy s (c_b c) = true /\ untouched s c) by (destruct Hp as [(_ & Hb & Hu)|[(K & _)|(K & _)]]; [done|tauto|unfold pend in K; set_solver]). destruct Hun as [Hb Hu].
  destruct (dev_transfer s Q U t c p h i1 i2 I Ht Hact C Hu) as (s1 & E & Eq & Ed & Et & El & Ela & Ep & T1 & T2 & T3 & T4 & T5 & T6 & T7 & T8). exists (dev_report h h s1). split; [done|].
  assert (Hlt : (h < NUM)%nat) by (apply (vi_head_lt s Q U [] h I); unfold pend; set_solver). destruct (vi_len _ _ _ _ I) as (L1 & L2 & L3 & L4).
  set (P' := filter (fun x => x <> h) (pend s)). assert (Epend : pend (dev_report h h s1) = P') by (unfold P'; rewrite <- Ep; done).
  assert (Hsplit : pend s ≡ₚ h :: P').
  { apply NoDup_Permutation; [apply NoDup_app in Hnd as (_ & _ & Hnd); by apply NoDup_app in Hnd as (? & _)|constructor; [unfold P'; rewrite list_elem_of_filter; naive_solver|]|].
    - apply NoDup_filter. apply NoDup_app in Hnd as (_ & _ & Hnd). by apply NoDup_app in Hnd as (? & _).
    - intros x. unfold P'. rewrite elem_of_cons, list_elem_of_filter. destruct (decide (x = h)) as [->|]; naive_solver. }
  assert (Hperm : Q ++ P' ++ U ++ [h] ≡ₚ Q ++ pend s ++ U) by (rewrite Hsplit; cbn; apply Permutation_app_head; rewrite (assoc_L (++)); by rewrite <- Permutation_cons_append).
  assert (Hlen : (length U < NUM)%nat).
  { assert (Hle : (length (Q ++ pend s ++ U) <= NUM)%nat) by (apply nodup_bound; [done|]; apply Forall_forall; intros x Hx; by apply (vi_head_lt s Q U [] x I)). rewrite Hsplit, !length_app in Hle. cbn in Hle. lia. }
  destruct (ring_write _ _ _ _ h (vi_used _ _ _ _ I) Hlen) as [Hr1 Hr2]. pose proof (ring_bump _ _ _ _ h Hr1 Hlen Hr2) as Hr3.
  exists Q, (U ++ [h]). split; [|split].
  - constructor; rewrite ?Epend; cbn [dev_report set_dev set_q set_info set_d v_q v_d v_thr v_lock v_dev v_bufs q_desc q_avail q_aidx q_used q_uidx v_free v_used_idx v_info v_ops dv_last dv_sect]; rewrite ?Eq, ?Ed, ?Et, ?El, ?Ela; try apply I; try done.
    + rewrite length_alter. done.
    + split; [done|]. intros t' c' q Hq Hr. apply T3. by apply (proj2 (vi_bufs _ _ _ _ I) t' c' q).
    + intros t1' t2' c1 p1 c2 p2. change (blockno (dev_report h h s1)) with (blockno s1). rewrite !T4. apply (vi_excl _ _ _ _ I).
    + intros t' c' q Hq. pose proof (vi_stage _ _ _ _ I t' c' q Hq) as Hsq. destruct (decide (t' = t)) as [->|Hne].
      * rewrite Ht in Hq. injection Hq as <- <-. apply Hiff. split.
        -- destruct C as [C1 C2 C3 C4 C5]. split; cbn; rewrite ?Eq, ?Ed; [change (blockno (dev_report h h s1)) with (blockno s1); by rewrite T4|done..|]. rewrite list_lookup_total_alter_eq by lia. done.
        -- right. left. split; [set_solver|]. change (busy (dev_report h h s1)) with (busy s1). rewrite T5. split; [done|]. split; [cbn; rewrite Ed, list_lookup_total_alter_eq by lia; done|exact T8].
      * destruct (decide (q = Returned)) as [->|Hr]; [done|]. destruct (vi_excl _ _ _ _ I t' t c' q c p Hq Ht Hr Hact Hne) as [X1 X2]. revert Hsq. apply stage_frame.
        -- by apply T6.
        -- by apply T7.
        -- intros i Hi. cbn. rewrite Eq, Ed. rewrite list_lookup_total_alter_ne; [done|]. intros ->. apply Hne. eapply (vi_disj _ _ _ _ I t' t); eauto using head_idx.
        -- intros h' Hh'. assert (h' <> h) by (intros ->; apply Hne; eapply (vi_disj _ _ _ _ I t' t); eauto using head_idx). unfold P'. rewrite !elem_of_app, list_elem_of_filter. set_solver.
        -- intros j0 j1 j2 _. cbn. by rewrite Eq.
    + by rewrite Hperm.
    + intros h' Hin'. rewrite Hperm in Hin'. by apply (vi_heads _ _ _ _ I).
  - intros t' c' q Hq. cbn in Hq. rewrite Et in Hq. specialize (Hs t' c' q Hq). destruct q as [|[]| | | |j0 j1 j2 []|]; cbn in *; try done; [by rewrite Ed|]. change (busy (dev_report h h s1)) with (busy s1). by rewrite T5.
  - intros t' Hl'. cbn in Hl'. rewrite El in Hl'. cbn. rewrite Et. by apply Hheld.
Qed.

(** ** Every step *)

Lemma vs_buf_ok s b v : vgood s -> idle s b (vb_blockno v) -> buf_ok v -> vgood (set_bufs (<[b := v]>) s).
Proof.
  intros (Q & U & I & Hs & Hh) Hidle Hok. assert (Hoth : forall t c p, v_thr s !! t = Some (c, p) -> p <> Returned -> v_bufs (set_bufs (<[b := v]>) s) !!! c_b c = v_bufs s !!! c_b c).
  { intros t c p Hp Hr. cbn. apply lookup_total_insert_ne. destruct (Hidle t c p Hp Hr). congruence. }
  assert (Hbn : forall t c p, v_thr s !! t = Some (c, p) -> p <> Returned -> blockno (set_bufs (<[b := v]>) s) (c_b c) = blockno s (c_b c)) by (intros t c p Hp Hr; unfold blockno; by rewrite (Hoth t c p)).
  exists Q, U. split; [|split; [|exact Hh]].
  - constructor; try apply I.
    + split; [intros b' v'; cbn; rewrite lookup_insert_Some; intros [[_ <-]|[_ Hv]]; [done|by apply (proj1 (vi_bufs _ _ _ _ I) b')]|]. intros t c p Hp Hr. cbn. rewrite lookup_insert_ne; [by apply (proj2 (vi_bufs _ _ _ _ I) t c p)|].
      destruct (Hidle t c p Hp Hr). congruence.
    + intros t1 t2 c1 p1 c2 p2 H1 H2 R1 R2 Hne. rewrite (Hbn t1 c1 p1), (Hbn t2 c2 p2) by done. by apply (vi_excl _ _ _ _ I t1 t2 c1 p1 c2 p2).
    + intros t c p Hp. destruct (decide (p = Returned)) as [->|Hr]; [done|]. eapply stage_frame; [by apply (Hoth t c p)|unfold block_of; by rewrite (Hbn t c p)|done|done|done|by apply (vi_stage _ _ _ _ I t)].
  - intros t c p Hp. specialize (Hs t c p Hp). destruct p as [|[]| | | |j0 j1 j2 []|]; try done. unfold sleeps, busy in *. by rewrite (Hoth t c _ Hp).
Qed.

Lemma rw_step_ok s t : vgood s -> v_lock s = Thread t -> exists s', rw_step t s = Ok (tt, s') /\ vgood s' /\ forall c, v_thr s' !! t = Some (c, Returned) -> transferred s' c.
Proof.
  intros H Hl. pose proof H as (Q & U & _ & _ & Hh). destruct (Hh t Hl) as (c & p & Ht & Hr). unfold rw_step. rewrite (bind_ok _ _ _ (v_thr s !! t) s) by done. rewrite Ht.
  assert (Hnr : forall s', (exists p', v_thr s' !! t = Some (c, p') /\ p' <> Returned) -> forall c, v_thr s' !! t = Some (c, Returned) -> transferred s' c) by (intros s' (p' & E & Hp') c' Hc'; congruence).
  destruct p as [|w|i0 i1 i2|i0 i1 i2|i0 i1 i2|i0 i1 i2 w|]; try done.
  - destruct (rw_alloc_ok s t c H Hl Ht) as (s' & E & G & W). exists s'. split; [done|]. split; [done|]. by apply Hnr.
  - destruct (rw_format_ok s t c i0 i1 i2 H Hl Ht) as (s' & E & G & W). exists s'. split; [done|]. split; [done|]. by apply Hnr.
  - destruct (rw_publish_ok s t c i0 i1 i2 H Hl Ht) as (s' & E & G & W). exists s'. split; [done|]. split; [done|]. by apply Hnr.
  - destruct (rw_wait_ok s t c i0 i1 i2 H Hl Ht) as (s' & E & G & W). exists s'. split; [done|]. split; [done|]. intros c' Hc'. destruct (busy s (c_b c)); [congruence|]. destruct W as [W1 W2]. rewrite W1 in Hc'. by injection Hc' as <-.
Qed.

Section reach.
Context (device : vst -> vst -> Prop) (Hspec : forall s s', device s s' -> virtio_spec s s').

Lemma vstep_good s s' : vgood s -> vstep device s s' -> vgood s'.
Proof.
  intros H. destruct 1 as [b v Hi Hok|t b w v Hl Hc Hb Hi|t s' Hl E|t s' Hl Hc E|st s' Hl E|s' Hl E|s' E].
  - by apply vs_buf_ok.
  - by apply (rw_enter_ok s t b w v).
  - destruct (rw_step_ok s t H Hl) as (s1 & E1 & G & _). congruence.
  - destruct (rw_resume_ok s t H Hl Hc) as (s1 & E1 & G). congruence.
  - injection E as <-. destruct H as (Q & U & I & Hs & Hh). exists Q, U. split; [|split; [exact Hs|by intros t E]]. constructor; try apply I.
    + intros t c p Hp. eapply stage_frame; [..|by apply (vi_stage _ _ _ _ I t)]; done.
    + intros t c p Hp Hr. pose proof (vi_lock _ _ _ _ I t c p Hp Hr). congruence.
  - destruct (intr_step_ok s H Hl) as (s1 & E1 & G). congruence.
  - destruct (Hspec s s' E) as [Hne|h s1 Hin Es|h s1 Hin En].
    + by apply dev_fetch_ok.
    + destruct (dev_serve_ok s h H Hin) as (s2 & E2 & G). congruence.
    + destruct (dev_serve_ok s h H Hin) as (s2 & E2 & G). congruence.
Qed.

Lemma ring_start : ring_ok (replicate NUM 0%nat) 0 [] 0.
Proof. constructor; try done; [unfold NUM; cbn; lia]. Qed.

Lemma init_good reg pages sect s : (forall k, length (sect k) = 512%nat) -> virtio_disk_init reg pages (boot sect) = Ok (tt, s) -> vgood s.
Proof.
  intros Hk E. unfold virtio_disk_init in E. destruct (_ || _) in E; [done|]. do 7 (apply bind_ok_inv in E as ([] & ? & E1 & E); injection E1 as <-). destruct (_ || _) in E; [done|].
  do 3 (apply bind_ok_inv in E as ([] & ? & E1 & E); injection E1 as <-). injection E as <-. exists [], []. split; [|split; [by intros t c p Hp; cbn in Hp; rewrite lookup_empty in Hp|by intros t Hl]].
  constructor; cbn [set_d set_q set_reg boot v_q v_d v_thr v_lock v_dev v_bufs q_desc q_avail q_aidx q_used q_uidx v_free v_used_idx v_info v_ops dv_last dv_sect]; try apply ring_start; try done; try (intros; match goal with H : ∅ !! _ = Some _ |- _ => by rewrite lookup_empty in H end).
  - intros i Hi. match goal with |- context [?l !! i = Some false] => change l with (replicate NUM true) end. rewrite lookup_replicate_2 by done. split; [done|]. intros [Hx|(t & c & p & Hp & _)]; [by apply not_elem_of_nil in Hx|by rewrite lookup_empty in Hp].
  - split; [apply NoDup_nil_2|]. split; [constructor|done].
  - apply NoDup_nil_2.
  - intros h Hin. by apply not_elem_of_nil in Hin.
Qed.

Lemma vreach_good s : vreach device s -> vgood s.
Proof. intros (reg & pages & sect & s0 & Hk & E & Hr). apply init_good in E; [|done]. induction Hr as [s|s1 s2 s3 H12 _ IH]; [done|]. by apply IH, (vstep_good s1). Qed.
End reach.

Lemma asleep_work s Q U t c i0 i1 i2 : vinv s Q U [] -> v_thr s !! t = Some (c, Asleep i0 i1 i2 false) -> busy s (c_b c) = true ->
  dv_last (v_dev s) <> q_aidx (v_q s) \/ dv_pend (v_dev s) <> [] \/ v_used_idx (v_d s) <> q_uidx (v_q s).
Proof.
  intros I Ht Hb. pose proof (vi_stage _ _ _ _ I t _ _ Ht) as [_ Hp]. destruct Hp as [([Hin|Hin]%elem_of_app & _)|[(Hin & _)|(_ & Hf & _)]]; [| | |congruence].
  - left. intros E. apply (ring_empty _ _ _ _ (vi_avail _ _ _ _ I)) in E. subst Q. by apply not_elem_of_nil in Hin.
  - right. left. intros E. unfold pend in Hin. rewrite E in Hin. by apply not_elem_of_nil in Hin.
  - right. right. intros E. apply (ring_empty _ _ _ _ (vi_used _ _ _ _ I)) in E. subst U. by apply not_elem_of_nil in Hin.
Qed.

(** Unless someone holds the lock, a request under way waits for the device or for the
    handler, or has been woken. *)
Lemma request_waits s t c p : vgood s -> v_lock s = Nobody -> v_thr s !! t = Some (c, p) -> p <> Returned ->
  (exists t', can_resume s t') \/ dv_last (v_dev s) <> q_aidx (v_q s) \/ dv_pend (v_dev s) <> [] \/ v_used_idx (v_d s) <> q_uidx (v_q s).
Proof.
  intros (Q & U & I & Hs & _) Hl Ht Hr.
  assert (Hcase : forall t c p, v_thr s !! t = Some (c, p) -> ~ running p) by (intros t' c' p' Hp' R; pose proof (vi_lock _ _ _ _ I t' c' p' Hp' R); congruence).
  assert (Hsl : forall t c i0 i1 i2 w, v_thr s !! t = Some (c, Asleep i0 i1 i2 w) -> (exists t', can_resume s t') \/ dv_last (v_dev s) <> q_aidx (v_q s) \/ dv_pend (v_dev s) <> [] \/ v_used_idx (v_d s) <> q_uidx (v_q s)).
  { intros t' c' i0 i1 i2 w Hp'. destruct w; [left; exists t'; unfold can_resume; by rewrite Hp'|]. right. exact (asleep_work s Q U t' c' i0 i1 i2 I Hp' (Hs t' c' _ Hp')). }
  destruct p as [|w|i0 i1 i2|i0 i1 i2|i0 i1 i2|i0 i1 i2 w|]; try (by destruct (Hcase _ _ _ Ht)); try done; [|by apply (Hsl t c i0 i1 i2 w)].
  destruct w; [left; exists t; unfold can_resume; by rewrite Ht|]. pose proof (Hs t c _ Ht) as Hfew. cbn in Hfew. destruct (vi_len _ _ _ _ I) as (L & _).
  assert (Hex : exists i, (i < NUM)%nat /\ v_free (v_d s) !! i = Some false).
  { destruct (lookup_lt_is_Some_2 (v_free (v_d s)) 0 ltac:(rewrite L; unfold NUM; lia)) as [[] E0], (lookup_lt_is_Some_2 (v_free (v_d s)) 1 ltac:(rewrite L; unfold NUM; lia)) as [[] E1], (lookup_lt_is_Some_2 (v_free (v_d s)) 2 ltac:(rewrite L; unfold NUM; lia)) as [[] E2];
      [by destruct (Hfew 0%nat 1%nat 2%nat)|..]; (by exists 0%nat; split; [unfold NUM; lia|]) || (by exists 1%nat; split; [unfold NUM; lia|]) || (by exists 2%nat; split; [unfold NUM; lia|]). }
  destruct Hex as (i & Hi & [Hx|(t' & c' & q & Hq & Hiq)]%(vi_own _ _ _ _ I i Hi)); [by apply not_elem_of_nil in Hx|].
  destruct q as [|w|i0 i1 i2|i0 i1 i2|i0 i1 i2|i0 i1 i2 w|]; try (by destruct (Hcase _ _ _ Hq)); try (by apply not_elem_of_nil in Hiq). by apply (Hsl t' c' i0 i1 i2 w).
Qed.



(** ** The driver as the atomic transfer that the buffer cache takes it for *)

(** Block [n] of the disk *)
Definition disk_at (s : vst) (n : Z) : list Z := read_sectors 2 (2 * n) (dv_sect (v_dev s)).

(** Code of the driver does not touch the disk itself. *)
Definition keeps_dev {A} (m : V A) : Prop := forall s a s', m s = Ok (a, s') -> v_dev s' = v_dev s.

Lemma keeps_ret {A} (a : A) : keeps_dev (ret a).
Proof. by intros s b s' [= _ <-]. Qed.
Lemma keeps_gets {A} (f : vst -> A) : keeps_dev (Prelude.gets f).
Proof. by intros s b s' [= _ <-]. Qed.
Lemma keeps_panic {A} msg : keeps_dev (panic msg : V A).
Proof. by intros s b s'. Qed.
Lemma keeps_nofuel {A} : keeps_dev (nofuel : V A).
Proof. by intros s b s'. Qed.
Lemma keeps_modify (f : vst -> vst) : (forall s, v_dev (f s) = v_dev s) -> keeps_dev (modify f).
Proof. intros H s b s' [= _ <-]. apply H. Qed.
Lemma keeps_bind {A B} (m : V A) (k : A -> V B) : keeps_dev m -> (forall a, keeps_dev (k a)) -> keeps_dev (bind m k).
Proof. intros Hm Hk s b s' (a & s1 & E1 & E2)%bind_ok_inv. by rewrite (Hk _ _ _ _ E2), (Hm _ _ _ E1). Qed.
Create HintDb keeps.
#[local] Hint Resolve keeps_ret keeps_gets keeps_panic keeps_nofuel : keeps.
#[local] Hint Extern 1 (keeps_dev (modify _)) => apply keeps_modify; intros; reflexivity : keeps.
Ltac keeps := repeat first [apply keeps_bind; [|intros]|case_match]; auto with keeps.

Lemma keeps_free_desc i : keeps_dev (free_desc i).
Proof. unfold free_desc, vwakeup. keeps. Qed.
#[local] Hint Resolve keeps_free_desc : keeps.
Lemma keeps_free_chain n : forall i, keeps_dev (free_chain n i).
Proof. induction n; intros i; cbn [free_chain]; keeps. Qed.
Lemma keeps_free_descs l : keeps_dev (free_descs l).
Proof. induction l; cbn [free_descs]; keeps. Qed.
Lemma keeps_alloc_loop n : forall i, keeps_dev (alloc_loop n i).
Proof. induction n; intros i; cbn [alloc_loop]; keeps. Qed.
#[local] Hint Resolve keeps_free_chain keeps_free_descs keeps_alloc_loop : keeps.
Lemma keeps_alloc3 n : forall idx, keeps_dev (alloc3_loop n idx).
Proof. induction n; intros idx; cbn [alloc3_loop]; unfold alloc_desc; keeps. Qed.
#[local] Hint Resolve keeps_alloc3 : keeps.

Lemma keeps_rw_step t : keeps_dev (rw_step t).
Proof.
  unfold rw_step. apply keeps_bind; [auto with keeps|]. intros [[c []]|]; auto with keeps.
  - unfold rw_alloc, alloc3_desc, release. keeps.
  - unfold rw_format. keeps.
  - unfold rw_publish. keeps.
  - unfold rw_wait, release. keeps.
Qed.
Lemma keeps_rw_resume t : keeps_dev (rw_resume t).
Proof. unfold rw_resume. keeps. Qed.
Lemma keeps_intr_step : keeps_dev intr_step.
Proof. unfold intr_step, release, vwakeup. keeps. Qed.

(** A call that is under way and writes [d] to block [n] *)
Definition writing (s : vst) (n : Z) (d : list Z) : Prop :=
  exists t c p, v_thr s !! t = Some (c, p) /\ p <> Returned /\ c_write c = true /\ blockno s (c_b c) = n /\ c_data c = d.

Lemma dev_serve_disk s h s' n : vgood s -> h ∈ dv_pend (v_dev s) -> dev_serve h s = Some s' -> disk_at s' n = disk_at s n \/ writing s n (disk_at s' n).
Proof.
  intros (Q & U & I & _) Hin E. destruct (vi_heads _ _ _ _ I h) as (t & c & p & Ht & Hh); [unfold pend; set_solver|]. destruct (head_stage c p h Hh) as (i1 & i2 & _ & Hiff).
  pose proof (proj1 (Hiff _ _ _ _) (vi_stage _ _ _ _ I t c p Ht)) as [[C1 C2 C3 C4 C5] Hp]. assert (Hact : p <> Returned) by (by intros ->). pose proof (vi_nodup _ _ _ _ I) as Hnd.
  assert (HnU : h ∉ U) by (apply NoDup_app in Hnd as (_ & _ & (_ & N4 & _)%NoDup_app); by apply N4).
  assert (Hun : untouched s c) by (destruct Hp as [(_ & _ & Hu)|[(K & _)|(K & _)]]; [done|tauto|unfold pend in K; set_solver]). destruct Hun as [Hu _].
  destruct (proj2 (vi_bufs _ _ _ _ I) t c p Ht Hact) as [v Hv]. pose proof (proj1 (vi_bufs _ _ _ _ I) _ _ Hv) as [_ Hlen].
  unfold dev_serve in E. rewrite C2 in E. cbn [d_next d_addr d_flags d_len] in E. rewrite C3 in E. cbn [d_next d_addr d_flags d_len] in E. rewrite C4 in E. cbn [d_next d_addr d_flags d_len] in E. rewrite C1 in E. cbn [r_type r_sector] in E.
  change (Z.to_nat (BSIZE / 512)) with 2%nat in E. destruct (c_write c) eqn:Ew; hnf in E; injection E as <-; [|by left].
  unfold disk_at. cbn [dev_report set_dev set_q set_info set_d v_dev dv_sect]. fold (bdata s (c_b c)). destruct (decide (n = blockno s (c_b c))) as [->|Hn]; [right|left; by apply read_write_other].
  exists t, c, p. split; [done|]. split; [done|]. split; [done|]. split; [done|].
  symmetry. etrans; [|exact Hu]. apply (read_write_same _ (bdata s (c_b c)) (dv_sect (v_dev s))). unfold bdata. by rewrite (lookup_total_correct _ _ _ Hv).
Qed.

Lemma vstep_disk device s s' n : (forall s s', device s s' -> virtio_spec s s') -> vgood s -> vstep device s s' -> disk_at s' n = disk_at s n \/ writing s n (disk_at s' n).
Proof.
  intros Hspec H Hst. assert (Hk : v_dev s' = v_dev s -> disk_at s' n = disk_at s n \/ writing s n (disk_at s' n)) by (intros E; left; unfold disk_at; by rewrite E).
  destruct Hst as [b v Hi Hok|t b w v Hl Hc Hb Hi|t s' Hl E|t s' Hl Hc E|st s' Hl E|s' Hl E|s' E].
  - by apply Hk.
  - by apply Hk.
  - by apply Hk, (keeps_rw_step t _ tt).
  - by apply Hk, (keeps_rw_resume t _ tt).
  - apply Hk. by injection E as <-.
  - by apply Hk, (keeps_intr_step _ tt).
  - destruct (Hspec s s' E) as [Hne|h s1 Hin Es|h s1 Hin En]; [by left|by apply (dev_serve_disk s h)|]. destruct (dev_serve_ok s h H Hin) as (s2 & E2 & _). congruence.
Qed.

(** What the cache takes of the driver, on the buffer and the block of a call *)
Lemma contract_run x i (w : bool) n d blk : (i < length (bufs x))%nat -> Bio.blockno (bufs x !!! i) = n -> Bio.bdata (bufs x !!! i) = d -> dread (dsk x) n = blk ->
  exists x', Bio.virtio_disk_rw i w x = Ok (tt, x') /\ Bio.bdata (bufs x' !!! i) = (if w then d else blk) /\ dread (dsk x') n = (if w then d else blk).
Proof.
  intros Hi Hn Hd Hb. unfold Bio.virtio_disk_rw, getb, bind, Prelude.gets. destruct w; (eexists; split; [reflexivity|]); cbn [bufs dsk with_bufs].
  - rewrite Hn, Hd. split; [done|]. unfold dread. by rewrite lookup_insert_eq.
  - rewrite list_lookup_total_alter_eq by done. cbn [set_data Bio.bdata]. by rewrite Hn, Hb.
Qed.


(** ** A device that serves requests in order, and one thread that writes a block *)

Definition dev_next (s : vst) : option vst :=
  match dv_pend (v_dev s) with
  | h :: _ => Some (default s (dev_serve h s))
  | [] => if decide (dv_last (v_dev s) = q_aidx (v_q s)) then None else Some (dev_fetch s)
  end.
Definition in_order (s s' : vst) : Prop := dev_next s = Some s'.

Lemma in_order_spec s s' : in_order s s' -> virtio_spec s s'.
Proof.
  unfold in_order, dev_next. destruct (dv_pend (v_dev s)) as [|h P] eqn:E; [case_decide; [done|]; intros [= <-]; by apply dv_fetch|]. intros [= <-].
  destruct (dev_serve h s) as [s1|] eqn:Es; cbn; [apply (dv_serve s h)|apply (dv_broken s h)]; (rewrite E; set_solver) || done.
Qed.

Lemma in_order_live s : dv_last (v_dev s) <> q_aidx (v_q s) \/ dv_pend (v_dev s) <> [] -> exists s', in_order s s'.
Proof. unfold in_order, dev_next. destruct (dv_pend (v_dev s)) as [|h P]; [|by eexists]. intros [H|H]; [|done]. rewrite decide_False by done. by eexists. Qed.

Inductive action := Abuf (b : nat) (v : vbuf) | Acall (t b : nat) (w : bool) | Arun (t : nat) | Aresume (t : nat) | Airq | Aintr | Adev.

Definition is_none (h : holder) : bool := match h with Nobody => true | _ => false end.
Definition is_thread (t : nat) (h : holder) : bool := match h with Thread t' => (t =? t')%nat | _ => false end.
Definition is_handler (h : holder) : bool := match h with Handler => true | _ => false end.
Definition no_calls (s : vst) : bool := bool_decide (v_thr s = ∅).
Definition woken_thread (s : vst) (t : nat) : bool := match v_thr s !! t with Some (_, AllocSleep true) | Some (_, Asleep _ _ _ true) => true | _ => false end.

Definition act (a : action) (s : vst) : res (unit * vst) :=
  match a with
  | Abuf b v => if no_calls s && (vb_blockno v =? 5) && bool_decide (length (vb_data v) = Z.to_nat BSIZE) then Ok (tt, set_bufs (<[b := v]>) s) else Blocked
  | Acall t b w => if is_none (v_lock s) && no_calls s && bool_decide (is_Some (v_bufs s !! b)) then Ok (tt, rw_enter t b w s) else Blocked
  | Arun t => if is_thread t (v_lock s) then rw_step t s else Blocked
  | Aresume t => if is_none (v_lock s) && woken_thread s t then rw_resume t s else Blocked
  | Airq => if is_none (v_lock s) then intr_enter 1 s else Blocked
  | Aintr => if is_handler (v_lock s) then intr_step s else Blocked
  | Adev => match dev_next s with Some s' => Ok (tt, s') | None => Blocked end
  end.

Lemma no_calls_idle s b bn : no_calls s = true -> idle s b bn.
Proof. intros H%bool_decide_eq_true t c p Hp. rewrite H, lookup_empty in Hp. done. Qed.

Lemma act_vstep a s s' : act a s = Ok (tt, s') -> vstep in_order s s'.
Proof.
  destruct a as [b v|t b w|t|t| | |]; cbn [act].
  - destruct (no_calls s) eqn:E1; [|done]. destruct (Z.eqb_spec (vb_blockno v) 5) as [E2|]; [|done]. case_bool_decide as E3; [|done]. intros [= <-]. apply vs_buf; [by apply no_calls_idle|]. split; [lia|done].
  - destruct (v_lock s) eqn:E1; [|done..]. destruct (no_calls s) eqn:E2; [|done]. case_bool_decide as E3; [|done]. intros [= <-]. destruct E3 as [v Hv]. apply (vs_call _ s t b w v); [done| |done|by apply no_calls_idle].
    apply bool_decide_eq_true in E2. unfold can_start. by rewrite E2, lookup_empty.
  - destruct (v_lock s) as [|t'|] eqn:E1; [done| |done]. cbn. destruct (Nat.eqb_spec t t') as [<-|]; [|done]. by apply vs_run.
  - destruct (v_lock s) eqn:E1; [|done..]. cbn. destruct (woken_thread s t) eqn:E2; [|done]. apply vs_resume; [done|]. unfold woken_thread, can_resume in *. by destruct (v_thr s !! t) as [[? [|[]| | | |? ? ? []|]]|].
  - destruct (v_lock s) eqn:E1; [|done..]. by apply vs_irq.
  - destruct (v_lock s) eqn:E1; [done..|]. by apply vs_intr.
  - destruct (dev_next s) as [s1|] eqn:E; [|done]. intros [= <-]. by apply vs_dev.
Qed.

Fixpoint acts (l : list action) (s : vst) : res (unit * vst) :=
  match l with
  | [] => Ok (tt, s)
  | a :: l' => (act a ;;; acts l') s
  end.

Lemma acts_vsteps l : forall s s', acts l s = Ok (tt, s') -> rtc (vstep in_order) s s'.
Proof.
  induction l as [|a l IH]; intros s s'; cbn [acts]; [intros [= <-]; apply rtc_refl|]. intros E. apply bind_ok_inv in E as ([] & s1 & E1 & E2). eapply rtc_l; [by apply (act_vstep a)|]. by apply IH.
Qed.

Definition vx_reg (r : Z) : Z := if r =? 0 then 0x74726976 else if r =? 4 then 1 else if r =? 8 then 2 else if r =? 0xc then 0x554d4551 else if r =? 0x34 then 1024 else 0.
Definition vx_sect (_ : Z) : list Z := replicate 512 0.
Definition vx_acts : list action := [Abuf 3 (mkvbuf 5 false (replicate 1024 7)); Acall 1 3 true; Arun 1; Arun 1; Arun 1; Arun 1; Adev; Adev; Airq; Aintr; Aintr; Aresume 1].

Lemma vx_check : match (virtio_disk_init vx_reg 0x40200000 ;;; acts vx_acts) (boot vx_sect) with
  | Ok (_, s) => is_thread 1 (v_lock s) && match rw_step 1 s with Ok (_, s') => match v_thr s' !! 1%nat with Some (c, Returned) => (c_b c =? 3)%nat && c_write c | _ => false end | _ => false end
  | _ => false
  end = true.
Proof. vm_compute. reflexivity. Qed.

(** Thread 1 is about to see that its write has finished. *)
Lemma vx_run : exists s s' c, vreach in_order s /\ v_lock s = Thread 1 /\ rw_step 1 s = Ok (tt, s') /\ v_thr s' !! 1%nat = Some (c, Returned) /\ c_b c = 3%nat /\ c_write c = true.
Proof.
  pose proof vx_check as H. destruct ((virtio_disk_init vx_reg 0x40200000 ;;; acts vx_acts) (boot vx_sect)) as [[[] s]| | |] eqn:E; [|discriminate H..].
  apply andb_true_iff in H as [Hl H]. destruct (rw_step 1 s) as [[[] s']| | |] eqn:Es; [|discriminate H..]. destruct (v_thr s' !! 1%nat) as [[c p]|] eqn:Et; [|discriminate H]. destruct p; try discriminate H.
  apply andb_true_iff in H as [Hb%Nat.eqb_eq Hw]. exists s, s', c. split; [|split; [|split; [exact Es|split; [exact Et|split; [exact Hb|exact Hw]]]]].
  - apply bind_ok_inv in E as ([] & s0 & E0 & E1). exists vx_reg, 0x40200000, vx_sect, s0. split; [intros k; apply length_replicate|]. split; [exact E0|]. exact (acts_vsteps vx_acts s0 s E1).
  - clear -Hl. destruct (v_lock s) as [|t|]; [discriminate Hl| |discriminate Hl]. apply Nat.eqb_eq in Hl. by rewrite Hl.
Qed.



