(* ===== verification/Bytes.v ===== *)
(** Byte strings as the structures the kernel overlays on disk blocks: fields are
    little-endian words at a byte offset, and [memmove] splices a string in. *)

From S2P Require Import Prelude.

(** The [n] bytes at offset [off], and [l] written there. *)
Definition sub (d : list Z) (off n : nat) : list Z := take n (drop off d).
Definition splice (d : list Z) (off : nat) (l : list Z) : list Z :=
  take off d ++ l ++ drop (off + length l) d.

Fixpoint le_bytes (n : nat) (v : Z) : list Z :=
  match n with
  | O => []
  | S n' => u8 v :: le_bytes n' (v / 256)
  end.

Fixpoint le_val (l : list Z) : Z :=
  match l with
  | [] => 0
  | b :: l' => b + 256 * le_val l'
  end.

Definition rd16 (d : list Z) (off : nat) : Z := le_val (sub d off 2).
Definition rd32 (d : list Z) (off : nat) : Z := le_val (sub d off 4).
Definition wr16 (d : list Z) (off : nat) (v : Z) : list Z := splice d off (le_bytes 2 v).
Definition wr32 (d : list Z) (off : nat) (v : Z) : list Z := splice d off (le_bytes 4 v).

Definition is_byte (b : Z) : Prop := 0 <= b < 256.

(** ** Words *)

Lemma length_le_bytes n v : length (le_bytes n v) = n.
Proof. revert v. induction n as [|n IH]; intros v; simpl; [done|]. by rewrite IH. Qed.

Lemma le_val_bytes n v : le_val (le_bytes n v) = v mod 256 ^ Z.of_nat n.
Proof.
  revert v. induction n as [|n IH]; intros v; [simpl; by rewrite Z.mod_1_r|].
  cbn [le_bytes le_val]. rewrite IH, Nat2Z.inj_succ, Z.pow_succ_r by lia. unfold u8.
  rewrite Z.rem_mul_r by lia. lia.
Qed.

Lemma le_bytes_byte n v : Forall is_byte (le_bytes n v).
Proof.
  revert v. induction n as [|n IH]; intros v; simpl; constructor; [|done]. apply u8_range.
Qed.

Lemma le_val_range l : Forall is_byte l -> 0 <= le_val l < 256 ^ Z.of_nat (length l).
Proof.
  induction 1 as [|b l Hb _ IH]; [done|]. cbn [le_val length].
  rewrite Nat2Z.inj_succ, Z.pow_succ_r by lia. unfold is_byte in Hb. lia.
Qed.

Lemma le_bytes_val l : Forall is_byte l -> le_bytes (length l) (le_val l) = l.
Proof.
  induction 1 as [|b l Hb _ IH]; [done|]. cbn [le_val length le_bytes]. unfold is_byte in Hb.
  f_equal; [unfold u8; lia|]. transitivity (le_bytes (length l) (le_val l)); [f_equal; lia|done].
Qed.

(** ** Splicing *)

Lemma length_splice d off l : (off + length l <= length d)%nat -> length (splice d off l) = length d.
Proof. intros H. unfold splice. rewrite !length_app, length_take, length_drop. lia. Qed.

Lemma length_sub d off n : (off + n <= length d)%nat -> length (sub d off n) = n.
Proof. intros H. unfold sub. rewrite length_take, length_drop. lia. Qed.

Lemma sub_splice_eq d off l n :
  (off + length l <= length d)%nat -> n = length l -> sub (splice d off l) off n = l.
Proof.
  intros H ->. unfold sub, splice. rewrite drop_app_length' by (rewrite length_take; lia).
  by rewrite take_app_length.
Qed.

Lemma lookup_splice d off l i :
  (off + length l <= length d)%nat ->
  splice d off l !! i = if decide (off <= i < off + length l)%nat then l !! (i - off)%nat else d !! i.
Proof.
  intros H. unfold splice. rewrite !lookup_app, lookup_take, lookup_drop.
  rewrite length_take, Nat.min_l by lia. case_decide as Hi.
  - rewrite (decide_False (P := (off <= i < _)%nat)) by lia.
    destruct (lookup_lt_is_Some_2 d i) as [x Hx]; [lia|]. by rewrite Hx.
  - case_decide as Hj.
    + destruct (lookup_lt_is_Some_2 l (i - off)) as [x Hx]; [lia|]. by rewrite Hx.
    + rewrite (lookup_ge_None_2 l) by lia. f_equal. lia.
Qed.

Lemma lookup_sub d off n i : sub d off n !! i = if decide (i < n)%nat then d !! (off + i)%nat else None.
Proof. unfold sub. rewrite lookup_take, lookup_drop. done. Qed.

Lemma sub_ext d d' off n :
  (forall i, (off <= i < off + n)%nat -> d !! i = d' !! i) -> sub d off n = sub d' off n.
Proof.
  intros H. apply list_eq. intros i. rewrite !lookup_sub. case_decide; [|done]. apply H. lia.
Qed.

Lemma sub_splice_ne d off l off' n :
  (off + length l <= length d)%nat -> (off' + n <= off \/ off + length l <= off')%nat ->
  sub (splice d off l) off' n = sub d off' n.
Proof.
  intros H Hd. apply sub_ext. intros i Hi. rewrite lookup_splice by done. rewrite decide_False; [done|lia].
Qed.

Lemma splice_same d off n : (off + n <= length d)%nat -> splice d off (sub d off n) = d.
Proof.
  intros H. apply list_eq. intros i. rewrite lookup_splice, length_sub by (rewrite ?length_sub; lia).
  case_decide; [|done]. rewrite lookup_sub, decide_True by lia. f_equal. lia.
Qed.

Lemma splice_byte d off l : Forall is_byte d -> Forall is_byte l -> Forall is_byte (splice d off l).
Proof.
  intros Hd Hl. unfold splice. rewrite !Forall_app. split_and!; [by apply Forall_take|done|by apply Forall_drop].
Qed.

Lemma sub_byte d off n : Forall is_byte d -> Forall is_byte (sub d off n).
Proof. intros. by apply Forall_take, Forall_drop. Qed.

(** ** Fields *)

Lemma length_wr32 d off v : (off + 4 <= length d)%nat -> length (wr32 d off v) = length d.
Proof. intros. by apply length_splice. Qed.

Lemma length_wr16 d off v : (off + 2 <= length d)%nat -> length (wr16 d off v) = length d.
Proof. intros. by apply length_splice. Qed.

Lemma rd32_wr32 d off v : (off + 4 <= length d)%nat -> rd32 (wr32 d off v) off = u32 v.
Proof.
  intros. unfold rd32, wr32. rewrite sub_splice_eq by (rewrite ?length_le_bytes; done).
  by rewrite le_val_bytes.
Qed.

Lemma rd16_wr16 d off v : (off + 2 <= length d)%nat -> rd16 (wr16 d off v) off = u16 v.
Proof.
  intros. unfold rd16, wr16. rewrite sub_splice_eq by (rewrite ?length_le_bytes; done).
  by rewrite le_val_bytes.
Qed.

Lemma rd32_wr32_ne d off off' v :
  (off + 4 <= length d)%nat -> (off' + 4 <= off \/ off + 4 <= off')%nat ->
  rd32 (wr32 d off v) off' = rd32 d off'.
Proof. intros. unfold rd32, wr32. by rewrite sub_splice_ne. Qed.

Lemma rd32_range d off : Forall is_byte d -> 0 <= rd32 d off < 2 ^ 32.
Proof.
  intros H. unfold rd32. pose proof (sub_byte d off 4 H) as Hs.
  pose proof (le_val_range _ Hs) as Hr. unfold sub in *. rewrite length_take in Hr.
  assert (256 ^ Z.of_nat (4 `min` length (drop off d)) <= 256 ^ 4) by (apply Z.pow_le_mono_r; lia). lia.
Qed.

Lemma s32_u32 x : s32 (u32 x) = s32 x.
Proof. unfold s32, u32. lia. Qed.

Lemma u32_s32 x : u32 (s32 x) = u32 x.
Proof. unfold s32, u32. lia. Qed.
