(* ===== verification/Log.v ===== *)
(** kernel/log.c: the write-ahead redo log.  The critical sections under
    [Log.lock] are atomic; [sleep] is the outcome [Blocked], after which the
    caller's loop runs again from its test. *)

From S2P Require Import Prelude Sleeplock Bio Bytes.

Definition MAXOPBLOCKS : Z := 10.
Definition LOGSIZE : Z := MAXOPBLOCKS * 3.

(** struct log, over the buffer cache it writes through.  [lhn] and [lhblock]
    are the in-memory header [lh]. *)
Record log := mklog {
  lb : bst; lstart : Z; lsize : Z; outstanding : Z; committing : bool; ldev : Z;
  lhn : Z; lhblock : list Z
}.

Definition set_lb (b : bst) (l : log) : log :=
  mklog b (lstart l) (lsize l) (outstanding l) (committing l) (ldev l) (lhn l) (lhblock l).
Definition set_lhn (n : Z) (l : log) : log :=
  mklog (lb l) (lstart l) (lsize l) (outstanding l) (committing l) (ldev l) n (lhblock l).
Definition set_lhblock (i : Z) (v : Z) (l : log) : log :=
  mklog (lb l) (lstart l) (lsize l) (outstanding l) (committing l) (ldev l) (lhn l)
    (<[Z.to_nat i := v]> (lhblock l)).
Definition set_outstanding (n : Z) (l : log) : log :=
  mklog (lb l) (lstart l) (lsize l) n (committing l) (ldev l) (lhn l) (lhblock l).
Definition set_committing (c : bool) (l : log) : log :=
  mklog (lb l) (lstart l) (lsize l) (outstanding l) c (ldev l) (lhn l) (lhblock l).

(** A call into the buffer cache. *)
Definition bio {A} (m : M bst A) : M log A := zoom lb set_lb m.

Definition lhb (i : Z) (l : log) : Z := lhblock l !!! Z.to_nat i.

(** struct logheader overlaid on a block: [n] at offset 0, [block[i]] after it. *)
Definition hd_n (d : list Z) : Z := s32 (rd32 d 0).
Definition hd_off (i : Z) : nat := Z.to_nat (4 + 4 * i).
Definition hd_block (d : list Z) (i : Z) : Z := s32 (rd32 d (hd_off i)).

(** The loops test [Log.lh.n] at each turn; the fuel bounds the turns. *)
Definition turns : M log nat := n <- gets lhn ;; ret (S (Z.to_nat n)).

Fixpoint install_loop (fuel : nat) (recovering : bool) (tail : Z) : M log unit :=
  match fuel with
  | O => nofuel
  | S f =>
      n <- gets lhn ;;
      if tail <? n then
        dev <- gets ldev ;;
        start <- gets lstart ;;
        lbuf <- bio (bread dev (u32 (start + tail + 1))) ;;
        bno <- gets (lhb tail) ;;
        dbuf <- bio (bread dev (u32 bno)) ;;
        x <- bio (getb lbuf) ;;
        bio (updb dbuf (set_data (bdata x))) ;;;
        bio (bwrite dbuf) ;;;
        (if (recovering : bool) then ret tt else bio (bunpin dbuf)) ;;;
        bio (brelse lbuf) ;;;
        bio (brelse dbuf) ;;;
        install_loop f recovering (tail + 1)
      else ret tt
  end.

Definition install_trans (recovering : bool) : M log unit :=
  f <- turns ;; install_loop f recovering 0.

Fixpoint read_head_loop (fuel : nat) (d : block) (i : Z) : M log unit :=
  match fuel with
  | O => nofuel
  | S f =>
      n <- gets lhn ;;
      if i <? n then
        modify (set_lhblock i (hd_block d i)) ;;;
        read_head_loop f d (i + 1)
      else ret tt
  end.

Definition read_head : M log unit :=
  dev <- gets ldev ;;
  start <- gets lstart ;;
  b <- bio (bread dev (u32 start)) ;;
  x <- bio (getb b) ;;
  modify (set_lhn (hd_n (bdata x))) ;;;
  f <- turns ;;
  read_head_loop f (bdata x) 0 ;;;
  bio (brelse b).

Fixpoint write_head_loop (fuel : nat) (b : nat) (i : Z) : M log unit :=
  match fuel with
  | O => nofuel
  | S f =>
      n <- gets lhn ;;
      if i <? n then
        bno <- gets (lhb i) ;;
        x <- bio (getb b) ;;
        bio (updb b (set_data (wr32 (bdata x) (hd_off i) bno))) ;;;
        write_head_loop f b (i + 1)
      else ret tt
  end.

Definition write_head : M log unit :=
  dev <- gets ldev ;;
  start <- gets lstart ;;
  b <- bio (bread dev (u32 start)) ;;
  n <- gets lhn ;;
  x <- bio (getb b) ;;
  bio (updb b (set_data (wr32 (bdata x) 0 n))) ;;;
  f <- turns ;;
  write_head_loop f b 0 ;;;
  bio (bwrite b) ;;;
  bio (brelse b).

Definition recover_from_log : M log unit :=
  read_head ;;;
  install_trans true ;;;
  modify (set_lhn 0) ;;;
  write_head.

(** [sizeof(struct logheader)] is [4 + 4 * LOGSIZE]. *)
Definition initlog (dev sb_logstart sb_nlog : Z) : M log unit :=
  if BSIZE <=? 4 + 4 * LOGSIZE then panic "initlog: too big logheader" else
  modify (fun l => mklog (lb l) (s32 sb_logstart) (s32 sb_nlog) (outstanding l) (committing l) dev
                     (lhn l) (lhblock l)) ;;;
  recover_from_log.

Definition begin_op : M log unit :=
  l <- get ;;
  if committing l then Prelude.block
  else if LOGSIZE <? lhn l + (outstanding l + 1) * MAXOPBLOCKS then Prelude.block
  else put (set_outstanding (outstanding l + 1) l).

Fixpoint write_log_loop (fuel : nat) (tail : Z) : M log unit :=
  match fuel with
  | O => nofuel
  | S f =>
      n <- gets lhn ;;
      if tail <? n then
        dev <- gets ldev ;;
        start <- gets lstart ;;
        to <- bio (bread dev (u32 (start + tail + 1))) ;;
        bno <- gets (lhb tail) ;;
        from <- bio (bread dev (u32 bno)) ;;
        x <- bio (getb from) ;;
        bio (updb to (set_data (bdata x))) ;;;
        bio (bwrite to) ;;;
        bio (brelse from) ;;;
        bio (brelse to) ;;;
        write_log_loop f (tail + 1)
      else ret tt
  end.

Definition write_log : M log unit := f <- turns ;; write_log_loop f 0.

Definition commit : M log unit :=
  n <- gets lhn ;;
  if 0 <? n then
    write_log ;;;
    write_head ;;;
    install_trans false ;;;
    modify (set_lhn 0) ;;;
    write_head
  else ret tt.

Definition end_op : M log unit :=
  modify (fun l => set_outstanding (outstanding l - 1) l) ;;;
  l <- get ;;
  if committing l then panic "log.committing"
  else if outstanding l =? 0 then
    modify (set_committing true) ;;;
    commit ;;;
    modify (set_committing false)
  else ret tt.

(** The first [i] with [Log.lh.block[i] == b->blockno], or [Log.lh.n]. *)
Fixpoint absorb (fuel : nat) (bno i : Z) : M log Z :=
  match fuel with
  | O => nofuel
  | S f =>
      n <- gets lhn ;;
      if i <? n then
        x <- gets (lhb i) ;;
        if u32 x =? bno then ret i else absorb f bno (i + 1)
      else ret i
  end.

Definition log_write (b : nat) : M log unit :=
  l <- get ;;
  if (LOGSIZE <=? lhn l) || (lsize l - 1 <=? lhn l) then panic "too big a transaction" else
  if outstanding l <? 1 then panic "log_write outside of trans" else
  x <- bio (getb b) ;;
  f <- turns ;;
  i <- absorb f (blockno x) 0 ;;
  modify (set_lhblock i (s32 (blockno x))) ;;;
  n <- gets lhn ;;
  if i =? n then
    bio (bpin b) ;;;
    modify (fun l => set_lhn (lhn l + 1) l)
  else ret tt.
