(* ===== verification/LogSpec.v ===== *)
(** What each operation of the log does to the cache, the disk and the history of
    disk writes, while no other process holds a buffer. *)

From S2P Require Import Prelude Sleeplock Bio BioRing BioSpec BioCst Bytes Log.

(** ** Histories of disk writes *)

Definition replay (ws : list (Z * block)) (d : gmap Z block) : gmap Z block :=
  foldl (fun d w => <[w.1 := w.2]> d) d ws.

Lemma replay_app ws1 ws2 d : replay (ws1 ++ ws2) d = replay ws2 (replay ws1 d).
Proof. unfold replay. by rewrite foldl_app. Qed.

Lemma replay_notin ws d n : n ∉ ws.*1 -> dread (replay ws d) n = dread d n.
Proof.
  revert d. induction ws as [|[m x] ws IH]; intros d Hn; [done|]. cbn in Hn. apply not_elem_of_cons in Hn as [H1 H2].
  unfold replay. cbn. fold (replay ws (<[m:=x]> d)). rewrite IH by done.
  unfold dread. by rewrite lookup_insert_ne.
Qed.

Lemma replay_in ws d n x : NoDup ws.*1 -> (n, x) ∈ ws -> dread (replay ws d) n = x.
Proof.
  revert d. induction ws as [|[m y] ws IH]; intros d Hnd Hin; [by apply elem_of_nil in Hin|].
  cbn in Hnd. apply NoDup_cons in Hnd as [H1 H2]. unfold replay. cbn. fold (replay ws (<[m:=y]> d)).
  apply elem_of_cons in Hin as [[= -> ->]|Hin]; [|by apply IH].
  rewrite replay_notin by done. unfold dread. by rewrite lookup_insert_eq.
Qed.

(** [s'] is reached from [s] by the disk writes [ws]. *)
Definition wrote (ws : list (Z * block)) (s s' : bst) : Prop :=
  dtrace s' = dtrace s ++ ws /\ dsk s' = replay ws (dsk s) /\ bpid s' = bpid s.

Lemma wrote_nil s s' : same_disk s s' -> wrote [] s s'.
Proof. intros (H1 & H2 & H3). split; [by rewrite app_nil_r|done]. Qed.

Lemma wrote_trans ws1 ws2 s s1 s2 : wrote ws1 s s1 -> wrote ws2 s1 s2 -> wrote (ws1 ++ ws2) s s2.
Proof.
  intros (H1 & H2 & H3) (K1 & K2 & K3). split; [by rewrite K1, H1, app_assoc|].
  split; [by rewrite K2, H2, replay_app|]. congruence.
Qed.

Lemma wrote_skip ws s s1 s2 : same_disk s s1 -> wrote ws s1 s2 -> wrote ws s s2.
Proof. intros H1 H2. apply (wrote_trans [] ws s s1 s2); [by apply wrote_nil|done]. Qed.

Lemma wrote_skip_r ws s s1 s2 : wrote ws s s1 -> same_disk s1 s2 -> wrote ws s s2.
Proof. intros H1 H2. rewrite <- (app_nil_r ws). by eapply wrote_trans; [|apply wrote_nil]. Qed.

Lemma same_disk_trans s s1 s2 : same_disk s s1 -> same_disk s1 s2 -> same_disk s s2.
Proof. unfold same_disk. intuition congruence. Qed.

(** ** Running cache operations from the log *)

Lemma set_lb_id l : set_lb (lb l) l = l.
Proof. by destruct l. Qed.

Lemma bio_ok {A} (m : M bst A) s s' l a :
  m s = Ok (a, s') -> bio m (set_lb s l) = Ok (a, set_lb s' l).
Proof. intros E. unfold bio, zoom. cbn [lb set_lb]. by rewrite E. Qed.

Lemma bio_run {A} (m : M bst A) s' l a : m (lb l) = Ok (a, s') -> bio m l = Ok (a, set_lb s' l).
Proof. intros E. unfold bio, zoom. by rewrite E. Qed.

Lemma bio_step {A B} (m : M bst A) (k : A -> M log B) s s' l a :
  m s = Ok (a, s') -> (x <- bio m ;; k x) (set_lb s l) = k a (set_lb s' l).
Proof. intros E. apply bind_ok. by apply bio_ok. Qed.

Lemma gets_step {A B} (f : log -> A) (k : A -> M log B) l : (x <- gets f ;; k x) l = k (f l) l.
Proof. done. Qed.

Section Spec.
Context (D : Z).

(** Both copying loops move a block between held buffers and write it out. *)
Lemma copy_run s P H a c ba bc l :
  cache D s P H -> (ba, a) ∈ H -> (bc, c) ∈ H ->
  exists s', (forall B (k : M log B), (x <- bio (getb ba) ;; bio (updb bc (set_data (bdata x))) ;;;
      bio (bwrite bc) ;;; k) (set_lb s l) = k (set_lb s' l)) /\
    cache D s' P H /\ wrote [(c, view D s a)] s s' /\
    (forall m, view D s' m = if decide (m = c) then view D s a else view D s m).
Proof.
  intros HC Ha Hc. pose proof (cache_data D s P H ba a HC Ha) as Hd.
  destruct (cache_set_data D s P H bc c (view D s a) HC Hc) as (s1 & E1 & HC1 & Hv1 & (D1 & D2 & D3)).
  destruct (cache_bwrite D s1 P H bc c HC1 Hc) as (s2 & E2 & HC2 & Hv2 & D4 & D5 & D6).
  exists s2. split.
  { intros B k. rewrite (bio_step (getb ba) _ s s l (bufs s !!! ba)) by done.
    by rewrite Hd, (bio_step _ _ _ _ _ _ E1), (bio_step _ _ _ _ _ _ E2). }
  split; [done|]. rewrite Hv1, decide_True in D5, D6 by done.
  split; [split; [by rewrite D6, D2|split; [by rewrite D5, D1|congruence]]|].
  intros m. by rewrite Hv2, Hv1.
Qed.

Lemma same_view_trans s s1 s2 : same_view D s s1 -> same_view D s1 s2 -> same_view D s s2.
Proof. intros H1 H2 m. by rewrite H2, H1. Qed.

(** Two distinct blocks read into held buffers. *)
Lemma bread2_run s P a c l (bno : log -> Z) :
  cache D s P [] -> a <> c -> (length P < NBUF)%nat -> c ∈ P \/ (length P + 1 < NBUF)%nat ->
  (forall s, u32 (bno (set_lb s l)) = c) ->
  exists ba bc s', ba <> bc /\
    (forall B (k : nat -> nat -> M log B), (ba <- bio (bread D a) ;; n <- gets bno ;;
       bc <- bio (bread D (u32 n)) ;; k ba bc) (set_lb s l) = k ba bc (set_lb s' l)) /\
    cache D s' P [(bc, c); (ba, a)] /\ same_view D s s' /\ same_disk s s'.
Proof.
  intros HC Hne Hlt Hlt2 Hbno.
  destruct (cache_bread D s P [] a HC) as (ba & s1 & E1 & _ & HC1 & Hv1 & D1);
    [set_solver|right; cbn; lia|].
  destruct (cache_bread D s1 P [(ba, a)] c HC1) as (bc & s2 & E2 & Hn2 & HC2 & Hv2 & D2);
    [set_solver|cbn; destruct Hlt2; [by left|right; lia]|].
  exists ba, bc, s2. split; [set_solver|].
  split; [intros B k; by rewrite (bio_step _ _ _ _ _ _ E1), gets_step, Hbno, (bio_step _ _ _ _ _ _ E2)|].
  split; [done|]. split; [by eapply same_view_trans|by eapply same_disk_trans].
Qed.

(** Releasing the two. *)
Lemma brelse2_run s P b1 n1 b2 n2 l :
  cache D s P [(b2, n2); (b1, n1)] \/ cache D s P [(b1, n1); (b2, n2)] -> b1 <> b2 ->
  (n1 ∉ P -> view D s n1 = dread (dsk s) n1) -> (n2 ∉ P -> view D s n2 = dread (dsk s) n2) ->
  exists s', (forall B (k : M log B), (bio (brelse b1) ;;; bio (brelse b2) ;;; k) (set_lb s l) = k (set_lb s' l)) /\
    cache D s' P [] /\ same_view D s s' /\ same_disk s s'.
Proof.
  intros HC Hne H1 H2.
  assert (exists s1, brelse b1 s = Ok (tt, s1) /\ cache D s1 P [(b2, n2)] /\ same_view D s s1 /\ same_disk s s1)
    as (s1 & E1 & HC1 & Hv1 & D1).
  { destruct HC as [HC|HC];
      (destruct (cache_brelse D s P _ b1 n1 HC) as (s1 & ? & HC1 & ?); [set_solver|done|]; exists s1;
       split; [done|]; split; [|done]; revert HC1; unfold unhold;
       rewrite ?filter_cons; cbn [fst]; repeat (case_decide; [|]); done || congruence). }
  destruct (cache_brelse D s1 P _ b2 n2 HC1) as (s2 & E2 & HC2 & Hv2 & D2); [set_solver| |].
  { intros Hn. rewrite Hv1, H2 by done. by rewrite (proj1 D1). }
  exists s2. split; [intros B k; by rewrite (bio_step _ _ _ _ _ _ E1), (bio_step _ _ _ _ _ _ E2)|].
  split; [|split; [by eapply same_view_trans|by eapply same_disk_trans]].
  revert HC2. unfold unhold. rewrite filter_cons. cbn [fst]. case_decide; done || congruence.
Qed.

(** The writes a copying loop issues: the blocks [to], each with its content. *)
Definition copies (s : bst) (from to : list Z) : list (Z * block) := zip to (view D s <$> from).

(** The log blocks of entries [k], ..., [k + n - 1]. *)
Definition slots (st : Z) (k n : nat) : list Z := (fun i => st + Z.of_nat i + 1) <$> seq k n.

Lemma elem_of_slots st k n x : x ∈ slots st k n <-> st + Z.of_nat k + 1 <= x < st + Z.of_nat k + 1 + Z.of_nat n.
Proof.
  unfold slots. rewrite list_elem_of_fmap. setoid_rewrite elem_of_seq. split; [naive_solver lia|].
  intros H. exists (Z.to_nat (x - st - 1)). lia.
Qed.

Lemma slots_cons st k n : slots st k (S n) = st + Z.of_nat k + 1 :: slots st (S k) n.
Proof. done. Qed.

Lemma copies_cons s a from c to : copies s (a :: from) (c :: to) = (c, view D s a) :: copies s from to.
Proof. done. Qed.

Lemma copies_ext s s' from to :
  (forall m, m ∈ from -> view D s' m = view D s m) -> copies s' from to = copies s from to.
Proof.
  intros H. unfold copies. f_equal. apply list_fmap_ext. intros i x Hx. by apply H, list_elem_of_lookup_2 with i.
Qed.

Lemma lhb_at s l done c rest :
  lhblock l = done ++ c :: rest -> lhb (Z.of_nat (length done)) (set_lb s l) = c.
Proof.
  intros E. unfold lhb. cbn [lhblock set_lb]. rewrite E, Nat2Z.id. 
  apply list_lookup_total_correct. by rewrite lookup_app_r, Nat.sub_diag.
Qed.

Lemma small_u32 x : 0 <= x < 2 ^ 31 -> u32 x = x.
Proof. intros. apply u32_small. lia. Qed.

(** Blocks outside the log that fit an [int]. *)
Definition home (st sz : Z) (x : Z) : Prop := 0 <= x < 2 ^ 31 /\ ~ st <= x < st + sz.

(** One turn of [install_trans]: block [a] of the log is copied to its home [c]. *)
Definition pins (rc : bool) (P : list Z) : list Z := if rc then [] else P.

Lemma install_step (rc : bool) l a c rest s (bno : log -> Z) :
  cache D s (pins rc (c :: rest)) [] -> a <> c -> a ∉ rest -> (S (length rest) < NBUF)%nat ->
  (forall s, u32 (bno (set_lb s l)) = c) ->
  exists s', (forall B (k : M log B), (lbuf <- bio (bread D a) ;; n <- gets bno ;; dbuf <- bio (bread D (u32 n)) ;;
      x <- bio (getb lbuf) ;; bio (updb dbuf (set_data (bdata x))) ;;; bio (bwrite dbuf) ;;;
      (if (rc : bool) then ret tt else bio (bunpin dbuf)) ;;;
      bio (brelse lbuf) ;;; bio (brelse dbuf) ;;; k) (set_lb s l) = k (set_lb s' l)) /\
    cache D s' (pins rc rest) [] /\ wrote [(c, view D s a)] s s' /\
    (forall m, view D s' m = if decide (m = c) then view D s a else view D s m).
Proof.
  intros HC Hac Har Hlen Hbno.
  destruct (bread2_run s (pins rc (c :: rest)) a c l bno) as (ba & bc & s1 & Hne & E1 & HC1 & Hv1 & D1);
    [exact HC|done|destruct rc; cbn; unfold NBUF in *; lia|
     destruct rc; [right; cbn; unfold NBUF; lia|left; set_solver]|done|].
  destruct (copy_run s1 _ _ a c ba bc l HC1) as (s2 & E2 & HC2 & W2 & Hv2); [set_solver..|].
  assert (exists s3, (forall B (k : M log B), ((if rc then ret tt else bio (bunpin bc)) ;;; k) (set_lb s2 l) = k (set_lb s3 l)) /\
    cache D s3 (pins rc rest) [(bc, c); (ba, a)] /\ same_view D s2 s3 /\ same_disk s2 s3)
    as (s3 & E3 & HC3 & Hv3 & D3).
  { destruct rc; [by exists s2|].
    destruct (cache_bunpin D s2 [] rest [(bc, c); (ba, a)] bc c HC2) as (s3 & E3 & ?); [set_solver|].
    exists s3. split; [|done]. intros B k. exact (bio_step _ (fun _ => k) _ _ _ _ E3). }
  assert (Ha : view D s a = dread (dsk s) a).
  { apply (cache_clean D s _ [] a HC); [destruct rc|]; set_solver. }
  assert (Hc3 : forall m, view D s3 m = if decide (m = c) then view D s a else view D s m).
  { intros m. rewrite Hv3, Hv2. case_decide; apply Hv1. }
  assert (W3 : wrote [(c, view D s a)] s s3).
  { eapply wrote_skip; [exact D1|]. rewrite <- Hv1. by eapply wrote_skip_r. }
  destruct (brelse2_run s3 _ ba a bc c l (or_introl HC3)) as (s4 & E4 & HC4 & Hv4 & D4); [done| | |].
  { intros _. rewrite Hc3, decide_False by done. rewrite Ha, (proj1 (proj2 W3)).
    rewrite replay_notin; [done|]. cbn. set_solver. }
  { intros _. rewrite Hc3, decide_True by done. rewrite (proj1 (proj2 W3)).
    rewrite (replay_in _ _ _ (view D s a)); [done|cbn; apply NoDup_singleton|set_solver]. }
  exists s4. split; [intros B k; by rewrite E1, E2, E3, E4|]. split; [done|].
  split; [by eapply wrote_skip_r|]. intros m; by rewrite Hv4.
Qed.

Lemma install_loop_ok (rc : bool) l st sz :
  ldev l = D -> lstart l = st -> 0 <= st -> st + sz < 2 ^ 31 -> lhn l < sz -> lhn l < Z.of_nat NBUF ->
  forall rest done tl s fuel,
  lhblock l = done ++ rest ++ tl -> lhn l = Z.of_nat (length done + length rest) ->
  (forall x, x ∈ rest -> home st sz x) -> NoDup rest -> (length rest < fuel)%nat ->
  cache D s (pins rc rest) [] ->
  exists s', install_loop fuel rc (Z.of_nat (length done)) (set_lb s l) = Ok (tt, set_lb s' l) /\
    cache D s' [] [] /\ wrote (copies s (slots st (length done) (length rest)) rest) s s' /\
    (forall m, m ∉ rest -> view D s' m = view D s m) /\
    (forall i x, rest !! i = Some x -> view D s' x = view D s (st + Z.of_nat (length done + i) + 1)).
Proof.
  intros HD Hst Hst0 Hsz Hn1 Hn2. induction rest as [|c rest IH]; intros done tl s fuel Hb Hn Hhome Hnd Hf HC;
    (destruct fuel as [|fuel]; [simpl in Hf; lia|]); cbn [install_loop]; rewrite gets_step; cbn [lhn set_lb].
  - rewrite Hn, (proj2 (Z.ltb_ge _ _)) by (cbn; lia). exists s. split; [done|].
    split; [by destruct rc|]. split; [by apply wrote_nil|]. split; [done|]. intros i x Hx. by rewrite lookup_nil in Hx.
  - cbn [length] in Hn, Hf. rewrite (proj2 (Z.ltb_lt _ _)) by lia. rewrite !gets_step. cbn [ldev lstart set_lb].
    rewrite HD, Hst. set (a := st + Z.of_nat (length done) + 1).
    destruct (Hhome c ltac:(set_solver)) as [Hc1 Hc2].
    rewrite (small_u32 a) by (unfold a; lia).
    assert (Hrest : forall x, x ∈ rest -> home st sz x) by (intros x Hx; apply Hhome; set_solver).
    apply NoDup_cons in Hnd as [Hcr Hnd].
    destruct (install_step rc l a c rest s (lhb (Z.of_nat (length done))) HC) as (s4 & E4 & HC4 & W4 & Hc4);
      [unfold a; lia|intros Hin%Hrest; destruct Hin as [_ []]; unfold a; lia|lia| |].
    { intros s0. rewrite (lhb_at s0 l done c (rest ++ tl) Hb). by apply small_u32. }
    rewrite E4. clear E4.
    destruct (IH (done ++ [c]) tl s4 fuel) as (s5 & E5 & HC5 & W5 & Hv5 & Hi5); try done; try lia.
    { by rewrite <- app_assoc. } { rewrite length_app. cbn. lia. }
    rewrite length_app in E5, W5, Hi5. cbn [length] in E5, W5, Hi5.
    replace (Z.of_nat (length done + 1)) with (Z.of_nat (length done) + 1) in E5 by lia.
    exists s5. split; [exact E5|]. split; [done|]. split; [|split].
    + cbn [length]. rewrite slots_cons, copies_cons. eapply (wrote_trans [_]); [exact W4|].
      rewrite Nat.add_1_r in W5. erewrite <- copies_ext; [exact W5|].
      intros m Hm%elem_of_slots. rewrite Hc4, decide_False; [done|]. lia.
    + intros m Hm. rewrite Hv5, Hc4, decide_False by set_solver. done.
    + intros [|i] x Hx; cbn in Hx.
      * simplify_eq. rewrite Hv5, Hc4, decide_True by done. by rewrite Nat.add_0_r.
      * rewrite (Hi5 i x Hx), Hc4, decide_False; [f_equal; lia|]. apply lookup_lt_Some in Hx. lia.
Qed.

(** One turn of [write_log]: the pinned block [c] is copied to its log block [a]. *)
Lemma write_log_step l a c P s (bno : log -> Z) :
  cache D s P [] -> a ∉ P -> c ∈ P -> (length P < NBUF)%nat -> (forall s, u32 (bno (set_lb s l)) = c) ->
  exists s', (forall B (k : M log B), (to <- bio (bread D a) ;; n <- gets bno ;; from <- bio (bread D (u32 n)) ;;
      x <- bio (getb from) ;; bio (updb to (set_data (bdata x))) ;;; bio (bwrite to) ;;;
      bio (brelse from) ;;; bio (brelse to) ;;; k) (set_lb s l) = k (set_lb s' l)) /\
    cache D s' P [] /\ wrote [(a, view D s c)] s s' /\
    (forall m, view D s' m = if decide (m = a) then view D s c else view D s m).
Proof.
  intros HC Ha Hc Hlen Hbno.
  destruct (bread2_run s P a c l bno) as (ba & bc & s1 & Hne & E1 & HC1 & Hv1 & D1); try done;
    [by intros ->|by left|].
  destruct (copy_run s1 _ _ c a bc ba l HC1) as (s2 & E2 & HC2 & W2 & Hv2); [set_solver..|].
  assert (W : wrote [(a, view D s c)] s s2).
  { eapply wrote_skip; [exact D1|]. by rewrite <- Hv1. }
  destruct (brelse2_run s2 P bc c ba a l (or_intror HC2)) as (s3 & E3 & HC3 & Hv3 & D3); [done|done| |].
  { intros _. rewrite Hv2, decide_True, Hv1 by done. rewrite (proj1 (proj2 W)).
    rewrite (replay_in _ _ _ (view D s c)); [done|cbn; apply NoDup_singleton|set_solver]. }
  exists s3. split; [intros B k; by rewrite E1, E2, E3|]. split; [done|].
  split; [by eapply wrote_skip_r|]. intros m. rewrite Hv3, Hv2. case_decide; apply Hv1.
Qed.

Lemma write_log_loop_ok l st sz P :
  ldev l = D -> lstart l = st -> 0 <= st -> st + sz < 2 ^ 31 -> lhn l < sz -> (length P < NBUF)%nat ->
  (forall x, x ∈ P -> home st sz x) ->
  forall rest done tl s fuel,
  lhblock l = done ++ rest ++ tl -> lhn l = Z.of_nat (length done + length rest) ->
  rest ⊆ P -> (length rest < fuel)%nat -> cache D s P [] ->
  exists s', write_log_loop fuel (Z.of_nat (length done)) (set_lb s l) = Ok (tt, set_lb s' l) /\
    cache D s' P [] /\ wrote (copies s rest (slots st (length done) (length rest))) s s' /\
    (forall m, m ∉ slots st (length done) (length rest) -> view D s' m = view D s m) /\
    (forall i x, rest !! i = Some x -> view D s' (st + Z.of_nat (length done + i) + 1) = view D s x).
Proof.
  intros HD Hst Hst0 Hsz Hn1 Hn2 Hhome.
  induction rest as [|c rest IH]; intros done tl s fuel Hb Hn Hsub Hf HC;
    (destruct fuel as [|fuel]; [simpl in Hf; lia|]); cbn [write_log_loop]; rewrite gets_step; cbn [lhn set_lb].
  - rewrite Hn, (proj2 (Z.ltb_ge _ _)) by (cbn; lia). exists s. split; [done|].
    split; [done|]. split; [by apply wrote_nil|]. split; [done|]. intros i x Hx. by rewrite lookup_nil in Hx.
  - cbn [length] in Hn, Hf. rewrite (proj2 (Z.ltb_lt _ _)) by lia. rewrite !gets_step. cbn [ldev lstart set_lb].
    rewrite HD, Hst. set (a := st + Z.of_nat (length done) + 1). rewrite (small_u32 a) by (unfold a; lia).
    assert (HcP : c ∈ P) by set_solver. destruct (Hhome c HcP) as [Hc1 Hc2].
    destruct (write_log_step l a c P s (lhb (Z.of_nat (length done))) HC) as (s4 & E4 & HC4 & W4 & Hc4);
      [intros Hin%Hhome; destruct Hin as [_ []]; unfold a; lia|done|lia| |].
    { intros s0. rewrite (lhb_at s0 l done c (rest ++ tl) Hb). by apply small_u32. }
    rewrite E4. clear E4.
    destruct (IH (done ++ [c]) tl s4 fuel) as (s5 & E5 & HC5 & W5 & Hv5 & Hi5); try done; try lia.
    { by rewrite <- app_assoc. } { rewrite length_app. cbn. lia. } { set_solver. }
    rewrite length_app in E5, W5, Hv5, Hi5. cbn [length] in E5, W5, Hv5, Hi5. rewrite Nat.add_1_r in W5, Hv5.
    replace (Z.of_nat (length done + 1)) with (Z.of_nat (length done) + 1) in E5 by lia.
    assert (Hhome' : forall x, x ∈ rest -> x <> a).
    { intros x Hx ->. destruct (Hhome a) as [_ []]; [set_solver|]. unfold a. lia. }
    exists s5. split; [exact E5|]. split; [done|]. split; [|split].
    + cbn [length]. rewrite slots_cons, copies_cons. eapply (wrote_trans [_]); [exact W4|].
      erewrite <- copies_ext; [exact W5|]. intros m Hm. rewrite Hc4, decide_False; [done|]. by apply Hhome'.
    + cbn [length]. rewrite slots_cons. intros m Hm. apply not_elem_of_cons in Hm as [Hm1 Hm2].
      rewrite Hv5, Hc4, decide_False by done. done.
    + intros [|i] x Hx; cbn in Hx.
      * simplify_eq. rewrite Nat.add_0_r. fold a. rewrite Hv5, Hc4, decide_True by (done || (rewrite elem_of_slots; lia)). done.
      * replace (Z.of_nat (length done + S i)) with (Z.of_nat (length done + 1 + i)) by lia.
        rewrite (Hi5 i x Hx), Hc4, decide_False; [done|]. apply Hhome'. by apply list_elem_of_lookup_2 with i.
Qed.

(** ** The header block *)

(** What [write_head] puts into the block. *)
Fixpoint put_entries (d : block) (i : Z) (bl : list Z) : block :=
  match bl with
  | [] => d
  | x :: bl' => put_entries (wr32 d (hd_off i) x) (i + 1) bl'
  end.
Definition put_head (d : block) (bl : list Z) : block :=
  put_entries (wr32 d 0 (Z.of_nat (length bl))) 0 bl.

Definition head_entries (d : block) : list Z := (fun i => hd_block d (Z.of_nat i)) <$> seq 0 (Z.to_nat (hd_n d)).

Lemma hd_off_val i : 0 <= i -> Z.of_nat (hd_off i) = 4 + 4 * i.
Proof. unfold hd_off. lia. Qed.

Lemma put_entries_spec bl : forall d i,
  0 <= i -> 4 + 4 * (i + Z.of_nat (length bl)) <= Z.of_nat (length d) ->
  length (put_entries d i bl) = length d /\
  (forall off, (off + 4 <= hd_off i)%nat -> rd32 (put_entries d i bl) off = rd32 d off) /\
  (forall j x, bl !! j = Some x -> rd32 (put_entries d i bl) (hd_off (i + Z.of_nat j)) = u32 x).
Proof.
  induction bl as [|x bl IH]; intros d i Hi Hl; cbn [put_entries]; [done|]. cbn [length] in Hl.
  pose proof (hd_off_val i Hi) as Ho. pose proof (hd_off_val (i + 1)) as Ho'.
  assert (Hd : (hd_off i + 4 <= length d)%nat) by lia.
  destruct (IH (wr32 d (hd_off i) x) (i + 1)) as (H1 & H2 & H3); [lia|rewrite length_wr32 by done; lia|].
  rewrite length_wr32 in H1 by done. split; [done|]. split.
  - intros off Hoff. rewrite H2 by lia. apply rd32_wr32_ne; lia.
  - intros [|j] y Hy; cbn in Hy.
    + simplify_eq. rewrite Z.add_0_r, H2 by lia. by apply rd32_wr32.
    + rewrite <- (H3 j y Hy). do 2 f_equal. lia.
Qed.

Lemma put_head_spec d bl :
  length d = Z.to_nat BSIZE -> (length bl <= Z.to_nat LOGSIZE)%nat ->
  (forall x, x ∈ bl -> 0 <= x < 2 ^ 31) ->
  length (put_head d bl) = Z.to_nat BSIZE /\ hd_n (put_head d bl) = Z.of_nat (length bl) /\
  head_entries (put_head d bl) = bl.
Proof.
  intros Hd Hl Hx. unfold BSIZE, LOGSIZE, MAXOPBLOCKS in *. unfold put_head.
  set (d0 := wr32 d 0 _). assert (Hd0 : length d0 = length d) by (apply length_wr32; lia).
  destruct (put_entries_spec bl d0 0) as (H1 & H2 & H3); [lia|lia|].
  assert (Hn : hd_n (put_entries d0 0 bl) = Z.of_nat (length bl)).
  { unfold hd_n. rewrite H2 by (unfold hd_off; lia). unfold d0. rewrite rd32_wr32 by lia.
    rewrite s32_u32. apply s32_small. lia. }
  split; [lia|]. split; [done|]. unfold head_entries. rewrite Hn, Nat2Z.id. apply list_eq. intros i.
  rewrite list_lookup_fmap. destruct (decide (i < length bl)%nat) as [Hi|Hi].
  - rewrite lookup_seq_lt by done. destruct (lookup_lt_is_Some_2 bl i Hi) as [x Ex]. rewrite Ex. cbn.
    f_equal. unfold hd_block. specialize (H3 i x Ex). rewrite Z.add_0_l in H3. rewrite H3, s32_u32. apply s32_small.
    pose proof (Hx x (list_elem_of_lookup_2 _ _ _ Ex)). lia.
  - rewrite lookup_seq_ge, lookup_ge_None_2 by lia. done.
Qed.
End Spec.
