(* ===== verification/LogRun.v ===== *)
(** The header routines, commit and recovery as whole runs: the disk writes they
    issue, in order, and the state they leave. *)

From S2P Require Import Prelude Sleeplock Bio BioRing BioSpec BioCst Bytes Log LogSpec.

Section Run.
Context (D : Z).

Lemma turns_step {B} l (k : nat -> M log B) : (f <- turns ;; k f) l = k (S (Z.to_nat (lhn l))) l.
Proof. done. Qed.

Lemma write_head_loop_ok l st b P : forall rest done tl s fuel,
  lhblock l = done ++ rest ++ tl -> lhn l = Z.of_nat (length done + length rest) ->
  (length rest < fuel)%nat -> cache D s P [(b, st)] ->
  exists s', write_head_loop fuel b (Z.of_nat (length done)) (set_lb s l) = Ok (tt, set_lb s' l) /\
    cache D s' P [(b, st)] /\ same_disk s s' /\
    (forall m, view D s' m = if decide (m = st) then put_entries (view D s st) (Z.of_nat (length done)) rest
                             else view D s m).
Proof.
  induction rest as [|c rest IH]; intros done tl s fuel Hb Hn Hf HC;
    (destruct fuel as [|fuel]; [simpl in Hf; lia|]); cbn [write_head_loop]; rewrite gets_step; cbn [lhn set_lb].
  - rewrite Hn, (proj2 (Z.ltb_ge _ _)) by (cbn; lia). exists s. split; [done|]. split; [done|]. split; [done|].
    intros m. by case_decide; subst.
  - cbn [length] in Hn, Hf. rewrite (proj2 (Z.ltb_lt _ _)) by lia. rewrite gets_step.
    rewrite (lhb_at s l done c (rest ++ tl) Hb), (bio_step (getb b) _ s s l (bufs s !!! b)) by done.
    rewrite (cache_data D s P _ b st HC) by set_solver.
    destruct (cache_set_data D s P _ b st (wr32 (view D s st) (hd_off (Z.of_nat (length done))) c) HC)
      as (s1 & E1 & HC1 & Hv1 & D1); [set_solver|].
    rewrite (bio_step _ _ _ _ _ _ E1). clear E1.
    destruct (IH (done ++ [c]) tl s1 fuel) as (s2 & E2 & HC2 & D2 & Hv2); try done; try lia.
    { by rewrite <- app_assoc. } { rewrite length_app. cbn. lia. }
    rewrite length_app in E2, Hv2. cbn [length] in E2, Hv2.
    replace (Z.of_nat (length done + 1)) with (Z.of_nat (length done) + 1) in E2, Hv2 by lia.
    exists s2. split; [exact E2|]. split; [done|]. split; [by eapply same_disk_trans|].
    intros m. rewrite Hv2, !Hv1. by repeat case_decide.
Qed.

Lemma write_head_ok l st P bl tl s :
  ldev l = D -> lstart l = st -> 0 <= st < 2 ^ 31 -> lhblock l = bl ++ tl -> lhn l = Z.of_nat (length bl) ->
  st ∉ P -> (length P < NBUF)%nat -> cache D s P [] ->
  exists s', write_head (set_lb s l) = Ok (tt, set_lb s' l) /\ cache D s' P [] /\
    wrote [(st, put_head (view D s st) bl)] s s' /\
    (forall m, view D s' m = if decide (m = st) then put_head (view D s st) bl else view D s m).
Proof.
  intros HD Hst Hr Hb Hn HP Hlen HC. unfold write_head. rewrite !gets_step. cbn [ldev lstart lhn set_lb].
  rewrite HD, Hst, small_u32 by done.
  destruct (cache_bread D s P [] st HC) as (b & s1 & E1 & _ & HC1 & Hv1 & D1); [set_solver|right; cbn; lia|].
  rewrite (bio_step _ _ _ _ _ _ E1), gets_step. clear E1. cbn [lhn set_lb].
  rewrite (bio_step (getb b) _ s1 s1 l (bufs s1 !!! b)), (cache_data D s1 P _ b st HC1), Hv1 by (done || set_solver).
  destruct (cache_set_data D s1 P _ b st (wr32 (view D s st) 0 (lhn l)) HC1) as (s2 & E2 & HC2 & Hv2 & D2); [set_solver|].
  rewrite (bio_step _ _ _ _ _ _ E2), turns_step. clear E2. cbn [lhn set_lb].
  destruct (write_head_loop_ok l st b P bl [] tl s2 (S (Z.to_nat (lhn l)))) as (s3 & E3 & HC3 & D3 & Hv3);
    [done|done|lia|done|]. cbn [length] in E3, Hv3.
  rewrite (bind_ok _ _ _ _ _ E3). clear E3.
  destruct (cache_bwrite D s3 P _ b st HC3) as (s4 & E4 & HC4 & Hv4 & B4 & K4 & T4); [set_solver|].
  rewrite (bio_step _ _ _ _ _ _ E4). clear E4.
  assert (Hd : view D s3 st = put_head (view D s st) bl).
  { rewrite Hv3, decide_True, Hv2, decide_True by done. unfold put_head. by rewrite Hn. }
  assert (W : wrote [(st, put_head (view D s st) bl)] s s4).
  { rewrite <- Hd. destruct D1 as (? & ? & ?), D2 as (? & ? & ?), D3 as (? & ? & ?).
    split; [rewrite T4; congruence|]. split; [rewrite K4; cbn; congruence|congruence]. }
  destruct (cache_brelse D s4 P _ b st HC4) as (s5 & E5 & HC5 & Hv5 & D5); [set_solver| |].
  { intros _. rewrite Hv4, Hd, (proj1 (proj2 W)). cbn. unfold dread. by rewrite lookup_insert_eq. }
  exists s5. split; [by apply bio_ok|]. split; [by rewrite unhold_cons in HC5 by set_solver|].
  split; [by eapply wrote_skip_r|]. intros m. rewrite Hv5, Hv4. case_decide; [by subst|].
  rewrite Hv3, decide_False, Hv2, decide_False by done. apply Hv1.
Qed.

(** The in-memory header [read_head] leaves. *)
Definition loaded (l : log) (bl : list Z) : log :=
  mklog (lb l) (lstart l) (lsize l) (outstanding l) (committing l) (ldev l) (Z.of_nat (length bl))
    (bl ++ drop (length bl) (lhblock l)).

Definition set_blocks (bs : list Z) (l : log) : log :=
  mklog (lb l) (lstart l) (lsize l) (outstanding l) (committing l) (ldev l) (lhn l) bs.

Lemma read_head_loop_ok d : forall rest done l fuel,
  lhn l = Z.of_nat (length done + length rest) -> (length done + length rest <= length (lhblock l))%nat ->
  (forall j x, rest !! j = Some x -> hd_block d (Z.of_nat (length done + j)) = x) ->
  (length rest < fuel)%nat -> take (length done) (lhblock l) = done ->
  read_head_loop fuel d (Z.of_nat (length done)) l =
  Ok (tt, set_blocks (done ++ rest ++ drop (length done + length rest) (lhblock l)) l).
Proof.
  induction rest as [|c rest IH]; intros done l fuel Hn Hl Hx Hf Ht;
    (destruct fuel as [|fuel]; [simpl in Hf; lia|]); cbn [read_head_loop]; rewrite gets_step.
  - rewrite Hn, (proj2 (Z.ltb_ge _ _)) by (cbn; lia). unfold ret. do 2 f_equal. destruct l. unfold set_blocks. cbn in *.
    f_equal. rewrite Nat.add_0_r. rewrite <- Ht at 1. symmetry. apply take_drop.
  - cbn [length] in Hn, Hl, Hf. rewrite (proj2 (Z.ltb_lt _ _)) by lia.
    erewrite bind_ok by reflexivity. pose proof (Hx 0%nat c eq_refl) as Hc. rewrite Nat.add_0_r in Hc. rewrite Hc.
    set (l1 := set_lhblock _ c l).
    replace (Z.of_nat (length done) + 1) with (Z.of_nat (length (done ++ [c]))) by (rewrite length_app; cbn; lia).
    rewrite (IH (done ++ [c]) l1 fuel).
    + unfold l1, set_blocks, set_lhblock. cbn. rewrite Nat2Z.id, length_app. cbn [length].
      rewrite <- app_assoc, drop_insert_lt by lia.
      by replace (length done + 1 + length rest)%nat with (length done + S (length rest))%nat by lia.
    + cbn. rewrite length_app. cbn. lia.
    + cbn. rewrite length_insert, length_app. cbn. lia.
    + intros j x Hj. rewrite length_app. cbn [length]. rewrite <- (Hx (S j) x Hj). f_equal. lia.
    + lia.
    + cbn. rewrite Nat2Z.id, length_app. cbn [length]. rewrite Nat.add_1_r.
      rewrite (take_S_r _ _ c) by (apply list_lookup_insert_eq; lia).
      rewrite take_insert_ge by lia. by rewrite Ht.
Qed.

Lemma read_head_ok l st P bl s :
  ldev l = D -> lstart l = st -> 0 <= st < 2 ^ 31 -> st ∉ P -> (length P < NBUF)%nat -> cache D s P [] ->
  (length bl <= length (lhblock l))%nat -> hd_n (view D s st) = Z.of_nat (length bl) ->
  head_entries (view D s st) = bl ->
  exists s', read_head (set_lb s l) = Ok (tt, set_lb s' (loaded l bl)) /\ cache D s' P [] /\
    same_view D s s' /\ same_disk s s'.
Proof.
  intros HD Hst Hr HP Hlen HC Hbl Hn Hbe. unfold read_head. rewrite !gets_step. cbn [ldev lstart set_lb].
  rewrite HD, Hst, small_u32 by done.
  destruct (cache_bread D s P [] st HC) as (b & s1 & E1 & _ & HC1 & Hv1 & D1); [set_solver|right; cbn; lia|].
  rewrite (bio_step _ _ _ _ _ _ E1). clear E1.
  rewrite (bio_step (getb b) _ s1 s1 l (bufs s1 !!! b)), (cache_data D s1 P _ b st HC1), Hv1 by (done || set_solver).
  rewrite Hn. erewrite bind_ok by reflexivity. rewrite turns_step. cbn [lhn set_lhn].
  set (l1 := set_lhn _ (set_lb s1 l)).
  rewrite (bind_ok _ _ _ _ _ (read_head_loop_ok (view D s st) bl [] l1 (S (Z.to_nat (Z.of_nat (length bl))))
    ltac:(done) ltac:(done) ltac:(intros j x Hj; revert Hj; rewrite <- Hbe; unfold head_entries;
      rewrite list_lookup_fmap; intros (i & Hi & ->)%fmap_Some; apply lookup_seq in Hi as [-> _]; done)
    ltac:(lia) ltac:(done))).
  destruct (cache_brelse D s1 P _ b st HC1) as (s2 & E2 & HC2 & Hv2 & D2); [set_solver| |].
  { intros _. rewrite Hv1, (proj1 D1). apply (cache_clean D s P [] st HC); set_solver. }
  exists s2. change (set_blocks _ l1) with (set_lb s1 (loaded l bl)).
  split; [by apply bio_ok|]. split; [by rewrite unhold_cons in HC2 by set_solver|].
  split; [by eapply same_view_trans|by eapply same_disk_trans].
Qed.

(** ** Commit *)

(** The log's place on disk: the header at [st], then [sz - 1] slots. *)
Record geom (st sz : Z) : Prop := mkgeom { geom_st : 0 <= st; geom_sz : 1 <= sz; geom_max : st + sz < 2 ^ 31 }.

(** A list of blocks a transaction may write. *)
Definition txn_ok (st sz : Z) (bl : list Z) : Prop :=
  NoDup bl /\ Z.of_nat (length bl) < sz /\ (length bl < NBUF)%nat /\ forall x, x ∈ bl -> home st sz x.

(** The log between operations: [bl] is the transaction under way, pinned in
    the cache, and the header on disk is empty. *)
Record log_ok (st sz : Z) (l : log) (bl : list Z) (H : list (nat * Z)) : Prop := mklog_ok {
  lo_dev : ldev l = D; lo_start : lstart l = st; lo_size : lsize l = sz; lo_geom : geom st sz;
  lo_n : lhn l = Z.of_nat (length bl); lo_bl : take (length bl) (lhblock l) = bl;
  lo_len : length (lhblock l) = Z.to_nat LOGSIZE; lo_txn : txn_ok st sz bl;
  lo_cache : cache D (lb l) bl H;
  lo_hlen : length (view D (lb l) st) = Z.to_nat BSIZE; lo_head : hd_n (view D (lb l) st) = 0
}.

Definition commit_writes (V : Z -> block) (st : Z) (bl : list Z) : list (Z * block) :=
  zip (slots st 0 (length bl)) (V <$> bl) ++
  [(st, put_head (V st) bl)] ++
  zip bl (V <$> bl) ++
  [(st, put_head (put_head (V st) bl) [])].

Lemma copies_installed s s' st bl :
  (forall i x, bl !! i = Some x -> view D s' (st + Z.of_nat i + 1) = view D s x) ->
  copies D s' (slots st 0 (length bl)) bl = zip bl (view D s <$> bl).
Proof.
  intros H. unfold copies. f_equal. apply list_eq. intros i. unfold slots. rewrite !list_lookup_fmap.
  destruct (decide (i < length bl)%nat) as [Hi|Hi].
  - rewrite lookup_seq_lt by done. destruct (lookup_lt_is_Some_2 bl i Hi) as [x Ex]. rewrite Ex. cbn. f_equal. by apply H.
  - by rewrite lookup_seq_ge, (lookup_ge_None_2 bl) by lia.
Qed.

Lemma st_not_home st sz (bl : list Z) : geom st sz -> (forall x, x ∈ bl -> home st sz x) -> st ∉ bl.
Proof. intros [] H Hin%H. destruct Hin as [_ []]. lia. Qed.

Lemma commit_ok st sz l bl :
  log_ok st sz l bl [] -> bl <> [] ->
  exists s', commit l = Ok (tt, set_lb s' (set_lhn 0 l)) /\ cache D s' [] [] /\
    wrote (commit_writes (view D (lb l)) st bl) (lb l) s' /\
    (forall m, ~ st <= m < st + sz -> view D s' m = view D (lb l) m) /\
    view D s' st = put_head (put_head (view D (lb l) st) bl) [].
Proof.
  intros Hl Hne. destruct Hl as [HD Hst Hsz G Hn Hbl Hlen (Hnd & Hb1 & Hb2 & Hhome) HC Hh1 Hh2].
  pose proof G as [G1 G2 G3]. pose proof (st_not_home st sz bl G Hhome) as Hstbl.
  assert (Hblk : lhblock l = bl ++ drop (length bl) (lhblock l)) by (rewrite <- Hbl at 1; symmetry; apply take_drop).
  set (s := lb l) in *. assert (commit l = commit (set_lb s l)) as -> by (f_equal; symmetry; apply set_lb_id).
  unfold commit. rewrite gets_step. cbn [lhn set_lb].
  rewrite (proj2 (Z.ltb_lt _ _)) by (destruct bl; [done|cbn in *; lia]).
  destruct (write_log_loop_ok D l st sz bl HD Hst G1 G3 ltac:(lia) Hb2 Hhome bl [] (drop (length bl) (lhblock l)) s
    (S (Z.to_nat (lhn l)))) as (s1 & E1 & HC1 & W1 & Hv1 & Hi1); [done|done|done|lia|done|].
  rewrite (bind_ok write_log _ _ _ _ E1). clear E1. cbn [length] in *.
  destruct (write_head_ok l st bl bl (drop (length bl) (lhblock l)) s1) as (s2 & E2 & HC2 & W2 & Hv2); try done; [lia|].
  rewrite (bind_ok _ _ _ _ _ E2). clear E2.
  rewrite (Hv1 st) in W2, Hv2 by (rewrite elem_of_slots; lia).
  destruct (install_loop_ok D false l st sz HD Hst G1 G3 ltac:(lia) ltac:(lia) bl [] (drop (length bl) (lhblock l)) s2
    (S (Z.to_nat (lhn l)))) as (s3 & E3 & HC3 & W3 & Hv3 & Hi3); try done; [lia|].
  rewrite (bind_ok (install_trans false) _ _ _ _ E3). clear E3. cbn [length] in *. erewrite bind_ok by reflexivity.
  assert (Hs2 : forall i x, bl !! i = Some x -> view D s2 (st + Z.of_nat i + 1) = view D s x).
  { intros i x Hx. rewrite Hv2, decide_False by lia. apply (Hi1 i x Hx). }
  rewrite (copies_installed s s2) in W3 by done.
  destruct (write_head_ok (set_lhn 0 l) st [] [] (lhblock l) s3) as (s4 & E4 & HC4 & W4 & Hv4); try done;
    [lia|apply not_elem_of_nil|cbn; unfold NBUF; lia|].
  rewrite (Hv3 st Hstbl), Hv2, decide_True in W4, Hv4 by done.
  exists s4. split; [exact E4|]. split; [done|]. split; [|split].
  - unfold commit_writes. eapply wrote_trans; [exact W1|]. eapply wrote_trans; [exact W2|].
    eapply wrote_trans; [exact W3|exact W4].
  - intros m Hm. rewrite Hv4, decide_False by lia. destruct (decide (m ∈ bl)) as [Hin|Hin].
    + apply list_elem_of_lookup in Hin as [i Hi]. rewrite (Hi3 i m Hi). apply (Hs2 i m Hi).
    + rewrite Hv3, Hv2, decide_False, Hv1 by (done || lia || (rewrite elem_of_slots; lia)). done.
  - by rewrite Hv4, decide_True by done.
Qed.

(** ** Recovery *)

(** A header on disk that recovery can act on. *)
Definition head_ok (st sz : Z) (d : block) : Prop :=
  length d = Z.to_nat BSIZE /\ hd_n d = Z.of_nat (length (head_entries d)) /\ txn_ok st sz (head_entries d).

Definition recover_writes (V : Z -> block) (st : Z) : list (Z * block) :=
  let bl := head_entries (V st) in
  zip bl (V <$> slots st 0 (length bl)) ++ [(st, put_head (V st) [])].

Lemma recover_ok st sz l :
  ldev l = D -> lstart l = st -> geom st sz -> length (lhblock l) = Z.to_nat LOGSIZE ->
  cache D (lb l) [] [] -> head_ok st sz (view D (lb l) st) ->
  exists s' l', recover_from_log l = Ok (tt, set_lb s' l') /\ cache D s' [] [] /\
    wrote (recover_writes (view D (lb l)) st) (lb l) s' /\
    lhn l' = 0 /\ lstart l' = st /\ ldev l' = D /\ lsize l' = lsize l /\ outstanding l' = outstanding l /\
    committing l' = committing l /\ length (lhblock l') = Z.to_nat LOGSIZE.
Proof.
  intros HD Hst G Hlen HC (Hh1 & Hh2 & Hnd & Hb1 & Hb2 & Hhome). pose proof G as [G1 G2 G3].
  unfold recover_writes. set (s := lb l) in *. set (bl := head_entries (view D s st)) in *.
  pose proof (st_not_home st sz bl G Hhome) as Hstbl.
  assert (Hlen2 : (length bl <= length (lhblock l))%nat)
    by (rewrite Hlen; unfold LOGSIZE, MAXOPBLOCKS, NBUF in *; lia).
  assert (recover_from_log l = recover_from_log (set_lb s l)) as -> by (f_equal; symmetry; apply set_lb_id).
  unfold recover_from_log.
  destruct (read_head_ok l st [] bl s) as (s1 & E1 & HC1 & Hv1 & D1); try done;
    [lia|apply not_elem_of_nil|cbn; unfold NBUF; lia|].
  rewrite (bind_ok _ _ _ _ _ E1). clear E1. set (l1 := loaded l bl).
  destruct (install_loop_ok D true l1 st sz HD Hst G1 G3 ltac:(cbn; lia) ltac:(cbn; unfold NBUF in *; lia)
    bl [] (drop (length bl) (lhblock l)) s1 (S (Z.to_nat (lhn l1))))
    as (s2 & E2 & HC2 & W2 & Hv2 & _); try done; [cbn; lia|].
  rewrite (bind_ok (install_trans true) _ _ _ _ E2). clear E2. cbn [length] in *. erewrite bind_ok by reflexivity.
  rewrite (copies_ext D s) in W2 by (intros; apply Hv1).
  destruct (write_head_ok (set_lhn 0 l1) st [] [] (lhblock l1) s2) as (s3 & E3 & HC3 & W3 & Hv3); try done;
    [lia|apply not_elem_of_nil|cbn; unfold NBUF; lia|].
  rewrite (Hv2 st Hstbl), Hv1 in W3. exists s3, (set_lhn 0 l1). split; [exact E3|]. split; [done|].
  split; [|split_and!; try done; cbn; rewrite length_app, length_drop; lia].
  eapply wrote_skip; [exact D1|]. eapply wrote_trans; [exact W2|exact W3].
Qed.
End Run.
