(* ===== verification/LogThm.v ===== *)
(** Crash safety of the log: a transaction reaches the disk entirely or not at
    all, wherever the machine stops, and however often recovery is itself
    interrupted. *)

From S2P Require Import Prelude Sleeplock Bio BioRing BioSpec BioCst Bytes Log LogSpec LogRun.

Section Crash.
Context (D st sz : Z).

(** ** What a disk means: its blocks after the logged writes are applied *)

Definition logical (d : gmap Z block) (m : Z) : block :=
  match list_find (fun x => x = m) (head_entries (dread d st)) with
  | Some (i, _) => dread d (st + Z.of_nat i + 1)
  | None => dread d m
  end.

Definition outside (m : Z) : Prop := ~ st <= m < st + sz.

Lemma logical_entry d m i :
  NoDup (head_entries (dread d st)) -> head_entries (dread d st) !! i = Some m ->
  logical d m = dread d (st + Z.of_nat i + 1).
Proof.
  intros Hnd Hi. unfold logical. destruct (list_find _ _) as [[j x]|] eqn:E.
  - apply list_find_Some in E as (Hj & -> & _). by rewrite (NoDup_lookup _ _ _ _ Hnd Hi Hj).
  - apply list_find_None in E. rewrite Forall_lookup in E. by destruct (E i m Hi).
Qed.

Lemma logical_other d m : m ∉ head_entries (dread d st) -> logical d m = dread d m.
Proof.
  intros Hm. unfold logical. destruct (list_find _ _) as [[j x]|] eqn:E; [|done].
  apply list_find_Some in E as (Hj & -> & _). destruct Hm. by apply list_elem_of_lookup_2 with j.
Qed.

Lemma head_empty d : hd_n d = 0 -> head_entries d = [].
Proof. intros E. unfold head_entries. by rewrite E. Qed.

Lemma txn_ok_nil : geom st sz -> txn_ok st sz [].
Proof. intros []. split; [apply NoDup_nil_2|]. split; [cbn; lia|]. split; [cbn; unfold NBUF; lia|set_solver]. Qed.

Lemma head_ok_nil d : geom st sz -> length d = Z.to_nat BSIZE -> hd_n d = 0 -> head_ok st sz d.
Proof. intros G Hl Hn. split; [done|]. rewrite head_empty by done. split; [done|by apply txn_ok_nil]. Qed.

Lemma home_outside x : home st sz x -> outside x.
Proof. by intros [_ ?]. Qed.

Lemma put_head_ok d bl :
  geom st sz -> length d = Z.to_nat BSIZE -> txn_ok st sz bl ->
  head_ok st sz (put_head d bl) /\ head_entries (put_head d bl) = bl.
Proof.
  intros G Hd Htx. pose proof Htx as (Hnd & H1 & H2 & H3).
  destruct (put_head_spec d bl) as (K1 & K2 & K3); [done|unfold LOGSIZE, MAXOPBLOCKS, NBUF in *; lia|intros x Hx; by apply H3|].
  split; [|done]. split; [done|]. by rewrite K3.
Qed.

(** ** The disk during a commit *)

(** A prefix of [l1 ++ x :: l2] stops before [x] or includes it. *)
Lemma prefix_app_cons {A} (pre l1 l2 : list A) x :
  pre `prefix_of` l1 ++ x :: l2 -> pre `prefix_of` l1 \/ exists p2, p2 `prefix_of` l2 /\ pre = l1 ++ x :: p2.
Proof.
  revert pre. induction l1 as [|y l1 IH]; intros pre Hp; cbn in Hp.
  - destruct pre as [|z pre]; [left; apply prefix_nil|]. pose proof (prefix_cons_inv_1 _ _ _ _ Hp) as ->.
    apply prefix_cons_inv_2 in Hp. right. by exists pre.
  - destruct pre as [|z pre]; [left; apply prefix_nil|]. pose proof (prefix_cons_inv_1 _ _ _ _ Hp) as ->.
    apply prefix_cons_inv_2 in Hp. destruct (IH pre Hp) as [H|(p2 & H & ->)].
    + left. by apply prefix_cons.
    + right. by exists p2.
Qed.

Lemma prefix_fst {A B} (pre l : list (A * B)) x : pre `prefix_of` l -> x ∈ pre.*1 -> x ∈ l.*1.
Proof. intros [k ->] Hx. rewrite fmap_app. set_solver. Qed.

Lemma zip_fst {A B} (l : list A) (k : list B) x : x ∈ (zip l k).*1 -> x ∈ l.
Proof.
  revert k. induction l as [|y l IH]; intros [|z k]; cbn; intros Hx; try (by apply elem_of_nil in Hx).
  apply elem_of_cons in Hx as [->|Hx]; [by left|]. right. by eapply IH.
Qed.

Lemma zip_map_elem (V : Z -> block) (l k : list Z) i x y :
  l !! i = Some x -> k !! i = Some y -> (x, V y) ∈ zip l (V <$> k).
Proof.
  intros Hx Hy. apply list_elem_of_lookup. exists i. apply lookup_zip_Some. split; [done|].
  by rewrite list_lookup_fmap, Hy.
Qed.

Lemma zip_nodup (l : list Z) (k : list block) : NoDup l -> NoDup (zip l k).*1.
Proof.
  intros Hn. revert k. induction Hn as [|x l Hx Hn IH]; intros [|z k]; cbn; try constructor; [|apply IH].
  intros H. by apply Hx, (zip_fst l k).
Qed.

Lemma slots_lookup k n i : (i < n)%nat -> slots st k n !! i = Some (st + Z.of_nat (k + i) + 1).
Proof. intros Hi. unfold slots. by rewrite list_lookup_fmap, lookup_seq_lt by done. Qed.

Lemma slots_nodup k n : NoDup (slots st k n).
Proof. apply NoDup_fmap_2; [intros x y ?; lia|]. apply NoDup_seq. Qed.

(** Installing a prefix of the home writes does not change what the disk means,
    while the header lists them all. *)
Lemma install_prefix d bl pre V :
  head_entries (dread d st) = bl -> txn_ok st sz bl -> geom st sz ->
  (forall i x, bl !! i = Some x -> dread d (st + Z.of_nat i + 1) = V x) ->
  pre `prefix_of` zip bl (V <$> bl) ->
  dread (replay pre d) st = dread d st /\ (forall m, logical (replay pre d) m = logical d m) /\
  (forall i x, bl !! i = Some x -> dread (replay pre d) (st + Z.of_nat i + 1) = V x).
Proof.
  intros Hbl (Hnd & Hb1 & Hb2 & Hhome) G Hslot Hpre. pose proof G as [G1 G2 G3].
  assert (Hin : forall x, x ∈ pre.*1 -> x ∈ bl) by (intros x Hx; eapply zip_fst, prefix_fst; eauto).
  assert (Hst : dread (replay pre d) st = dread d st).
  { apply replay_notin. intros Hx%Hin. by apply (st_not_home st sz bl). }
  assert (Hsl : forall i x, bl !! i = Some x -> dread (replay pre d) (st + Z.of_nat i + 1) = V x).
  { intros i x Hx. rewrite replay_notin; [by apply Hslot|]. intros Hy%Hin%Hhome. apply lookup_lt_Some in Hx.
    destruct Hy as [_ []]. lia. }
  split; [done|]. split; [|done]. intros m. destruct (decide (m ∈ bl)) as [Hm|Hm].
  - apply list_elem_of_lookup in Hm as [i Hi].
    rewrite (logical_entry _ m i), (logical_entry d m i) by (rewrite ?Hst, ?Hbl; done).
    by rewrite (Hsl i m Hi), (Hslot i m Hi).
  - rewrite !logical_other by (rewrite ?Hst, ?Hbl; done). apply replay_notin. intros ?%Hin. done.
Qed.

Lemma replay_snoc ws n x d : replay (ws ++ [(n, x)]) d = <[n := x]> (replay ws d).
Proof. by rewrite replay_app. Qed.

Lemma dread_insert d n x m : dread (<[n := x]> d) m = if decide (m = n) then x else dread d m.
Proof. unfold dread. rewrite lookup_insert. repeat case_decide; done || congruence. Qed.

Lemma hd_n_cleared d : length d = Z.to_nat BSIZE -> length (put_head d []) = Z.to_nat BSIZE /\ hd_n (put_head d []) = 0.
Proof.
  intros Hd. destruct (put_head_spec d []) as (H1 & H2 & _); [done|cbn; unfold LOGSIZE, MAXOPBLOCKS; lia|set_solver|].
  by split.
Qed.

(** Writing the header makes the whole transaction part of the disk's meaning. *)
Lemma commit_point V d0 bl d1 :
  geom st sz -> txn_ok st sz bl -> length (V st) = Z.to_nat BSIZE ->
  (forall m, m ∉ bl -> outside m -> V m = dread d0 m) ->
  d1 = replay (zip (slots st 0 (length bl)) (V <$> bl) ++ [(st, put_head (V st) bl)]) d0 ->
  dread d1 st = put_head (V st) bl /\ (forall m, outside m -> dread d1 m = dread d0 m) /\
  (forall i x, bl !! i = Some x -> dread d1 (st + Z.of_nat i + 1) = V x) /\
  (forall m, outside m -> logical d1 m = V m).
Proof.
  intros G Htx Hl Hother ->. pose proof G as [G1 G2 G3]. pose proof Htx as (Hnd & Hb1 & Hb2 & Hhome).
  rewrite replay_snoc. set (A := zip _ _).
  assert (HA : forall x, x ∈ A.*1 -> st < x < st + sz) by (intros x Hx%zip_fst%elem_of_slots; lia).
  destruct (put_head_ok (V st) bl G Hl Htx) as [_ Hen].
  assert (Hst : dread (<[st := put_head (V st) bl]> (replay A d0)) st = put_head (V st) bl)
    by (by rewrite dread_insert, decide_True).
  assert (Hm : forall m, outside m -> dread (<[st := put_head (V st) bl]> (replay A d0)) m = dread d0 m).
  { intros m Hm. unfold outside in Hm. rewrite dread_insert, decide_False by lia. apply replay_notin.
    intros ?%HA. lia. }
  assert (Hsl : forall i x, bl !! i = Some x ->
    dread (<[st := put_head (V st) bl]> (replay A d0)) (st + Z.of_nat i + 1) = V x).
  { intros i x Hx. rewrite dread_insert, decide_False by lia.
    apply replay_in; [apply zip_nodup, slots_nodup|]. apply (zip_map_elem V _ _ i); [|done].
    apply slots_lookup. by apply lookup_lt_Some in Hx. }
  split; [done|]. split; [done|]. split; [done|]. intros m Ho. destruct (decide (m ∈ bl)) as [Hin|Hin].
  - apply list_elem_of_lookup in Hin as [i Hi].
    rewrite (logical_entry _ m i) by (by rewrite Hst, Hen). by apply Hsl.
  - rewrite logical_other by (by rewrite Hst, Hen). rewrite Hm by done. symmetry. by apply Hother.
Qed.

Lemma commit_prefix V d0 bl pre :
  geom st sz -> txn_ok st sz bl -> dread d0 st = V st -> length (V st) = Z.to_nat BSIZE -> hd_n (V st) = 0 ->
  (forall m, m ∉ bl -> outside m -> V m = dread d0 m) -> pre `prefix_of` commit_writes V st bl ->
  head_ok st sz (dread (replay pre d0) st) /\
  ((forall m, outside m -> logical (replay pre d0) m = dread d0 m) \/
   (forall m, outside m -> logical (replay pre d0) m = V m)).
Proof.
  intros G Htx Hst Hl Hn Hother Hpre. pose proof G as [G1 G2 G3]. pose proof Htx as (Hnd & Hb1 & Hb2 & Hhome).
  destruct (put_head_ok (V st) bl G Hl Htx) as [Hok Hen].
  unfold commit_writes in Hpre. set (A := zip (slots st 0 (length bl)) (V <$> bl)) in *.
  apply prefix_app_cons in Hpre as [Hpre|(p2 & Hp2 & ->)].
  { assert (Hin : forall x, x ∈ pre.*1 -> st < x < st + sz).
    { intros x Hx. eapply prefix_fst, zip_fst, elem_of_slots in Hx; [|exact Hpre]. lia. }
    assert (Hs : dread (replay pre d0) st = V st) by (rewrite replay_notin; [done|intros ?%Hin; lia]).
    rewrite Hs. split; [by apply head_ok_nil|]. left. intros m Hm. rewrite logical_other.
    + apply replay_notin. intros ?%Hin. apply Hm. lia.
    + rewrite Hs, head_empty by done. set_solver. }
  change ((st, put_head (V st) bl) :: p2) with ([(st, put_head (V st) bl)] ++ p2).
  rewrite app_assoc, replay_app. set (d1 := replay (A ++ _) d0) in *.
  destruct (commit_point V d0 bl d1 G Htx Hl Hother eq_refl) as (K1 & K2 & K3 & K4).
  apply prefix_app_cons in Hp2 as [Hp2|(p3 & Hp3 & ->)].
  - destruct (install_prefix d1 bl p2 V) as (I1 & I2 & _); try done; [by rewrite K1|].
    rewrite I1, K1. split; [done|]. right. intros m Hm. by rewrite I2, K4.
  - apply prefix_nil_inv in Hp3 as ->. rewrite replay_snoc, !dread_insert, decide_True by done.
    destruct (hd_n_cleared (put_head (V st) bl)) as [H1 H2]; [apply Hok|].
    split; [by apply head_ok_nil|]. right. intros m Hm.
    rewrite logical_other by (rewrite dread_insert, decide_True, head_empty by done; set_solver).
    unfold outside in Hm. rewrite dread_insert, decide_False by lia.
    destruct (decide (m ∈ bl)) as [Hin|Hin].
    + apply list_elem_of_lookup in Hin as [i Hi]. apply replay_in; [by apply zip_nodup|].
      by apply (zip_map_elem V _ _ i).
    + rewrite replay_notin by (intros ?%zip_fst; done). rewrite K2 by done. symmetry. by apply Hother.
Qed.

(** ** The disk during recovery *)

Lemma recover_prefix d pre :
  geom st sz -> head_ok st sz (dread d st) -> pre `prefix_of` recover_writes (dread d) st ->
  head_ok st sz (dread (replay pre d) st) /\
  (forall m, outside m -> logical (replay pre d) m = logical d m) /\
  (pre = recover_writes (dread d) st ->
   length (dread (replay pre d) st) = Z.to_nat BSIZE /\ hd_n (dread (replay pre d) st) = 0).
Proof.
  intros G Hok Hpre. pose proof Hok as (Hl & Hn & Htx). unfold recover_writes in *.
  set (bl := head_entries (dread d st)) in *. pose proof Htx as (Hnd & Hb1 & Hb2 & Hhome).
  set (V := logical d).
  assert (Hsl : forall i x, bl !! i = Some x -> dread d (st + Z.of_nat i + 1) = V x).
  { intros i x Hx. symmetry. by apply logical_entry. }
  assert (Hz : dread d <$> slots st 0 (length bl) = V <$> bl).
  { apply list_eq. intros i. rewrite !list_lookup_fmap. destruct (decide (i < length bl)%nat) as [Hi|Hi].
    - rewrite slots_lookup by done. destruct (lookup_lt_is_Some_2 bl i Hi) as [x Ex]. rewrite Ex. cbn. f_equal. by apply Hsl.
    - unfold slots. by rewrite list_lookup_fmap, lookup_seq_ge, (lookup_ge_None_2 bl) by lia. }
  rewrite Hz in *. destruct (hd_n_cleared (dread d st) Hl) as [H1 H2].
  apply prefix_app_cons in Hpre as [Hpre|(p2 & Hp2 & ->)].
  - destruct (install_prefix d bl pre V) as (I1 & I2 & _); try done. rewrite I1. split; [done|].
    split; [intros; apply I2|]. intros ->. exfalso. destruct Hpre as [k Hk]. apply (f_equal length) in Hk.
    rewrite !length_app in Hk. cbn in Hk. lia.
  - apply prefix_nil_inv in Hp2 as ->. rewrite replay_snoc, dread_insert, decide_True by done.
    split; [by apply head_ok_nil|]. split; [|done]. intros m Hm.
    rewrite logical_other by (rewrite dread_insert, decide_True, head_empty by done; set_solver).
    unfold outside in Hm. pose proof G as [G1 G2 G3]. rewrite dread_insert, decide_False by lia.
    destruct (decide (m ∈ bl)) as [Hin|Hin].
    + apply list_elem_of_lookup in Hin as [i Hi]. apply replay_in; [by apply zip_nodup|].
      by apply (zip_map_elem V _ _ i).
    + rewrite replay_notin by (intros ?%zip_fst; done). symmetry. by apply logical_other.
Qed.

(** ** Booting *)

(** The log before [initlog]: an empty cache over the disk [d]. *)
Definition fresh (l : log) (d : gmap Z block) : Prop :=
  cache D (lb l) [] [] /\ dsk (lb l) = d /\ length (lhblock l) = Z.to_nat LOGSIZE.

Lemma cache_idle s m : cache D s [] [] -> view D s m = dread (dsk s) m.
Proof. intros HC. apply (cache_clean D s [] [] m HC); apply not_elem_of_nil. Qed.

Lemma recover_writes_ext V V' : (forall m, V m = V' m) -> recover_writes V st = recover_writes V' st.
Proof.
  intros E. unfold recover_writes. rewrite E. do 2 f_equal. apply list_fmap_ext. intros. apply E.
Qed.

Lemma initlog_ok l d :
  geom st sz -> fresh l d -> head_ok st sz (dread d st) ->
  exists l', initlog D st sz l = Ok (tt, l') /\
    wrote (recover_writes (dread d) st) (lb l) (lb l') /\ log_ok D st sz l' [] [] /\
    outstanding l' = outstanding l /\ committing l' = committing l.
Proof.
  intros G (HC & <- & Hlen) Hok. pose proof G as [G1 G2 G3]. unfold initlog.
  rewrite (proj2 (Z.leb_gt _ _)) by (unfold BSIZE, LOGSIZE, MAXOPBLOCKS; lia). erewrite bind_ok by reflexivity.
  rewrite !s32_small by lia. set (l0 := mklog _ _ _ _ _ _ _ _).
  destruct (recover_ok D st sz l0) as (s' & l' & E & HC' & W & H1 & H2 & H3 & H4 & H5 & H6 & H7); try done;
    [by rewrite cache_idle|].
  change (lb l0) with (lb l) in W.
  rewrite (recover_writes_ext _ (dread (dsk (lb l)))) in W by (intros; by apply cache_idle).
  exists (set_lb s' l'). split; [exact E|]. split; [exact W|]. split; [|done].
  destruct (recover_prefix (dsk (lb l)) _ G Hok (reflexivity _)) as (_ & _ & Hfin). destruct (Hfin eq_refl) as [F1 F2].
  destruct W as (_ & Wd & _). rewrite <- Wd in F1, F2.
  split; try done; cbn [lb set_lb]; [by apply txn_ok_nil|by rewrite cache_idle|by rewrite cache_idle].
Qed.

(** Boots cut short: each runs [initlog] and loses all but a prefix of its writes. *)
Inductive boots : gmap Z block -> gmap Z block -> Prop :=
| boots_none d : boots d d
| boots_crash d l l' ws pre d' :
    fresh l d -> initlog D st sz l = Ok (tt, l') -> dtrace (lb l') = dtrace (lb l) ++ ws ->
    pre `prefix_of` ws -> boots (replay pre d) d' -> boots d d'.

Lemma boots_logical d d' :
  geom st sz -> boots d d' -> head_ok st sz (dread d st) ->
  head_ok st sz (dread d' st) /\ forall m, outside m -> logical d' m = logical d m.
Proof.
  intros G. induction 1 as [d|d l l' ws pre d' Hf E Ht Hp _ IH]; intros Hok; [done|].
  destruct (initlog_ok l d G Hf Hok) as (l1 & E1 & (W1 & _) & _). rewrite E in E1. simplify_eq.
  rewrite W1 in Ht. apply app_inv_head in Ht. subst ws.
  destruct (recover_prefix d pre G Hok Hp) as (K1 & K2 & _). destruct (IH K1) as [I1 I2].
  split; [done|]. intros m Hm. by rewrite I2, K2.
Qed.

Lemma initlog_logical l d :
  geom st sz -> fresh l d -> head_ok st sz (dread d st) ->
  exists l', initlog D st sz l = Ok (tt, l') /\ log_ok D st sz l' [] [] /\
    forall m, outside m -> dread (dsk (lb l')) m = logical d m.
Proof.
  intros G Hf Hok. destruct (initlog_ok l d G Hf Hok) as (l' & E & (_ & W & _) & Hl & _).
  exists l'. split; [done|]. split; [done|]. intros m Hm.
  destruct (recover_prefix d _ G Hok (reflexivity _)) as (_ & K & Hfin). rewrite <- (K m Hm), W.
  destruct Hf as (_ & -> & _). symmetry. apply logical_other. rewrite head_empty by (by apply Hfin).
  apply not_elem_of_nil.
Qed.
End Crash.

Lemma log_crash D st sz l bl :
  log_ok D st sz l bl [] -> bl <> [] ->
  exists l1 ws, commit l = Ok (tt, l1) /\ dtrace (lb l1) = dtrace (lb l) ++ ws /\
    (forall m, outside st sz m -> dread (dsk (lb l1)) m = view D (lb l) m) /\
    (forall pre d l2, pre `prefix_of` ws -> boots D st sz (replay pre (dsk (lb l))) d -> fresh D l2 d ->
     exists l3, initlog D st sz l2 = Ok (tt, l3) /\ log_ok D st sz l3 [] [] /\
       ((forall m, outside st sz m -> dread (dsk (lb l3)) m = dread (dsk (lb l)) m) \/
        (forall m, outside st sz m -> dread (dsk (lb l3)) m = view D (lb l) m))).
Proof.
  intros Hl Hne. destruct (commit_ok D st sz l bl Hl Hne) as (s' & E & HC' & (W & _) & Hv & _).
  pose proof Hl as [_ _ _ G _ _ _ Htx HC Hh1 Hh2].
  eexists _, _. split; [exact E|]. split; [exact W|]. cbn [lb set_lb set_lhn].
  split; [intros m Hm; rewrite <- Hv by done; symmetry; by apply cache_idle|].
  intros pre d l2 Hp Hb Hf.
  assert (Hclean : forall m, m ∉ bl -> view D (lb l) m = dread (dsk (lb l)) m).
  { intros m Hm. apply (cache_clean D (lb l) bl [] m HC Hm), not_elem_of_nil. }
  assert (Hst : st ∉ bl) by (apply (st_not_home st sz); [done|apply Htx]).
  destruct (commit_prefix st sz (view D (lb l)) (dsk (lb l)) bl pre) as [Hok Hor]; try done; [by rewrite Hclean|auto|].
  destruct (boots_logical D st sz _ _ G Hb Hok) as [Hok' Hlog].
  destruct (initlog_logical D st sz l2 d G Hf Hok') as (l3 & E3 & Hl3 & H3).
  exists l3. split; [done|]. split; [done|].
  destruct Hor as [Hor|Hor]; [left|right]; intros m Hm; by rewrite H3, Hlog, Hor.
Qed.

(** C2: [commit] of a transaction issues a sequence of disk writes; if the
    machine stops after any prefix of it, and any number of later boots stop after
    any prefix of the writes of their recovery, the boot that completes finds on
    every block outside the log the content before the transaction, or on every
    such block the content the transaction gave it; without a crash it is the
    latter. *)
Theorem log_crash_atomic D st sz l bl :
  log_ok D st sz l bl [] -> bl <> [] ->
  exists l1 ws, commit l = Ok (tt, l1) /\ dtrace (lb l1) = dtrace (lb l) ++ ws /\
    (forall m, outside st sz m -> dread (dsk (lb l1)) m = view D (lb l) m) /\
    (forall pre d l2, pre `prefix_of` ws -> boots D st sz (replay pre (dsk (lb l))) d -> fresh D l2 d ->
     exists l3, initlog D st sz l2 = Ok (tt, l3) /\ log_ok D st sz l3 [] [] /\
       ((forall m, outside st sz m -> dread (dsk (lb l3)) m = dread (dsk (lb l)) m) \/
        (forall m, outside st sz m -> dread (dsk (lb l3)) m = view D (lb l) m))).
Proof. apply log_crash. Qed.
