(* ===== verification/LogOp.v ===== *)
(** The operations file-system code calls: [begin_op], [log_write] and [end_op],
    on every branch, and the space each operation reserves. *)

From S2P Require Import Prelude Sleeplock Bio BioRing BioSpec BioCst Bytes Log LogSpec LogRun.

Section Op.
Context (D st sz : Z).

Lemma absorb_ok l bno : forall rest done fuel,
  take (length done + length rest) (lhblock l) = done ++ rest ->
  lhn l = Z.of_nat (length done + length rest) -> (length rest < fuel)%nat ->
  (length done + length rest <= length (lhblock l))%nat -> (forall x, x ∈ rest -> u32 x = x) ->
  absorb fuel bno (Z.of_nat (length done)) l =
  Ok (Z.of_nat (length done + match list_find (fun x => x = bno) rest with Some (i, _) => i | None => length rest end), l).
Proof.
  induction rest as [|c rest IH]; intros done fuel Ht Hn Hf Hl Hu;
    (destruct fuel as [|fuel]; [simpl in Hf; lia|]); cbn [absorb]; rewrite LogSpec.gets_step.
  - rewrite Hn, (proj2 (Z.ltb_ge _ _)) by (cbn; lia). unfold ret. do 2 f_equal. cbn. lia.
  - cbn [length] in *. rewrite (proj2 (Z.ltb_lt _ _)) by lia. rewrite LogSpec.gets_step.
    assert (Hc : lhb (Z.of_nat (length done)) l = c).
    { unfold lhb. rewrite Nat2Z.id. apply list_lookup_total_correct.
      rewrite <- (take_drop (length done + S (length rest)) (lhblock l)), Ht.
      rewrite lookup_app_l by (rewrite length_app; cbn; lia). by rewrite lookup_app_r, Nat.sub_diag. }
    rewrite Hc, Hu by set_solver. cbn [list_find]. destruct (Z.eqb_spec c bno) as [->|Hne].
    + rewrite decide_True by done. unfold ret. do 2 f_equal. lia.
    + rewrite decide_False by done.
      replace (Z.of_nat (length done) + 1) with (Z.of_nat (length (done ++ [c]))) by (rewrite length_app; cbn; lia).
      rewrite IH.
      * do 2 f_equal. rewrite length_app. destruct (list_find _ rest) as [[i x]|]; cbn; lia.
      * rewrite length_app, <- app_assoc. cbn. rewrite <- Ht. f_equal. lia.
      * rewrite length_app. cbn. lia.
      * lia.
      * rewrite length_app. cbn. lia.
      * intros x Hx. apply Hu. set_solver.
Qed.

Lemma log_write_find l bl H b n :
  log_ok D st sz l bl H -> (b, n) ∈ H -> 0 <= n < 2 ^ 31 ->
  blockno (bufs (lb l) !!! b) = n /\
  absorb (S (Z.to_nat (lhn l))) n 0 l =
  Ok (Z.of_nat (match list_find (fun x => x = n) bl with Some (i, _) => i | None => length bl end), l).
Proof.
  intros Hl Hin Hn. pose proof Hl as [_ _ _ _ Hln Hbl Hlen (_ & _ & _ & Hhome) HC _ _].
  destruct (cache_held D (lb l) bl H b n HC Hin) as [((_ & _ & Hb) & _) _]. split; [done|].
  assert (Hle : (length bl <= length (lhblock l))%nat).
  { rewrite <- Hbl, length_take. lia. }
  apply (absorb_ok l n bl []); cbn; [done|done|lia|done|]. intros x Hx. destruct (Hhome x Hx). apply small_u32. lia.
Qed.

(** A block already in the transaction is absorbed. *)
Lemma log_write_again l bl H b n :
  log_ok D st sz l bl H -> (b, n) ∈ H -> n ∈ bl -> 1 <= outstanding l ->
  lhn l < LOGSIZE -> lhn l < sz - 1 -> log_write b l = Ok (tt, l).
Proof.
  intros Hl Hin Hbl Ho H1 H2. pose proof Hl as [_ _ Hsz _ Hln Hb Hlen (Hnd & _ & _ & Hhome) HC _ _].
  destruct (Hhome n Hbl) as [Hn _]. destruct (log_write_find l bl H b n Hl Hin Hn) as [Hbno Hf].
  unfold log_write. erewrite bind_ok by reflexivity.
  rewrite Hsz, !(proj2 (Z.leb_gt _ _)), (proj2 (Z.ltb_ge _ _)) by lia. cbn [orb].
  erewrite bind_ok by (apply (bio_ok (getb b) (lb l)); reflexivity). rewrite set_lb_id, Hbno.
  erewrite bind_ok by reflexivity. rewrite (bind_ok _ _ _ _ _ Hf).
  apply list_elem_of_lookup in Hbl as [i Hi].
  destruct (list_find _ bl) as [[j x]|] eqn:Ef.
  2: { apply list_find_None in Ef. rewrite Forall_lookup in Ef. by destruct (Ef i n Hi). }
  apply list_find_Some in Ef as (Hj & -> & _). erewrite bind_ok by reflexivity.
  assert (El : set_lhblock (Z.of_nat j) (s32 n) l = l).
  { unfold set_lhblock. rewrite Nat2Z.id, s32_small by lia. destruct l. cbn in *. f_equal.
    apply list_insert_id. rewrite <- (take_drop (length bl) lhblock), Hb.
    rewrite lookup_app_l; [done|]. by apply lookup_lt_Some in Hj. }
  rewrite El, LogSpec.gets_step, Hln. apply lookup_lt_Some in Hj. by rewrite (proj2 (Z.eqb_neq _ _)) by lia.
Qed.

(** A new one is appended and pinned. *)
Lemma log_write_new l bl H b n :
  log_ok D st sz l bl H -> (b, n) ∈ H -> n ∉ bl -> home st sz n -> 1 <= outstanding l ->
  lhn l < LOGSIZE - 1 -> lhn l < sz - 1 ->
  exists l', log_write b l = Ok (tt, l') /\ log_ok D st sz l' (bl ++ [n]) H /\
    (forall m, view D (lb l') m = view D (lb l) m) /\ same_disk (lb l) (lb l') /\
    outstanding l' = outstanding l /\ committing l' = committing l.
Proof.
  intros Hl Hin Hbl Hhn Ho H1 H2.
  pose proof Hl as [HD Hst Hsz G Hln Hb Hlen (Hnd & Hb1 & Hb2 & Hhome) HC Hh1 Hh2].
  pose proof Hhn as [Hn Hns]. destruct (log_write_find l bl H b n Hl Hin Hn) as [Hbno Hf].
  unfold LOGSIZE, MAXOPBLOCKS in *.
  unfold log_write. erewrite bind_ok by reflexivity.
  rewrite Hsz, !(proj2 (Z.leb_gt _ _)), (proj2 (Z.ltb_ge _ _)) by (unfold LOGSIZE, MAXOPBLOCKS; lia). cbn [orb].
  erewrite bind_ok by (apply (bio_ok (getb b) (lb l)); reflexivity). rewrite set_lb_id, Hbno.
  erewrite bind_ok by reflexivity. rewrite (bind_ok _ _ _ _ _ Hf).
  destruct (list_find _ bl) as [[j x]|] eqn:Ef.
  { apply list_find_Some in Ef as (Hj & -> & _). destruct Hbl. by apply list_elem_of_lookup_2 with j. }
  erewrite bind_ok by reflexivity. rewrite LogSpec.gets_step. cbn [lhn set_lhblock].
  rewrite Hln, (proj2 (Z.eqb_eq _ _)), s32_small by lia. set (l1 := set_lhblock _ n l).
  destruct (cache_bpin D (lb l) bl H b n HC Hin Hbl) as (s' & E & HC' & Hv & HDk).
  assert (E' : bio (bpin b) l1 = Ok (tt, set_lb s' l1)) by (unfold bio, zoom; change (lb l1) with (lb l); by rewrite E).
  rewrite (bind_ok _ _ _ _ _ E'). eexists. split; [reflexivity|]. split; [|done].
  split; cbn [ldev lstart lsize lhn lhblock lb set_lhn set_lb set_lhblock l1]; try done.
  - rewrite Hln, length_app. cbn. lia.
  - rewrite Nat2Z.id, length_app. cbn [length]. rewrite Nat.add_1_r.
    rewrite (take_S_r _ _ n) by (apply list_lookup_insert_eq; lia). rewrite take_insert_ge by lia. by rewrite Hb.
  - by rewrite length_insert.
  - split; [|split; [rewrite length_app; cbn; lia|split; [rewrite length_app; cbn; unfold NBUF; lia|]]].
    + apply NoDup_app. split; [done|]. split; [set_solver|apply NoDup_singleton].
    + intros x [Hx| ->%list_elem_of_singleton]%elem_of_app; auto.
  - by rewrite Hv.
  - by rewrite Hv.
Qed.

(** The two refusals. *)
Lemma log_write_full l b :
  LOGSIZE <= lhn l \/ lsize l - 1 <= lhn l -> log_write b l = Panic "too big a transaction".
Proof.
  intros Hf. unfold log_write. erewrite bind_ok by reflexivity.
  assert ((LOGSIZE <=? lhn l) || (lsize l - 1 <=? lhn l) = true) as ->; [|done].
  apply orb_true_iff. rewrite !Z.leb_le. done.
Qed.

Lemma log_write_unopened l b :
  lhn l < LOGSIZE -> lhn l < lsize l - 1 -> outstanding l < 1 -> log_write b l = Panic "log_write outside of trans".
Proof.
  intros H1 H2 H3. unfold log_write. erewrite bind_ok by reflexivity.
  by rewrite !(proj2 (Z.leb_gt _ _)), (proj2 (Z.ltb_lt _ _)) by lia.
Qed.

(** ** Opening and closing an operation *)

Lemma log_ok_outstanding l bl H n : log_ok D st sz l bl H -> log_ok D st sz (set_outstanding n l) bl H.
Proof. intros []. by split. Qed.

Lemma log_ok_committing l bl H c : log_ok D st sz l bl H -> log_ok D st sz (set_committing c l) bl H.
Proof. intros []. by split. Qed.

Lemma begin_op_ok l bl H :
  log_ok D st sz l bl H -> committing l = false -> lhn l + (outstanding l + 1) * MAXOPBLOCKS <= LOGSIZE ->
  begin_op l = Ok (tt, set_outstanding (outstanding l + 1) l).
Proof.
  intros _ Hc Hs. unfold begin_op. erewrite bind_ok by reflexivity. by rewrite Hc, (proj2 (Z.ltb_ge _ _)).
Qed.

Lemma set_lb_commit s l c o : set_lb s (set_lhn 0 (set_committing c (set_outstanding o l))) =
  set_committing c (set_outstanding o (set_lb s (set_lhn 0 l))).
Proof. done. Qed.

(** The last operation to end commits: the disk takes the content of the cache. *)
Lemma end_op_commits l bl :
  log_ok D st sz l bl [] -> committing l = false -> outstanding l = 1 ->
  exists l', end_op l = Ok (tt, l') /\ log_ok D st sz l' [] [] /\ outstanding l' = 0 /\ committing l' = false /\
    (forall m, ~ st <= m < st + sz -> view D (lb l') m = view D (lb l) m) /\
    (forall m, ~ st <= m < st + sz -> dread (dsk (lb l')) m = view D (lb l) m) /\
    exists ws, (ws = [] \/ ws = commit_writes (view D (lb l)) st bl) /\ wrote ws (lb l) (lb l').
Proof.
  intros Hl Hc Ho. unfold end_op. erewrite bind_ok by reflexivity.
  set (l0 := set_outstanding (outstanding l - 1) l).
  erewrite bind_ok by reflexivity. cbn [committing outstanding l0 set_outstanding]. rewrite Hc, Ho. cbn [Z.sub Z.eqb].
  change (1 - 1 =? 0) with true. cbn iota. erewrite bind_ok by reflexivity.
  set (l1 := set_committing true l0).
  assert (Hl1 : log_ok D st sz l1 bl []) by (by apply log_ok_committing, log_ok_outstanding).
  destruct (decide (bl = [])) as [->|Hne].
  - assert (E : commit l1 = Ok (tt, l1)).
    { unfold commit. erewrite bind_ok by reflexivity. by rewrite (lo_n _ _ _ _ _ _ Hl1). }
    rewrite (bind_ok _ _ _ _ _ E). eexists. split; [reflexivity|].
    split; [by apply log_ok_committing|]. split; [cbn; lia|]. split; [done|]. split; [done|].
    split; [intros m _; symmetry; apply (cache_clean D (lb l) [] []); [apply Hl|apply not_elem_of_nil..]|].
    exists []. split; [by left|]. by apply wrote_nil.
  - destruct (commit_ok D st sz l1 bl Hl1 Hne) as (s' & E & HC' & W & Hv & Hh).
    rewrite (bind_ok _ _ _ _ _ E). eexists. split; [reflexivity|]. unfold modify.
    destruct Hl1 as [? ? ? G ? ? ? (? & ? & ? & Hhome) HC1 Hl2 Hn2].
    destruct (put_head_spec (view D (lb l) st) bl) as (P1 & P2 & P3);
      [done|unfold LOGSIZE, MAXOPBLOCKS, NBUF in *; lia|intros x Hx; by apply Hhome|].
    destruct (put_head_spec (put_head (view D (lb l) st) bl) []) as (Q1 & Q2 & Q3);
      [done|cbn; lia|set_solver|].
    split; [|split; [cbn; lia|]].
    + split; cbn [ldev lstart lsize lhn lhblock lb set_lhn set_lb set_committing l1 l0 set_outstanding]; try done.
      * split; [apply NoDup_nil_2|]. split; [cbn; destruct G; lia|]. split; [cbn; unfold NBUF; lia|set_solver].
      * by rewrite Hh.
      * by rewrite Hh.
    + split; [done|]. split; [exact Hv|]. split.
      * intros m Hm. etransitivity; [|exact (Hv m Hm)]. symmetry. apply (cache_clean D s' [] []); [done|apply not_elem_of_nil..].
      * eexists. split; [by right|]. exact W.
Qed.

(** Any other one only gives back its place. *)
Lemma end_op_waits l bl H :
  log_ok D st sz l bl H -> committing l = false -> outstanding l <> 1 ->
  end_op l = Ok (tt, set_outstanding (outstanding l - 1) l) /\
  log_ok D st sz (set_outstanding (outstanding l - 1) l) bl H.
Proof.
  intros Hl Hc Ho. split; [|by apply log_ok_outstanding].
  unfold end_op. erewrite bind_ok by reflexivity. erewrite bind_ok by reflexivity.
  cbn [committing outstanding set_outstanding]. by rewrite Hc, (proj2 (Z.eqb_neq _ _)) by lia.
Qed.
End Op.

(** * The reservation discipline of [begin_op]: while every operation logs at most
    [MAXOPBLOCKS] new blocks, the log has room for all of them. *)

(** ** Calls that leave the log's counters alone *)

Definition frames {A} (m : M log A) : Prop := forall l a l', m l = Ok (a, l') ->
  lhn l' = lhn l /\ outstanding l' = outstanding l /\ committing l' = committing l /\ lsize l' = lsize l.

Lemma frames_ret {A} (a : A) : frames (ret a).
Proof. intros l x l' [= _ <-]. done. Qed.

Lemma frames_gets {A} (f : log -> A) : frames (gets f).
Proof. intros l x l' [= _ <-]. done. Qed.

Lemma frames_nofuel {A} : frames (nofuel : M log A).
Proof. intros l x l' [=]. Qed.

Lemma frames_bio {A} (m : M bst A) : frames (bio m).
Proof. intros l a l' E. unfold bio, zoom in E. destruct (m (lb l)) as [[x t]|?| |]; simplify_eq. done. Qed.

Lemma frames_bind {A B} (m : M log A) (k : A -> M log B) : frames m -> (forall a, frames (k a)) -> frames (bind m k).
Proof.
  intros Hm Hk l b l' E. apply bind_ok_inv in E as (a & l1 & E1 & E2).
  destruct (Hm _ _ _ E1) as (H1 & H2 & H3 & H4). destruct (Hk a _ _ _ E2) as (K1 & K2 & K3 & K4).
  split_and!; congruence.
Qed.

Lemma frames_if {A} (c : bool) (m1 m2 : M log A) : frames m1 -> frames m2 -> frames (if c then m1 else m2).
Proof. by destruct c. Qed.

Create HintDb frames.
#[export] Hint Resolve frames_ret frames_gets frames_nofuel frames_bio : frames.

Lemma frames_install fuel rc tail : frames (install_loop fuel rc tail).
Proof.
  revert tail. induction fuel as [|f IH]; intros tail; cbn [install_loop]; [auto with frames|].
  apply frames_bind; [auto with frames|intros n]. apply frames_if; [|auto with frames].
  repeat (apply frames_bind; [try (destruct rc); auto with frames|intros ?]). apply IH.
Qed.

Lemma frames_write_log fuel tail : frames (write_log_loop fuel tail).
Proof.
  revert tail. induction fuel as [|f IH]; intros tail; cbn [write_log_loop]; [auto with frames|].
  apply frames_bind; [auto with frames|intros n]. apply frames_if; [|auto with frames].
  repeat (apply frames_bind; [auto with frames|intros ?]). apply IH.
Qed.

Lemma frames_write_head_loop fuel b i : frames (write_head_loop fuel b i).
Proof.
  revert i. induction fuel as [|f IH]; intros i; cbn [write_head_loop]; [auto with frames|].
  apply frames_bind; [auto with frames|intros n]. apply frames_if; [|auto with frames].
  repeat (apply frames_bind; [auto with frames|intros ?]). apply IH.
Qed.

Lemma frames_turns : frames turns.
Proof. apply frames_bind; auto with frames. Qed.

Lemma frames_write_head : frames write_head.
Proof.
  unfold write_head. repeat (apply frames_bind; [auto using frames_write_head_loop, frames_turns with frames|intros ?]).
  auto with frames.
Qed.

(** [commit] empties the log. *)
Lemma commit_counters l l' :
  0 <= lhn l -> commit l = Ok (tt, l') ->
  lhn l' = 0 /\ outstanding l' = outstanding l /\ committing l' = committing l /\ lsize l' = lsize l.
Proof.
  intros Hn E. unfold commit in E. apply bind_ok_inv in E as (n & l0 & [= <- <-] & E).
  destruct (Z.ltb_spec 0 (lhn l)) as [Hp|Hp].
  - apply bind_ok_inv in E as (u1 & l1 & E1 & E). apply bind_ok_inv in E as (u2 & l2 & E2 & E).
    apply bind_ok_inv in E as (u3 & l3 & E3 & E). apply bind_ok_inv in E as (u4 & l4 & [= _ <-] & E).
    assert (F1 : frames write_log) by (apply frames_bind; [apply frames_turns|intros; apply frames_write_log]).
    assert (F3 : frames (install_trans false)) by (apply frames_bind; [apply frames_turns|intros; apply frames_install]).
    destruct (F1 _ _ _ E1) as (? & ? & ? & ?), (frames_write_head _ _ _ E2) as (? & ? & ? & ?),
      (F3 _ _ _ E3) as (? & ? & ? & ?), (frames_write_head _ _ _ E) as (? & ? & ? & ?).
    cbn in *. split_and!; congruence.
  - injection E as <-. split_and!; done || lia.
Qed.

(** ** Operations with budgets *)

(** [rem] lists the blocks each outstanding operation may still add.  An
    operation ends with whatever budget it has left; a call that sleeps or
    panics is no step. *)
Inductive op_step : log * list Z -> log * list Z -> Prop :=
| op_begin l rem l' : begin_op l = Ok (tt, l') -> op_step (l, rem) (l', MAXOPBLOCKS :: rem)
| op_write l rem k r b l' :
    rem !! k = Some r -> 0 < r -> log_write b l = Ok (tt, l') -> op_step (l, rem) (l', <[k := r - 1]> rem)
| op_end l rem k l' : (k < length rem)%nat -> end_op l = Ok (tt, l') -> op_step (l, rem) (l', delete k rem).

Definition room (x : log * list Z) : Prop :=
  let '(l, rem) := x in
  0 <= lhn l /\ committing l = false /\ outstanding l = Z.of_nat (length rem) /\
  Forall (fun r => 0 <= r <= MAXOPBLOCKS) rem /\ lhn l + foldr Z.add 0 rem <= LOGSIZE.

Lemma sum_bound rem : Forall (fun r => 0 <= r <= MAXOPBLOCKS) rem ->
  0 <= foldr Z.add 0 rem <= Z.of_nat (length rem) * MAXOPBLOCKS.
Proof. induction 1; cbn [foldr length]; unfold MAXOPBLOCKS in *; lia. Qed.

Lemma sum_insert rem k r x : rem !! k = Some r -> foldr Z.add 0 (<[k := x]> rem) = foldr Z.add 0 rem - r + x.
Proof.
  revert k. induction rem as [|y rem IH]; intros [|k] Hk; csimpl in *; simplify_eq; [lia|]. rewrite (IH k Hk). lia.
Qed.

Lemma sum_delete rem k r : rem !! k = Some r -> foldr Z.add 0 (delete k rem) = foldr Z.add 0 rem - r.
Proof.
  revert k. induction rem as [|y rem IH]; intros [|k] Hk; csimpl in *; simplify_eq; [lia|]. rewrite (IH k Hk). lia.
Qed.

Lemma absorb_total bno : forall fuel i l, 0 < lhn l - i + 1 <= Z.of_nat fuel ->
  exists j, absorb fuel bno i l = Ok (j, l) /\ i <= j <= lhn l.
Proof.
  induction fuel as [|f IH]; intros i l Hf; cbn [absorb]; [lia|].
  unfold bind, gets, ret. destruct (Z.ltb_spec i (lhn l)); [|exists i; split; [done|lia]].
  destruct (_ =? bno); [exists i; split; [done|lia]|].
  destruct (IH (i + 1) l) as (j & E & Hj); [lia|]. exists j. split; [done|lia].
Qed.

Lemma log_write_total l b :
  0 <= lhn l < LOGSIZE -> lhn l < lsize l - 1 -> 1 <= outstanding l ->
  exists l', log_write b l = Ok (tt, l') /\ lhn l <= lhn l' <= lhn l + 1 /\
    outstanding l' = outstanding l /\ committing l' = committing l /\ lsize l' = lsize l.
Proof.
  intros H1 H2 H3. unfold log_write, bind at 1, get.
  rewrite !(proj2 (Z.leb_gt _ _)), (proj2 (Z.ltb_ge _ _)) by lia. cbn [orb].
  erewrite bind_ok by reflexivity. set (l0 := set_lb _ l).
  erewrite bind_ok by reflexivity.
  destruct (absorb_total (blockno (bufs (lb l) !!! b)) (S (Z.to_nat (lhn l0))) 0 l0) as (j & E & Hj).
  { cbn. lia. }
  rewrite (bind_ok _ _ _ _ _ E). erewrite bind_ok by reflexivity. erewrite bind_ok by reflexivity.
  cbn [lhn set_lhblock]. destruct (j =? lhn l0); eexists; (split; [reflexivity|]); cbn; split_and!; done || lia.
Qed.

Lemma room_step x y : room x -> op_step x y -> room y.
Proof.
  intros Hr Hs. destruct Hs as [l rem l' E|l rem k r b l' Hk Hp E|l rem k l' Hk E];
    destruct Hr as (Hn & Hc & Ho & Hb & Hsum); pose proof (sum_bound rem Hb) as Hs.
  - unfold begin_op, bind, get in E. rewrite Hc in E.
    destruct (Z.ltb_spec LOGSIZE (lhn l + (outstanding l + 1) * MAXOPBLOCKS)); [done|]. injection E as <-.
    unfold room, MAXOPBLOCKS in *. cbn [lhn committing outstanding set_outstanding length foldr].
    split_and!; try done; try lia. constructor; [lia|done].
  - assert (Hlt : (k < length rem)%nat) by (by apply lookup_lt_Some in Hk).
    assert (Hge : 0 < foldr Z.add 0 rem).
    { pose proof (sum_insert rem k r 0 Hk). pose proof (sum_bound (<[k := 0]> rem)) as Hb'.
      rewrite Forall_lookup in Hb'. enough (0 <= foldr Z.add 0 (<[k := 0]> rem)) by lia. apply Hb'.
      rewrite <- Forall_lookup. apply Forall_insert; [done|]. unfold MAXOPBLOCKS. lia. }
    assert (Hsz : lhn l < lsize l - 1).
    { unfold log_write, bind at 1, get in E. destruct (Z.leb_spec (lsize l - 1) (lhn l)); [|lia].
      by rewrite orb_true_r in E. }
    destruct (log_write_total l b) as (l1 & E1 & H1 & H2 & H3 & H4); [lia|done|lia|]. rewrite E in E1. simplify_eq.
    rewrite Forall_lookup in Hb. pose proof (Hb k r Hk) as Hrk. rewrite <- Forall_lookup in Hb. simpl in Hrk.
    unfold room. rewrite length_insert, (sum_insert rem k r) by done. split_and!; try done; try congruence; try lia.
    apply Forall_insert; [done|]. lia.
  - destruct (lookup_lt_is_Some_2 rem k Hk) as [r Hr]. pose proof (sum_delete rem k r Hr) as Hd.
    assert (Hrk : 0 <= r <= MAXOPBLOCKS) by (by rewrite Forall_lookup in Hb; apply (Hb k)).
    assert (Hlen : Z.of_nat (length (delete k rem)) = outstanding l - 1) by (rewrite length_delete by eauto; lia).
    unfold end_op in E. erewrite bind_ok in E by reflexivity. erewrite bind_ok in E by reflexivity.
    cbn [committing outstanding set_outstanding] in E. rewrite Hc in E. unfold room. rewrite Hd, Hlen.
    assert (Hdel : Forall (fun r => 0 <= r <= MAXOPBLOCKS) (delete k rem)) by (by apply Forall_delete).
    destruct (Z.eqb_spec (outstanding l - 1) 0) as [Hz|Hz].
    + erewrite bind_ok in E by reflexivity. apply bind_ok_inv in E as (u & l1 & E1 & [= <-]).
      destruct u. apply commit_counters in E1 as (K1 & K2 & K3 & K4); [|done].
      cbn [lhn committing outstanding set_committing set_outstanding] in *. split_and!; try done; try lia.
    + injection E as <-. cbn. split_and!; try done; lia.
Qed.


