(* ===== verification/Blk.v ===== *)
(** What the file system needs from the layers below it: a typeclass of block
    operations with their laws, and the log over the buffer cache as its
    instance. *)

From S2P Require Import Prelude Sleeplock Bio BioRing BioSpec BioCst Bytes Log LogSpec LogRun LogOp.

(** [bread], [b->data] read and written, [log_write], [brelse], [initlog],
    [begin_op], [end_op] and [myproc()->pid]. *)
Class BlockOps (B : Type) := {
  b_read : Z -> Z -> M B nat;
  b_data : nat -> B -> block;
  b_store : nat -> block -> M B unit;
  b_log : nat -> M B unit;
  b_release : nat -> M B unit;
  b_init : Z -> Z -> Z -> M B unit;
  b_begin : M B unit;
  b_end : M B unit;
  b_pid : B -> Z
}.

(** A block's bytes. *)
Definition wf_block (d : block) : Prop := length d = Z.to_nat BSIZE /\ Forall is_byte d.

Lemma wf_zero : wf_block zero_block.
Proof. split; [done|]. apply Forall_replicate. unfold is_byte. lia. Qed.

Lemma wr32_byte d off v : Forall is_byte d -> Forall is_byte (wr32 d off v).
Proof. intros. apply splice_byte; [done|]. apply le_bytes_byte. Qed.

Lemma wr32_wf d off v : wf_block d -> (off + 4 <= Z.to_nat BSIZE)%nat -> wf_block (wr32 d off v).
Proof. intros [H1 H2] Ho. split; [rewrite length_wr32; lia|by apply wr32_byte]. Qed.

(** The contents with block [n] replaced. *)
Definition upd {A} (V : Z -> A) (n : Z) (d : A) : Z -> A := fun m => if decide (m = n) then d else V m.

(** Adding to the set of logged blocks. *)
Definition add (n : Z) (L : list Z) : list Z := if decide (n ∈ L) then L else L ++ [n].

(** The blocks outside the log and the bound of a transaction. *)
Class BlockGeom := {
  writable : Z -> Prop;
  log_cap : nat
}.

(** [blk s V L H T]: the blocks have contents [V], those in [L] are in the
    transaction under way, the process holds the buffers [H], and the blocks in
    [T] were changed and not logged yet. *)
Class BlockLaws (B : Type) {ops : BlockOps B} {geo : BlockGeom} (D : Z) := {
  blk : B -> (Z -> block) -> list Z -> list (nat * Z) -> list Z -> Prop;
  blk_ext s V V' L H T : (forall n, V n = V' n) -> blk s V L H T -> blk s V' L H T;
  blk_wf s V L H T n : blk s V L H T -> wf_block (V n);
  blk_nodup s V L H T : blk s V L H T -> NoDup H.*1;
  blk_read s V L H T n : blk s V L H T -> n ∉ H.*2 -> n ∈ L \/ (length L + length H < NBUF)%nat ->
    exists b s', b_read D n s = Ok (b, s') /\ blk s' V L ((b, n) :: H) T /\ b ∉ H.*1 /\ b_pid s' = b_pid s;
  blk_data s V L H T b n : blk s V L H T -> (b, n) ∈ H -> b_data b s = V n;
  blk_store s V L H T b n d : blk s V L H T -> (b, n) ∈ H -> writable n -> wf_block d ->
    exists s', b_store b d s = Ok (tt, s') /\ blk s' (upd V n d) L H (n :: T) /\ b_pid s' = b_pid s;
  blk_log s V L H T b n : blk s V L H T -> (b, n) ∈ H -> writable n -> (length L < log_cap)%nat ->
    exists s', b_log b s = Ok (tt, s') /\ blk s' V (add n L) H (filter (fun m => m <> n) T) /\ b_pid s' = b_pid s;
  blk_release s V L H T b n : blk s V L H T -> (b, n) ∈ H -> n ∉ T ->
    exists s', b_release b s = Ok (tt, s') /\ blk s' V L (unhold b H) T /\ b_pid s' = b_pid s
}.

(** ** The log *)

#[export] Instance log_block_ops : BlockOps log := {
  b_read dev n := bio (bread dev n);
  b_data b l := bdata (bufs (lb l) !!! b);
  b_store b d := bio (updb b (set_data d));
  b_log b := log_write b;
  b_release b := bio (brelse b);
  b_init := initlog;
  b_begin := begin_op;
  b_end := end_op;
  b_pid l := bpid (lb l)
}.

Section LogLaws.
Context (D st sz : Z) (d0 : gmap Z block) (w0 : list (Z * block)) (o0 : Z).

(** Inside an operation. *)
Definition busy (l : log) : Prop := 1 <= outstanding l /\ outstanding l = o0 /\ committing l = false.

(** [o0] operations are under way; the disk is still [d0], with the writes [w0] so far. *)
Definition log_blk (l : log) (V : Z -> block) (L : list Z) (H : list (nat * Z)) (T : list Z) : Prop :=
  log_ok D st sz l L H /\ (forall n, V n = view D (lb l) n) /\ (forall n, wf_block (V n)) /\
  (forall n, n ∉ L -> n ∉ T -> view D (lb l) n = dread (dsk (lb l)) n) /\ busy l /\
  (forall n, n ∈ T -> n ∈ H.*2) /\ dsk (lb l) = d0 /\ dtrace (lb l) = w0.

(** The header and the log's bookkeeping survive any step of the cache. *)
Lemma log_ok_cache l L H s L' H' :
  log_ok D st sz l L H -> L' = L -> cache D s L H' -> view D s st = view D (lb l) st ->
  log_ok D st sz (set_lb s l) L' H'.
Proof.
  intros [] -> HC Hv. split; cbn [ldev lstart lsize lhn lhblock lb set_lb]; try done; by rewrite Hv.
Qed.

Lemma log_blk_read l V L H T n :
  log_blk l V L H T -> n ∉ H.*2 -> n ∈ L \/ (length L + length H < NBUF)%nat ->
  exists b l', b_read D n l = Ok (b, l') /\ log_blk l' V L ((b, n) :: H) T /\ b ∉ H.*1 /\ b_pid l' = b_pid l.
Proof.
  intros (Hl & HV & Hw & Hc & Ho & HT & Hd0 & Hw0) Hn Hr.
  destruct (cache_bread D (lb l) L H n (lo_cache _ _ _ _ _ _ Hl) Hn Hr) as (b & s' & E & Hb & HC & Hv & D1 & D2 & D3).
  exists b, (set_lb s' l). split; [exact (bio_run _ _ _ _ E)|].
  split; [|done]. split; [by eapply log_ok_cache|]. split; [intros m; by rewrite HV, <- Hv|].
  split; [done|]. split; [intros m H1 H2; cbn; by rewrite D1, Hv, Hc|]. split; [done|].
  split; [cbn; set_solver|]. cbn. by rewrite D1, D2.
Qed.

Lemma log_blk_store l V L H T b n d :
  log_blk l V L H T -> (b, n) ∈ H -> home st sz n -> wf_block d ->
  exists l', b_store b d l = Ok (tt, l') /\ log_blk l' (upd V n d) L H (n :: T) /\ b_pid l' = b_pid l.
Proof.
  intros (Hl & HV & Hw & Hc & Ho & HT & Hd0 & Hw0) Hin [_ Hn] Hd. pose proof (lo_geom _ _ _ _ _ _ Hl) as [G1 G2 G3].
  destruct (cache_set_data D (lb l) L H b n d (lo_cache _ _ _ _ _ _ Hl) Hin) as (s' & E & HC & Hv & D1 & D2 & D3).
  exists (set_lb s' l). split; [exact (bio_run _ _ _ _ E)|].
  split; [|done]. split; [eapply log_ok_cache; [done..|]; rewrite Hv, decide_False by lia; done|].
  split; [intros m; cbn; rewrite Hv; unfold upd; case_decide; [done|apply HV]|].
  split; [intros m; unfold upd; by case_decide|].
  split; [|split; [done|split; [|cbn; by rewrite D1, D2]]].
  - intros m H1 H2. cbn. rewrite D1, Hv, decide_False by set_solver. apply Hc; set_solver.
  - intros m [->|Hm]%elem_of_cons; [|auto]. apply list_elem_of_fmap. by exists (b, n).
Qed.

Definition cap : nat := Z.to_nat (Z.min (LOGSIZE - 1) (sz - 1)).

Lemma log_blk_log l V L H T b n :
  log_blk l V L H T -> (b, n) ∈ H -> home st sz n -> (length L < cap)%nat ->
  exists l', b_log b l = Ok (tt, l') /\ log_blk l' V (add n L) H (filter (fun m => m <> n) T) /\ b_pid l' = b_pid l.
Proof.
  intros (Hl & HV & Hw & Hc & Ho & HT & Hd0 & Hw0) Hin Hh Hcap. unfold cap, LOGSIZE, MAXOPBLOCKS in Hcap.
  pose proof (lo_n _ _ _ _ _ _ Hl) as Hn. pose proof Ho as (Ho1 & Ho2 & Ho3). unfold add. case_decide as HnL.
  - exists l. split; [apply (log_write_again D st sz l L H b n); unfold LOGSIZE, MAXOPBLOCKS; done || lia|].
    split; [|done]. split; [done|]. split; [done|]. split; [done|]. split; [|split; [done|split; [|done]]].
    + intros m H1 H2. apply Hc; [done|]. intros HmT. apply H2, list_elem_of_filter. split; [by intros ->|done].
    + intros m [_ Hm]%list_elem_of_filter. auto.
  - destruct (log_write_new D st sz l L H b n) as (l' & E & Hl' & Hv & (D1 & D2 & D3) & Ho' & Hc');
      [done..|unfold LOGSIZE, MAXOPBLOCKS; lia|lia|].
    exists l'. split; [done|]. split; [|done]. split; [done|]. split; [intros m; by rewrite HV, Hv|].
    split; [done|]. split; [|split; [unfold busy; rewrite Ho', Hc'; done|split; [|by rewrite D1, D2]]].
    + intros m H1 H2. rewrite Hv, D1. apply Hc; [set_solver|]. intros HmT. apply H2, list_elem_of_filter.
      split; [|done]. intros ->. set_solver.
    + intros m [_ Hm]%list_elem_of_filter. auto.
Qed.

Lemma log_blk_release l V L H T b n :
  log_blk l V L H T -> (b, n) ∈ H -> n ∉ T ->
  exists l', b_release b l = Ok (tt, l') /\ log_blk l' V L (unhold b H) T /\ b_pid l' = b_pid l.
Proof.
  intros (Hl & HV & Hw & Hc & Ho & HT & Hd0 & Hw0) Hin Hn.
  destruct (cache_brelse D (lb l) L H b n (lo_cache _ _ _ _ _ _ Hl) Hin) as (s' & E & HC & Hv & D1 & D2 & D3); [auto|].
  exists (set_lb s' l). split; [exact (bio_run _ _ _ _ E)|].
  split; [|done]. split; [by eapply log_ok_cache|]. split; [intros m; by rewrite HV, <- Hv|].
  split; [done|]. split; [intros m H1 H2; cbn; by rewrite D1, Hv, Hc|]. split; [done|].
  split; [|cbn; by rewrite D1, D2]. intros m Hm. pose proof (HT m Hm) as Hm2. apply list_elem_of_fmap in Hm2 as ([c x] & -> & Hcx). cbn in *.
  apply list_elem_of_fmap. exists (c, x). split; [done|]. apply elem_of_unhold. split; [|done]. intros ->.
  destruct (lo_cache _ _ _ _ _ _ Hl) as [order Hcst].
  destruct (cst_at D _ _ _ _ _ _ Hcst Hin) as (_ & _ & _ & _ & _ & _ & Hu). by rewrite (Hu x Hcx) in Hm.
Qed.

Definition log_geom : BlockGeom := {| writable := home st sz; log_cap := cap |}.

#[refine] Instance log_block_laws : BlockLaws log (geo := log_geom) D := {
  blk := log_blk;
  blk_read := log_blk_read;
  blk_store := log_blk_store;
  blk_log := log_blk_log;
  blk_release := log_blk_release
}.
Proof.
  - intros l V V' L H T E (Hl & HV & Hw & Hc & Ho & HT & Hd0 & Hw0). split; [done|]. split; [intros n; by rewrite <- E|].
    split; [intros n; by rewrite <- E|]. done.
  - intros l V L H T n (Hl & HV & Hw & _). apply Hw.
  - intros l V L H T (Hl & _). destruct (lo_cache _ _ _ _ _ _ Hl) as [o Hc]. apply (cst_nodup _ _ _ _ _ Hc).
  - intros l V L H T b n (Hl & HV & _) Hin. cbn. rewrite HV.
    by apply (cache_data D (lb l) L H), Hin; apply (lo_cache _ _ _ _ _ _ Hl).
Defined.
End LogLaws.
