(* ===== verification/LogExample.v ===== *)
(** A concrete boot and transaction, the witness of the log's theorems. *)

From S2P Require Import Prelude Sleeplock Bio BioRing BioSpec BioCst Bytes Log LogSpec LogRun LogThm LogOp Blk.

Definition disk_wf (d : gmap Z block) : Prop := forall n, wf_block (dread d n).

Lemma disk_wf_empty : disk_wf ∅.
Proof. intros n. apply wf_zero. Qed.

Lemma disk_wf_insert d n x : disk_wf d -> wf_block x -> disk_wf (<[n := x]> d).
Proof. intros Hd Hx m. rewrite dread_insert. by case_decide. Qed.

(** The log just initialised satisfies the interface inside an operation. *)
Lemma log_blk_start D st sz l :
  log_ok D st sz l [] [] -> disk_wf (dsk (lb l)) -> 1 <= outstanding l -> committing l = false ->
  log_blk D st sz (dsk (lb l)) (dtrace (lb l)) (outstanding l) l (dread (dsk (lb l))) [] [] [].
Proof.
  intros Hl Hd Ho Hcm. assert (Hc : forall n, view D (lb l) n = dread (dsk (lb l)) n)
    by (intros; apply cache_idle, Hl).
  split; [done|]. split; [intros n; by rewrite Hc|]. split; [apply Hd|]. split; [done|]. split; [done|]. split; [set_solver|done].
Qed.

(** ** Boot and one write to block 50 *)

Definition ex_cache : bst := mkbst (replicate (S NBUF) buf0) 7 ∅ [].
Definition ex_boot : log :=
  mklog (match binit ex_cache with Ok (_, s) => s | _ => ex_cache end) 0 0 0 false 0 0 (replicate (Z.to_nat LOGSIZE) 0).
Definition ex_txn : M log unit :=
  initlog 1 2 30 ;;;
  begin_op ;;;
  b <- b_read 1 50 ;;
  b_store b (wr32 zero_block 0 77) ;;;
  b_log b ;;;
  b_release b.
Definition ex_log : log := match ex_txn ex_boot with Ok (_, l) => l | _ => ex_boot end.

Lemma ex_geom : geom 2 30.
Proof. split; lia. Qed.

Lemma ex_fresh : fresh 1 ex_boot ∅.
Proof.
  destruct (cache_binit 1 ex_cache) as (s' & E & HC & Hd & Hp); [done|reflexivity|].
  unfold ex_boot. rewrite E. split; [exact HC|]. split; [exact Hd|]. reflexivity.
Qed.

Lemma ex_head : head_ok 2 30 (dread (∅ : gmap Z block) 2).
Proof. apply head_ok_nil; [apply ex_geom|reflexivity|reflexivity]. Qed.

Lemma ex_log_run : exists l, ex_txn ex_boot = Ok (tt, l) /\ log_ok 1 2 30 l [50] [].
Proof.
  destruct (initlog_ok 1 2 30 ex_boot ∅ ex_geom ex_fresh ex_head) as (l1 & E1 & (_ & W1 & _) & Hl1 & Ho1 & Hc1).
  change (outstanding ex_boot) with 0 in Ho1. change (committing ex_boot) with false in Hc1.
  unfold ex_txn. rewrite (bind_ok _ _ _ _ _ E1). clear E1.
  assert (Hd1 : disk_wf (dsk (lb l1))).
  { rewrite W1. destruct ex_fresh as (_ & Hd & _). rewrite Hd. apply disk_wf_insert; [apply disk_wf_empty|].
    apply wr32_wf; [apply wf_zero|]. unfold BSIZE. lia. }
  clear W1. pose proof (lo_n _ _ _ _ _ _ Hl1) as Hn1.
  rewrite (bind_ok _ _ _ _ _ (begin_op_ok 1 2 30 l1 [] [] Hl1 Hc1
    ltac:(rewrite Ho1, Hn1; done))).
  set (l2 := set_outstanding _ l1).
  assert (Hb2 : log_blk 1 2 30 (dsk (lb l2)) (dtrace (lb l2)) (outstanding l2) l2 (dread (dsk (lb l2))) [] [] []).
  { apply log_blk_start; [by apply log_ok_outstanding|exact Hd1|cbn; rewrite Ho1; lia|done]. }
  destruct (log_blk_read _ _ _ _ _ _ _ _ _ _ _ 50 Hb2) as (b & l3 & E3 & Hb3 & _); [set_solver|right; cbn; unfold NBUF; lia|].
  rewrite (bind_ok _ _ _ _ _ E3). clear E3.
  destruct (log_blk_store _ _ _ _ _ _ _ _ _ _ _ b 50 (wr32 zero_block 0 77) Hb3) as (l4 & E4 & Hb4 & _);
    [set_solver|split; lia|apply wr32_wf; [apply wf_zero|unfold BSIZE; lia]|].
  rewrite (bind_ok _ _ _ _ _ E4). clear E4.
  destruct (log_blk_log _ _ _ _ _ _ _ _ _ _ _ b 50 Hb4) as (l5 & E5 & Hb5 & _);
    [set_solver|split; lia|cbn; unfold cap, LOGSIZE, MAXOPBLOCKS; lia|].
  rewrite (bind_ok _ _ _ _ _ E5). clear E5.
  destruct (log_blk_release _ _ _ _ _ _ _ _ _ _ _ b 50 Hb5) as (l6 & E6 & Hb6 & _); [set_solver|set_solver|].
  exists l6. split; [exact E6|]. destruct Hb6 as (Hl6 & _). unfold unhold in Hl6. cbn in Hl6.
  rewrite decide_False in Hl6 by tauto. exact Hl6.
Qed.

Lemma ex_log_ok : log_ok 1 2 30 ex_log [50] [].
Proof. destruct ex_log_run as (l & E & Hl). unfold ex_log. by rewrite E. Qed.

Lemma log_crash_atomic_witness :
  exists l1 ws, commit ex_log = Ok (tt, l1) /\ dtrace (lb l1) = dtrace (lb ex_log) ++ ws /\
    dread (dsk (lb l1)) 50 = view 1 (lb ex_log) 50.
Proof.
  destruct (log_crash_atomic 1 2 30 ex_log [50] ex_log_ok) as (l1 & ws & E & Ht & Hd & _); [discriminate|].
  exists l1, ws. split; [exact E|]. split; [exact Ht|]. apply Hd. unfold outside. lia.
Defined.
