(* ===== verification/Fs.v ===== *)
(** kernel/fs.c, kernel/fs.h and the inode of kernel/file.h: block allocator,
    inodes, file contents, directories and path names, over the block operations
    of [Blk].  In-memory inodes are named by their index in [icache.inode]; a null
    pointer is [None].  A buffer a C function fills through a pointer is a value
    the definition returns.  [either_copyout] and [either_copyin] are arguments of
    [readi] and [writei]: they move the bytes and say whether they succeeded. *)

From S2P Require Import Prelude Sleeplock Bio Bytes Blk.

Definition ROOTINO : Z := 1.
Definition ROOTDEV : Z := 1.
Definition FSMAGIC : Z := 0x10203040.
Definition NDIRECT : Z := 12.
Definition NINDIRECT : Z := BSIZE / 4.
Definition MAXFILE : Z := NDIRECT + NINDIRECT.
Definition DINODE : Z := 64.
Definition IPB : Z := BSIZE / DINODE.
Definition BPB : Z := BSIZE * 8.
Definition DIRSIZ : Z := 14.
Definition DIRENT : Z := 16.
Definition NINODE : nat := 50.
Definition T_DIR : Z := 1.
Definition T_FILE : Z := 2.
Definition T_DEV : Z := 3.

Record superblock := mksb {
  sb_magic : Z; sb_size : Z; sb_nblocks : Z; sb_ninodes : Z; sb_nlog : Z;
  sb_logstart : Z; sb_inodestart : Z; sb_bmapstart : Z
}.

Definition IBLOCK (i : Z) (sb : superblock) : Z := i / IPB + sb_inodestart sb.
Definition BBLOCK (b : Z) (sb : superblock) : Z := b / BPB + sb_bmapstart sb.

(** struct dinode *)
Record dinode := mkdinode {
  d_type : Z; d_major : Z; d_minor : Z; d_nlink : Z; d_size : Z; d_addrs : list Z
}.

(** struct inode *)
Record inode := mkinode {
  i_dev : Z; i_inum : Z; i_ref : Z; i_lock : sleeplock; i_valid : bool; i_d : dinode
}.

Definition dinode0 : dinode := mkdinode 0 0 0 0 0 (replicate 13 0).
Definition inode0 : inode := mkinode 0 0 0 (mksleeplock false 0) false dinode0.
#[export] Instance inode_inhabited : Inhabited inode := populate inode0.

(** struct stat *)
Record stat := mkstat { st_type : Z; st_dev : Z; st_ino : Z; st_nlink : Z; st_size : Z }.

(** ** The structures on disk *)

Definition read_sb (d : block) : superblock :=
  mksb (rd32 d 0) (rd32 d 4) (rd32 d 8) (rd32 d 12) (rd32 d 16) (rd32 d 20) (rd32 d 24) (rd32 d 28).

Definition addr_off (o : nat) (i : nat) : nat := (o + 12 + 4 * i)%nat.

(** The dinode at byte [o] of a block. *)
Definition read_dinode (d : block) (o : nat) : dinode :=
  mkdinode (s16 (rd16 d o)) (s16 (rd16 d (o + 2))) (s16 (rd16 d (o + 4))) (s16 (rd16 d (o + 6)))
    (rd32 d (o + 8)) ((fun i => rd32 d (addr_off o i)) <$> seq 0 13).

Fixpoint write_addrs (d : block) (o : nat) (l : list Z) : block :=
  match l with
  | [] => d
  | x :: l' => write_addrs (wr32 d o x) (o + 4) l'
  end.

Definition write_dinode (d : block) (o : nat) (x : dinode) : block :=
  let d := wr16 d o (d_type x) in
  let d := wr16 d (o + 2) (d_major x) in
  let d := wr16 d (o + 4) (d_minor x) in
  let d := wr16 d (o + 6) (d_nlink x) in
  let d := wr32 d (o + 8) (d_size x) in
  write_addrs d (o + 12) (d_addrs x).

(** [(struct dinode* )bp->data + inum % IPB] *)
Definition dinode_off (inum : Z) : nat := Z.to_nat (DINODE * (inum mod IPB)).

(** struct dirent *)
Definition de_inum (de : list Z) : Z := rd16 de 0.
Definition de_name (de : list Z) : list Z := sub de 2 (Z.to_nat DIRSIZ).
Definition mk_dirent (inum : Z) (name : list Z) : list Z := le_bytes 2 inum ++ name.

(** ** State *)

Record fs (B : Type) := mkfs { fb : B; icache : list inode; sb : superblock }.
Arguments mkfs {B}.
Arguments fb {B}.
Arguments icache {B}.
Arguments sb {B}.

Section Fs.
Context {B : Type} `{BlockOps B}.

Definition set_fb (b : B) (f : fs B) : fs B := mkfs b (icache f) (sb f).
Definition set_icache (l : list inode) (f : fs B) : fs B := mkfs (fb f) l (sb f).
Definition set_sb (x : superblock) (f : fs B) : fs B := mkfs (fb f) (icache f) x.

(** A call into the block layer. *)
Definition blkop {A} (m : M B A) : M (fs B) A := zoom fb set_fb m.
Definition bdata_of (b : nat) : M (fs B) block := gets (fun f => b_data b (fb f)).

Definition iat (ip : nat) : M (fs B) inode := gets (fun f => icache f !!! ip).
Definition iupd (ip : nat) (g : inode -> inode) : M (fs B) unit :=
  modify (fun f => set_icache (alter g ip (icache f)) f).
Definition on_ilock {A} (ip : nat) (m : Z -> M sleeplock A) : M (fs B) A :=
  pid <- gets (fun f => b_pid (fb f)) ;;
  zoom (fun f => i_lock (icache f !!! ip))
       (fun l f => set_icache (alter (fun x => mkinode (i_dev x) (i_inum x) (i_ref x) l (i_valid x) (i_d x)) ip (icache f)) f)
       (m pid).

Definition set_ref (n : Z) (x : inode) : inode := mkinode (i_dev x) (i_inum x) n (i_lock x) (i_valid x) (i_d x).
Definition set_ivalid (v : bool) (x : inode) : inode := mkinode (i_dev x) (i_inum x) (i_ref x) (i_lock x) v (i_d x).
Definition set_d (d : dinode) (x : inode) : inode := mkinode (i_dev x) (i_inum x) (i_ref x) (i_lock x) (i_valid x) d.
Definition with_size (n : Z) (d : dinode) : dinode :=
  mkdinode (d_type d) (d_major d) (d_minor d) (d_nlink d) n (d_addrs d).
Definition with_type (t : Z) (d : dinode) : dinode :=
  mkdinode t (d_major d) (d_minor d) (d_nlink d) (d_size d) (d_addrs d).
Definition with_addr (i : Z) (v : Z) (d : dinode) : dinode :=
  mkdinode (d_type d) (d_major d) (d_minor d) (d_nlink d) (d_size d) (<[Z.to_nat i := v]> (d_addrs d)).
Definition upd_d (ip : nat) (g : dinode -> dinode) : M (fs B) unit := iupd ip (fun x => set_d (g (i_d x)) x).

(** ** Superblock *)

Definition readsb (dev : Z) : M (fs B) superblock :=
  bp <- blkop (b_read dev 1) ;;
  d <- bdata_of bp ;;
  blkop (b_release bp) ;;;
  bp <- blkop (b_read dev 2) ;;
  blkop (b_release bp) ;;;
  ret (read_sb d).

Definition fsinit (dev : Z) : M (fs B) unit :=
  x <- readsb dev ;;
  modify (set_sb x) ;;;
  if negb (sb_magic x =? FSMAGIC) then panic "invalid file system"
  else blkop (b_init dev (sb_logstart x) (sb_nlog x)).

(** ** Blocks *)

Definition bzero (dev bno : Z) : M (fs B) unit :=
  bp <- blkop (b_read dev (u32 bno)) ;;
  blkop (b_store bp zero_block) ;;;
  blkop (b_log bp) ;;;
  blkop (b_release bp).

(** [bp->data[bi/8] & (1 << (bi % 8))] *)
Definition bit_set (d : block) (bi : Z) : bool :=
  negb (Z.land (d !!! Z.to_nat (bi / 8)) (Z.shiftl 1 (bi mod 8)) =? 0).
Definition set_bit (d : block) (bi : Z) : block :=
  alter (fun x => Z.lor x (Z.shiftl 1 (bi mod 8))) (Z.to_nat (bi / 8)) d.
(** [data[bi/8] &= ~m] on an [uchar] *)
Definition clear_bit (d : block) (bi : Z) : block :=
  alter (fun x => u8 (Z.land x (Z.lnot (Z.shiftl 1 (bi mod 8))))) (Z.to_nat (bi / 8)) d.

(** The inner loop of [balloc]: the first free bit from [bi]. *)
Fixpoint scan_bits (fuel : nat) (d : block) (b bi size : Z) : option Z :=
  match fuel with
  | O => None
  | S f =>
      if (bi <? BPB) && (b + bi <? size) then
        if negb (bit_set d bi) then Some bi else scan_bits f d b (bi + 1) size
      else None
  end.

Fixpoint balloc_loop (fuel : nat) (dev b : Z) : M (fs B) Z :=
  match fuel with
  | O => nofuel
  | S f =>
      s <- gets sb ;;
      if b <? sb_size s then
        bp <- blkop (b_read dev (u32 (BBLOCK b s))) ;;
        d <- bdata_of bp ;;
        match scan_bits (Z.to_nat BPB) d b 0 (sb_size s) with
        | Some bi =>
            blkop (b_store bp (set_bit d bi)) ;;;
            blkop (b_log bp) ;;;
            blkop (b_release bp) ;;;
            bzero dev (b + bi) ;;;
            ret (b + bi)
        | None =>
            blkop (b_release bp) ;;;
            balloc_loop f dev (b + BPB)
        end
      else panic "balloc: out of blocks"
  end.

Definition balloc (dev : Z) : M (fs B) Z :=
  s <- gets sb ;; balloc_loop (S (S (Z.to_nat (sb_size s / BPB)))) dev 0.

Definition bfree (dev b : Z) : M (fs B) unit :=
  s <- gets sb ;;
  bp <- blkop (b_read dev (u32 (BBLOCK b s))) ;;
  let bi := b mod BPB in
  d <- bdata_of bp ;;
  if negb (bit_set d bi) then panic "freeing free block" else
  blkop (b_store bp (clear_bit d bi)) ;;;
  blkop (b_log bp) ;;;
  blkop (b_release bp).

(** ** Inodes *)

Definition iinit : M (fs B) unit :=
  modify (fun f => set_icache ((fun x => mkinode (i_dev x) (i_inum x) (i_ref x) initsleeplock (i_valid x) (i_d x)) <$> icache f) f).

(** The scan of [iget]: the entry for the inode, or the first unused one. *)
Fixpoint iget_scan (l : list inode) (i : nat) (dev inum : Z) (empty : option nat) : nat + option nat :=
  match l with
  | [] => inr empty
  | x :: l' =>
      if (0 <? i_ref x) && (i_dev x =? dev) && (i_inum x =? inum) then inl i
      else
        let empty := match empty with None => if i_ref x =? 0 then Some i else None | e => e end in
        iget_scan l' (S i) dev inum empty
  end.

Definition iget (dev inum : Z) : M (fs B) nat :=
  l <- gets icache ;;
  match iget_scan l 0 dev inum None with
  | inl ip => iupd ip (fun x => set_ref (i_ref x + 1) x) ;;; ret ip
  | inr None => panic "iget: no inodes"
  | inr (Some ip) => iupd ip (fun x => mkinode dev inum 1 (i_lock x) false (i_d x)) ;;; ret ip
  end.

Fixpoint ialloc_loop (fuel : nat) (dev type inum : Z) : M (fs B) nat :=
  match fuel with
  | O => nofuel
  | S f =>
      s <- gets sb ;;
      if inum <? sb_ninodes s then
        bp <- blkop (b_read dev (u32 (IBLOCK inum s))) ;;
        d <- bdata_of bp ;;
        let o := dinode_off inum in
        if d_type (read_dinode d o) =? 0 then
          blkop (b_store bp (wr16 (splice d o (replicate (Z.to_nat DINODE) 0)) o type)) ;;;
          blkop (b_log bp) ;;;
          blkop (b_release bp) ;;;
          iget dev inum
        else
          blkop (b_release bp) ;;;
          ialloc_loop f dev type (inum + 1)
      else panic "ialloc: no inodes"
  end.

Definition ialloc (dev type : Z) : M (fs B) nat :=
  s <- gets sb ;; ialloc_loop (S (Z.to_nat (sb_ninodes s))) dev type 1.

Definition iupdate (ip : nat) : M (fs B) unit :=
  x <- iat ip ;;
  s <- gets sb ;;
  bp <- blkop (b_read (i_dev x) (u32 (IBLOCK (i_inum x) s))) ;;
  d <- bdata_of bp ;;
  blkop (b_store bp (write_dinode d (dinode_off (i_inum x)) (i_d x))) ;;;
  blkop (b_log bp) ;;;
  blkop (b_release bp).

Definition idup (ip : nat) : M (fs B) nat := iupd ip (fun x => set_ref (i_ref x + 1) x) ;;; ret ip.

Definition ilock (ip : nat) : M (fs B) unit :=
  x <- iat ip ;;
  if i_ref x <? 1 then panic "ilock" else
  on_ilock ip acquiresleep ;;;
  x <- iat ip ;;
  if i_valid x then ret tt else
  s <- gets sb ;;
  bp <- blkop (b_read (i_dev x) (u32 (IBLOCK (i_inum x) s))) ;;
  d <- bdata_of bp ;;
  iupd ip (set_d (read_dinode d (dinode_off (i_inum x)))) ;;;
  blkop (b_release bp) ;;;
  iupd ip (set_ivalid true) ;;;
  x <- iat ip ;;
  if d_type (i_d x) =? 0 then panic "ilock: no type" else ret tt.

Definition iunlock (ip : nat) : M (fs B) unit :=
  x <- iat ip ;;
  pid <- gets (fun f => b_pid (fb f)) ;;
  if negb (holdingsleep pid (i_lock x)) || (i_ref x <? 1) then panic "iunlock" else
  on_ilock ip (fun _ => releasesleep).

(** ** File contents *)

Definition bmap (ip : nat) (bn : Z) : M (fs B) Z :=
  x <- iat ip ;;
  if bn <? NDIRECT then
    let addr := d_addrs (i_d x) !!! Z.to_nat bn in
    if addr =? 0 then
      addr <- balloc (i_dev x) ;;
      upd_d ip (with_addr bn addr) ;;;
      ret addr
    else ret addr
  else
    let bn := bn - NDIRECT in
    if bn <? NINDIRECT then
      addr <- (let addr := d_addrs (i_d x) !!! Z.to_nat NDIRECT in
               if addr =? 0 then
                 addr <- balloc (i_dev x) ;;
                 upd_d ip (with_addr NDIRECT addr) ;;;
                 ret addr
               else ret addr) ;;
      bp <- blkop (b_read (i_dev x) addr) ;;
      d <- bdata_of bp ;;
      let addr := rd32 d (Z.to_nat (4 * bn)) in
      addr <- (if addr =? 0 then
                 addr <- balloc (i_dev x) ;;
                 d <- bdata_of bp ;;
                 blkop (b_store bp (wr32 d (Z.to_nat (4 * bn)) addr)) ;;;
                 blkop (b_log bp) ;;;
                 ret addr
               else ret addr) ;;
      blkop (b_release bp) ;;;
      ret addr
    else panic "bmap: out of range".

Fixpoint itrunc_direct (k : nat) (ip : nat) (i : Z) : M (fs B) unit :=
  match k with
  | O => ret tt
  | S k' =>
      x <- iat ip ;;
      (if negb (d_addrs (i_d x) !!! Z.to_nat i =? 0) then
         bfree (i_dev x) (d_addrs (i_d x) !!! Z.to_nat i) ;;;
         upd_d ip (with_addr i 0)
       else ret tt) ;;;
      itrunc_direct k' ip (i + 1)
  end.

Fixpoint itrunc_indirect (k : nat) (dev : Z) (bp : nat) (j : Z) : M (fs B) unit :=
  match k with
  | O => ret tt
  | S k' =>
      d <- bdata_of bp ;;
      let a := rd32 d (Z.to_nat (4 * j)) in
      (if negb (a =? 0) then bfree dev a else ret tt) ;;;
      itrunc_indirect k' dev bp (j + 1)
  end.

Definition itrunc (ip : nat) : M (fs B) unit :=
  itrunc_direct (Z.to_nat NDIRECT) ip 0 ;;;
  x <- iat ip ;;
  let a := d_addrs (i_d x) !!! Z.to_nat NDIRECT in
  (if negb (a =? 0) then
     bp <- blkop (b_read (i_dev x) a) ;;
     itrunc_indirect (Z.to_nat NINDIRECT) (i_dev x) bp 0 ;;;
     blkop (b_release bp) ;;;
     bfree (i_dev x) a ;;;
     upd_d ip (with_addr NDIRECT 0)
   else ret tt) ;;;
  upd_d ip (with_size 0) ;;;
  iupdate ip.

Definition iput (ip : nat) : M (fs B) unit :=
  x <- iat ip ;;
  (if (i_ref x =? 1) && i_valid x && (d_nlink (i_d x) =? 0) then
     on_ilock ip acquiresleep ;;;
     itrunc ip ;;;
     upd_d ip (with_type 0) ;;;
     iupdate ip ;;;
     iupd ip (set_ivalid false) ;;;
     on_ilock ip (fun _ => releasesleep)
   else ret tt) ;;;
  iupd ip (fun x => set_ref (i_ref x - 1) x).

Definition iunlockput (ip : nat) : M (fs B) unit := iunlock ip ;;; iput ip.

Definition stati (ip : nat) : M (fs B) stat :=
  x <- iat ip ;;
  ret (mkstat (d_type (i_d x)) (s32 (i_dev x)) (i_inum x) (d_nlink (i_d x)) (d_size (i_d x))).
End Fs.
