(* ===== verification/FsIo.v ===== *)
(** The rest of kernel/fs.c: reading and writing file contents, directories and
    path names.  A C string is the list of its bytes without the final NUL; a
    read past the end of the list is a NUL. *)

From S2P Require Import Prelude Sleeplock Bio Bytes Blk Fs.

Section FsIo.
Context {B : Type} `{BlockOps B}.

(** [copyout tot bytes] is [either_copyout(user_dst, dst + tot, bytes, m)].  The
    bytes handed to it successfully are returned beside [readi]'s result. *)
Fixpoint readi_loop (fuel : nat) (copyout : Z -> list Z -> M (fs B) Z) (ip : nat)
    (n tot off : Z) (acc : list Z) : M (fs B) (Z * list Z) :=
  match fuel with
  | O => nofuel
  | S f =>
      if tot <? n then
        x <- iat ip ;;
        a <- bmap ip (off / BSIZE) ;;
        bp <- blkop (b_read (i_dev x) a) ;;
        d <- bdata_of bp ;;
        let m := Z.min (n - tot) (BSIZE - off mod BSIZE) in
        let bytes := sub d (Z.to_nat (off mod BSIZE)) (Z.to_nat m) in
        r <- copyout tot bytes ;;
        if r =? -1 then
          blkop (b_release bp) ;;;
          ret (-1, acc)
        else
          blkop (b_release bp) ;;;
          readi_loop f copyout ip n (tot + m) (off + m) (acc ++ bytes)
      else ret (s32 tot, acc)
  end.

Definition readi (copyout : Z -> list Z -> M (fs B) Z) (ip : nat) (off n : Z) : M (fs B) (Z * list Z) :=
  x <- iat ip ;;
  let size := d_size (i_d x) in
  if (size <? off) || (u32 (off + n) <? off) then ret (0, []) else
  let n := if size <? u32 (off + n) then size - off else n in
  readi_loop (S (S (S (Z.to_nat (n / BSIZE))))) copyout ip n 0 off [].

(** [copyin tot m] is [either_copyin(dst, user_src, src + tot, m)]: its result
    and the bytes it wrote to [dst], fewer than [m] only if it fails. *)
Fixpoint writei_loop (fuel : nat) (copyin : Z -> Z -> M (fs B) (Z * list Z)) (ip : nat)
    (n tot off : Z) : M (fs B) (Z * Z) :=
  match fuel with
  | O => nofuel
  | S f =>
      if tot <? n then
        x <- iat ip ;;
        a <- bmap ip (off / BSIZE) ;;
        bp <- blkop (b_read (i_dev x) a) ;;
        d <- bdata_of bp ;;
        let m := Z.min (n - tot) (BSIZE - off mod BSIZE) in
        r <- copyin tot m ;;
        blkop (b_store bp (splice d (Z.to_nat (off mod BSIZE)) r.2)) ;;;
        if r.1 =? -1 then
          blkop (b_release bp) ;;;
          ret (u32 (-1), off)
        else
          blkop (b_log bp) ;;;
          blkop (b_release bp) ;;;
          writei_loop f copyin ip n (tot + m) (off + m)
      else ret (n, off)
  end.

Definition writei (copyin : Z -> Z -> M (fs B) (Z * list Z)) (ip : nat) (off n : Z) : M (fs B) Z :=
  x <- iat ip ;;
  if (d_size (i_d x) <? off) || (u32 (off + n) <? off) then ret (-1) else
  if MAXFILE * BSIZE <? u32 (off + n) then ret (-1) else
  r <- writei_loop (S (S (S (Z.to_nat (n / BSIZE))))) copyin ip n 0 off ;;
  (if 0 <? r.1 then
     x <- iat ip ;;
     (if d_size (i_d x) <? r.2 then upd_d ip (with_size r.2) else ret tt) ;;;
     iupdate ip
   else ret tt) ;;;
  ret (s32 r.1).

(** ** Directories *)

(** A transfer to or from a local variable of the kernel: [memmove], result 0. *)
Definition to_kernel (tot : Z) (bytes : list Z) : M (fs B) Z := ret 0.
Definition from_kernel (src : list Z) (tot m : Z) : M (fs B) (Z * list Z) :=
  ret (0, sub src (Z.to_nat tot) (Z.to_nat m)).
End FsIo.

(** [strncmp] of kernel/string.c on strings as lists. *)
Fixpoint str_ncmp (n : nat) (p q : list Z) : Z :=
  match n with
  | O => 0
  | S n' =>
      let x := hd 0 p in
      let y := hd 0 q in
      if negb (x =? 0) && (x =? y) then str_ncmp n' (tl p) (tl q) else x - y
  end.

Definition namecmp (s t : list Z) : Z := str_ncmp (Z.to_nat DIRSIZ) s t.

(** [strncpy]: the string, padded with NULs to [n] bytes. *)
Fixpoint str_ncpy (n : nat) (t : list Z) : list Z :=
  match n with
  | O => []
  | S n' => if hd 0 t =? 0 then replicate n 0 else hd 0 t :: str_ncpy n' (tl t)
  end.

(** ** Path elements *)

Definition slash : Z := 47.

(** Passing over leading slashes. *)
Fixpoint skip_slashes (path : list Z) : list Z :=
  match path with
  | c :: path' => if c =? slash then skip_slashes path' else path
  | [] => []
  end.

(** The bytes up to the next slash or the end, and the rest. *)
Fixpoint span_elem (path : list Z) : list Z * list Z :=
  match path with
  | [] => ([], [])
  | c :: path' =>
      if (c =? slash) || (c =? 0) then ([], path)
      else let '(s, rest) := span_elem path' in (c :: s, rest)
  end.

(** The new content of [name] and the rest of the path; [None] for a null result. *)
Definition skipelem (path name : list Z) : option (list Z * list Z) :=
  let path := skip_slashes path in
  if hd 0 path =? 0 then None else
  let '(s, path) := span_elem path in
  let name := if DIRSIZ <=? Z.of_nat (length s) then splice name 0 (take (Z.to_nat DIRSIZ) s)
              else splice name 0 (s ++ [0]) in
  Some (name, skip_slashes path).

Section FsDir.
Context {B : Type} `{BlockOps B}.

Fixpoint dirlookup_loop (fuel : nat) (dp : nat) (name : list Z) (off : Z) : M (fs B) (option (nat * Z)) :=
  match fuel with
  | O => nofuel
  | S f =>
      x <- iat dp ;;
      if off <? d_size (i_d x) then
        r <- readi to_kernel dp off DIRENT ;;
        if negb (r.1 =? DIRENT) then panic "dirlookup read" else
        if de_inum r.2 =? 0 then dirlookup_loop f dp name (off + DIRENT) else
        if namecmp name (de_name r.2) =? 0 then
          ip <- iget (i_dev x) (de_inum r.2) ;;
          ret (Some (ip, off))
        else dirlookup_loop f dp name (off + DIRENT)
      else ret None
  end.

(** The inode found and the offset of its entry, [*poff]. *)
Definition dirlookup (dp : nat) (name : list Z) : M (fs B) (option (nat * Z)) :=
  x <- iat dp ;;
  if negb (d_type (i_d x) =? T_DIR) then panic "dirlookup not DIR" else
  dirlookup_loop (S (S (Z.to_nat (d_size (i_d x) / DIRENT)))) dp name 0.

(** The offset of the first empty entry, or the size. *)
Fixpoint dirlink_loop (fuel : nat) (dp : nat) (off : Z) : M (fs B) Z :=
  match fuel with
  | O => nofuel
  | S f =>
      x <- iat dp ;;
      if off <? d_size (i_d x) then
        r <- readi to_kernel dp off DIRENT ;;
        if negb (r.1 =? DIRENT) then panic "dirlink read" else
        if de_inum r.2 =? 0 then ret off else dirlink_loop f dp (off + DIRENT)
      else ret off
  end.

Definition dirlink (dp : nat) (name : list Z) (inum : Z) : M (fs B) Z :=
  r <- dirlookup dp name ;;
  match r with
  | Some (ip, _) => iput ip ;;; ret (-1)
  | None =>
      x <- iat dp ;;
      off <- dirlink_loop (S (S (Z.to_nat (d_size (i_d x) / DIRENT)))) dp 0 ;;
      let de := mk_dirent inum (str_ncpy (Z.to_nat DIRSIZ) name) in
      r <- writei (from_kernel de) dp off DIRENT ;;
      if negb (r =? DIRENT) then panic "dirlink" else ret 0
  end.

(** [parent] is [nameiparent != 0]; the result is the inode and, for the parent,
    the content of [name]. *)
Fixpoint namex_loop (fuel : nat) (ip : nat) (path name : list Z) (parent : bool) : M (fs B) (option (nat * list Z)) :=
  match fuel with
  | O => nofuel
  | S f =>
      match skipelem path name with
      | None => if parent then iput ip ;;; ret None else ret (Some (ip, name))
      | Some (name, path) =>
          ilock ip ;;;
          x <- iat ip ;;
          if negb (d_type (i_d x) =? T_DIR) then iunlockput ip ;;; ret None else
          if parent && (hd 0 path =? 0) then iunlock ip ;;; ret (Some (ip, name)) else
          r <- dirlookup ip name ;;
          match r with
          | None => iunlockput ip ;;; ret None
          | Some (next, _) => iunlockput ip ;;; namex_loop f next path name parent
          end
      end
  end.

(** [cwd] is [myproc()->cwd]. *)
Definition namex (cwd : nat) (path : list Z) (parent : bool) (name : list Z) : M (fs B) (option (nat * list Z)) :=
  ip <- (if hd 0 path =? slash then iget ROOTDEV ROOTINO else idup cwd) ;;
  namex_loop (S (length path)) ip path name parent.

Definition namei (cwd : nat) (path : list Z) : M (fs B) (option nat) :=
  r <- namex cwd path false (replicate (Z.to_nat DIRSIZ) 0) ;;
  ret (fst <$> r).

Definition nameiparent (cwd : nat) (path name : list Z) : M (fs B) (option (nat * list Z)) :=
  namex cwd path true name.
End FsDir.
