(* ===== verification/FsBlock.v ===== *)
(** The block allocator of kernel/fs.c: [balloc] and [bfree] against the free map,
    with the run lemmas every routine over the block interface uses. *)

From S2P Require Import Prelude Sleeplock Bio BioCst Bytes Blk Fs.

(** ** Bits of the free map *)

Lemma land_pow2 x k : 0 <= k -> Z.land x (Z.shiftl 1 k) = if Z.testbit x k then 2 ^ k else 0.
Proof.
  intros Hk. rewrite Z.shiftl_1_l. apply Z.bits_inj'. intros i Hi. rewrite Z.land_spec, Z.pow2_bits_eqb by done.
  destruct (Z.testbit x k) eqn:E.
  - rewrite Z.pow2_bits_eqb by done. destruct (Z.eqb_spec k i) as [->|]; [by rewrite E|by rewrite andb_false_r].
  - rewrite Z.bits_0. destruct (Z.eqb_spec k i) as [->|]; [by rewrite E|by rewrite andb_false_r].
Qed.

Lemma bit_set_testbit d bi : bit_set d bi = Z.testbit (d !!! Z.to_nat (bi / 8)) (bi mod 8).
Proof.
  unfold bit_set. rewrite land_pow2 by lia. destruct (Z.testbit _ _); [|done].
  destruct (Z.eqb_spec (2 ^ (bi mod 8)) 0) as [E|]; [|done]. pose proof (Z.pow_pos_nonneg 2 (bi mod 8)). lia.
Qed.

Lemma alter_at {A} `{!Inhabited A} (g : A -> A) i j (l : list A) :
  (i < length l)%nat -> alter g i l !!! j = if decide (i = j) then g (l !!! j) else l !!! j.
Proof.
  intros Hi. case_decide as E; [subst; by apply list_lookup_total_alter_eq|].
  by rewrite list_lookup_total_alter_ne.
Qed.

Lemma bit_index d bi : wf_block d -> 0 <= bi < BPB -> (Z.to_nat (bi / 8) < length d)%nat.
Proof. intros [-> _]. unfold BPB, BSIZE. lia. Qed.

Lemma same_bit bi bj : 0 <= bi -> 0 <= bj -> Z.to_nat (bi / 8) = Z.to_nat (bj / 8) -> bi mod 8 = bj mod 8 -> bi = bj.
Proof. lia. Qed.

Lemma bit_set_set d bi bj :
  wf_block d -> 0 <= bi < BPB -> 0 <= bj < BPB ->
  bit_set (set_bit d bi) bj = bool_decide (bi = bj) || bit_set d bj.
Proof.
  intros Hd Hbi Hbj. rewrite !bit_set_testbit. unfold set_bit. rewrite (alter_at (A := Z)) by (by apply bit_index).
  case_decide as E.
  - rewrite Z.lor_spec, Z.shiftl_1_l, Z.pow2_bits_eqb by lia.
    destruct (Z.eqb_spec (bi mod 8) (bj mod 8)) as [E2|E2].
    + rewrite bool_decide_true by (apply same_bit; done || lia). by rewrite orb_true_r.
    + rewrite bool_decide_false by (intros ->; done). by rewrite orb_false_r.
  - rewrite bool_decide_false by (intros ->; done). done.
Qed.

Lemma bit_set_clear d bi bj :
  wf_block d -> 0 <= bi < BPB -> 0 <= bj < BPB ->
  bit_set (clear_bit d bi) bj = negb (bool_decide (bi = bj)) && bit_set d bj.
Proof.
  intros Hd Hbi Hbj. rewrite !bit_set_testbit. unfold clear_bit. rewrite (alter_at (A := Z)) by (by apply bit_index).
  case_decide as E.
  - unfold u8. rewrite Z.mod_pow2_bits_low by lia. rewrite Z.land_spec, Z.lnot_spec, Z.shiftl_1_l, Z.pow2_bits_eqb by lia.
    destruct (Z.eqb_spec (bi mod 8) (bj mod 8)) as [E2|E2].
    + rewrite bool_decide_true by (apply same_bit; done || lia). cbn. by rewrite andb_false_r.
    + rewrite bool_decide_false by (intros ->; done). cbn. by rewrite andb_true_r.
  - rewrite bool_decide_false by (intros ->; done). done.
Qed.

Lemma Forall_alter_byte (g : Z -> Z) i d : (forall x, is_byte x -> is_byte (g x)) -> Forall is_byte d -> Forall is_byte (alter g i d).
Proof. intros Hg Hd. apply Forall_alter; [done|]. intros x _ Hx. by apply Hg. Qed.

Lemma set_bit_wf d bi : wf_block d -> wf_block (set_bit d bi).
Proof.
  intros [Hl Hb]. split; [unfold set_bit; by rewrite length_alter|]. apply Forall_alter_byte; [|done].
  intros x Hx. unfold is_byte in *. rewrite Z.shiftl_1_l. split; [apply Z.lor_nonneg; split; [lia|apply Z.pow_nonneg; lia]|].
  apply Z.log2_lt_cancel. apply Z.le_lt_trans with 7; [|done].
  destruct (decide (bi mod 8 = 0)) as [E|E]; rewrite Z.log2_lor by (try apply Z.pow_nonneg; lia); apply Z.max_lub;
    try (rewrite Z.log2_pow2 by lia; lia); (destruct (decide (x = 0)) as [->|]; [done|];
    enough (Z.log2 x < 8) by lia; apply Z.log2_lt_pow2; lia).
Qed.

Lemma clear_bit_wf d bi : wf_block d -> wf_block (clear_bit d bi).
Proof.
  intros [Hl Hb]. split; [unfold clear_bit; by rewrite length_alter|]. apply Forall_alter_byte; [|done].
  intros x Hx. apply u8_range.
Qed.

(** The inner loop of [balloc] finds the first clear bit. *)
Lemma scan_bits_spec d b size : forall fuel bi,
  0 <= bi -> BPB - bi <= Z.of_nat fuel ->
  match scan_bits fuel d b bi size with
  | Some bj => bi <= bj < BPB /\ b + bj < size /\ bit_set d bj = false /\ forall k, bi <= k < bj -> bit_set d k = true
  | None => forall k, bi <= k < BPB -> b + k < size -> bit_set d k = true
  end.
Proof.
  induction fuel as [|f IH]; intros bi Hbi Hf; cbn [scan_bits]; [intros; lia|].
  destruct (Z.ltb_spec bi BPB); cbn [andb]; [|intros; lia].
  destruct (Z.ltb_spec (b + bi) size); [|intros; lia].
  destruct (bit_set d bi) eqn:E; cbn [negb].
  - specialize (IH (bi + 1)). destruct (scan_bits f d b (bi + 1) size) as [bj|].
    + destruct IH as (H1 & H2 & H3 & H4); [lia..|]. split_and!; try done; try lia.
      intros k Hk. destruct (decide (k = bi)) as [->|]; [done|]. apply H4. lia.
    + intros k Hk Hs. destruct (decide (k = bi)) as [->|]; [done|]. apply IH; lia.
  - split_and!; try done; try lia.
Qed.

(** ** Running block operations from file-system code *)

Section Runs.
Context {B : Type} {ops : BlockOps B} {geo : BlockGeom} {D : Z} {laws : BlockLaws B D}.

(** The block layer seen from the file system between updates. *)
Definition fblk (f : fs B) (V : Z -> block) (L : list Z) (H : list (nat * Z)) : Prop := blk (fb f) V L H [].

(** Only the block layer changed. *)
Definition fsame (f f' : fs B) : Prop :=
  icache f' = icache f /\ sb f' = sb f /\ b_pid (fb f') = b_pid (fb f).

Lemma fsame_refl f : fsame f f.
Proof. done. Qed.

Lemma fsame_trans f f1 f2 : fsame f f1 -> fsame f1 f2 -> fsame f f2.
Proof. unfold fsame. intuition congruence. Qed.

Lemma blkop_run {A} (m : M B A) f a s : m (fb f) = Ok (a, s) -> blkop m f = Ok (a, set_fb s f).
Proof. intros E. unfold blkop, zoom. by rewrite E. Qed.

Lemma set_fb_twice s s' (f : fs B) : set_fb s (set_fb s' f) = set_fb s f.
Proof. done. Qed.

Lemma read_run f V L H n :
  fblk f V L H -> n ∉ H.*2 -> n ∈ L \/ (length L + length H < NBUF)%nat ->
  exists bp f', (forall A (k : nat -> M (fs B) A), (bp <- blkop (b_read D n) ;; k bp) f = k bp f') /\
    fblk f' V L ((bp, n) :: H) /\ bp ∉ H.*1 /\ fsame f f'.
Proof.
  intros Hb Hn Hr. destruct (blk_read (fb f) V L H [] n Hb Hn Hr) as (bp & s' & E & Hb' & Hbp & Hpid).
  exists bp, (set_fb s' f). split; [|done]. intros A k. apply bind_ok. by apply blkop_run.
Qed.

Lemma data_run f V L H bp n :
  fblk f V L H -> (bp, n) ∈ H -> forall A (k : block -> M (fs B) A), (d <- bdata_of bp ;; k d) f = k (V n) f.
Proof. intros Hb Hin A k. unfold bdata_of, bind, gets. by rewrite (blk_data (fb f) V L H [] bp n Hb Hin). Qed.

Lemma store_log_run f V L H bp n d :
  fblk f V L H -> (bp, n) ∈ H -> writable n -> wf_block d -> (length L < log_cap)%nat ->
  exists f', (forall A (k : M (fs B) A), (blkop (b_store bp d) ;;; blkop (b_log bp) ;;; k) f = k f') /\
    fblk f' (upd V n d) (add n L) H /\ fsame f f'.
Proof.
  intros Hb Hin Hw Hd Hc.
  destruct (blk_store (fb f) V L H [] bp n d Hb Hin Hw Hd) as (s1 & E1 & Hb1 & P1).
  destruct (blk_log s1 _ L H [n] bp n Hb1 Hin Hw Hc) as (s2 & E2 & Hb2 & P2).
  exists (set_fb s2 f). split; [|split].
  - intros A k. rewrite (bind_ok _ _ _ _ _ (blkop_run _ _ _ _ E1)).
    by rewrite (bind_ok _ _ _ _ _ (blkop_run _ (set_fb s1 f) _ _ E2)).
  - unfold fblk. cbn [fb set_fb]. by rewrite filter_cons_False in Hb2 by tauto.
  - split; [done|]. split; [done|]. cbn. congruence.
Qed.

Lemma release_run f V L H bp n :
  fblk f V L H -> (bp, n) ∈ H ->
  exists f', (forall A (k : M (fs B) A), (blkop (b_release bp) ;;; k) f = k f') /\
    blkop (b_release bp) f = Ok (tt, f') /\ fblk f' V L (unhold bp H) /\ fsame f f'.
Proof.
  intros Hb Hin. destruct (blk_release (fb f) V L H [] bp n Hb Hin) as (s1 & E1 & Hb1 & P1); [apply not_elem_of_nil|].
  exists (set_fb s1 f). split; [intros A k; exact (bind_ok _ (fun _ => k) _ _ _ (blkop_run _ _ _ _ E1))|].
  split; [by apply blkop_run|]. done.
Qed.

Lemma release_top f V L H bp n :
  fblk f V L ((bp, n) :: H) -> bp ∉ H.*1 ->
  exists f', (forall A (k : M (fs B) A), (blkop (b_release bp) ;;; k) f = k f') /\
    blkop (b_release bp) f = Ok (tt, f') /\ fblk f' V L H /\ fsame f f'.
Proof.
  intros Hb Hbp. destruct (release_run f V L _ bp n Hb) as (f' & E & E' & Hb' & S); [set_solver|].
  exists f'. split; [done|]. split; [done|]. split; [|done]. by rewrite unhold_cons in Hb' by done.
Qed.

Lemma fblk_ext f V V' L H : (forall n, V n = V' n) -> fblk f V L H -> fblk f V' L H.
Proof. apply blk_ext. Qed.

Lemma fblk_wf f V L H n : fblk f V L H -> wf_block (V n).
Proof. apply blk_wf. Qed.

Lemma length_add n L : (length (add n L) <= S (length L))%nat.
Proof. unfold add. case_decide; [lia|]. rewrite length_app. cbn. lia. Qed.

Lemma elem_of_add n m L : m ∈ add n L <-> m = n \/ m ∈ L.
Proof. unfold add. case_decide; set_solver. Qed.

(** The whole update of a block: read, change, log, release. *)
Lemma update_run f V L H n (g : block -> block) :
  fblk f V L H -> n ∉ H.*2 -> n ∈ L \/ (length L + length H < NBUF)%nat ->
  writable n -> (length L < log_cap)%nat -> wf_block (g (V n)) ->
  exists f', (forall A (k : M (fs B) A), (bp <- blkop (b_read D n) ;; d <- bdata_of bp ;;
      blkop (b_store bp (g d)) ;;; blkop (b_log bp) ;;; blkop (b_release bp) ;;; k) f = k f') /\
    (bp <- blkop (b_read D n) ;; d <- bdata_of bp ;;
      blkop (b_store bp (g d)) ;;; blkop (b_log bp) ;;; blkop (b_release bp)) f = Ok (tt, f') /\
    fblk f' (upd V n (g (V n))) (add n L) H /\ fsame f f'.
Proof.
  intros Hb Hn Hr Hw Hc Hg.
  destruct (read_run f V L H n Hb Hn Hr) as (bp & f1 & E1 & Hb1 & Hbp & S1).
  destruct (store_log_run f1 V L _ bp n (g (V n)) Hb1) as (f2 & E2 & Hb2 & S2); [set_solver|done..|].
  destruct (release_top f2 _ _ H bp n Hb2 Hbp) as (f3 & E3 & E3' & Hb3 & S3).
  exists f3. split; [|split; [|split; [done|]]].
  - intros A k. rewrite E1, (data_run f1 V L _ bp n Hb1) by set_solver. by rewrite E2, E3.
  - rewrite E1, (data_run f1 V L _ bp n Hb1) by set_solver. by rewrite E2, E3'.
  - by eapply fsame_trans; [|eapply fsame_trans].
Qed.
End Runs.

(** ** The free map *)

Section Alloc.
Context {B : Type} {ops : BlockOps B} {geo : BlockGeom} {D : Z} {laws : BlockLaws B D}.
Context (S : superblock).

Definition in_disk (b : Z) : Prop := 0 <= b < sb_size S.
Definition used (V : Z -> block) (b : Z) : bool := bit_set (V (BBLOCK b S)) (b mod BPB).

(** The map's own blocks are in use, and free blocks lie outside the log. *)
Record alloc_ok (V : Z -> block) : Prop := mkalloc_ok {
  ao_size : sb_size S < 2 ^ 31;
  ao_map : forall b, in_disk b -> in_disk (BBLOCK b S) /\ writable (BBLOCK b S) /\ used V (BBLOCK b S) = true;
  ao_free : forall b, in_disk b -> used V b = false -> writable b
}.

(** The buffers held meanwhile are of blocks in use and not of the map. *)
Definition held_ok (V : Z -> block) (H : list (nat * Z)) : Prop :=
  forall n, n ∈ H.*2 -> in_disk n /\ used V n = true /\ forall b, in_disk b -> n <> BBLOCK b S.

Definition mark (V : Z -> block) (b : Z) : Z -> block := upd V (BBLOCK b S) (set_bit (V (BBLOCK b S)) (b mod BPB)).
Definition unmark (V : Z -> block) (b : Z) : Z -> block := upd V (BBLOCK b S) (clear_bit (V (BBLOCK b S)) (b mod BPB)).

Lemma mod_range b : 0 <= b mod BPB < BPB.
Proof. apply Z.mod_pos_bound. done. Qed.

Lemma BBLOCK_same b b' : BBLOCK b S = BBLOCK b' S -> b mod BPB = b' mod BPB -> b = b'.
Proof. unfold BBLOCK, BPB, BSIZE. lia. Qed.

Lemma used_mark V b b' : (forall n, wf_block (V n)) -> used (mark V b) b' = bool_decide (b = b') || used V b'.
Proof.
  intros Hw. unfold used, mark, upd. case_decide as E.
  - rewrite bit_set_set by (apply Hw || apply mod_range). rewrite E. f_equal.
    apply bool_decide_ext. split; [intros E2; by apply BBLOCK_same|by intros ->].
  - rewrite bool_decide_false by (intros ->; done). done.
Qed.

Lemma used_unmark V b b' : (forall n, wf_block (V n)) -> used (unmark V b) b' = negb (bool_decide (b = b')) && used V b'.
Proof.
  intros Hw. unfold used, unmark, upd. case_decide as E.
  - rewrite bit_set_clear by (apply Hw || apply mod_range). rewrite E. f_equal. f_equal.
    apply bool_decide_ext. split; [intros E2; by apply BBLOCK_same|by intros ->].
  - rewrite bool_decide_false by (intros ->; done). done.
Qed.

Lemma used_upd V n d b : (forall b, in_disk b -> n <> BBLOCK b S) -> in_disk b -> used (upd V n d) b = used V b.
Proof. intros Hn Hb. unfold used, upd. rewrite decide_False; [done|]. intros E. by apply (Hn b). Qed.

(** The contents [balloc] leaves. *)
Definition balloc_view (V : Z -> block) (b : Z) : Z -> block := upd (mark V b) b zero_block.

Lemma free_not_map V b b' : alloc_ok V -> used V b = false -> in_disk b' -> b <> BBLOCK b' S.
Proof. intros Ha Hu Hb' E. destruct (ao_map V Ha b' Hb') as (_ & _ & H). rewrite <- E in H. congruence. Qed.

Lemma used_balloc V b b' :
  (forall n, wf_block (V n)) -> alloc_ok V -> used V b = false -> in_disk b' ->
  used (balloc_view V b) b' = bool_decide (b = b') || used V b'.
Proof.
  intros Hw Ha Hu Hb'. unfold balloc_view. rewrite used_upd; [by apply used_mark| |done].
  intros b2 Hb2. by apply (free_not_map V).
Qed.

Lemma balloc_view_other V b m : m <> b -> m <> BBLOCK b S -> balloc_view V b m = V m.
Proof. intros H1 H2. unfold balloc_view, mark, upd. by rewrite !decide_False. Qed.

Lemma balloc_view_new V b : balloc_view V b b = zero_block.
Proof. unfold balloc_view, upd. by rewrite decide_True. Qed.

Lemma alloc_ok_balloc V b :
  (forall n, wf_block (V n)) -> alloc_ok V -> used V b = false -> in_disk b -> alloc_ok (balloc_view V b).
Proof.
  intros Hw Ha Hu Hb. split; [apply Ha|..].
  - intros b' Hb'. destruct (ao_map V Ha b' Hb') as (H1 & H2 & H3). split; [done|]. split; [done|].
    rewrite used_balloc by done. rewrite H3. by rewrite orb_true_r.
  - intros b' Hb'. rewrite used_balloc by done. intros [_ Hf]%orb_false_iff. by apply (ao_free V Ha).
Qed.

Lemma alloc_ok_unmark V b :
  (forall n, wf_block (V n)) -> alloc_ok V -> in_disk b -> writable b -> (forall b', in_disk b' -> b <> BBLOCK b' S) ->
  alloc_ok (unmark V b).
Proof.
  intros Hw Ha Hb Hwr Hn. split; [apply Ha|..].
  - intros b' Hb'. destruct (ao_map V Ha b' Hb') as (H1 & H2 & H3). split; [done|]. split; [done|].
    rewrite used_unmark by done. rewrite H3, bool_decide_false by (by apply Hn). done.
  - intros b' Hb'. rewrite used_unmark by done. case_bool_decide as E; [by subst|]. cbn. by apply (ao_free V Ha).
Qed.

(** ** Zeroing a block *)

Lemma bzero_ok f V L H n :
  fblk f V L H -> 0 <= n < 2 ^ 32 -> n ∉ H.*2 -> n ∈ L \/ (length L + length H < NBUF)%nat ->
  writable n -> (length L < log_cap)%nat ->
  exists f', bzero D n f = Ok (tt, f') /\ fblk f' (upd V n zero_block) (add n L) H /\ fsame f f'.
Proof.
  intros Hb Hn HnH Hr Hw Hc. unfold bzero. rewrite u32_small by done.
  destruct (read_run f V L H n Hb HnH Hr) as (bp & f1 & E1 & Hb1 & Hbp & S1).
  destruct (store_log_run f1 V L _ bp n zero_block Hb1) as (f2 & E2 & Hb2 & S2); [set_solver|done|apply wf_zero|done|].
  destruct (release_top f2 _ _ H bp n Hb2 Hbp) as (f3 & _ & E3 & Hb3 & S3).
  exists f3. rewrite E1, E2, E3. split; [done|]. split; [done|]. by eapply fsame_trans; [|eapply fsame_trans].
Qed.

(** ** balloc *)

Lemma BBLOCK_div b j : b mod BPB = 0 -> 0 <= j < BPB -> BBLOCK (b + j) S = BBLOCK b S /\ (b + j) mod BPB = j.
Proof. unfold BBLOCK, BPB, BSIZE. intros. split; lia. Qed.

Lemma BBLOCK_range V b : alloc_ok V -> in_disk b -> u32 (BBLOCK b S) = BBLOCK b S.
Proof. intros Ha Hb. destruct (ao_map V Ha b Hb) as ([H1 H2] & _). pose proof (ao_size V Ha). apply u32_small. lia. Qed.

Lemma balloc_loop_ok V L H : forall fuel f b,
  fblk f V L H -> sb f = S -> alloc_ok V -> held_ok V H -> 0 <= b -> b mod BPB = 0 ->
  (length L + 2 <= log_cap)%nat -> (length L + length H + 1 < NBUF)%nat ->
  sb_size S - b < BPB * Z.of_nat fuel -> (forall k, 0 <= k < b -> in_disk k -> used V k = true) ->
  (exists n, in_disk n /\ used V n = false) ->
  exists n f', balloc_loop fuel D b f = Ok (n, f') /\ in_disk n /\ used V n = false /\
    (forall k, 0 <= k < n -> used V k = true) /\
    fblk f' (balloc_view V n) (add n (add (BBLOCK n S) L)) H /\ fsame f f'.
Proof.
  induction fuel as [|fuel IH]; intros f b Hb HS Ha Hh Hb0 Hbm Hc Hr Hf Hlow (n0 & Hn0 & Hu0).
  { destruct (decide (n0 < b)) as [Hlt|Hge]; [rewrite (Hlow n0) in Hu0; done || (destruct Hn0; lia)|destruct Hn0; lia]. }
  assert (Hbn : b <= n0) by (destruct (decide (n0 < b)); [rewrite (Hlow n0) in Hu0; done || (destruct Hn0; lia)|lia]).
  cbn [balloc_loop]. erewrite bind_ok by reflexivity. rewrite HS.
  assert (Hbd : in_disk b) by (destruct Hn0; split; lia). rewrite (proj2 (Z.ltb_lt _ _)) by apply Hbd.
  rewrite (BBLOCK_range V) by done. destruct (ao_map V Ha b Hbd) as (Hm1 & Hm2 & Hm3).
  assert (HnH : BBLOCK b S ∉ H.*2) by (intros Hin; destruct (Hh _ Hin) as (_ & _ & Hx); by apply (Hx b)).
  destruct (read_run f V L H (BBLOCK b S) Hb HnH) as (bp & f1 & E1 & Hb1 & Hbp & S1); [right; lia|].
  rewrite E1. clear E1. rewrite (data_run f1 V L _ bp (BBLOCK b S) Hb1) by set_solver.
  pose proof (scan_bits_spec (V (BBLOCK b S)) b (sb_size S) (Z.to_nat BPB) 0 ltac:(lia) ltac:(unfold BPB, BSIZE; lia)) as Hsc.
  destruct (scan_bits _ _ _ _ _) as [bi|].
  - destruct Hsc as (Hbi & Hbs & Hbit & Hmin). destruct (BBLOCK_div b bi Hbm ltac:(lia)) as [Hdv Hmd].
    assert (Hun : used V (b + bi) = false) by (unfold used; by rewrite Hdv, Hmd).
    assert (Hnd : in_disk (b + bi)) by (destruct Hbd; split; lia).
    destruct (store_log_run f1 V L _ bp (BBLOCK b S) (set_bit (V (BBLOCK b S)) bi) Hb1) as (f2 & E2 & Hb2 & S2);
      [set_solver|done|apply set_bit_wf, (fblk_wf f V L H), Hb|lia|].
    rewrite E2. clear E2. destruct (release_top f2 _ _ H bp _ Hb2 Hbp) as (f3 & E3 & _ & Hb3 & S3). rewrite E3. clear E3.
    pose proof (length_add (BBLOCK b S) L) as Hla.
    destruct (bzero_ok f3 _ _ H (b + bi) Hb3) as (f4 & E4 & Hb4 & S4).
    { pose proof (ao_size V Ha). destruct Hnd. lia. }
    { intros Hin. destruct (Hh _ Hin) as (_ & Hx & _). congruence. }
    { right. lia. } { by apply (ao_free V Ha). } { lia. }
    rewrite (bind_ok _ _ _ _ _ E4). exists (b + bi), f4. split; [done|]. split; [done|]. split; [done|].
    split; [|split].
    + intros k Hk. destruct (decide (k < b)) as [Hkb|Hkb].
      * apply Hlow; [lia|]. destruct Hnd. split; lia.
      * destruct (BBLOCK_div b (k - b) Hbm) as [K1 K2]; [lia|]. replace (b + (k - b)) with k in K1, K2 by lia.
        unfold used. rewrite K1, K2. apply Hmin. lia.
    + unfold balloc_view, mark. rewrite Hdv, Hmd. done.
    + by eapply fsame_trans; [|eapply fsame_trans; [|eapply fsame_trans]].
  - destruct (release_top f1 _ _ H bp _ Hb1 Hbp) as (f2 & E2 & _ & Hb2 & S2). rewrite E2. clear E2.
    destruct (IH f2 (b + BPB)) as (n & f3 & E3 & H1 & H2 & H3 & H4 & H5); try done.
    + destruct S2 as (_ & -> & _), S1 as (_ & -> & _). done.
    + unfold BPB, BSIZE; lia.
    + unfold BPB, BSIZE in *; lia.
    + unfold BPB, BSIZE in *; lia.
    + intros k Hk Hkd. destruct (decide (k < b)) as [Hkb|Hkb]; [by apply Hlow; [lia|]|].
      destruct (BBLOCK_div b (k - b) Hbm) as [K1 K2]; [lia|]. replace (b + (k - b)) with k in K1, K2 by lia.
      unfold used. rewrite K1, K2. apply Hsc; [lia|]. destruct Hkd. lia.
    + eauto.
    + exists n, f3. split; [done|]. do 3 (split; [done|]). split; [done|]. by eapply fsame_trans; [|eapply fsame_trans].
Qed.

Lemma balloc_ok f V L H :
  fblk f V L H -> sb f = S -> alloc_ok V -> held_ok V H ->
  (length L + 2 <= log_cap)%nat -> (length L + length H + 1 < NBUF)%nat -> (exists n, in_disk n /\ used V n = false) ->
  exists n f', balloc D f = Ok (n, f') /\ in_disk n /\ used V n = false /\ (forall k, 0 <= k < n -> used V k = true) /\
    fblk f' (balloc_view V n) (add n (add (BBLOCK n S) L)) H /\ fsame f f'.
Proof.
  intros Hb HS Ha Hh Hc Hr Hex. unfold balloc. erewrite bind_ok by reflexivity. rewrite HS.
  apply balloc_loop_ok; try done. { unfold BPB, BSIZE. lia. } intros k Hk. lia.
Qed.

(** ** bfree *)

Lemma bfree_ok f V L H b :
  fblk f V L H -> sb f = S -> alloc_ok V -> held_ok V H -> in_disk b -> used V b = true ->
  BBLOCK b S ∈ L \/ (length L + length H < NBUF)%nat -> (length L < log_cap)%nat ->
  exists f', bfree D b f = Ok (tt, f') /\ fblk f' (unmark V b) (add (BBLOCK b S) L) H /\ fsame f f'.
Proof.
  intros Hb HS Ha Hh Hbd Hu Hr Hc. unfold bfree. erewrite bind_ok by reflexivity. rewrite HS, (BBLOCK_range V) by done.
  destruct (ao_map V Ha b Hbd) as (Hm1 & Hm2 & Hm3).
  assert (HnH : BBLOCK b S ∉ H.*2) by (intros Hin; destruct (Hh _ Hin) as (_ & _ & Hx); by apply (Hx b)).
  destruct (read_run f V L H (BBLOCK b S) Hb HnH Hr) as (bp & f1 & E1 & Hb1 & Hbp & S1).
  destruct (store_log_run f1 V L _ bp (BBLOCK b S) (clear_bit (V (BBLOCK b S)) (b mod BPB)) Hb1) as (f2 & E2 & Hb2 & S2);
    [set_solver|done|apply clear_bit_wf, (fblk_wf f V L H), Hb|done|].
  destruct (release_top f2 _ _ H bp _ Hb2 Hbp) as (f3 & _ & E3 & Hb3 & S3).
  exists f3. rewrite E1, (data_run f1 V L _ bp (BBLOCK b S) Hb1) by set_solver.
  unfold used in Hu. rewrite Hu. cbn [negb]. rewrite E2, E3. split; [done|]. split; [done|].
  by eapply fsame_trans; [|eapply fsame_trans].
Qed.

Lemma bfree_twice f V L H b :
  fblk f V L H -> sb f = S -> alloc_ok V -> held_ok V H -> in_disk b -> used V b = false ->
  (length L + length H < NBUF)%nat -> bfree D b f = Panic "freeing free block".
Proof.
  intros Hb HS Ha Hh Hbd Hu Hr. unfold bfree. erewrite bind_ok by reflexivity. rewrite HS, (BBLOCK_range V) by done.
  assert (HnH : BBLOCK b S ∉ H.*2) by (intros Hin; destruct (Hh _ Hin) as (_ & _ & Hx); by apply (Hx b)).
  destruct (read_run f V L H (BBLOCK b S) Hb HnH) as (bp & f1 & E1 & Hb1 & Hbp & S1); [by right|].
  rewrite E1, (data_run f1 V L _ bp (BBLOCK b S) Hb1) by set_solver. unfold used in Hu. by rewrite Hu.
Qed.
End Alloc.

(** * Inodes on disk and in the inode cache: the encoding of struct dinode, and
    [iupdate], [ilock], [iget], [idup], [iunlock] against them. *)

(** ** Splicing pieces *)

Lemma splice_nil d o : (o <= length d)%nat -> splice d o [] = d.
Proof. intros. unfold splice. cbn. rewrite Nat.add_0_r. apply take_drop. Qed.

Lemma splice_app d o l1 l2 :
  (o + length l1 + length l2 <= length d)%nat ->
  splice (splice d o l1) (o + length l1) l2 = splice d o (l1 ++ l2).
Proof.
  intros Hl. apply list_eq. intros i.
  rewrite !lookup_splice by (rewrite ?length_splice, ?length_app; rewrite ?length_app; lia).
  rewrite length_app, lookup_app.
  repeat case_decide; try lia; try done.
  - rewrite (lookup_ge_None_2 l1) by lia. f_equal. lia.
  - destruct (lookup_lt_is_Some_2 l1 (i - o)) as [x Hx]; [lia|]. by rewrite Hx.
Qed.

Lemma sub_splice_in d o l o' n :
  (o + length l <= length d)%nat -> (o <= o')%nat -> (o' + n <= o + length l)%nat ->
  sub (splice d o l) o' n = sub l (o' - o) n.
Proof.
  intros Hl H1 H2. apply list_eq. intros i. rewrite !lookup_sub. case_decide; [|done].
  rewrite lookup_splice, decide_True by lia. f_equal. lia.
Qed.

Lemma sub_app_l l1 l2 o n : (o + n <= length l1)%nat -> sub (l1 ++ l2) o n = sub l1 o n.
Proof.
  intros H. apply list_eq. intros i. rewrite !lookup_sub. case_decide; [|done]. by rewrite lookup_app_l by lia.
Qed.

Lemma sub_app_r l1 l2 o n : (length l1 <= o)%nat -> sub (l1 ++ l2) o n = sub l2 (o - length l1) n.
Proof.
  intros H. apply list_eq. intros i. rewrite !lookup_sub. case_decide; [|done]. rewrite lookup_app_r by lia. f_equal. lia.
Qed.

Lemma sub_all l n : n = length l -> sub l 0 n = l.
Proof. intros ->. unfold sub. cbn. by rewrite take_ge. Qed.

(** ** struct dinode as bytes *)

Definition addrs_bytes (l : list Z) : list Z := concat (le_bytes 4 <$> l).

Definition dinode_bytes (x : dinode) : list Z :=
  le_bytes 2 (d_type x) ++ le_bytes 2 (d_major x) ++ le_bytes 2 (d_minor x) ++ le_bytes 2 (d_nlink x) ++
  le_bytes 4 (d_size x) ++ addrs_bytes (d_addrs x).

Lemma length_addrs_bytes l : length (addrs_bytes l) = (4 * length l)%nat.
Proof.
  induction l as [|x l IH]; [done|]. unfold addrs_bytes in *. rewrite fmap_cons. cbn [concat].
  rewrite length_app, length_le_bytes, IH. cbn [length]. lia.
Qed.

Lemma length_dinode_bytes x : length (d_addrs x) = 13%nat -> length (dinode_bytes x) = 64%nat.
Proof. intros E. unfold dinode_bytes. rewrite !length_app, !length_le_bytes, length_addrs_bytes, E. done. Qed.

Lemma write_addrs_splice l : forall d o, (o + 4 * length l <= length d)%nat -> write_addrs d o l = splice d o (addrs_bytes l).
Proof.
  induction l as [|x l IH]; intros d o Hl; cbn [write_addrs]; [by rewrite splice_nil by (cbn in *; lia)|].
  cbn [length] in Hl. rewrite IH by (rewrite length_wr32; lia). unfold wr32.
  replace (o + 4)%nat with (o + length (le_bytes 4 x))%nat by (by rewrite length_le_bytes).
  rewrite splice_app by (rewrite length_addrs_bytes, length_le_bytes; lia). done.
Qed.

Lemma write_dinode_splice d o x :
  length (d_addrs x) = 13%nat -> (o + 64 <= length d)%nat -> write_dinode d o x = splice d o (dinode_bytes x).
Proof.
  intros Ha Hl. unfold write_dinode.
  set (d1 := wr16 d o _). assert (H1 : length d1 = length d) by (apply length_wr16; lia).
  set (d2 := wr16 d1 _ _). assert (H2 : length d2 = length d) by (rewrite <- H1; apply length_wr16; lia).
  set (d3 := wr16 d2 _ _). assert (H3 : length d3 = length d) by (rewrite <- H2; apply length_wr16; lia).
  set (d4 := wr16 d3 _ _). assert (H4 : length d4 = length d) by (rewrite <- H3; apply length_wr16; lia).
  set (d5 := wr32 d4 _ _). assert (H5 : length d5 = length d) by (rewrite <- H4; apply length_wr32; lia).
  rewrite write_addrs_splice by lia. unfold d5, d4, d3, d2, d1, wr16, wr32.
  unfold dinode_bytes.
  assert (Hs : forall d k l1 l2, (o + length l1 + length l2 <= length d)%nat -> k = (o + length l1)%nat ->
    splice (splice d o l1) k l2 = splice d o (l1 ++ l2)) by (intros d' k l1 l2 ? ->; by apply splice_app).
  rewrite (Hs d (o + 2)%nat), (Hs d (o + 4)%nat), (Hs d (o + 6)%nat), (Hs d (o + 8)%nat), (Hs d (o + 12)%nat);
    rewrite ?length_app, ?length_le_bytes, ?length_addrs_bytes, ?Ha; try (cbn; lia).
  by rewrite <- !app_assoc.
Qed.

Record dinode_ok (x : dinode) : Prop := mkdinode_ok {
  dk_type : - 2 ^ 15 <= d_type x < 2 ^ 15; dk_major : - 2 ^ 15 <= d_major x < 2 ^ 15;
  dk_minor : - 2 ^ 15 <= d_minor x < 2 ^ 15; dk_nlink : - 2 ^ 15 <= d_nlink x < 2 ^ 15;
  dk_size : 0 <= d_size x < 2 ^ 32; dk_len : length (d_addrs x) = 13%nat;
  dk_addrs : Forall (fun a => 0 <= a < 2 ^ 32) (d_addrs x)
}.

Lemma s16_val v : - 2 ^ 15 <= v < 2 ^ 15 -> s16 (v mod 2 ^ 16) = v.
Proof. intros. unfold s16. lia. Qed.

Lemma addrs_lookup l i x : l !! i = Some x -> sub (addrs_bytes l) (4 * i) 4 = le_bytes 4 x.
Proof.
  revert i. induction l as [|y l IH]; intros [|i] Hx; cbn in Hx; [done..| |].
  - simplify_eq. unfold addrs_bytes. rewrite fmap_cons. cbn [concat].
    rewrite sub_app_l by (rewrite length_le_bytes; lia). apply sub_all. by rewrite length_le_bytes.
  - unfold addrs_bytes in *. rewrite fmap_cons. cbn [concat].
    rewrite sub_app_r by (rewrite length_le_bytes; lia). rewrite length_le_bytes.
    replace (4 * S i - 4)%nat with (4 * i)%nat by lia. by apply IH.
Qed.

Lemma read_dinode_bytes d o x :
  dinode_ok x -> (o + 64 <= length d)%nat -> sub d o 64 = dinode_bytes x -> read_dinode d o = x.
Proof.
  intros [H1 H2 H3 H4 H5 Hlen Ha] Hd Hs.
  assert (Hsub : forall k n, (k + n <= 64)%nat -> sub d (o + k) n = sub (dinode_bytes x) k n).
  { intros k n Hk. rewrite <- Hs. apply list_eq. intros i. rewrite !lookup_sub. case_decide; [|done].
    rewrite decide_True by lia. f_equal. lia. }
  assert (H0 : sub d o 2 = sub (dinode_bytes x) 0 2) by (rewrite <- (Hsub 0%nat 2%nat), Nat.add_0_r by lia; done).
  assert (L : forall n v, length (le_bytes n v) = n) by apply length_le_bytes.
  unfold read_dinode, rd16, rd32, addr_off. destruct x as [ty ma mi nl sz ad]. cbn [d_type d_major d_minor d_nlink d_size d_addrs] in *.
  rewrite H0, !Hsub by lia. unfold dinode_bytes. cbn [d_type d_major d_minor d_nlink d_size d_addrs].
  f_equal.
  - rewrite sub_app_l by (rewrite L; lia). rewrite sub_all by (by rewrite L). rewrite le_val_bytes. by apply s16_val.
  - rewrite sub_app_r by (rewrite L; lia). rewrite L. rewrite sub_app_l by (rewrite L; lia).
    rewrite sub_all by (by rewrite L). rewrite le_val_bytes. by apply s16_val.
  - do 2 (rewrite sub_app_r by (rewrite L; lia); rewrite L). rewrite sub_app_l by (rewrite L; lia).
    rewrite sub_all by (by rewrite L). rewrite le_val_bytes. by apply s16_val.
  - do 3 (rewrite sub_app_r by (rewrite L; lia); rewrite L). rewrite sub_app_l by (rewrite L; lia).
    rewrite sub_all by (by rewrite L). rewrite le_val_bytes. by apply s16_val.
  - do 4 (rewrite sub_app_r by (rewrite L; lia); rewrite L). rewrite sub_app_l by (rewrite L; lia).
    rewrite sub_all by (by rewrite L). rewrite le_val_bytes. apply Z.mod_small. lia.
  - apply list_eq. intros i. rewrite list_lookup_fmap. destruct (decide (i < 13)%nat) as [Hi|Hi].
    + rewrite lookup_seq_lt by done. cbn [fmap option_fmap option_map].
      destruct (lookup_lt_is_Some_2 ad i) as [a Ea]; [lia|]. rewrite Ea. cbn. f_equal.
      replace (o + 12 + (i + (i + (i + (i + 0)))))%nat with (o + (12 + 4 * i))%nat by lia.
      rewrite Hsub by lia. unfold dinode_bytes. cbn [d_type d_major d_minor d_nlink d_size d_addrs].
      do 5 (rewrite sub_app_r by (rewrite L; lia); rewrite L). replace (_ - 2 - 2 - 2 - 2 - 4)%nat with (4 * i)%nat by lia.
      rewrite (addrs_lookup ad i a Ea), le_val_bytes. apply Z.mod_small.
      rewrite Forall_lookup in Ha. apply (Ha i a Ea).
    + rewrite lookup_seq_ge, lookup_ge_None_2 by lia. done.
Qed.

Lemma read_write_dinode d o x :
  dinode_ok x -> (o + 64 <= length d)%nat -> read_dinode (write_dinode d o x) o = x.
Proof.
  intros Hx Hl. pose proof (dk_len x Hx) as Hlen. pose proof (length_dinode_bytes x Hlen) as Hb.
  rewrite write_dinode_splice by done. apply read_dinode_bytes; [done|rewrite length_splice; lia|].
  apply sub_splice_eq; lia.
Qed.

Lemma read_write_dinode_ne d o o' x :
  length (d_addrs x) = 13%nat -> (o + 64 <= length d)%nat -> (o' + 64 <= o \/ o + 64 <= o')%nat ->
  read_dinode (write_dinode d o x) o' = read_dinode d o'.
Proof.
  intros Hlen Hl Hd. rewrite write_dinode_splice by done. pose proof (length_dinode_bytes x Hlen) as Hb.
  assert (Hs : forall k n, (k + n <= 64)%nat -> sub (splice d o (dinode_bytes x)) (o' + k) n = sub d (o' + k) n).
  { intros k n Hk. apply sub_splice_ne; lia. }
  assert (H0 : sub (splice d o (dinode_bytes x)) o' 2 = sub d o' 2) by (apply sub_splice_ne; lia).
  unfold read_dinode, rd16, rd32, addr_off. rewrite H0, !Hs by lia. f_equal.
  apply list_fmap_ext. intros i k [-> Hk]%lookup_seq. cbn [Nat.add]. rewrite <- !Nat.add_assoc, Hs by lia. done.
Qed.

Lemma dinode_bytes_byte x : Forall is_byte (dinode_bytes x).
Proof.
  unfold dinode_bytes. rewrite !Forall_app. split_and!; try apply le_bytes_byte.
  induction (d_addrs x) as [|y l IH]; [constructor|]. unfold addrs_bytes in *. rewrite fmap_cons. cbn [concat].
  apply Forall_app. split; [apply le_bytes_byte|done].
Qed.

Lemma write_dinode_wf d o x :
  wf_block d -> length (d_addrs x) = 13%nat -> (o + 64 <= Z.to_nat BSIZE)%nat -> wf_block (write_dinode d o x).
Proof.
  intros [Hl Hb] Hlen Ho. rewrite write_dinode_splice by lia. pose proof (length_dinode_bytes x Hlen).
  split; [rewrite length_splice; lia|]. apply splice_byte; [done|apply dinode_bytes_byte].
Qed.

Lemma dinode_off_range inum : (dinode_off inum + 64 <= Z.to_nat BSIZE)%nat.
Proof. unfold dinode_off, DINODE, IPB, BSIZE. change (1024 / DINODE) with 16. lia. Qed.

(** Distinct inodes of one block do not overlap. *)
Lemma dinode_off_apart S i j :
  0 <= i -> 0 <= j -> i <> j -> IBLOCK i S = IBLOCK j S ->
  (dinode_off i + 64 <= dinode_off j \/ dinode_off j + 64 <= dinode_off i)%nat.
Proof.
  unfold IBLOCK, dinode_off, DINODE, IPB, BSIZE. change (1024 / DINODE) with 16.
  intros Hi Hj Hne E. assert (i mod 16 <> j mod 16) by lia. lia.
Qed.
