(* ===== verification/FsMap.v ===== *)
(** Block maps of files: [bmap] against the slots of an inode (direct, indirect
    and the indirect block itself). *)

From S2P Require Import Prelude Sleeplock Bio BioCst Bytes Blk Fs FsBlock.

Section Layout.
Context {B : Type} {ops : BlockOps B} {geo : BlockGeom} {D : Z} {laws : BlockLaws B D}.
Context (S : superblock).
Implicit Types (V : Z -> block) (di : dinode).

(** Blocks that are not part of the free map. *)
Definition plain (m : Z) : Prop := in_disk S m /\ forall b, in_disk S b -> m <> BBLOCK b S.

Definition valid_inum (i : Z) : Prop := 0 <= i < sb_ninodes S.

(** A file system's layout: the free map, block 0 and the inode blocks in use. *)
Record layout_ok V : Prop := mklayout {
  ly_alloc : alloc_ok S V;
  ly_zero : in_disk S 0 /\ used S V 0 = true;
  ly_inode : forall i, valid_inum i -> plain (IBLOCK i S) /\ writable (IBLOCK i S) /\ used S V (IBLOCK i S) = true;
  ly_ninodes : sb_ninodes S < 2 ^ 31;
  ly_istart : 0 < sb_inodestart S
}.

Definition free_blocks V : list Z := filter (fun b => used S V b = false) (seqZ 0 (sb_size S)).
Definition nfree V : nat := length (free_blocks V).

Lemma elem_of_free V b : b ∈ free_blocks V <-> in_disk S b /\ used S V b = false.
Proof. unfold free_blocks, in_disk. rewrite list_elem_of_filter, elem_of_seqZ. intuition lia. Qed.

Lemma nfree_pos V : (0 < nfree V)%nat -> exists b, in_disk S b /\ used S V b = false.
Proof.
  unfold nfree. intros Hp. destruct (free_blocks V) as [|b l] eqn:E; [cbn in Hp; lia|].
  exists b. apply elem_of_free. rewrite E. by left.
Qed.

(** [V'] is later than [V]: blocks in use stay in use and keep their content,
    except those in [X]; at most [k] blocks were taken. *)
Record grow V V' (X : list Z) (k : nat) : Prop := mkgrow {
  gr_layout : layout_ok V';
  gr_used : forall b, in_disk S b -> used S V b = true -> used S V' b = true;
  gr_same : forall m, plain m -> used S V m = true -> m ∉ X -> V' m = V m;
  gr_free : (nfree V <= nfree V' + k)%nat
}.

Lemma grow_refl V : layout_ok V -> grow V V [] 0.
Proof. intros Hl. split; [exact Hl|intros b _ Hb; exact Hb|intros m _ _ _; exact eq_refl|lia]. Qed.

Lemma grow_trans V V1 V2 X1 X2 k1 k2 :
  grow V V1 X1 k1 -> grow V1 V2 X2 k2 -> grow V V2 (X1 ++ X2) (k1 + k2).
Proof.
  intros [A1 A2 A3 A4] [C1 C2 C3 C4]. split; [done|auto| |lia].
  intros m Hp Hu Hm. apply not_elem_of_app in Hm as [Hm1 Hm2].
  rewrite C3; [by apply A3|exact Hp|apply A2; [apply Hp|exact Hu]|exact Hm2].
Qed.

Lemma grow_weaken V V' X X' k k' : grow V V' X k -> X ⊆ X' -> (k <= k')%nat -> grow V V' X' k'.
Proof. intros [A1 A2 A3 A4] HX Hk. split; [done|done| |lia]. intros m Hp Hu Hm. apply A3; [exact Hp|exact Hu|by intros ?%HX]. Qed.

Lemma nfree_le V V' : (forall b, in_disk S b -> used S V b = false -> used S V' b = false) -> (nfree V <= nfree V')%nat.
Proof.
  intros Hu. apply submseteq_length, NoDup_submseteq; [apply NoDup_filter, NoDup_seqZ|].
  intros b [Hb Hf]%elem_of_free. apply elem_of_free. auto.
Qed.

Lemma nfree_drop V V' n :
  (forall b, in_disk S b -> used S V' b = bool_decide (n = b) || used S V b) -> (nfree V <= nfree V' + 1)%nat.
Proof.
  intros Hu. unfold nfree.
  assert (Hsub : free_blocks V ⊆+ n :: free_blocks V').
  { apply NoDup_submseteq; [apply NoDup_filter, NoDup_seqZ|]. intros b [Hb Hf]%elem_of_free.
    destruct (decide (n = b)) as [->|Hne]; [by left|]. right. apply elem_of_free. split; [done|].
    rewrite Hu by done. by rewrite bool_decide_false, Hf. }
  apply submseteq_length in Hsub. cbn in Hsub. lia.
Qed.

Lemma layout_used V V' :
  layout_ok V -> alloc_ok S V' -> (forall b, in_disk S b -> used S V b = true -> used S V' b = true) -> layout_ok V'.
Proof.
  intros [A1 A2 A3 A4 A5] Ha Hu. split; [done| | |done|done].
  - destruct A2 as [H0 H1]. split; [done|by apply Hu].
  - intros i Hi. destruct (A3 i Hi) as (H1 & H2 & H3). split; [done|]. split; [done|]. apply Hu; [apply H1|done].
Qed.

Lemma grow_balloc V n :
  (forall m, wf_block (V m)) -> layout_ok V -> in_disk S n -> used S V n = false -> grow V (balloc_view S V n) [] 1.
Proof.
  intros Hw Hl Hn Hu. pose proof (ly_alloc V Hl) as Ha.
  assert (Hub : forall b, in_disk S b -> used S (balloc_view S V n) b = bool_decide (n = b) || used S V b)
    by (intros; by apply used_balloc).
  assert (Hmono : forall b, in_disk S b -> used S V b = true -> used S (balloc_view S V n) b = true)
    by (intros b Hb Hub'; rewrite Hub, Hub' by done; by rewrite orb_true_r).
  split; [|done| |by apply (nfree_drop V _ n)].
  - apply (layout_used V); [done|by apply alloc_ok_balloc|done].
  - intros m [Hm1 Hm2] Hum _. apply balloc_view_other; [congruence|]. by apply Hm2.
Qed.

Lemma grow_upd V m d : layout_ok V -> plain m -> grow V (upd V m d) [m] 0.
Proof.
  intros Hl Hm. assert (Hu : forall b, in_disk S b -> used S (upd V m d) b = used S V b)
    by (intros; apply used_upd; [apply Hm|done]).
  assert (Ha : alloc_ok S (upd V m d)).
  { pose proof (ly_alloc V Hl) as [A1 A2 A3]. split; [done|..].
    - intros b Hb. destruct (A2 b Hb) as (H1 & H2 & H3). rewrite Hu by done. done.
    - intros b Hb. rewrite Hu by done. by apply A3. }
  split; [apply (layout_used V); [done|done|]; intros; by rewrite Hu|intros; by rewrite Hu| |].
  - intros m' _ _ Hne. unfold upd. rewrite decide_False; [done|set_solver].
  - rewrite Nat.add_0_r. apply nfree_le. intros b Hb. by rewrite Hu.
Qed.

(** ** Files *)

(** A block a file may own. *)
Definition data_ok V (b : Z) : Prop :=
  plain b /\ used S V b = true /\ writable b /\ b <> 0 /\ forall i, valid_inum i -> b <> IBLOCK i S.

(** The block numbers of an inode: direct, through the indirect block, and at
    [MAXFILE] the indirect block; 0 where there is none. *)
Definition slot V di (k : Z) : Z :=
  if k <? NDIRECT then d_addrs di !!! Z.to_nat k
  else if k <? MAXFILE then
    let a := d_addrs di !!! Z.to_nat NDIRECT in
    if a =? 0 then 0 else rd32 (V a) (Z.to_nat (4 * (k - NDIRECT)))
  else d_addrs di !!! Z.to_nat NDIRECT.

Definition slot_ix (k : Z) : Prop := 0 <= k <= MAXFILE.

Record file_ok V di : Prop := mkfile {
  fi_dinode : dinode_ok di;
  fi_data : forall k, slot_ix k -> slot V di k <> 0 -> data_ok V (slot V di k);
  fi_inj : forall k k', slot_ix k -> slot_ix k' -> slot V di k <> 0 -> slot V di k = slot V di k' -> k = k'
}.

Definition indirect di : Z := d_addrs di !!! Z.to_nat NDIRECT.

Lemma slot_indirect V di : slot V di MAXFILE = indirect di.
Proof. done. Qed.

Lemma data_grow V V' X k b : grow V V' X k -> data_ok V b -> data_ok V' b.
Proof. intros Hg (H1 & H2 & H3). split; [done|]. split; [|done]. apply (gr_used _ _ _ _ Hg); [apply H1|done]. Qed.

Lemma slot_grow V V' X n di k :
  grow V V' X n -> file_ok V di -> (indirect di <> 0 -> indirect di ∉ X) -> slot V' di k = slot V di k.
Proof.
  intros Hg Hf HX. unfold slot. fold (indirect di). destruct (k <? NDIRECT); [done|]. destruct (k <? MAXFILE); [|done].
  destruct (Z.eqb_spec (indirect di) 0) as [E|E]; [done|]. f_equal.
  destruct (fi_data V di Hf MAXFILE) as (H1 & H2 & _); [done|done|].
  apply (gr_same _ _ _ _ Hg); [done|done|auto].
Qed.

Lemma file_grow V V' X n di :
  grow V V' X n -> file_ok V di -> (indirect di <> 0 -> indirect di ∉ X) -> file_ok V' di.
Proof.
  intros Hg Hf HX. assert (Hs : forall k, slot V' di k = slot V di k) by (intros; by eapply slot_grow).
  pose proof Hf as [F1 F2 F3]. split; [done|..].
  - intros k Hk. rewrite Hs. intros Hnz. eapply data_grow; [done|]. by apply F2.
  - intros k k' Hk Hk'. rewrite !Hs. by apply F3.
Qed.

(** A block added at an empty slot. *)
Lemma file_add V V' di di' k0 n :
  file_ok V di -> dinode_ok di' -> (forall b, data_ok V b -> data_ok V' b) -> slot_ix k0 ->
  slot V di k0 = 0 -> data_ok V' n -> used S V n = false ->
  (forall k, slot_ix k -> slot V' di' k = if decide (k = k0) then n else slot V di k) -> file_ok V' di'.
Proof.
  intros [F1 F2 F3] Hd Hmono Hk0 Hz Hn Hun Hs.
  assert (Hfresh : forall k, slot_ix k -> slot V di k <> 0 -> slot V di k <> n).
  { intros k Hk Hnz E. destruct (F2 k Hk Hnz) as (_ & Hu & _). congruence. }
  split; [done|..].
  - intros k Hk. rewrite Hs by done. case_decide; [done|]. intros Hnz. by apply Hmono, F2.
  - intros k k' Hk Hk'. rewrite !Hs by done. repeat case_decide; intros Hnz E; subst; try done.
    + destruct (decide (slot V di k' = 0)) as [E0|E0]; [congruence|]. by destruct (Hfresh k' Hk' E0).
    + by destruct (Hfresh k Hk Hnz).
    + by apply F3.
Qed.

(** ** bmap *)

Lemma with_addr_ok i n di : dinode_ok di -> 0 <= n < 2 ^ 32 -> dinode_ok (with_addr i n di).
Proof.
  intros [] Hn. split; try done; cbn.
  - by rewrite length_insert.
  - by apply Forall_insert.
Qed.

Lemma balloc_data V n :
  (forall m, wf_block (V m)) -> layout_ok V -> in_disk S n -> used S V n = false -> data_ok (balloc_view S V n) n.
Proof.
  intros Hw Hl Hn Hu. pose proof (ly_alloc V Hl) as Ha. split; [split; [done|]|split; [|split; [|split]]].
  - intros b Hb. by apply (free_not_map S V).
  - rewrite used_balloc by done. by rewrite bool_decide_true.
  - by apply (ao_free S V Ha).
  - intros ->. destruct (ly_zero V Hl). congruence.
  - intros i Hi ->. destruct (ly_inode V Hl i Hi) as (_ & _ & H). congruence.
Qed.

(** What one step of [bmap] does at slot [k0]: nothing, or a fresh zero block. *)
Record step_post V di V' di' (k0 a : Z) (X : list Z) (n : nat) : Prop := mkstep {
  sp_file : file_ok V' di';
  sp_addr : slot V' di' k0 = a;
  sp_data : data_ok V' a;
  sp_slots : forall k, slot_ix k -> k <> k0 -> slot V' di' k = slot V di k;
  sp_meta : exists l, di' = mkdinode (d_type di) (d_major di) (d_minor di) (d_nlink di) (d_size di) l;
  sp_grow : grow V V' X n;
  sp_old : slot V di k0 <> 0 -> a = slot V di k0 /\ V' a = V a;
  sp_new : slot V di k0 = 0 -> V' a = zero_block /\ used S V a = false
}.

Lemma step_refl V di k : layout_ok V -> file_ok V di -> slot_ix k -> slot V di k <> 0 -> step_post V di V di k (slot V di k) [] 1.
Proof.
  intros Hl Hf Hk Hz. split; try done.
  - by apply (fi_data V _ Hf).
  - exists (d_addrs di). by destruct di.
  - eapply grow_weaken; [by apply grow_refl|done|lia].
Qed.

Definition addr_slot (i : Z) : Z := if i <? NDIRECT then i else MAXFILE.

Lemma addr_slot_val V di i : 0 <= i <= NDIRECT -> slot V di (addr_slot i) = d_addrs di !!! Z.to_nat i.
Proof.
  intros Hi. unfold addr_slot, slot. destruct (Z.ltb_spec i NDIRECT) as [E|E].
  - by rewrite (proj2 (Z.ltb_lt _ _)) by done.
  - replace i with NDIRECT by lia. done.
Qed.

Lemma insert_addr di i n j :
  dinode_ok di -> 0 <= i <= NDIRECT -> 0 <= j <= NDIRECT ->
  d_addrs (with_addr i n di) !!! Z.to_nat j = if decide (j = i) then n else d_addrs di !!! Z.to_nat j.
Proof.
  intros Hd Hi Hj. pose proof (dk_len di Hd) as Hl. cbn. unfold NDIRECT in *. case_decide as E.
  - subst j. apply list_lookup_total_insert_eq. lia.
  - apply list_lookup_total_insert_ne. lia.
Qed.

Lemma rd32_zero o : rd32 zero_block o = 0.
Proof.
  unfold rd32, sub, zero_block. rewrite drop_replicate, take_replicate. induction (_ `min` _)%nat as [|k IH]; [done|].
  cbn [replicate le_val]. by rewrite IH.
Qed.

(** Setting an empty entry of [addrs] to a fresh block. *)
Lemma alloc_addr V di i n :
  (forall m, wf_block (V m)) -> layout_ok V -> file_ok V di -> 0 <= i <= NDIRECT -> slot V di (addr_slot i) = 0 ->
  in_disk S n -> used S V n = false ->
  step_post V di (balloc_view S V n) (with_addr i n di) (addr_slot i) n [] 1.
Proof.
  intros Hw Hl Hf Hi Hz Hn Hu. pose proof (grow_balloc V n Hw Hl Hn Hu) as Hg.
  pose proof (fi_dinode V di Hf) as Hd. pose proof (ao_size S V (ly_alloc V Hl)) as Hsz.
  assert (Hsl : forall k, slot_ix k -> slot (balloc_view S V n) (with_addr i n di) k =
    if decide (k = addr_slot i) then n else slot V di k).
  { intros k Hk. rewrite <- (slot_grow V (balloc_view S V n) [] 1 di k Hg Hf) by (intros _; apply not_elem_of_nil).
    rewrite (addr_slot_val V di i Hi) in Hz. unfold slot_ix, MAXFILE, NINDIRECT in Hk. change (BSIZE / 4) with 256 in Hk.
    unfold slot, addr_slot in *. rewrite (insert_addr di i n NDIRECT) by (done || (unfold NDIRECT in *; lia)).
    unfold MAXFILE, NINDIRECT. change (BSIZE / 4) with 256. unfold NDIRECT in *.
    destruct (Z.ltb_spec k 12) as [E1|E1], (Z.ltb_spec i 12) as [E2|E2].
    - rewrite insert_addr by (done || (unfold NDIRECT; lia)). done.
    - rewrite insert_addr by (done || (unfold NDIRECT; lia)). rewrite !decide_False by lia. done.
    - rewrite (decide_False (P := 12 = i)), (decide_False (P := k = i)) by lia. done.
    - assert (i = 12) as -> by lia. rewrite decide_True by done.
      destruct (Z.ltb_spec k (12 + 256)) as [E3|E3].
      + rewrite (decide_False (P := k = _)) by lia. rewrite Hz. cbn [Z.eqb].
        destruct (Z.eqb_spec n 0); [done|]. rewrite balloc_view_new. apply rd32_zero.
      + rewrite (decide_True (P := k = _)) by lia. done. }
  assert (Hdn : data_ok (balloc_view S V n) n) by (by apply balloc_data).
  assert (Hix : slot_ix (addr_slot i)).
  { unfold addr_slot, slot_ix. destruct (i <? NDIRECT); unfold MAXFILE, NINDIRECT, NDIRECT in *; change (BSIZE / 4) with 256; lia. }
  split; try done.
  - eapply (file_add V _ di); try done; [apply with_addr_ok; [done|destruct Hn; lia]|].
    intros b Hb. by eapply data_grow.
  - rewrite Hsl by done. by rewrite decide_True.
  - intros k Hk Hne. rewrite Hsl by done. by rewrite decide_False.
  - by eexists.
  - intros _. split; [apply balloc_view_new|done].
Qed.

(** Setting an empty entry of the indirect block to a fresh block. *)
Lemma alloc_entry V di j n :
  (forall m, wf_block (V m)) -> layout_ok V -> file_ok V di -> 0 <= j < NINDIRECT -> indirect di <> 0 ->
  slot V di (NDIRECT + j) = 0 -> in_disk S n -> used S V n = false ->
  let V1 := balloc_view S V n in
  step_post V di (upd V1 (indirect di) (wr32 (V1 (indirect di)) (Z.to_nat (4 * j)) n)) di (NDIRECT + j) n [indirect di] 1.
Proof.
  intros Hw Hl Hf Hj Ha Hz Hn Hu V1. pose proof (grow_balloc V n Hw Hl Hn Hu) as Hg. fold V1 in Hg.
  set (a := indirect di) in *. set (V2 := upd V1 a _).
  assert (Hix : slot_ix MAXFILE) by done. pose proof (fi_data V di Hf MAXFILE Hix Ha) as Hda.
  rewrite slot_indirect in Hda. fold a in Hda. destruct Hda as (Hp & Hua & Hwa & _ & Hia).
  assert (Hg2 : grow V V2 [a] 1).
  { eapply (grow_weaken _ _ ([] ++ [a]) [a] (1 + 0)); [|done|lia]. eapply grow_trans; [exact Hg|].
    apply grow_upd; [apply Hg|done]. }
  assert (Hna : n <> a) by (intros ->; congruence).
  assert (Hlen : length (V1 a) = 1024%nat).
  { unfold V1. rewrite balloc_view_other by (try done; by apply Hp). apply Hw. }
  unfold NINDIRECT, NDIRECT in *. change (BSIZE / 4) with 256 in *.
  pose proof (ao_size S V (ly_alloc V Hl)) as Hsz.
  assert (Hsl : forall k, slot_ix k -> slot V2 di k = if decide (k = 12 + j) then n else slot V di k).
  { intros k Hk. rewrite <- (slot_grow V V1 [] 1 di k Hg Hf) by (intros _; apply not_elem_of_nil).
    unfold slot. fold (indirect di). fold a. unfold slot_ix, MAXFILE, NINDIRECT, NDIRECT in *. change (BSIZE / 4) with 256 in *.
    destruct (Z.ltb_spec k 12) as [E1|E1]; [by rewrite decide_False by lia|].
    destruct (Z.ltb_spec k (12 + 256)) as [E2|E2]; [|by rewrite decide_False by lia].
    destruct (Z.eqb_spec a 0) as [|_]; [done|]. unfold V2, upd. rewrite (decide_True (P := a = a)) by done.
    case_decide as E3.
    - subst k. replace (12 + j - 12) with j by lia. rewrite rd32_wr32 by lia. apply u32_small. destruct Hn. lia.
    - apply rd32_wr32_ne; [lia|]. lia. }
  assert (Hdn : data_ok V2 n).
  { eapply (data_grow V1 V2 [a] 0); [apply grow_upd; [apply Hg|done]|]. by apply balloc_data. }
  assert (Hk0 : slot_ix (12 + j)) by (unfold slot_ix, MAXFILE, NINDIRECT, NDIRECT; change (BSIZE / 4) with 256; lia).
  split; try done.
  - eapply (file_add V V2 di di (12 + j)); try done; [apply Hf|]. intros b Hb. by eapply data_grow.
  - rewrite Hsl by done. by rewrite decide_True.
  - intros k Hk Hne. rewrite Hsl by done. by rewrite decide_False.
  - exists (d_addrs di). by destruct di.
  - intros _. split; [|done]. unfold V2, upd. rewrite decide_False by done. apply balloc_view_new.
Qed.

(** ** Running it *)

Definition isame (f f' : fs B) (ip : nat) (x' : inode) : Prop :=
  icache f' = <[ip := x']> (icache f) /\ sb f' = sb f /\ b_pid (fb f') = b_pid (fb f).

Lemma set_d_id x : set_d (i_d x) x = x.
Proof. by destruct x. Qed.

Lemma isame_id f ip x : icache f !! ip = Some x -> isame f f ip x.
Proof. intros E. split; [by rewrite list_insert_id|done]. Qed.

Lemma isame_fsame f f' f2 ip x : isame f f' ip x -> fsame f' f2 -> isame f f2 ip x.
Proof. intros (H1 & H2 & H3) (K1 & K2 & K3). split; [congruence|]. split; congruence. Qed.

Lemma fsame_isame f f1 f' ip x : fsame f f1 -> isame f1 f' ip x -> isame f f' ip x.
Proof. intros (K1 & K2 & K3) (H1 & H2 & H3). split; [congruence|]. split; congruence. Qed.

Lemma isame_trans f f1 f2 ip x x' : isame f f1 ip x -> isame f1 f2 ip x' -> isame f f2 ip x'.
Proof.
  intros (K1 & K2 & K3) (H1 & H2 & H3). split; [rewrite H1, K1; apply list_insert_insert_eq|]. split; congruence.
Qed.

Lemma upd_d_run f ip x g :
  icache f !! ip = Some x -> exists f', (forall A (k : M (fs B) A), (upd_d ip g ;;; k) f = k f') /\
    upd_d ip g f = Ok (tt, f') /\ isame f f' ip (set_d (g (i_d x)) x) /\ fb f' = fb f.
Proof.
  intros E. eexists. split; [intros; reflexivity|]. split; [reflexivity|]. split; [|done]. split; [|done]. cbn.
  apply list_eq. intros j. destruct (decide (ip = j)) as [<-|Hne].
  - rewrite list_lookup_alter_eq, E, list_lookup_insert_eq; [done|]. by apply lookup_lt_Some in E.
  - by rewrite list_lookup_alter_ne, list_lookup_insert_ne.
Qed.

Lemma isame_lookup f f' ip x x' : icache f !! ip = Some x -> isame f f' ip x' -> icache f' !! ip = Some x'.
Proof. intros E (-> & _). apply list_lookup_insert_eq. by apply lookup_lt_Some in E. Qed.

Lemma held_grow V V' X k H : grow V V' X k -> held_ok S V H -> held_ok S V' H.
Proof. intros Hg Hh n Hn. destruct (Hh n Hn) as (H1 & H2 & H3). split; [done|]. split; [|done]. by apply (gr_used _ _ _ _ Hg). Qed.

Lemma held_cons V H bp b : held_ok S V H -> data_ok V b -> held_ok S V ((bp, b) :: H).
Proof. intros Hh ((H1 & H2) & H3 & _) n [->|Hn]%elem_of_cons; [done|by apply Hh]. Qed.

(** The common start of [bmap]'s two cases. *)
Lemma addr_run f V L H ip x i :
  fblk f V L H -> sb f = S -> layout_ok V -> held_ok S V H -> icache f !! ip = Some x -> i_dev x = D ->
  file_ok V (i_d x) -> 0 <= i <= NDIRECT -> (0 < nfree V)%nat ->
  (length L + 2 <= log_cap)%nat -> (length L + length H + 1 < NBUF)%nat ->
  exists a f' V' L' di', (if d_addrs (i_d x) !!! Z.to_nat i =? 0
      then addr <- balloc (i_dev x) ;; upd_d ip (with_addr i addr) ;;; ret addr
      else ret (d_addrs (i_d x) !!! Z.to_nat i)) f = Ok (a, f') /\
    fblk f' V' L' H /\ isame f f' ip (set_d di' x) /\ (length L' <= length L + 2)%nat /\ L ⊆ L' /\
    step_post V (i_d x) V' di' (addr_slot i) a [] 1.
Proof.
  intros Hb HS Hl Hh Hx HD Hf Hi Hfree Hc Hr. rewrite HD. rewrite <- (addr_slot_val V (i_d x) i Hi).
  assert (Hw : forall m, wf_block (V m)) by (intros; by apply (fblk_wf f V L H)).
  destruct (Z.eqb_spec (slot V (i_d x) (addr_slot i)) 0) as [Hz|Hz].
  - destruct (balloc_ok S f V L H Hb HS (ly_alloc V Hl) Hh Hc Hr (nfree_pos V Hfree)) as (n & f1 & E1 & Hn & Hu & _ & Hb1 & S1).
    rewrite (bind_ok _ _ _ _ _ E1). destruct (upd_d_run f1 ip x (with_addr i n)) as (f2 & E2 & _ & I2 & F2).
    { destruct S1 as (-> & _). done. }
    rewrite E2. eexists n, f2, _, _, (with_addr i n (i_d x)). split; [done|].
    split; [unfold fblk; rewrite F2; exact Hb1|]. split; [by eapply fsame_isame|].
    split; [etransitivity; [apply length_add|]; pose proof (length_add (BBLOCK n S) L); lia|].
    split; [intros m Hm; rewrite !elem_of_add; auto|]. by apply alloc_addr.
  - assert (Hix : slot_ix (addr_slot i)).
    { unfold addr_slot, slot_ix. destruct (i <? NDIRECT); unfold MAXFILE, NINDIRECT, NDIRECT in *; change (BSIZE / 4) with 256; lia. }
    eexists _, f, V, L, (i_d x). split; [reflexivity|]. split; [done|]. rewrite set_d_id. split; [by apply isame_id|].
    split; [lia|]. split; [done|]. by apply step_refl.
Qed.

(** What [bmap] of block [bn] leaves. *)
Record bmap_post V di V' di' (bn a : Z) : Prop := mkbmap {
  bm_file : file_ok V' di';
  bm_addr : slot V' di' bn = a;
  bm_data : data_ok V' a;
  bm_slots : forall k, 0 <= k < MAXFILE -> k <> bn -> slot V' di' k = slot V di k;
  bm_meta : exists l, di' = mkdinode (d_type di) (d_major di) (d_minor di) (d_nlink di) (d_size di) l;
  bm_grow : grow V V' [indirect di'] 2;
  bm_ind : indirect di <> 0 -> indirect di' = indirect di;
  bm_ind_new : indirect di = 0 -> indirect di' <> 0 -> used S V (indirect di') = false;
  bm_old : slot V di bn <> 0 -> a = slot V di bn /\ V' a = V a;
  bm_new : slot V di bn = 0 -> V' a = zero_block /\ used S V a = false
}.

Lemma step_bmap V di V' di' bn a : bn < NDIRECT -> step_post V di V' di' bn a [] 1 -> bmap_post V di V' di' bn a.
Proof.
  intros Hbn [P1 P2 P3 P4 P5 P6 P7 P8].
  assert (Hi : indirect di' = indirect di).
  { rewrite <- (slot_indirect V' di'), <- (slot_indirect V di). apply P4; [done|].
    unfold MAXFILE, NINDIRECT, NDIRECT in *. change (BSIZE / 4) with 256. lia. }
  split; try done.
  - intros k Hk Hne. apply P4; [|done]. unfold slot_ix. lia.
  - eapply grow_weaken; [done|apply list_subseteq_nil|lia].
  - intros Hz. congruence.
Qed.

(** The indirect step after the direct one. *)
Lemma step_step V di V1 di1 V2 bn a0 a X :
  NDIRECT <= bn < MAXFILE -> file_ok V di -> step_post V di V1 di1 MAXFILE a0 [] 1 ->
  step_post V1 di1 V2 di1 bn a X 1 -> X ⊆ [indirect di1] -> bmap_post V di V2 di1 bn a.
Proof.
  intros Hbn Hf [P1 P2 P3 P4 P5 P6 P7 P8] [Q1 Q2 Q3 Q4 Q5 Q6 Q7 Q8] HX.
  assert (Hix : slot_ix bn) by (unfold slot_ix, NDIRECT in *; lia).
  assert (Hs : slot V1 di1 bn = slot V di bn) by (apply P4; [done|lia]).
  assert (Ha : a <> indirect di1).
  { rewrite <- Q2, <- (slot_indirect V2 di1). intros E. apply (fi_inj V2 di1 Q1) in E; [lia|done|done|].
    rewrite Q2. apply Q3. }
  split; try done.
  - intros k Hk Hne. rewrite Q4, P4 by (unfold slot_ix; lia). done.
  - eapply grow_weaken; [eapply grow_trans; [exact P6|exact Q6]|done|lia].
  - intros Hi. rewrite <- (slot_indirect V1 di1), <- (slot_indirect V di), P2. by apply P7.
  - intros Hi _. rewrite <- (slot_indirect V1 di1), P2. by apply P8.
  - intros Hnz. rewrite <- Hs. destruct Q7 as [-> Hv]; [by rewrite Hs|]. split; [done|]. rewrite Hv.
    rewrite Hs in *. destruct (fi_data V di Hf bn Hix Hnz) as (H1 & H2 & _).
    apply (gr_same _ _ _ _ P6); [done|done|apply not_elem_of_nil].
  - intros Hz. rewrite <- Hs in Hz. destruct (Q8 Hz) as [H1 H2]. split; [done|].
    destruct (used S V a) eqn:E; [|done]. destruct Q3 as ((Hd & _) & _). by rewrite (gr_used _ _ _ _ P6 a Hd E) in H2.
Qed.

(** The end of [bmap]'s indirect case, with the indirect block in buffer [bp]. *)
Lemma entry_run f V L H di bn bp :
  fblk f V L ((bp, indirect di) :: H) -> bp ∉ H.*1 -> sb f = S -> layout_ok V -> held_ok S V H ->
  file_ok V di -> data_ok V (indirect di) -> NDIRECT <= bn < MAXFILE -> (0 < nfree V)%nat ->
  (length L + 3 <= log_cap)%nat -> (length L + length H + 3 < NBUF)%nat ->
  exists a f' V' L' X, (d <- bdata_of bp ;;
      let addr := rd32 d (Z.to_nat (4 * (bn - NDIRECT))) in
      addr <- (if addr =? 0 then
                 addr <- balloc D ;; d <- bdata_of bp ;;
                 blkop (b_store bp (wr32 d (Z.to_nat (4 * (bn - NDIRECT))) addr)) ;;; blkop (b_log bp) ;;; ret addr
               else ret addr) ;;
      blkop (b_release bp) ;;; ret addr) f = Ok (a, f') /\
    fblk f' V' L' H /\ fsame f f' /\ (length L' <= length L + 3)%nat /\ L ⊆ L' /\
    step_post V di V' di bn a X 1 /\ X ⊆ [indirect di].
Proof.
  intros Hb Hbp HS Hl Hh Hf Hda Hbn Hfree Hc Hr. rewrite (data_run f V L _ bp (indirect di) Hb) by set_solver.
  assert (Hsl : rd32 (V (indirect di)) (Z.to_nat (4 * (bn - NDIRECT))) = slot V di bn).
  { unfold slot. fold (indirect di). rewrite (proj2 (Z.ltb_ge _ _)), (proj2 (Z.ltb_lt _ _)) by lia.
    destruct (Z.eqb_spec (indirect di) 0) as [Hz|]; [|done]. by destruct Hda as (_ & _ & _ & Hnz & _). }
  cbn zeta. rewrite Hsl. destruct (Z.eqb_spec (slot V di bn) 0) as [Hz|Hz].
  - assert (Hw : forall m, wf_block (V m)) by (intros; by eapply fblk_wf).
    destruct (balloc_ok S f V L ((bp, indirect di) :: H)) as (n & f3 & E3 & Hn & Hu & _ & Hb3 & S3); try done.
    { apply Hl. } { by apply held_cons. } { lia. } { cbn. lia. } { by apply nfree_pos. }
    set (V3 := balloc_view S V n) in *. set (L3 := add n _) in *.
    assert (HL3 : (length L3 <= length L + 2)%nat).
    { unfold L3. etransitivity; [apply length_add|]. pose proof (length_add (BBLOCK n S) L). lia. }
    assert (Hj : 0 <= bn - NDIRECT < NINDIRECT) by (unfold MAXFILE in *; lia).
    set (d := wr32 (V3 (indirect di)) (Z.to_nat (4 * (bn - NDIRECT))) n).
    destruct (store_log_run f3 V3 L3 _ bp (indirect di) d Hb3) as (f4 & E4 & Hb4 & S4); [set_solver|apply Hda| |lia|].
    { apply wr32_wf; [by apply (fblk_wf f3 V3 L3 _ (indirect di) Hb3)|]. unfold NINDIRECT, BSIZE in *.
      change (1024 / 4) with 256 in *. lia. }
    erewrite bind_ok; [|rewrite (bind_ok _ _ _ _ _ E3), (data_run f3 V3 L3 _ bp (indirect di) Hb3) by set_solver; by rewrite E4].
    destruct (release_top f4 _ _ H bp _ Hb4 Hbp) as (f5 & E5 & _ & Hb5 & S5). rewrite E5.
    eexists n, f5, _, _, [indirect di]. split; [done|]. split; [exact Hb5|].
    split; [by eapply fsame_trans; [|eapply fsame_trans]|]. split; [etransitivity; [apply length_add|]; lia|].
    split; [intros m Hm; unfold L3; rewrite !elem_of_add; auto|]. split; [|done].
    replace bn with (NDIRECT + (bn - NDIRECT)) in Hz |- * by lia. unfold d.
    replace (NDIRECT + (bn - NDIRECT) - NDIRECT) with (bn - NDIRECT) by lia.
    apply alloc_entry; try done. by destruct Hda as (_ & _ & _ & ? & _).
  - erewrite bind_ok by reflexivity. destruct (release_top f _ _ H bp _ Hb Hbp) as (f3 & E3 & _ & Hb3 & S3). rewrite E3.
    eexists _, f3, V, L, []. split; [done|]. split; [done|]. split; [done|]. split; [lia|]. split; [done|].
    split; [|apply list_subseteq_nil]. apply step_refl; try done. unfold slot_ix, NDIRECT in *. lia.
Qed.

Lemma bmap_ok f V L H ip x bn :
  fblk f V L H -> sb f = S -> layout_ok V -> held_ok S V H -> icache f !! ip = Some x -> i_dev x = D ->
  file_ok V (i_d x) -> 0 <= bn < MAXFILE -> (2 <= nfree V)%nat -> indirect (i_d x) ∉ H.*2 ->
  (length L + 5 <= log_cap)%nat -> (length L + length H + 6 < NBUF)%nat ->
  exists a f' V' L' di', bmap ip bn f = Ok (a, f') /\ fblk f' V' L' H /\ isame f f' ip (set_d di' x) /\
    (length L' <= length L + 5)%nat /\ L ⊆ L' /\ bmap_post V (i_d x) V' di' bn a.
Proof.
  intros Hb HS Hl Hh Hx HD Hf Hbn Hfree Hind Hc Hr. unfold bmap. erewrite bind_ok by reflexivity.
  rewrite (list_lookup_total_correct _ _ _ Hx). destruct (Z.ltb_spec bn NDIRECT) as [E|E].
  { destruct (addr_run f V L H ip x bn) as (a & f' & V' & L' & di' & E1 & Hb1 & I1 & HL & HsubL & HP); try done; try lia.
    exists a, f', V', L', di'. split; [done|]. split; [done|]. split; [done|]. split; [lia|]. split; [done|].
    unfold addr_slot in HP. rewrite (proj2 (Z.ltb_lt _ _)) in HP by done. by apply step_bmap. }
  rewrite (proj2 (Z.ltb_lt (bn - NDIRECT) _)) by (unfold MAXFILE in *; lia).
  destruct (addr_run f V L H ip x NDIRECT) as (a & f1 & V1 & L1 & di1 & E1 & Hb1 & I1 & HL1 & HsubL1 & HP1); try done; try lia.
  rewrite (bind_ok _ _ _ _ _ E1). clear E1. rewrite HD. change (addr_slot NDIRECT) with MAXFILE in HP1.
  pose proof (sp_addr _ _ _ _ _ _ _ _ HP1) as Ha. rewrite slot_indirect in Ha. subst a.
  pose proof (sp_data _ _ _ _ _ _ _ _ HP1) as Hda. pose proof (sp_grow _ _ _ _ _ _ _ _ HP1) as Hg1.
  assert (HaH : indirect di1 ∉ H.*2).
  { destruct (decide (indirect (i_d x) = 0)) as [Hz|Hz].
    - intros Hin. destruct (Hh _ Hin) as (_ & Hu & _). destruct (sp_new _ _ _ _ _ _ _ _ HP1 Hz). congruence.
    - destruct (sp_old _ _ _ _ _ _ _ _ HP1 Hz) as [E2 _]. rewrite E2. done. }
  destruct (read_run f1 V1 L1 H (indirect di1) Hb1 HaH) as (bp & f2 & E2 & Hb2 & Hbp & S2); [right; lia|].
  rewrite E2. clear E2. pose proof (gr_free _ _ _ _ Hg1) as Hfr1.
  destruct (entry_run f2 V1 L1 H di1 bn bp Hb2 Hbp) as (a & f3 & V3 & L3 & X & E3 & Hb3 & S3 & HL3 & Hsub3 & HP3 & HX); try done.
  { destruct S2 as (_ & -> & _), I1 as (_ & -> & _). done. } { apply Hg1. } { by eapply held_grow. }
  { apply HP1. } { lia. } { lia. } { lia. } { lia. }
  exists a, f3, V3, L3, di1. split; [exact E3|]. split; [done|]. split; [by do 2 (eapply isame_fsame; [|done])|].
  split; [lia|]. split; [by etransitivity|].
  apply (step_step V (i_d x) V1 di1 V3 bn (indirect di1) a X); [lia|done..].
Qed.
End Layout.
