(* ===== verification/FsFile.v ===== *)
(** File contents: [readi] returns the bytes of the file and [writei] replaces
    them, with the block map of [FsMap] in between. *)

From S2P Require Import Prelude Sleeplock Bio BioCst Bytes Blk Fs FsIo FsBlock FsMap.

Section File.
Context {B : Type} {ops : BlockOps B} {geo : BlockGeom} {D : Z} {laws : BlockLaws B D}.
Context (SB : superblock).
Implicit Types (V : Z -> block) (di : dinode).

Definition FMAX : Z := MAXFILE * BSIZE.

(** Byte [i] of a file; a hole reads as zero. *)
Definition fbyte V di (i : Z) : Z :=
  let a := slot V di (i / BSIZE) in
  if a =? 0 then 0 else V a !!! Z.to_nat (i mod BSIZE).

(** [n] bytes from [off]. *)
Definition frange V di (off n : Z) : list Z := fbyte V di <$> seqZ off n.

(** Every block up to the size is there. *)
Definition mapped V di : Prop := forall bn, 0 <= bn -> bn * BSIZE < d_size di -> slot V di bn <> 0.

Lemma frange_app V di off n m : 0 <= n -> 0 <= m -> frange V di off (n + m) = frange V di off n ++ frange V di (off + n) m.
Proof. intros Hn Hm. unfold frange. by rewrite seqZ_app, fmap_app. Qed.

Lemma frange_block V di off m :
  wf_block (V (slot V di (off / BSIZE))) -> slot V di (off / BSIZE) <> 0 -> 0 <= off -> 0 <= m -> off mod BSIZE + m <= BSIZE ->
  frange V di off m = sub (V (slot V di (off / BSIZE))) (Z.to_nat (off mod BSIZE)) (Z.to_nat m).
Proof.
  intros [Hw _] Hz Ho Hm Hb. unfold frange. apply list_eq. intros i. rewrite list_lookup_fmap, lookup_sub.
  destruct (decide (i < Z.to_nat m)%nat) as [Hi|Hi].
  - rewrite lookup_seqZ_lt by lia. cbn. unfold fbyte, BSIZE in *.
    assert ((off + Z.of_nat i) / 1024 = off / 1024) as -> by lia. rewrite (proj2 (Z.eqb_neq _ _)) by done.
    destruct (lookup_lt_is_Some_2 (V (slot V di (off / 1024))) (Z.to_nat (off mod 1024) + i)) as [x Hx]; [lia|].
    rewrite Hx. f_equal. apply list_lookup_total_correct. rewrite <- Hx. f_equal. lia.
  - by rewrite lookup_seqZ_ge by lia.
Qed.

(** ** bmap of a block that exists *)

Lemma bmap_mapped f V L H ip x bn :
  fblk f V L H -> icache f !! ip = Some x -> i_dev x = D -> 0 <= bn < MAXFILE -> slot V (i_d x) bn <> 0 ->
  indirect (i_d x) ∉ H.*2 -> (length L + length H < NBUF)%nat ->
  exists f', bmap ip bn f = Ok (slot V (i_d x) bn, f') /\ fblk f' V L H /\ fsame f f'.
Proof.
  intros Hb Hx HD Hbn Hnz Hind Hr. unfold bmap. erewrite bind_ok by reflexivity.
  rewrite (list_lookup_total_correct _ _ _ Hx). unfold slot in *. fold (indirect (i_d x)) in *.
  destruct (Z.ltb_spec bn NDIRECT) as [E|E].
  { rewrite (proj2 (Z.eqb_neq _ _)) by done. by exists f. }
  rewrite (proj2 (Z.ltb_lt bn _)) in * by lia. rewrite (proj2 (Z.ltb_lt (bn - NDIRECT) _)) by (unfold MAXFILE in *; lia).
  destruct (Z.eqb_spec (indirect (i_d x)) 0) as [Ez|Ez]; [done|]. erewrite bind_ok by reflexivity. rewrite HD.
  destruct (read_run f V L H (indirect (i_d x)) Hb Hind) as (bp & f2 & E2 & Hb2 & Hbp & S2); [by right|].
  rewrite E2, (data_run f2 V L _ bp (indirect (i_d x)) Hb2) by set_solver.
  rewrite (proj2 (Z.eqb_neq _ _)) by done. erewrite bind_ok by reflexivity.
  destruct (release_top f2 _ _ H bp _ Hb2 Hbp) as (f3 & E3 & _ & Hb3 & S3). rewrite E3.
  exists f3. split; [done|]. split; [done|]. by eapply fsame_trans.
Qed.

(** ** readi *)

(** The turns the copying loops still make: the blocks the range touches. *)
Definition turns_left (off n : Z) : Z := if 0 <? n then (off + n + BSIZE - 1) / BSIZE - off / BSIZE else 0.

Lemma turns_left_next off n :
  0 <= off -> 0 < n -> let m := Z.min n (BSIZE - off mod BSIZE) in turns_left (off + m) (n - m) < turns_left off n.
Proof.
  intros Ho Hn m. unfold turns_left, m, BSIZE in *.
  rewrite (proj2 (Z.ltb_lt _ _) Hn). destruct (Z.ltb_spec 0 (n - Z.min n (1024 - off mod 1024))); lia.
Qed.

Lemma turns_left_start off n : 0 <= off -> 0 <= n -> turns_left off n < Z.of_nat (S (S (S (Z.to_nat (n / BSIZE))))).
Proof. intros Ho Hn. unfold turns_left, BSIZE. destruct (Z.ltb_spec 0 n); lia. Qed.

Lemma turns_left_pos off n : 0 <= off -> 0 <= turns_left off n.
Proof. intros Ho. unfold turns_left, BSIZE. destruct (Z.ltb_spec 0 n); lia. Qed.

(** A transfer that succeeds and leaves the file system alone. *)
Definition sink_ok (copyout : Z -> list Z -> M (fs B) Z) : Prop :=
  forall f V L H tot bytes, fblk f V L H ->
  exists f', copyout tot bytes f = Ok (0, f') /\ fblk f' V L H /\ fsame f f'.

Lemma to_kernel_ok : sink_ok to_kernel.
Proof. intros f V L H tot bytes Hb. by exists f. Qed.

Lemma readi_loop_ok V L H ip x copyout n :
  sink_ok copyout -> i_dev x = D -> file_ok SB V (i_d x) -> mapped V (i_d x) ->
  (forall m, m ∈ H.*2 -> forall k, slot_ix k -> slot V (i_d x) k <> 0 -> slot V (i_d x) k <> m) ->
  0 ∉ H.*2 -> (length L + length H < NBUF)%nat -> n < 2 ^ 31 ->
  forall fuel f tot off acc,
  fblk f V L H -> icache f !! ip = Some x -> 0 <= tot <= n -> 0 <= off -> off + (n - tot) <= d_size (i_d x) ->
  d_size (i_d x) <= FMAX -> turns_left off (n - tot) < Z.of_nat fuel ->
  exists f', readi_loop fuel copyout ip n tot off acc f = Ok ((n, acc ++ frange V (i_d x) off (n - tot)), f') /\
    fblk f' V L H /\ fsame f f'.
Proof.
  intros Hsink HD Hf Hmap Hheld H0 Hr Hn. induction fuel as [|fuel IH]; intros f tot off acc Hb Hx Ht Ho Hs Hmax Hfu.
  { pose proof (turns_left_pos off (n - tot) Ho). lia. }
  cbn [readi_loop]. destruct (Z.ltb_spec tot n) as [E|E].
  2: { exists f. assert (tot = n) as -> by lia. rewrite Z.sub_diag. unfold frange. cbn. rewrite app_nil_r.
       rewrite s32_small by lia. done. }
  erewrite bind_ok by reflexivity. rewrite (list_lookup_total_correct _ _ _ Hx), HD.
  set (bn := off / BSIZE). assert (Hbn : 0 <= bn < MAXFILE) by (unfold bn, FMAX, BSIZE in *; lia).
  assert (Hnz : slot V (i_d x) bn <> 0) by (apply Hmap; unfold bn, BSIZE in *; lia).
  assert (Hix : slot_ix bn) by (unfold slot_ix; lia).
  destruct (bmap_mapped f V L H ip x bn) as (f1 & E1 & Hb1 & S1); try done.
  { intros Hin. destruct (decide (indirect (i_d x) = 0)) as [Ez|Ez]; [congruence|]. by apply (Hheld _ Hin MAXFILE). }
  rewrite (bind_ok _ _ _ _ _ E1). clear E1.
  destruct (read_run f1 V L H (slot V (i_d x) bn) Hb1) as (bp & f2 & E2 & Hb2 & Hbp & S2);
    [intros Hin; by apply (Hheld _ Hin bn)|by right|].
  rewrite E2, (data_run f2 V L _ bp (slot V (i_d x) bn) Hb2) by set_solver. clear E2.
  set (m := Z.min (n - tot) (BSIZE - off mod BSIZE)).
  assert (Hm : 0 < m /\ off mod BSIZE + m <= BSIZE) by (unfold m, BSIZE in *; lia).
  cbn zeta. fold m. destruct (Hsink f2 V L _ tot (sub (V (slot V (i_d x) bn)) (Z.to_nat (off mod BSIZE)) (Z.to_nat m)) Hb2)
    as (f3 & E3 & Hb3 & S3).
  rewrite (bind_ok _ _ _ _ _ E3). cbn [Z.eqb]. clear E3.
  destruct (release_top f3 _ _ H bp _ Hb3 Hbp) as (f4 & E4 & _ & Hb4 & S4). rewrite E4. clear E4.
  assert (S14 : fsame f f4) by (by eapply fsame_trans; [|eapply fsame_trans; [|eapply fsame_trans]]).
  assert (Hfr : frange V (i_d x) off m = sub (V (slot V (i_d x) bn)) (Z.to_nat (off mod BSIZE)) (Z.to_nat m)).
  { apply frange_block; [by apply (fblk_wf f V L H)|done|lia..]. }
  rewrite <- Hfr.
  destruct (IH f4 (tot + m) (off + m) (acc ++ frange V (i_d x) off m)) as (f5 & E5 & Hb5 & S5); try done.
  { destruct S14 as (-> & _). done. } { unfold m. lia. } { lia. } { lia. }
  { pose proof (turns_left_next off (n - tot) Ho ltac:(lia)) as Hnx. cbn zeta in Hnx. fold m in Hnx.
    replace (n - (tot + m)) with (n - tot - m) by lia. lia. }
  exists f5. rewrite E5. split; [|split; [done|by eapply fsame_trans]]. do 3 f_equal.
  rewrite <- app_assoc, <- frange_app by (unfold m; lia). do 2 f_equal. lia.
Qed.

(** What [readi] needs of a file: its blocks exist and none of them is held. *)
Record readable f V L H (ip : nat) x : Prop := mkreadable {
  rd_blk : fblk f V L H; rd_ino : icache f !! ip = Some x; rd_dev : i_dev x = D;
  rd_file : file_ok SB V (i_d x); rd_map : mapped V (i_d x); rd_max : d_size (i_d x) <= FMAX;
  rd_held : forall m, m ∈ H.*2 -> m <> 0 /\ forall k, slot_ix k -> slot V (i_d x) k <> 0 -> slot V (i_d x) k <> m;
  rd_room : (length L + length H < NBUF)%nat
}.

Lemma readi_ok f V L H ip x copyout off n :
  readable f V L H ip x -> sink_ok copyout -> 0 <= off <= d_size (i_d x) -> 0 <= n < 2 ^ 31 -> off + n < 2 ^ 32 ->
  let n' := Z.min n (d_size (i_d x) - off) in
  exists f', readi copyout ip off n f = Ok ((n', frange V (i_d x) off n'), f') /\ fblk f' V L H /\ fsame f f'.
Proof.
  intros [Hb Hx HD Hf Hm Hmax Hh Hr] Hs Ho Hn Hon n'. unfold readi. erewrite bind_ok by reflexivity.
  rewrite (list_lookup_total_correct _ _ _ Hx), u32_small by lia.
  rewrite !(proj2 (Z.ltb_ge _ _)) by lia. cbn [orb].
  assert (En : (if d_size (i_d x) <? off + n then d_size (i_d x) - off else n) = n').
  { unfold n'. destruct (Z.ltb_spec (d_size (i_d x)) (off + n)); lia. }
  rewrite En. destruct (readi_loop_ok V L H ip x copyout n' Hs HD Hf Hm) with
    (fuel := Datatypes.S (Datatypes.S (Datatypes.S (Z.to_nat (n' / BSIZE))))) (f := f) (tot := 0) (off := off) (acc := @nil Z)
    as (f' & E & Hb' & S'); try done; try (unfold n'; lia).
  { intros m Hin. by apply Hh. } { intros Hin. by destruct (Hh 0 Hin). }
  { rewrite Z.sub_0_r. apply turns_left_start; unfold n'; lia. }
  exists f'. rewrite E, Z.sub_0_r. done.
Qed.

(** ** Contents under the steps of a write *)

Lemma fbyte_ext V V' di di' i :
  slot V' di' (i / BSIZE) = slot V di (i / BSIZE) ->
  (slot V di (i / BSIZE) <> 0 -> V' (slot V di (i / BSIZE)) = V (slot V di (i / BSIZE))) ->
  fbyte V' di' i = fbyte V di i.
Proof.
  intros Es Ev. unfold fbyte. rewrite Es. destruct (Z.eqb_spec (slot V di (i / BSIZE)) 0) as [E|E]; [done|]. by rewrite Ev.
Qed.

Lemma block_ix i : 0 <= i < FMAX -> 0 <= i / BSIZE < MAXFILE.
Proof. unfold FMAX, BSIZE. lia. Qed.

Lemma zero_byte o : (o < Z.to_nat BSIZE)%nat -> zero_block !!! o = 0.
Proof. intros. unfold zero_block. by rewrite lookup_total_replicate_2. Qed.

Lemma mod_ix i : (Z.to_nat (i mod BSIZE) < Z.to_nat BSIZE)%nat.
Proof. unfold BSIZE. lia. Qed.

(** [bmap] changes no byte of the file. *)
Lemma bmap_bytes V di V' di' bn a i :
  file_ok SB V di -> bmap_post SB V di V' di' bn a -> 0 <= bn < MAXFILE -> 0 <= i < FMAX -> fbyte V' di' i = fbyte V di i.
Proof.
  intros Hf [P1 P2 P3 P4 P5 P6 P7 _ P8 P9] Hbn Hi. pose proof (block_ix i Hi) as Hk.
  destruct (decide (i / BSIZE = bn)) as [E|E].
  - destruct (decide (slot V di bn = 0)) as [Hz|Hz].
    + destruct (P9 Hz) as [Hv _]. unfold fbyte. rewrite E, P2, Hz, Hv. cbn [Z.eqb].
      destruct (a =? 0); [done|]. apply zero_byte, mod_ix.
    + destruct (P8 Hz) as [Ha Hv]. apply fbyte_ext; rewrite E; [congruence|]. intros _. by rewrite <- Ha.
  - apply fbyte_ext; [by apply P4|]. intros Hz.
    assert (Hix : slot_ix (i / BSIZE)) by (unfold slot_ix; lia).
    destruct (fi_data SB V di Hf (i / BSIZE) Hix Hz) as (D1 & D2 & _).
    apply (gr_same _ _ _ _ _ P6); [done|done|]. rewrite <- (P4 (i / BSIZE)) in Hz |- * by done.
    intros Hin%list_elem_of_singleton. rewrite <- (slot_indirect V' di') in Hin.
    apply (fi_inj SB V' di' P1) in Hin; [lia|done|done|done].
Qed.

(** Writing into a data block of the file changes the bytes written. *)
Lemma store_bytes V di bn o bytes i :
  file_ok SB V di -> wf_block (V (slot V di bn)) -> 0 <= bn < MAXFILE -> slot V di bn <> 0 -> 0 <= o ->
  o + Z.of_nat (length bytes) <= BSIZE -> 0 <= i < FMAX ->
  let V' := upd V (slot V di bn) (splice (V (slot V di bn)) (Z.to_nat o) bytes) in
  (forall k, slot V' di k = slot V di k) /\
  fbyte V' di i = if decide (bn * BSIZE + o <= i < bn * BSIZE + o + Z.of_nat (length bytes))
                  then bytes !!! Z.to_nat (i - (bn * BSIZE + o)) else fbyte V di i.
Proof.
  intros Hf [Hw _] Hbn Hz Ho Hlen Hi V'. pose proof (block_ix i Hi) as Hk. set (a := slot V di bn) in *.
  assert (Hai : a <> indirect di).
  { unfold a. rewrite <- (slot_indirect V di). intros E. apply (fi_inj SB V di Hf) in E; [lia|unfold slot_ix; lia|done|done]. }
  assert (Hs : forall k, slot V' di k = slot V di k).
  { intros k. unfold slot. fold (indirect di). destruct (k <? NDIRECT); [done|]. destruct (k <? MAXFILE); [|done].
    destruct (indirect di =? 0); [done|]. unfold V', upd. by rewrite decide_False. }
  split; [done|]. unfold fbyte at 1. rewrite Hs.
  destruct (decide (i / BSIZE = bn)) as [E|E].
  - rewrite E. fold a. rewrite (proj2 (Z.eqb_neq _ _)) by done. unfold V', upd at 1. rewrite decide_True by done.
    assert (El : splice (V a) (Z.to_nat o) bytes !!! Z.to_nat (i mod BSIZE) =
      if decide (bn * BSIZE + o <= i < bn * BSIZE + o + Z.of_nat (length bytes))
      then bytes !!! Z.to_nat (i - (bn * BSIZE + o)) else V a !!! Z.to_nat (i mod BSIZE)).
    { rewrite !list_lookup_total_alt, lookup_splice by (rewrite Hw; unfold BSIZE in *; lia). unfold BSIZE in *.
      repeat case_decide; try lia; try done. do 2 f_equal. lia. }
    rewrite El. case_decide; [done|]. unfold fbyte. rewrite E. fold a. by rewrite (proj2 (Z.eqb_neq _ _)).
  - rewrite decide_False by (unfold BSIZE in *; lia). unfold fbyte. destruct (Z.eqb_spec (slot V di (i / BSIZE)) 0); [done|].
    unfold V', upd. rewrite decide_False; [done|]. unfold a. intros Es.
    apply (fi_inj SB V di Hf) in Es; [done|unfold slot_ix; lia|unfold slot_ix; lia|done].
Qed.

(** ** The effect of a write *)

Record wpost V di V' di' (off : Z) (bytes : list Z) (k : nat) : Prop := mkwpost {
  wp_file : file_ok SB V' di';
  wp_meta : exists l, di' = mkdinode (d_type di) (d_major di) (d_minor di) (d_nlink di) (d_size di) l;
  wp_bytes : forall i, 0 <= i < FMAX -> fbyte V' di' i =
    if decide (off <= i < off + Z.of_nat (length bytes)) then bytes !!! Z.to_nat (i - off) else fbyte V di i;
  wp_slots : forall j, slot_ix j -> slot V' di' j = slot V di j \/
    slot V di j = 0 /\ (slot V' di' j <> 0 -> used SB V (slot V' di' j) = false);
  wp_mapped : forall i, 0 <= i < FMAX -> off <= i < off + Z.of_nat (length bytes) -> slot V' di' (i / BSIZE) <> 0;
  wp_layout : layout_ok SB V';
  wp_used : forall b, in_disk SB b -> used SB V b = true -> used SB V' b = true;
  wp_other : forall m, plain SB m -> used SB V m = true -> (forall j, slot_ix j -> slot V di j <> m) -> V' m = V m;
  wp_free : (nfree SB V <= nfree SB V' + k)%nat
}.

Lemma wpost_nil V di off : layout_ok SB V -> file_ok SB V di -> wpost V di V di off [] 0.
Proof.
  intros Hl Hf. split; try done; try lia.
  - exists (d_addrs di). by destruct di.
  - intros i Hi. rewrite decide_False by (cbn; lia). done.
  - intros i _ Hi. cbn in Hi. lia.
Qed.

Lemma wpost_trans V di V1 di1 V2 di2 off b1 b2 k1 k2 :
  wpost V di V1 di1 off b1 k1 -> wpost V1 di1 V2 di2 (off + Z.of_nat (length b1)) b2 k2 ->
  wpost V di V2 di2 off (b1 ++ b2) (k1 + k2).
Proof.
  intros [A1 [l1 A2] A3 A4 A5 A6 A7 A8 A9] [C1 [l2 C2] C3 C4 C5 C6 C7 C8 C9]. split; try done; try lia.
  - exists l2. by subst.
  - intros i Hi. rewrite C3, A3, length_app by done. repeat case_decide; try lia; try done.
    + rewrite lookup_total_app_r by lia. f_equal. lia.
    + by rewrite lookup_total_app_l by lia.
  - intros j Hj. destruct (A4 j Hj) as [E|[E Hu]], (C4 j Hj) as [E'|[E' Hu']].
    + left. congruence.
    + right. split; [congruence|]. intros Hnz. specialize (Hu' Hnz).
      destruct (used SB V (slot V2 di2 j)) eqn:Eu; [|done]. rewrite A7 in Hu'; [done| |done].
      by destruct (fi_data SB V2 di2 C1 j Hj Hnz) as ((? & _) & _).
    + right. split; [done|]. rewrite E'. done.
    + right. split; [done|]. intros Hnz. specialize (Hu' Hnz).
      destruct (used SB V (slot V2 di2 j)) eqn:Eu; [|done]. rewrite A7 in Hu'; [done| |done].
      by destruct (fi_data SB V2 di2 C1 j Hj Hnz) as ((? & _) & _).
  - intros i Hr Hi. rewrite length_app in Hi. pose proof (block_ix i Hr) as Hk.
    destruct (decide (i < off + Z.of_nat (length b1))) as [Hlt|Hge]; [|apply C5; [done|lia]].
    pose proof (A5 i Hr ltac:(lia)) as Hnz. destruct (C4 (i / BSIZE)) as [->|[E _]]; [unfold slot_ix; lia|done|done].
  - auto.
  - intros m Hp Hu Hm. rewrite C8; [by apply A8|done|apply A7; [apply Hp|done]|].
    intros j Hj. destruct (A4 j Hj) as [->|[E Hu']]; [by apply Hm|]. intros <-.
    destruct (decide (slot V1 di1 j = 0)) as [Hz|Hz]; [by apply (Hm j Hj); rewrite Hz|]. specialize (Hu' Hz). congruence.
Qed.
End File.
