(* ===== verification/FsWrite.v ===== *)
(** [writei] and [iupdate]: a write replaces exactly the bytes it is given,
    extends the file if needed, keeps every other file, and stores the inode. *)

From S2P Require Import Prelude Sleeplock Bio BioCst Bytes Blk Fs FsIo FsBlock FsMap FsFile.

Section Write.
Context {B : Type} {ops : BlockOps B} {geo : BlockGeom} {D : Z} {laws : BlockLaws B D}.
Context (SB : superblock).
Implicit Types (V : Z -> block) (di : dinode).

Lemma splice_wf d o bytes :
  wf_block d -> Forall is_byte bytes -> (o + length bytes <= Z.to_nat BSIZE)%nat -> wf_block (splice d o bytes).
Proof. intros [H1 H2] Hb Ho. split; [rewrite length_splice; lia|by apply splice_byte]. Qed.

(** One turn of the loop. *)
Lemma write_turn V di V1 di1 bn a o bytes :
  (forall m, wf_block (V1 m)) -> file_ok SB V di -> bmap_post SB V di V1 di1 bn a -> 0 <= bn < MAXFILE -> 0 <= o ->
  o + Z.of_nat (length bytes) <= BSIZE ->
  wpost SB V di (upd V1 a (splice (V1 a) (Z.to_nat o) bytes)) di1 (bn * BSIZE + o) bytes 2.
Proof.
  intros Hw Hf HP Hbn Ho Hl. pose proof HP as [P1 P2 P3 P4 P5 P6 P7 P7' P8 P9]. subst a.
  destruct P3 as (D1 & D2 & D3 & D4 & D5). set (V2 := upd V1 _ _).
  assert (Hix : slot_ix bn) by (unfold slot_ix; lia).
  assert (Hg : grow SB V1 V2 [slot V1 di1 bn] 0) by (apply grow_upd; [apply P6|done]).
  pose proof (fun i => store_bytes SB V1 di1 bn o bytes i P1 (Hw _) Hbn D4 Ho Hl) as Hst. fold V2 in Hst.
  assert (Hs : forall k, slot V2 di1 k = slot V1 di1 k) by (apply (Hst 0); unfold FMAX, MAXFILE, NDIRECT, NINDIRECT, BSIZE; cbn; lia).
  assert (Hi : slot V1 di1 bn <> indirect di1).
  { rewrite <- (slot_indirect V1 di1). intros E. apply (fi_inj SB V1 di1 P1) in E; [lia|done|done|done]. }
  split.
  - eapply file_grow; [exact Hg|done|]. intros _ E%list_elem_of_singleton. congruence.
  - done.
  - intros i Hi'. destruct (Hst i Hi') as [_ ->]. by rewrite (bmap_bytes SB V di V1 di1 bn (slot V1 di1 bn) i).
  - intros j Hj. rewrite Hs. destruct (decide (j = bn)) as [->|Hne].
    + destruct (decide (slot V di bn = 0)) as [Hz|Hz]; [right|left; by apply P8].
      split; [done|]. intros _. by apply P9.
    + destruct (decide (j < MAXFILE)) as [Hlt|Hge]; [left; apply P4; [unfold slot_ix in Hj; lia|done]|].
      assert (j = MAXFILE) as -> by (unfold slot_ix in Hj; lia). rewrite !slot_indirect.
      destruct (decide (indirect di = 0)) as [Hz|Hz]; [right|left; by apply P7]. split; [done|]. by apply P7'.
  - intros i Hr Hi'. rewrite Hs. assert (i / BSIZE = bn) as -> by (unfold BSIZE in *; lia). done.
  - apply Hg.
  - intros b Hb Hu. apply Hg; [done|]. by apply P6.
  - intros m Hp Hu Hm.
    assert (Hmi : m <> indirect di1).
    { intros ->. destruct (decide (indirect di = 0)) as [Hz|Hz].
      - destruct (decide (indirect di1 = 0)) as [Hz'|Hz']; [apply (Hm MAXFILE); [done|]; rewrite slot_indirect; congruence|].
        rewrite P7' in Hu by done. done.
      - rewrite (P7 Hz) in *. by apply (Hm MAXFILE). }
    assert (Hma : m <> slot V1 di1 bn).
    { intros ->. destruct (decide (slot V di bn = 0)) as [Hz|Hz].
      - destruct (P9 Hz) as [_ Hu']. congruence.
      - destruct (P8 Hz) as [E _]. by apply (Hm bn). }
    unfold V2, upd. rewrite decide_False by done. apply (gr_same _ _ _ _ _ P6); [done|done|].
    by intros ?%list_elem_of_singleton.
  - pose proof (gr_free _ _ _ _ _ P6). pose proof (gr_free _ _ _ _ _ Hg). lia.
Qed.

(** A source that delivers [data] and leaves the file system alone. *)
Definition source_ok (copyin : Z -> Z -> M (fs B) (Z * list Z)) (data : list Z) : Prop :=
  forall f V L H tot m, fblk f V L H -> 0 <= tot -> 0 <= m -> tot + m <= Z.of_nat (length data) ->
  exists f', copyin tot m f = Ok ((0, sub data (Z.to_nat tot) (Z.to_nat m)), f') /\ fblk f' V L H /\ fsame f f'.

Lemma from_kernel_ok data : source_ok (from_kernel data) data.
Proof. intros f V L H tot m Hb _ _ _. by exists f. Qed.

(** A file that can be written; no buffer is held. *)
Record writeable f V L (ip : nat) x : Prop := mkwriteable {
  wr_blk : fblk f V L []; wr_sb : sb f = SB; wr_layout : layout_ok SB V;
  wr_ino : icache f !! ip = Some x; wr_dev : i_dev x = D; wr_file : file_ok SB V (i_d x)
}.

Lemma sub_sub_app data a m n :
  (a + m <= length data)%nat -> (m <= n)%nat -> sub data a m ++ sub data (a + m) (n - m) = sub data a n.
Proof.
  intros H1 H2. unfold sub. rewrite <- (take_drop m (take n (drop a data))). f_equal.
  - rewrite take_take. f_equal. lia.
  - rewrite skipn_firstn_comm, drop_drop. done.
Qed.

(** One turn of [writei]'s loop. *)
Lemma turn_run copyin data f V L ip x tot off m :
  source_ok copyin data -> Forall is_byte data -> writeable f V L ip x -> 0 <= tot -> 0 < m -> tot + m <= Z.of_nat (length data) ->
  0 <= off < FMAX -> off mod BSIZE + m <= BSIZE -> (2 <= nfree SB V)%nat ->
  (length L + 6 <= log_cap)%nat -> (length L + 6 < NBUF)%nat ->
  exists f' V' L' di', (forall A (e : nat -> M (fs B) A) k,
      (a <- bmap ip (off / BSIZE) ;; bp <- blkop (b_read D a) ;; d <- bdata_of bp ;; r <- copyin tot m ;;
       blkop (b_store bp (splice d (Z.to_nat (off mod BSIZE)) r.2)) ;;;
       if r.1 =? -1 then e bp else blkop (b_log bp) ;;; blkop (b_release bp) ;;; k) f = k f') /\
    writeable f' V' L' ip (set_d di' x) /\ isame f f' ip (set_d di' x) /\ (length L' <= length L + 6)%nat /\
    wpost SB V (i_d x) V' di' off (sub data (Z.to_nat tot) (Z.to_nat m)) 2.
Proof.
  intros Hsrc Hby [Hb HS Hl Hx HD Hf] Ht Hm Htm Ho Hom Hfree Hc Hr.
  set (bn := off / BSIZE). assert (Hbn : 0 <= bn < MAXFILE) by (by apply block_ix).
  destruct (bmap_ok SB f V L [] ip x bn) as (a & f1 & V1 & L1 & di1 & E1 & Hb1 & I1 & HL1 & _ & HP); try done; try lia.
  { intros n Hn. by apply elem_of_nil in Hn. } { apply not_elem_of_nil. } { cbn. lia. }
  destruct (read_run f1 V1 L1 [] a Hb1) as (bp & f2 & E2 & Hb2 & Hbp & S2); [apply not_elem_of_nil|right; cbn; lia|].
  destruct (Hsrc f2 V1 L1 _ tot m Hb2) as (f3 & E3 & Hb3 & S3); [lia..|].
  set (bytes := sub data (Z.to_nat tot) (Z.to_nat m)) in *.
  assert (Hlen : length bytes = Z.to_nat m) by (apply length_sub; lia).
  assert (Ho' : 0 <= off mod BSIZE) by (unfold BSIZE; lia).
  pose proof (bm_data _ _ _ _ _ _ _ HP) as Hda.
  destruct (store_log_run f3 V1 L1 _ bp a (splice (V1 a) (Z.to_nat (off mod BSIZE)) bytes) Hb3) as (f4 & E4 & Hb4 & S4);
    [set_solver|apply Hda|apply splice_wf; [by eapply fblk_wf|by apply sub_byte|lia]|lia|].
  destruct (release_top f4 _ _ [] bp _ Hb4 Hbp) as (f5 & E5 & _ & Hb5 & S5).
  assert (HW : wpost SB V (i_d x) (upd V1 a (splice (V1 a) (Z.to_nat (off mod BSIZE)) bytes)) di1 off bytes 2).
  { assert (Eo : off = bn * BSIZE + off mod BSIZE) by (unfold bn, BSIZE; lia). rewrite Eo at 2.
    apply write_turn; [intros; by eapply fblk_wf|done|done|done|done|lia]. }
  assert (HI : isame f f5 ip (set_d di1 x)) by (by do 4 (eapply isame_fsame; [|done])).
  eexists f5, _, _, di1. split; [|split; [|split; [done|split; [|exact HW]]]].
  - intros A e k. rewrite (bind_ok _ _ _ _ _ E1), E2, (data_run f2 V1 L1 _ bp a Hb2) by set_solver.
    rewrite (bind_ok _ _ _ _ _ E3). cbn [fst snd Z.eqb]. by rewrite E4, E5.
  - split; [exact Hb5|by destruct HI as (_ & -> & _)|apply HW|by eapply isame_lookup|done|apply HW].
  - etransitivity; [apply length_add|]. lia.
Qed.

Lemma set_d_twice d d' x : set_d d (set_d d' x) = set_d d x.
Proof. done. Qed.

Lemma writei_loop_ok copyin data ip n :
  source_ok copyin data -> Forall is_byte data -> n = Z.of_nat (length data) ->
  forall fuel f V L x tot off (T : nat),
  writeable f V L ip x -> 0 <= tot <= n -> 0 <= off -> off + (n - tot) <= FMAX ->
  turns_left off (n - tot) < Z.of_nat fuel -> turns_left off (n - tot) <= Z.of_nat T ->
  (length L + 6 * T <= log_cap)%nat -> (length L + 6 * T < NBUF)%nat -> (2 * T <= nfree SB V)%nat ->
  exists f' V' L' di', writei_loop fuel copyin ip n tot off f = Ok ((n, off + (n - tot)), f') /\
    writeable f' V' L' ip (set_d di' x) /\ isame f f' ip (set_d di' x) /\ (length L' <= length L + 6 * T)%nat /\
    wpost SB V (i_d x) V' di' off (sub data (Z.to_nat tot) (Z.to_nat (n - tot))) (2 * T).
Proof.
  intros Hsrc Hby Hn. induction fuel as [|fuel IH]; intros f V L x tot off T HW Ht Ho Hmax Hfu HT Hc Hr Hfree.
  { pose proof (turns_left_pos off (n - tot) Ho). lia. }
  cbn [writei_loop]. pose proof HW as [Hb HS Hl Hx HD Hf]. destruct (Z.ltb_spec tot n) as [E|E].
  2: { assert (tot = n) as -> by lia. rewrite Z.sub_diag, Z.add_0_r. exists f, V, L, (i_d x). split; [done|].
       rewrite set_d_id. split; [done|]. split; [by apply isame_id|]. split; [lia|].
       pose proof (wpost_nil SB V (i_d x) off Hl Hf) as []. split; try done. cbn in *. lia. }
  erewrite bind_ok by reflexivity. rewrite (list_lookup_total_correct _ _ _ Hx), HD. cbn zeta.
  set (m := Z.min (n - tot) (BSIZE - off mod BSIZE)).
  assert (Hm : 0 < m /\ off mod BSIZE + m <= BSIZE /\ m <= n - tot) by (unfold m, BSIZE in *; lia).
  assert (HT1 : (1 <= T)%nat).
  { unfold turns_left, BSIZE in HT. rewrite (proj2 (Z.ltb_lt _ _)) in HT by lia. lia. }
  destruct (turn_run copyin data f V L ip x tot off m) as (f1 & V1 & L1 & di1 & E1 & HW1 & I1 & HL1 & HP1); try done; try lia.
  rewrite E1. clear E1.
  pose proof (turns_left_next off (n - tot) Ho ltac:(lia)) as Hnx. cbn zeta in Hnx. fold m in Hnx.
  replace (n - tot - m) with (n - (tot + m)) in Hnx by lia.
  pose proof (wp_free _ _ _ _ _ _ _ _ HP1) as Hfr.
  destruct (IH f1 V1 L1 (set_d di1 x) (tot + m) (off + m) (T - 1)%nat HW1) as (f2 & V2 & L2 & di2 & E2 & HW2 & I2 & HL2 & HP2);
    try lia.
  rewrite set_d_twice in *. exists f2, V2, L2, di2. split; [rewrite E2; do 3 f_equal; lia|]. split; [done|].
  split; [by eapply isame_trans|]. split; [lia|].
  assert (Hl1 : length (sub data (Z.to_nat tot) (Z.to_nat m)) = Z.to_nat m) by (apply length_sub; lia).
  rewrite <- (sub_sub_app data (Z.to_nat tot) (Z.to_nat m)) by lia.
  replace (2 * T)%nat with (2 + 2 * (T - 1))%nat by lia. eapply wpost_trans; [exact HP1|]. rewrite Hl1.
  replace (off + Z.of_nat (Z.to_nat m)) with (off + m) by lia.
  replace (Z.to_nat tot + Z.to_nat m)%nat with (Z.to_nat (tot + m)) by lia.
  replace (Z.to_nat (n - tot) - Z.to_nat m)%nat with (Z.to_nat (n - (tot + m))) by lia. exact HP2.
Qed.

(** ** iupdate *)

Definition disk_inode V (inum : Z) : dinode := read_dinode (V (IBLOCK inum SB)) (dinode_off inum).

Definition iupdate_view V (inum : Z) di : Z -> block :=
  upd V (IBLOCK inum SB) (write_dinode (V (IBLOCK inum SB)) (dinode_off inum) di).

Lemma disk_inode_update V inum di j :
  (forall m, wf_block (V m)) -> dinode_ok di -> 0 <= inum -> 0 <= j ->
  disk_inode (iupdate_view V inum di) j = if decide (j = inum) then di else disk_inode V j.
Proof.
  intros Hw Hd Hi Hj. unfold disk_inode, iupdate_view, upd. pose proof (dinode_off_range inum) as Ho.
  destruct (Hw (IBLOCK inum SB)) as [Hl _].
  destruct (decide (j = inum)) as [->|Hne].
  - rewrite decide_True by done. apply read_write_dinode; [done|lia].
  - case_decide as E; [|done]. rewrite E.
    rewrite read_write_dinode_ne; [done|apply Hd|lia|]. by apply (dinode_off_apart SB).
Qed.

Lemma iupdate_ok f V L ip x :
  fblk f V L [] -> sb f = SB -> layout_ok SB V -> icache f !! ip = Some x -> i_dev x = D -> dinode_ok (i_d x) ->
  valid_inum SB (i_inum x) -> (length L < log_cap)%nat -> (length L < NBUF)%nat ->
  exists f', iupdate ip f = Ok (tt, f') /\ fblk f' (iupdate_view V (i_inum x) (i_d x)) (add (IBLOCK (i_inum x) SB) L) [] /\
    fsame f f'.
Proof.
  intros Hb HS Hl Hx HD Hd Hi Hc Hr. unfold iupdate. erewrite bind_ok by reflexivity.
  rewrite (list_lookup_total_correct _ _ _ Hx). erewrite bind_ok by reflexivity. rewrite HS, HD.
  destruct (ly_inode SB V Hl _ Hi) as ((Hp & _) & Hw & _). pose proof (ao_size SB V (ly_alloc SB V Hl)) as Hsz.
  rewrite u32_small by (destruct Hp; lia).
  destruct (update_run f V L [] (IBLOCK (i_inum x) SB) (fun d => write_dinode d (dinode_off (i_inum x)) (i_d x)) Hb)
    as (f' & _ & E & Hb' & S'); [apply not_elem_of_nil|right; cbn; lia|done|done| |].
  { apply write_dinode_wf; [by eapply fblk_wf|apply Hd|apply dinode_off_range]. }
  by exists f'.
Qed.

(** Storing an inode leaves every file's contents alone. *)
Lemma iupdate_file V inum di di' :
  (forall m, wf_block (V m)) -> layout_ok SB V -> valid_inum SB inum -> file_ok SB V di' ->
  let V' := iupdate_view V inum di in
  grow SB V V' [IBLOCK inum SB] 0 /\ file_ok SB V' di' /\ (forall k, slot V' di' k = slot V di' k) /\
  (forall i, 0 <= i < FMAX -> fbyte V' di' i = fbyte V di' i).
Proof.
  intros Hw Hl Hi Hf V'. destruct (ly_inode SB V Hl _ Hi) as (Hp & _).
  assert (Hg : grow SB V V' [IBLOCK inum SB] 0) by (by apply grow_upd).
  assert (Hne : forall k, slot_ix k -> slot V di' k <> 0 -> slot V di' k ∉ [IBLOCK inum SB]).
  { intros k Hk Hz E%list_elem_of_singleton. destruct (fi_data SB V di' Hf k Hk Hz) as (_ & _ & _ & _ & Hd). by apply (Hd inum). }
  assert (HI : indirect di' <> 0 -> indirect di' ∉ [IBLOCK inum SB]).
  { intros Hz. rewrite <- (slot_indirect V di') in *. by apply Hne. }
  assert (Hs : forall k, slot V' di' k = slot V di' k) by (intros; by eapply slot_grow).
  split; [done|]. split; [by eapply file_grow|]. split; [done|]. intros i Hr. pose proof (block_ix i Hr).
  assert (Hk : slot_ix (i / BSIZE)) by (unfold slot_ix; lia).
  apply fbyte_ext; [done|]. intros Hz. destruct (fi_data SB V di' Hf _ Hk Hz) as (D1 & D2 & _).
  apply (gr_same _ _ _ _ _ Hg); [done|done|by apply Hne].
Qed.

(** ** writei *)

Lemma fbyte_addrs V di di' i : d_addrs di' = d_addrs di -> fbyte V di' i = fbyte V di i.
Proof. intros E. unfold fbyte, slot. by rewrite E. Qed.

Lemma slot_addrs V di di' k : d_addrs di' = d_addrs di -> slot V di' k = slot V di k.
Proof. intros E. unfold slot. by rewrite E. Qed.

Lemma with_size_file V di n : file_ok SB V di -> 0 <= n < 2 ^ 32 -> file_ok SB V (with_size n di).
Proof. intros [[] F2 F3] Hn. split; [by split|done|done]. Qed.

(** What a successful write leaves. *)
Record write_post V x V' di' (off : Z) (data : list Z) (k : nat) : Prop := mkwrite_post {
  wq_file : file_ok SB V' di';
  wq_size : d_size di' = Z.max (d_size (i_d x)) (off + Z.of_nat (length data));
  wq_meta : d_type di' = d_type (i_d x) /\ d_major di' = d_major (i_d x) /\ d_minor di' = d_minor (i_d x) /\ d_nlink di' = d_nlink (i_d x);
  wq_bytes : forall i, 0 <= i < FMAX -> fbyte V' di' i =
    if decide (off <= i < off + Z.of_nat (length data)) then data !!! Z.to_nat (i - off) else fbyte V (i_d x) i;
  wq_mapped : mapped V (i_d x) -> mapped V' di';
  wq_slots : forall j, slot_ix j -> slot V' di' j = slot V (i_d x) j \/
    slot V (i_d x) j = 0 /\ (slot V' di' j <> 0 -> used SB V (slot V' di' j) = false);
  wq_free : (nfree SB V <= nfree SB V' + k)%nat;
  wq_layout : layout_ok SB V';
  wq_inode : disk_inode V' (i_inum x) = di';
  wq_inodes : forall j, valid_inum SB j -> j <> i_inum x -> disk_inode V' j = disk_inode V j;
  wq_used : forall b, in_disk SB b -> used SB V b = true -> used SB V' b = true;
  wq_other : forall m, plain SB m -> writable m -> used SB V m = true -> (forall j, slot_ix j -> slot V (i_d x) j <> m) ->
    m <> IBLOCK (i_inum x) SB -> V' m = V m
}.

Lemma iblock_no_slot V di j k : layout_ok SB V -> file_ok SB V di -> valid_inum SB j -> slot_ix k ->
  slot V di k <> IBLOCK j SB.
Proof.
  intros Hl Hf Hj Hk. destruct (decide (slot V di k = 0)) as [->|Hz].
  - pose proof (ly_istart SB V Hl). unfold IBLOCK, valid_inum in *. change IPB with 16. lia.
  - destruct (fi_data SB V di Hf k Hk Hz) as (_ & _ & _ & _ & Hd). by apply Hd.
Qed.

Lemma wpost_inode V di V' di' off bytes k j :
  wpost SB V di V' di' off bytes k -> layout_ok SB V -> file_ok SB V di -> valid_inum SB j ->
  disk_inode V' j = disk_inode V j.
Proof.
  intros HP Hl Hf Hj. destruct (ly_inode SB V Hl j Hj) as (Hp & _ & Hu). unfold disk_inode. f_equal.
  apply (wp_other _ _ _ _ _ _ _ _ HP); [done|done|]. intros k' Hk'. by apply iblock_no_slot.
Qed.

Definition resize (e : Z) di : dinode := if d_size di <? e then with_size e di else di.

Lemma resize_size e di : d_size (resize e di) = Z.max (d_size di) e.
Proof. unfold resize. destruct (Z.ltb_spec (d_size di) e); cbn; lia. Qed.

Lemma resize_addrs e di : d_addrs (resize e di) = d_addrs di.
Proof. unfold resize. by destruct (_ <? _). Qed.

Lemma resize_meta e di : d_type (resize e di) = d_type di /\ d_major (resize e di) = d_major di /\
  d_minor (resize e di) = d_minor di /\ d_nlink (resize e di) = d_nlink di.
Proof. unfold resize. by destruct (_ <? _). Qed.

Lemma resize_file V e di : file_ok SB V di -> 0 <= e < 2 ^ 32 -> file_ok SB V (resize e di).
Proof. intros. unfold resize. destruct (_ <? _); [by apply with_size_file|done]. Qed.

(** Blocks stay mapped up to the new size. *)
Lemma wpost_mapped V di V' di' off data k :
  wpost SB V di V' di' off data k -> mapped V di -> 0 <= off <= d_size di -> d_size di <= FMAX ->
  off + Z.of_nat (length data) <= FMAX -> forall bn, 0 <= bn ->
  bn * BSIZE < Z.max (d_size di) (off + Z.of_nat (length data)) -> slot V' di' bn <> 0.
Proof.
  intros HP Hm Ho Hsz He bn Hb Hlt.
  assert (Hr : 0 <= bn * BSIZE < FMAX) by (unfold BSIZE in *; lia).
  assert (Hk : slot_ix bn).
  { pose proof (block_ix _ Hr) as Hx. rewrite Z.div_mul in Hx by done. unfold slot_ix. lia. }
  destruct (decide (bn * BSIZE < d_size di)) as [Hin|Hout].
  - pose proof (Hm bn Hb Hin) as Hz. destruct (wp_slots _ _ _ _ _ _ _ _ HP bn Hk) as [->|[]]; done.
  - pose proof (wp_mapped _ _ _ _ _ _ _ _ HP (bn * BSIZE) Hr) as HW. rewrite Z.div_mul in HW by done. apply HW. lia.
Qed.

Lemma write_post_intro V0 x V di off data k :
  let e := off + Z.of_nat (length data) in let di' := resize e di in
  wpost SB V0 (i_d x) V di off data k -> (forall m, wf_block (V m)) -> layout_ok SB V0 -> file_ok SB V0 (i_d x) ->
  valid_inum SB (i_inum x) -> 0 <= off <= d_size (i_d x) -> d_size (i_d x) <= FMAX -> e <= FMAX ->
  write_post V0 x (iupdate_view V (i_inum x) di') di' off data k.
Proof.
  intros e di' HP Hw Hl0 Hf0 Hi Ho Hsz He.
  pose proof HP as [P1 (l & Em) P3 P4 P5 P6 P7 P8 P9].
  assert (Hs : d_size di = d_size (i_d x)) by by rewrite Em.
  assert (Hf' : file_ok SB V di') by (apply resize_file; [done|change FMAX with 274432 in *; lia]).
  destruct (iupdate_file V (i_inum x) di' di' Hw P6 Hi Hf') as (Hg & Hf2 & Hsl & Hb).
  pose proof (resize_addrs e di : d_addrs di' = _) as Ha.
  split; [done| | | | | | | | | | |].
  - unfold di'. by rewrite resize_size, Hs.
  - destruct (resize_meta e di : _ di' = _ /\ _ di' = _ /\ _ di' = _ /\ _ di' = _) as (-> & -> & -> & ->). by rewrite Em.
  - intros i Hr. rewrite Hb by done. rewrite (fbyte_addrs V di di') by done. by apply P3.
  - intros Hm bn H0 Hlt. rewrite Hsl, (slot_addrs V di di') by done. unfold di' in Hlt. rewrite resize_size, Hs in Hlt.
    by eapply (wpost_mapped V0 (i_d x)).
  - intros j Hj. rewrite Hsl, (slot_addrs V di di') by done. by apply P4.
  - pose proof (gr_free _ _ _ _ _ Hg). lia.
  - apply (gr_layout _ _ _ _ _ Hg).
  - unfold valid_inum in Hi. rewrite disk_inode_update by (try done; try lia; apply Hf'). by rewrite decide_True.
  - intros j Hj Hne. unfold valid_inum in Hi, Hj. rewrite disk_inode_update by (try done; try lia; apply Hf').
    rewrite decide_False by done. by eapply wpost_inode.
  - intros b Hb' Hu. apply (gr_used _ _ _ _ _ Hg); auto.
  - intros m Hp _ Hu Hne Hmi. unfold iupdate_view, upd. rewrite decide_False by done. by apply P8.
Qed.

(** The tail of [writei]: the new size and the inode go to the disk. *)
Lemma write_done f V L ip x e :
  writeable f V L ip x -> valid_inum SB (i_inum x) -> 0 <= e < 2 ^ 32 -> (length L < log_cap)%nat -> (length L < NBUF)%nat ->
  exists f', (x <- iat ip ;; (if d_size (i_d x) <? e then upd_d ip (with_size e) else ret tt) ;;; iupdate ip) f = Ok (tt, f') /\
    fblk f' (iupdate_view V (i_inum x) (resize e (i_d x))) (add (IBLOCK (i_inum x) SB) L) [] /\
    isame f f' ip (set_d (resize e (i_d x)) x).
Proof.
  intros [Hb HS Hl Hx HD Hf] Hi He Hc Hr. erewrite bind_ok by reflexivity. rewrite (list_lookup_total_correct _ _ _ Hx).
  assert (Ef : exists f1, (if d_size (i_d x) <? e then upd_d ip (with_size e) else ret tt) f = Ok (tt, f1) /\
    fblk f1 V L [] /\ isame f f1 ip (set_d (resize e (i_d x)) x)).
  { unfold resize. destruct (d_size (i_d x) <? e).
    - destruct (upd_d_run f ip x (with_size e) Hx) as (f1 & _ & E & I & F). exists f1. split; [done|]. split; [|done].
      unfold fblk in *. by rewrite F.
    - exists f. split; [done|]. split; [done|]. rewrite set_d_id. by apply isame_id. }
  destruct Ef as (f1 & E1 & Hb1 & I1). rewrite (bind_ok _ _ _ _ _ E1).
  destruct (iupdate_ok f1 V L ip (set_d (resize e (i_d x)) x)) as (f2 & E2 & Hb2 & S2); try done.
  - destruct I1 as (_ & -> & _). done.
  - by eapply isame_lookup.
  - by apply (resize_file V).
  - exists f2. split; [done|]. split; [done|]. by eapply isame_fsame.
Qed.

Lemma writei_refuses copyin f ip x off n :
  icache f !! ip = Some x -> 0 <= off < 2 ^ 32 -> 0 <= n < 2 ^ 32 -> 0 <= d_size (i_d x) < 2 ^ 32 ->
  d_size (i_d x) < off \/ FMAX < off + n -> writei copyin ip off n f = Ok (-1, f).
Proof.
  intros Hx Ho Hn Hs Hbad. unfold writei. erewrite bind_ok by reflexivity. rewrite (list_lookup_total_correct _ _ _ Hx).
  destruct (Z.ltb_spec (d_size (i_d x)) off) as [H1|H1]; [done|]. cbn [orb]. fold FMAX.
  unfold u32. change (2 ^ 32) with 4294967296 in *.
  destruct (Z.ltb_spec ((off + n) mod 4294967296) off) as [H2|H2]; [done|].
  rewrite (proj2 (Z.ltb_lt _ _)); [done|]. lia.
Qed.

Lemma writei_ok copyin data f V L ip x off n (T : nat) :
  writeable f V L ip x -> valid_inum SB (i_inum x) -> source_ok copyin data -> Forall is_byte data ->
  n = Z.of_nat (length data) -> 0 < n -> 0 <= off <= d_size (i_d x) -> d_size (i_d x) <= FMAX -> off + n <= FMAX ->
  turns_left off n <= Z.of_nat T -> (length L + 6 * T < log_cap)%nat -> (length L + 6 * T < NBUF)%nat -> (2 * T <= nfree SB V)%nat ->
  exists f' V' L' di', writei copyin ip off n f = Ok (n, f') /\
    writeable f' V' L' ip (set_d di' x) /\ isame f f' ip (set_d di' x) /\ (length L' <= length L + 6 * T + 1)%nat /\
    IBLOCK (i_inum x) SB ∈ L' /\ write_post V x V' di' off data (2 * T).
Proof.
  intros HW Hi Hsrc Hby Hn Hn0 Ho Hsz He HT Hc Hr Hfree. pose proof HW as [Hb HS Hl Hx HD Hf]. unfold writei.
  erewrite bind_ok by reflexivity. rewrite (list_lookup_total_correct _ _ _ Hx). fold FMAX.
  assert (EF : FMAX = 274432) by done. rewrite u32_small by lia. rewrite !(proj2 (Z.ltb_ge _ _)) by lia. cbn [orb].
  destruct (writei_loop_ok copyin data ip n Hsrc Hby Hn (Datatypes.S (Datatypes.S (Datatypes.S (Z.to_nat (n / BSIZE)))))
    f V L x 0 off T) as (f1 & V1 & L1 & di1 & E1 & HW1 & I1 & HL1 & HP); try done; try lia.
  { rewrite Z.sub_0_r. apply turns_left_start; lia. }
  { by rewrite Z.sub_0_r. }
  rewrite (bind_ok _ _ _ _ _ E1). cbn [fst snd]. rewrite (proj2 (Z.ltb_lt _ _)) by lia. rewrite Z.sub_0_r in *.
  assert (Esub : sub data (Z.to_nat 0) (Z.to_nat n) = data).
  { unfold sub. rewrite drop_0. apply take_ge. lia. }
  rewrite Esub in HP.
  destruct (write_done f1 V1 L1 ip (set_d di1 x) (off + n) HW1) as (f2 & E2 & Hb2 & I2); try done; try lia.
  rewrite (bind_ok _ _ _ _ _ E2). cbn [i_d i_inum set_d] in *. rewrite s32_small by lia.
  pose proof (write_post_intro V x V1 di1 off data (2 * T) HP) as HQ. rewrite <- Hn in HQ. specialize (HQ ltac:(intros; by eapply fblk_wf, HW1)).
  specialize (HQ Hl Hf Hi Ho Hsz He). exists f2, (iupdate_view V1 (i_inum x) (resize (off + n) di1)), (add (IBLOCK (i_inum x) SB) L1), (resize (off + n) di1).
  split; [done|]. assert (I : isame f f2 ip (set_d (resize (off + n) di1) x)) by by eapply isame_trans.
  split; [|split; [done|split; [|split; [apply elem_of_add; by left|done]]]].
  - split; [done|by destruct I as (_ & -> & _)|apply HQ|by eapply isame_lookup|done|apply HQ].
  - pose proof (length_add (IBLOCK (i_inum x) SB) L1). lia.
Qed.

(** Two writes, one right after the other. *)
Lemma write_post_trans V x V1 di1 V2 di2 off d1 d2 k1 k2 :
  write_post V x V1 di1 off d1 k1 -> write_post V1 (set_d di1 x) V2 di2 (off + Z.of_nat (length d1)) d2 k2 ->
  write_post V x V2 di2 off (d1 ++ d2) (k1 + k2).
Proof.
  intros [P1 P2 (P3a & P3b & P3c & P3d) P4 P5 P6 P7 P8 P9 P10 P11 P12] [Q1 Q2 Q3 Q4 Q5 Q6 Q7 Q8 Q9 Q10 Q11 Q12]. cbn [i_d i_inum set_d] in *. split.
  - done.
  - rewrite Q2, P2, length_app. lia.
  - destruct Q3 as (-> & -> & -> & ->). done.
  - intros i Hi. rewrite Q4, P4 by done. rewrite length_app. repeat case_decide; try done; try lia.
    + rewrite lookup_total_app_r by lia. f_equal. lia.
    + by rewrite lookup_total_app_l by lia.
  - auto.
  - intros j Hj. destruct (Q6 j Hj) as [->|[Qz Qu]]; [by apply P6|]. right.
    split; [destruct (P6 j Hj) as [<-|[Pz _]]; done|]. intros Hn. apply not_true_iff_false. intros E.
    rewrite P11 in Qu; [by specialize (Qu Hn)| |done]. apply (fi_data _ _ _ Q1 j Hj Hn).
  - lia.
  - done.
  - done.
  - intros j Hj Hne. rewrite Q10, P10 by done. done.
  - intros b Hb Hu. auto.
  - intros m Hm Hwr Hu Hne Hib. rewrite Q12; [by apply P12|done|done|apply P11; [apply Hm|done]| |done]. intros j Hj.
    destruct (P6 j Hj) as [->|[Pz Pu]]; [by apply Hne|]. intros E. destruct (decide (slot V1 di1 j = 0)) as [E0|E0].
    + apply (Hne j Hj). congruence.
    + specialize (Pu E0). congruence.
Qed.

(** Nothing of it depends on blocks that are not [writable]. *)
Section View.
Context (V V' : Z -> block) (HV : forall m, writable m -> V' m = V m).

Lemma used_view b : alloc_ok SB V -> in_disk SB b -> used SB V' b = used SB V b.
Proof. intros Ha Hb. unfold used. rewrite HV; [done|]. by apply (ao_map _ _ Ha). Qed.

Lemma layout_view : layout_ok SB V -> layout_ok SB V'.
Proof.
  intros [[A1 A2 A3] L2 L3 L4 L5]. pose proof (mkalloc_ok SB V A1 A2 A3) as Ha. split; [split|..]; try done.
  - intros b Hb. destruct (A2 b Hb) as (H1 & H2 & H3). rewrite used_view by done. done.
  - intros b Hb. rewrite used_view by done. by apply A3.
  - rewrite used_view by (done || apply L2). done.
  - intros i Hi. destruct (L3 i Hi) as (H1 & H2 & H3). rewrite used_view by (done || apply H1). done.
Qed.

Lemma slot_view di k : file_ok SB V di -> slot V' di k = slot V di k.
Proof.
  intros Hf. unfold slot. fold (indirect di). destruct (k <? NDIRECT); [done|]. destruct (k <? MAXFILE); [|done].
  destruct (Z.eqb_spec (indirect di) 0) as [E|E]; [done|]. f_equal. apply HV. rewrite <- (slot_indirect V di) in *.
  by apply (fi_data _ _ _ Hf).
Qed.

Lemma file_view di : layout_ok SB V -> file_ok SB V di -> file_ok SB V' di.
Proof.
  intros Hl Hf. pose proof Hf as [F1 F2 F3]. split; [done|..].
  - intros k Hk. rewrite slot_view by done. intros Hz. destruct (F2 k Hk Hz) as (D1 & D2 & D3). split; [done|]. split; [|done].
    rewrite used_view; [done|apply Hl|apply D1].
  - intros k k' Hk Hk'. rewrite !slot_view by done. by apply F3.
Qed.

Lemma fbyte_view di i : file_ok SB V di -> 0 <= i < FMAX -> fbyte V' di i = fbyte V di i.
Proof.
  intros Hf Hi. pose proof (block_ix i Hi). unfold fbyte. rewrite slot_view by done. destruct (Z.eqb_spec (slot V di (i / BSIZE)) 0) as [E|E]; [done|].
  rewrite HV; [done|]. apply (fi_data _ _ _ Hf); [unfold slot_ix; lia|done].
Qed.

Lemma inode_view j : layout_ok SB V -> valid_inum SB j -> disk_inode V' j = disk_inode V j.
Proof. intros Hl Hj. unfold disk_inode. rewrite HV; [done|]. by apply (ly_inode _ _ Hl). Qed.

Lemma nfree_view : alloc_ok SB V -> nfree SB V' = nfree SB V.
Proof.
  intros Ha. apply Nat.le_antisymm; apply nfree_le; intros b Hb; by rewrite used_view.
Qed.
End View.

Lemma write_post_view V x V1 V2 di off data k :
  write_post V x V1 di off data k -> valid_inum SB (i_inum x) -> (forall m, writable m -> V2 m = V1 m) -> write_post V x V2 di off data k.
Proof.
  intros [P1 P2 P3 P4 P5 P6 P7 P8 P9 P10 P11 P12] Hi HV. split; try done.
  - by apply (file_view V1 V2 HV).
  - intros i Hr. rewrite (fbyte_view V1 V2 HV) by done. by apply P4.
  - intros Hm bn H0 Hlt. rewrite (slot_view V1 V2 HV) by done. by apply P5.
  - intros j Hj. rewrite (slot_view V1 V2 HV) by done. by apply P6.
  - by rewrite (nfree_view V1 V2 HV) by apply P8.
  - by apply (layout_view V1 V2 HV).
  - by rewrite (inode_view V1 V2 HV).
  - intros j Hj Hne. rewrite (inode_view V1 V2 HV) by done. by apply P10.
  - intros b Hb Hu. rewrite (used_view V1 V2 HV) by (done || apply P8). by apply P11.
  - intros m Hm Hw Hu Hne Hib. rewrite HV by done. by apply P12.
Qed.
End Write.
