(* ===== verification/FsTrunc.v ===== *)
(** Truncation: [itrunc] of kernel/fs.c gives every block of the file back to
    the free map and nothing else. *)

From S2P Require Import Prelude Sleeplock Bio BioRing BioCst Bytes Blk Fs FsIo FsBlock FsMap FsFile FsWrite.

(** ** Blocks given back *)

Section Trunc.
Context {B : Type} {ops : BlockOps B} {geo : BlockGeom} {D : Z} {laws : BlockLaws B D} (SB : superblock).
Implicit Types (V : Z -> block) (L M : list Z) (f : fs B).

Record freed V V' (X : list Z) : Prop := mkfreed {
  fr_layout : layout_ok SB V';
  fr_used : forall b, in_disk SB b -> used SB V' b = true <-> used SB V b = true /\ b ∉ X;
  fr_same : forall m, plain SB m -> V' m = V m
}.

Lemma freed_none V : layout_ok SB V -> freed V V [].
Proof. intros. split; [done| |done]. intros. set_solver. Qed.

Lemma freed_trans V V1 V2 X1 X2 : freed V V1 X1 -> freed V1 V2 X2 -> freed V V2 (X1 ++ X2).
Proof.
  intros [A1 A2 A3] [B1 B2 B3]. split; [done| |].
  - intros b Hb. rewrite B2, A2, not_elem_of_app by done. tauto.
  - intros m Hm. by rewrite B3, A3.
Qed.

Lemma freed_data V V' X b : freed V V' X -> data_ok SB V b -> b ∉ X -> data_ok SB V' b.
Proof.
  intros HF (H1 & H2 & H3 & H4 & H5) Hb. split; [done|]. split; [|done].
  apply (fr_used _ _ _ HF); [apply H1|done].
Qed.

Lemma unmark_freed V b : (forall n, wf_block (V n)) -> layout_ok SB V -> data_ok SB V b -> freed V (unmark SB V b) [b].
Proof.
  intros Hw Hl (Hp & Hu & Hwr & H0 & Hi).
  assert (HU : forall b', used SB (unmark SB V b) b' = true <-> used SB V b' = true /\ b' ∉ [b]).
  { intros b'. rewrite used_unmark, andb_true_iff, negb_true_iff, bool_decide_eq_false by done. set_solver. }
  split; [|done|].
  - pose proof Hl as [A1 A2 A3 A4 A5]. split; [by apply alloc_ok_unmark; try apply Hp| | |done|done].
    + split; [apply A2|]. apply HU. split; [apply A2|set_solver].
    + intros i Hi'. destruct (A3 i Hi') as (K1 & K2 & K3). split; [done|]. split; [done|]. apply HU.
      split; [done|]. intros E%list_elem_of_singleton. by apply (Hi i).
  - intros m Hm. unfold unmark, upd. rewrite decide_False; [done|]. apply Hm, Hp.
Qed.

(** ** Growth of the transaction: only blocks of the list [M] are added *)

Definition lgrow M L L' : Prop := exists X, L' = L ++ X /\ NoDup X /\ X ⊆ M.

Lemma lgrow_refl M L : lgrow M L L.
Proof. exists []. rewrite app_nil_r. split; [done|]. split; [apply NoDup_nil_2|set_solver]. Qed.

Lemma lgrow_add M L L' n : lgrow M L L' -> n ∈ M -> lgrow M L (add n L').
Proof.
  intros (X & -> & Hn & Hs) Hin. unfold add. case_decide as E; [by exists X|].
  exists (X ++ [n]). split; [by rewrite app_assoc|]. split; [|set_solver].
  apply NoDup_app. split; [done|]. split; [set_solver|apply NoDup_singleton].
Qed.

Lemma lgrow_length M L L' : lgrow M L L' -> (length L' <= length L + length M)%nat.
Proof.
  intros (X & -> & Hn & Hs). rewrite length_app.
  apply (NoDup_submseteq X M) in Hs; [|done]. apply submseteq_length in Hs. lia.
Qed.

Context (M : list Z) (HM : forall b, in_disk SB b -> BBLOCK b SB ∈ M).

(** One [bfree] under the room for all the free map's blocks. *)
Lemma free_run L0 f V L H b :
  fblk f V L H -> sb f = SB -> layout_ok SB V -> held_ok SB V H -> data_ok SB V b -> lgrow M L0 L ->
  (length L0 + length M < log_cap)%nat -> (length L0 + length M + length H < NBUF)%nat ->
  exists f' V' L', bfree D b f = Ok (tt, f') /\ fblk f' V' L' H /\ fsame f f' /\ freed V V' [b] /\ lgrow M L0 L'.
Proof.
  intros Hb HS Hl Hh Hd HL Hc Hr. pose proof (lgrow_length _ _ _ HL) as Hlen.
  pose proof Hd as ((Hin & _) & Hu & _).
  destruct (bfree_ok SB f V L H b Hb HS (ly_alloc _ _ Hl) Hh Hin Hu) as (f' & E & Hb' & S'); [right; lia|lia|].
  exists f', (unmark SB V b), (add (BBLOCK b SB) L). split; [done|]. split; [done|]. split; [done|].
  split; [apply unmark_freed; [intros; by eapply fblk_wf|done|done]|]. apply lgrow_add; [done|]. by apply HM.
Qed.

(** ** The direct blocks *)

(** Dropping a direct block. *)
Lemma drop_addr V V' di i :
  file_ok SB V di -> 0 <= i < NDIRECT -> freed V V' [slot V di i] -> slot V di i <> 0 ->
  (forall k, slot_ix k -> slot V' (with_addr i 0 di) k = if decide (k = i) then 0 else slot V di k) /\
  file_ok SB V' (with_addr i 0 di).
Proof.
  intros Hf Hi HF Hz. pose proof (fi_dinode _ _ _ Hf) as Hd.
  assert (Hs : forall k, slot_ix k -> slot V' (with_addr i 0 di) k = if decide (k = i) then 0 else slot V di k).
  { intros k Hk. unfold slot, slot_ix in *. change NDIRECT with 12 in *. change MAXFILE with 268 in *.
    rewrite (insert_addr di i 0 12), (decide_False (P := 12 = i)) by (done || change NDIRECT with 12; lia).
    destruct (Z.ltb_spec k 12).
    - rewrite insert_addr by (done || change NDIRECT with 12; lia). done.
    - rewrite decide_False by lia. destruct (Z.ltb_spec k 268); [|done].
      destruct (Z.eqb_spec (d_addrs di !!! Z.to_nat 12) 0) as [E|E]; [done|]. f_equal. apply (fr_same _ _ _ HF).
      by apply (fi_data _ _ _ Hf 268). }
  split; [done|]. split.
  - apply with_addr_ok; [done|lia].
  - intros k Hk. rewrite Hs by done. case_decide as Ek; [done|]. intros Hk0. eapply freed_data; [done|by apply (fi_data _ _ _ Hf)|].
    intros E%list_elem_of_singleton. apply Ek. by apply (fi_inj _ _ _ Hf); [| |done|]; try done; unfold slot_ix; change MAXFILE with 268; change NDIRECT with 12 in *; lia.
  - intros k k' Hk Hk'. rewrite !Hs by done. case_decide; [done|]. case_decide; [done|]. by apply (fi_inj _ _ _ Hf).
Qed.

(** The slots in [P] were given up. *)
Record dropped V di V' di' (P : Z -> bool) : Prop := mkdropped {
  dr_meta : exists l, di' = mkdinode (d_type di) (d_major di) (d_minor di) (d_nlink di) (d_size di) l;
  dr_slot : forall k, slot_ix k -> slot V' di' k = if P k then 0 else slot V di k;
  dr_freed : exists X, freed V V' X /\ forall b, b ∈ X <-> b <> 0 /\ exists k, slot_ix k /\ P k = true /\ slot V di k = b
}.

Lemma dropped_none V di P : layout_ok SB V -> (forall k, slot_ix k -> P k = true -> slot V di k = 0) -> dropped V di V di P.
Proof.
  intros Hl HP. split; [by exists (d_addrs di); destruct di| |].
  - intros k Hk. destruct (P k) eqn:E; auto.
  - exists []. split; [by apply freed_none|]. intros b. split; [by intros ?%elem_of_nil|].
    intros (Hb & k & Hk & HPk & E). destruct Hb. by rewrite <- E, HP.
Qed.

Lemma dropped_trans V di V1 di1 V2 di2 P Q R :
  dropped V di V1 di1 P -> dropped V1 di1 V2 di2 Q -> (forall k, slot_ix k -> R k = P k || Q k) -> dropped V di V2 di2 R.
Proof.
  intros [(l & ->) A2 (X & AX & AE)] [(l' & ->) B2 (Y & BX & BE)] HR. split; [by exists l'| |].
  - intros k Hk. rewrite HR, B2, A2 by done. by destruct (P k), (Q k).
  - exists (X ++ Y). split; [by eapply freed_trans|]. intros b. rewrite elem_of_app, AE, BE. split.
    + intros [(Hb & k & Hk & Hp & E)|(Hb & k & Hk & Hq & E)]; (split; [done|]); exists k.
      * by rewrite HR, Hp by done.
      * rewrite HR, Hq, orb_true_r by done. rewrite A2 in E by done. destruct (P k); [congruence|done].
    + intros (Hb & k & Hk & Hr & E). rewrite HR in Hr by done. destruct (P k) eqn:Ep.
      * left. split; [done|]. by exists k.
      * right. split; [done|]. exists k. split; [done|]. split; [done|]. by rewrite A2, Ep by done.
Qed.

Lemma dropped_addr V V' di i :
  file_ok SB V di -> 0 <= i < NDIRECT -> freed V V' [slot V di i] -> slot V di i <> 0 ->
  dropped V di V' (with_addr i 0 di) (fun k => bool_decide (k = i)).
Proof.
  intros Hf Hi HF Hz. destruct (drop_addr V V' di i Hf Hi HF Hz) as [Hs _].
  assert (Hix : slot_ix i) by (unfold slot_ix; change MAXFILE with 268; change NDIRECT with 12 in *; lia).
  split; [by eexists| |].
  - intros k Hk. rewrite Hs by done. by case_bool_decide; case_decide.
  - exists [slot V di i]. split; [done|]. intros b. rewrite list_elem_of_singleton. split.
    + intros ->. split; [done|]. exists i. by rewrite bool_decide_true.
    + intros (Hb & k & Hk & Ek & E). apply bool_decide_eq_true in Ek. congruence.
Qed.

Definition between (i j k : Z) : bool := bool_decide (i <= k < j).

Lemma direct_ok L0 ip : (length L0 + length M < log_cap)%nat -> (length L0 + length M < NBUF)%nat ->
  forall k i f V L x, Z.of_nat k + i = NDIRECT -> 0 <= i -> writeable SB f V L ip x -> lgrow M L0 L ->
  exists f' V' L' di', itrunc_direct k ip i f = Ok (tt, f') /\ writeable SB f' V' L' ip (set_d di' x) /\
    isame f f' ip (set_d di' x) /\ lgrow M L0 L' /\ dropped V (i_d x) V' di' (between i NDIRECT).
Proof.
  intros Hc Hr. induction k as [|k IH]; intros i f V L x Hk Hi HW HL; pose proof HW as [Hb HS Hl Hx HD Hf].
  { exists f, V, L, (i_d x). rewrite set_d_id. split; [done|]. split; [done|]. split; [by apply isame_id|]. split; [done|].
    apply dropped_none; [done|]. intros j _ E%bool_decide_eq_true. lia. }
  cbn [itrunc_direct]. erewrite bind_ok by reflexivity. rewrite (list_lookup_total_correct _ _ _ Hx), HD.
  assert (Hsl : slot V (i_d x) i = d_addrs (i_d x) !!! Z.to_nat i) by (unfold slot; by rewrite (proj2 (Z.ltb_lt _ _)) by lia).
  assert (Hix : slot_ix i) by (unfold slot_ix; change MAXFILE with 268; change NDIRECT with 12 in *; lia).
  rewrite <- Hsl. destruct (Z.eqb_spec (slot V (i_d x) i) 0) as [Ez|Ez]; cbn [negb].
  - destruct (IH (i + 1) f V L x) as (f' & V' & L' & di' & E & HW' & I' & HL' & HD'); [lia|lia|done|done|].
    exists f', V', L', di'. split; [done|]. split; [done|]. split; [done|]. split; [done|].
    eapply (dropped_trans V (i_d x) V (i_d x)); [apply (dropped_none V (i_d x) (fun k => bool_decide (k = i))); [done|]|exact HD'|].
    + by intros j _ ->%bool_decide_eq_true.
    + intros j _. unfold between. rewrite <- bool_decide_or. apply bool_decide_ext. lia.
  - destruct (free_run L0 f V L [] (slot V (i_d x) i)) as (f1 & V1 & L1 & E1 & Hb1 & S1 & F1 & HL1); try done; [by intros ? ?%elem_of_nil|by apply Hf|cbn; lia|].
    destruct (upd_d_run f1 ip x (with_addr i 0)) as (f2 & _ & E2 & I2 & F2); [by destruct S1 as (-> & _)|].
    assert (E12 : (bfree D (slot V (i_d x) i) ;;; upd_d ip (with_addr i 0)) f = Ok (tt, f2)).
    { by rewrite (bind_ok _ (fun _ => upd_d ip (with_addr i 0)) _ _ _ E1). }
    rewrite (bind_ok _ _ _ _ _ E12). pose proof (fsame_isame _ _ _ _ _ S1 I2) as I12.
    destruct (drop_addr V V1 (i_d x) i Hf ltac:(lia) F1 Ez) as [_ Hf1].
    destruct (IH (i + 1) f2 V1 L1 (set_d (with_addr i 0 (i_d x)) x)) as (f' & V' & L' & di' & E & HW' & I' & HL' & HD'); [lia|lia| |done|].
    { split; [unfold fblk; by rewrite F2|destruct I12 as (_ & -> & _); done|apply F1|by eapply isame_lookup|done|done]. }
    exists f', V', L', di'. split; [done|]. split; [done|]. split; [by eapply isame_trans|]. split; [done|].
    eapply dropped_trans; [apply (dropped_addr V V1 (i_d x) i); [done|lia|exact F1|done]|exact HD'|].
    intros j _. unfold between. rewrite <- bool_decide_or. apply bool_decide_ext. lia.
Qed.

(** ** The blocks of the indirect block *)

Definition entry (d : block) (j : Z) : Z := rd32 d (Z.to_nat (4 * j)).

Definition entries_ok V (d : block) (ib j : Z) : Prop :=
  V ib = d /\ data_ok SB V ib /\
  (forall k, j <= k < NINDIRECT -> entry d k <> 0 -> data_ok SB V (entry d k) /\ entry d k <> ib) /\
  (forall k k', j <= k < NINDIRECT -> j <= k' < NINDIRECT -> entry d k <> 0 -> entry d k = entry d k' -> k = k').

Lemma entries_next V d ib j : entries_ok V d ib j -> entries_ok V d ib (j + 1).
Proof.
  intros (H1 & H2 & H3 & H4). split; [done|]. split; [done|]. split; intros; [apply H3|apply H4]; done || lia.
Qed.

Lemma entries_freed V V' d ib j :
  entries_ok V d ib j -> 0 <= j < NINDIRECT -> entry d j <> 0 -> freed V V' [entry d j] -> entries_ok V' d ib (j + 1).
Proof.
  intros (H1 & H2 & H3 & H4) Hj Hz HF. split; [rewrite (fr_same _ _ _ HF); [done|apply H2]|].
  split; [eapply freed_data; [done..|]; rewrite list_elem_of_singleton; intros ->; by apply (H3 j ltac:(lia) Hz)|]. split.
  - intros k Hk Hk0. destruct (H3 k ltac:(lia) Hk0). split; [|done]. eapply freed_data; [done..|].
    intros E%list_elem_of_singleton. apply H4 in E; [lia|lia|lia|done].
  - intros k k' Hk Hk'. apply H4; lia.
Qed.

Lemma indirect_ok L0 d bp ib : (length L0 + length M < log_cap)%nat -> (length L0 + length M + 1 < NBUF)%nat ->
  forall k j f V L, Z.of_nat k + j = NINDIRECT -> 0 <= j -> fblk f V L [(bp, ib)] -> sb f = SB -> layout_ok SB V ->
  entries_ok V d ib j -> lgrow M L0 L ->
  exists f' V' L', itrunc_indirect k D bp j f = Ok (tt, f') /\ fblk f' V' L' [(bp, ib)] /\ fsame f f' /\ lgrow M L0 L' /\
    data_ok SB V' ib /\ exists X, freed V V' X /\ forall b, b ∈ X <-> b <> 0 /\ exists k, j <= k < NINDIRECT /\ entry d k = b.
Proof.
  intros Hc Hr. induction k as [|k IH]; intros j f V L Hk Hj Hb HS Hl He HL; pose proof He as (Hd & Hib & He1 & He2).
  { exists f, V, L. split; [done|]. split; [done|]. split; [apply fsame_refl|]. split; [done|]. split; [done|].
    exists []. split; [by apply freed_none|]. intros b. split; [by intros ?%elem_of_nil|]. intros (_ & k & Hlt & _). lia. }
  cbn [itrunc_indirect]. rewrite (data_run f V L _ bp ib Hb) by set_solver. cbn zeta. rewrite Hd. fold (entry d j).
  destruct (Z.eqb_spec (entry d j) 0) as [Ez|Ez]; cbn [negb].
  - destruct (IH (j + 1) f V L) as (f' & V' & L' & E & Hb' & S' & HL' & Hd' & X & HF & HX); [lia|lia|done|done|done|by apply entries_next|done|].
    exists f', V', L'. split; [done|]. split; [done|]. split; [done|]. split; [done|]. split; [done|]. exists X. split; [done|].
    intros b. rewrite HX. split; intros (Hb0 & i & Hi & Ei); (split; [done|]); exists i; (split; [|done]); [lia|].
    destruct (decide (i = j)) as [->|]; [congruence|lia].
  - destruct (free_run L0 f V L [(bp, ib)] (entry d j)) as (f1 & V1 & L1 & E1 & Hb1 & S1 & F1 & HL1); try done.
    { intros n Hn%list_elem_of_singleton. cbn in Hn. subst n. destruct Hib as ([] & ? & _). done. }
    { by apply He1; [lia|]. }
    rewrite (bind_ok _ _ _ _ _ E1).
    destruct (IH (j + 1) f1 V1 L1) as (f' & V' & L' & E & Hb' & S' & HL' & Hd' & X & HF & HX); [lia|lia|done| |apply F1| |done|].
    { destruct S1 as (_ & -> & _). done. } { apply (entries_freed V); [done|lia|done|done]. }
    exists f', V', L'. split; [done|]. split; [done|]. split; [by eapply fsame_trans|]. split; [done|]. split; [done|].
    exists ([entry d j] ++ X). split; [by eapply freed_trans|]. intros b. rewrite elem_of_app, list_elem_of_singleton, HX. split.
    + intros [->|(Hb0 & i & Hi & Ei)]; (split; [done|]); [exists j|exists i]; (split; [lia|done]).
    + intros (Hb0 & i & Hi & Ei). destruct (decide (i = j)) as [->|]; [by left|]. right. split; [done|]. exists i. split; [lia|done].
Qed.

Lemma slot_entry V di k : indirect di <> 0 -> 0 <= k < NINDIRECT -> slot V di (NDIRECT + k) = entry (V (indirect di)) k.
Proof.
  intros Ha Hk. unfold slot, entry. fold (indirect di). change NDIRECT with 12. change MAXFILE with 268. change NINDIRECT with 256 in Hk.
  rewrite (proj2 (Z.ltb_ge _ _)), (proj2 (Z.ltb_lt _ _)), (proj2 (Z.eqb_neq _ _)) by (done || lia). do 3 f_equal. lia.
Qed.

Lemma entries_file V di : file_ok SB V di -> indirect di <> 0 -> entries_ok V (V (indirect di)) (indirect di) 0.
Proof.
  intros Hf Ha. split; [done|]. change NINDIRECT with 256.
  assert (HM268 : slot_ix MAXFILE) by (unfold slot_ix; change MAXFILE with 268; lia).
  assert (Hix : forall k, 0 <= k < 256 -> slot_ix (NDIRECT + k)) by (intros; unfold slot_ix; change MAXFILE with 268; change NDIRECT with 12; lia).
  split; [rewrite <- (slot_indirect V di) in *; by apply Hf|]. split.
  - intros k Hk. rewrite <- slot_entry by done. intros Hz. split; [apply Hf; [by apply Hix|done]|].
    rewrite <- (slot_indirect V di). intros E. apply (fi_inj _ _ _ Hf) in E; [|by apply Hix|done|done].
    change MAXFILE with 268 in E. change NDIRECT with 12 in E. lia.
  - intros k k' Hk Hk'. rewrite <- !slot_entry by done. intros Hz E. apply (fi_inj _ _ _ Hf) in E; [lia|by apply Hix|by apply Hix|done].
Qed.

Lemma dropped_indirect V V' di X :
  file_ok SB V di -> indirect di <> 0 -> freed V V' X ->
  (forall b, b ∈ X <-> b = indirect di \/ b <> 0 /\ exists k, 0 <= k < NINDIRECT /\ entry (V (indirect di)) k = b) ->
  dropped V di V' (with_addr NDIRECT 0 di) (fun k => bool_decide (NDIRECT <= k)) /\ file_ok SB V' (with_addr NDIRECT 0 di).
Proof.
  intros Hf Ha HF HX. pose proof (fi_dinode _ _ _ Hf) as Hd.
  assert (Hs : forall k, slot_ix k -> slot V' (with_addr NDIRECT 0 di) k = if bool_decide (NDIRECT <= k) then 0 else slot V di k).
  { intros k Hk. unfold slot, slot_ix in *. change NDIRECT with 12 in *. change MAXFILE with 268 in *.
    rewrite (insert_addr di 12 0 12), decide_True by (done || change NDIRECT with 12; lia).
    destruct (Z.ltb_spec k 12); case_bool_decide; try lia; [|by destruct (k <? 268)].
    rewrite insert_addr, decide_False by (done || change NDIRECT with 12; lia). done. }
  assert (HX' : forall b, b ∈ X <-> b <> 0 /\ exists k, slot_ix k /\ bool_decide (NDIRECT <= k) = true /\ slot V di k = b).
  { intros b. rewrite HX. unfold slot_ix. change NINDIRECT with 256. split.
    - intros [->|(Hb & k & Hk & E)].
      + split; [done|]. exists MAXFILE. rewrite slot_indirect. by change MAXFILE with 268.
      + split; [done|]. exists (NDIRECT + k). rewrite slot_entry, bool_decide_true by (done || lia). change NDIRECT with 12. change MAXFILE with 268.
        split; [lia|done].
    - intros (Hb & k & Hk & Hn%bool_decide_eq_true & E). destruct (decide (k = MAXFILE)) as [->|Hne].
      + left. by rewrite slot_indirect in E.
      + right. split; [done|]. exists (k - NDIRECT). change NDIRECT with 12 in *. change MAXFILE with 268 in *. split; [lia|].
        rewrite <- (slot_entry V di) by (done || change NINDIRECT with 256; lia). rewrite <- E. f_equal. change NDIRECT with 12. lia. }
  split; [split; [by eexists|done|by exists X]|]. split; [apply with_addr_ok; [done|lia]|..].
  - intros k Hk. rewrite Hs by done. case_bool_decide as Ek; [done|]. intros Hz. eapply freed_data; [done|by apply Hf|].
    rewrite HX'. intros (_ & k' & Hk' & Hn%bool_decide_eq_true & E). apply (fi_inj _ _ _ Hf) in E; [lia|done|done|congruence].
  - intros k k' Hk Hk'. rewrite !Hs by done. case_bool_decide; [done|]. case_bool_decide; [done|]. by apply Hf.
Qed.

Lemma indirect_phase L0 f V L ip x :
  (length L0 + length M < log_cap)%nat -> (length L0 + length M + 1 < NBUF)%nat ->
  writeable SB f V L ip x -> lgrow M L0 L -> indirect (i_d x) <> 0 ->
  exists f' V' L' di', (bp <- blkop (b_read D (indirect (i_d x))) ;;
     itrunc_indirect (Z.to_nat NINDIRECT) D bp 0 ;;; blkop (b_release bp) ;;; bfree D (indirect (i_d x)) ;;;
     upd_d ip (with_addr NDIRECT 0)) f = Ok (tt, f') /\ writeable SB f' V' L' ip (set_d di' x) /\
    isame f f' ip (set_d di' x) /\ lgrow M L0 L' /\ dropped V (i_d x) V' di' (fun k => bool_decide (NDIRECT <= k)).
Proof.
  intros Hc Hr HW HL Ha. pose proof HW as [Hb HS Hl Hx HD Hf]. set (a := indirect (i_d x)) in *.
  pose proof (lgrow_length _ _ _ HL) as Hlen. pose proof (entries_file V (i_d x) Hf Ha) as He. fold a in He.
  destruct (read_run f V L [] a Hb) as (bp & f1 & E1 & Hb1 & Hbp & S1); [apply not_elem_of_nil|right; cbn; lia|].
  destruct (indirect_ok L0 (V a) bp a Hc Hr (Z.to_nat NINDIRECT) 0 f1 V L) as (f2 & V2 & L2 & E2 & Hb2 & S2 & HL2 & Hd2 & X & HF & HX);
    try done. { destruct S1 as (_ & -> & _). done. }
  destruct (release_top f2 V2 L2 [] bp a Hb2 Hbp) as (f3 & E3 & _ & Hb3 & S3).
  assert (S13 : fsame f f3) by (eapply fsame_trans; [exact S1|]; by eapply fsame_trans).
  destruct (free_run L0 f3 V2 L2 [] a) as (f4 & V4 & L4 & E4 & Hb4 & S4 & F4 & HL4); try done.
  { destruct S13 as (_ & -> & _). done. } { apply HF. } { by intros ? ?%elem_of_nil. } { cbn. lia. }
  destruct (upd_d_run f4 ip x (with_addr NDIRECT 0)) as (f5 & _ & E5 & I5 & F5).
  { destruct S4 as (-> & _), S13 as (-> & _). done. }
  rewrite E1, (bind_ok _ _ _ _ _ E2), E3, (bind_ok _ _ _ _ _ E4), E5. clear E1 E2 E3 E4 E5.
  destruct (dropped_indirect V V4 (i_d x) (X ++ [a]) Hf Ha) as [HDr Hf4]; [by eapply freed_trans| |].
  { intros b. rewrite elem_of_app, HX, list_elem_of_singleton. fold a. tauto. }
  assert (I : isame f f5 ip (set_d (with_addr NDIRECT 0 (i_d x)) x)).
  { eapply fsame_isame; [exact S13|]. by eapply fsame_isame. }
  exists f5, V4, L4, (with_addr NDIRECT 0 (i_d x)). split; [done|]. split; [|done].
  split; [unfold fblk; by rewrite F5|by destruct I as (_ & -> & _)|apply F4|by eapply isame_lookup|done|done].
Qed.

(** ** itrunc *)

Definition owns V di (b : Z) : Prop := b <> 0 /\ exists k, slot_ix k /\ slot V di k = b.
Definition emptied di : dinode := mkdinode (d_type di) (d_major di) (d_minor di) (d_nlink di) 0 (replicate 13 0).

(** [x]'s blocks are given back and its inode on disk is [d]. *)
Record trunc_post V x V' (d : dinode) : Prop := mktrunc {
  tr_layout : layout_ok SB V';
  tr_inode : disk_inode SB V' (i_inum x) = d;
  tr_inodes : forall j, valid_inum SB j -> j <> i_inum x -> disk_inode SB V' j = disk_inode SB V j;
  tr_used : forall b, in_disk SB b -> used SB V' b = true <-> used SB V b = true /\ ~ owns V (i_d x) b;
  tr_same : forall m, plain SB m -> m <> IBLOCK (i_inum x) SB -> V' m = V m
}.

Lemma all_dropped V di V' di' P :
  dropped V di V' di' P -> dinode_ok di' -> (forall k, slot_ix k -> P k = true) -> with_size 0 di' = emptied di.
Proof.
  intros [(l & ->) Hs _] Hd HP. unfold with_size, emptied. cbn [d_type d_major d_minor d_nlink d_addrs]. f_equal.
  pose proof (dk_len _ Hd) as Hlen. cbn [d_addrs] in Hlen. apply list_eq_same_length with 13%nat; [done|done|].
  intros i y z Hi Hy Hz. apply lookup_replicate in Hz as [-> _].
  assert (Hix : slot_ix (addr_slot (Z.of_nat i))).
  { unfold slot_ix, addr_slot. change NDIRECT with 12. change MAXFILE with 268. destruct (Z.ltb_spec (Z.of_nat i) 12); lia. }
  pose proof (Hs _ Hix) as E. rewrite HP, addr_slot_val, Nat2Z.id in E by (done || change NDIRECT with 12; lia).
  cbn [d_addrs] in E. rewrite (list_lookup_total_correct _ _ _ Hy) in E. done.
Qed.

Lemma emptied_ok V di : dinode_ok di -> file_ok SB V (emptied di).
Proof.
  intros [D1 D2 D3 D4 D5 D6 D7].
  assert (Hz : forall k, slot_ix k -> slot V (emptied di) k = 0).
  { intros k Hk. unfold slot, slot_ix in *. cbn [emptied d_addrs].
    change NDIRECT with 12 in *. change MAXFILE with 268 in *. destruct (Z.ltb_spec k 12); [|by destruct (k <? 268)].
    apply lookup_total_replicate_2. lia. }
  split; [|intros k Hk; by rewrite Hz|intros k k' Hk Hk'; by rewrite Hz].
  split; try done. cbn [emptied d_addrs]. apply Forall_replicate. lia.
Qed.

Lemma trunc_post_intro V x V2 di2 P :
  (forall m, wf_block (V2 m)) -> dinode_ok (i_d x) -> valid_inum SB (i_inum x) -> layout_ok SB V ->
  dropped V (i_d x) V2 di2 P -> (forall k, slot_ix k -> P k = true) ->
  trunc_post V x (iupdate_view SB V2 (i_inum x) (emptied (i_d x))) (emptied (i_d x)).
Proof.
  intros Hw Hd Hi Hl HDr HP. destruct (dr_freed _ _ _ _ _ HDr) as (X & [F1 F2 F3] & HX).
  pose proof (emptied_ok V2 (i_d x) Hd) as He. unfold valid_inum in Hi.
  destruct (iupdate_file SB V2 (i_inum x) (emptied (i_d x)) (emptied (i_d x)) Hw F1 Hi He) as (Hg & _).
  destruct (ly_inode _ _ Hl _ Hi) as (Hpi & _).
  assert (Hown : forall b, b ∈ X <-> owns V (i_d x) b).
  { intros b. rewrite HX. unfold owns. split; intros (H0 & k & Hk); (split; [done|]); exists k; [tauto|].
    rewrite HP by apply Hk. tauto. }
  split.
  - apply (gr_layout _ _ _ _ _ Hg).
  - rewrite disk_inode_update by (try done; try lia; apply He). by rewrite decide_True.
  - intros j Hj Hne. unfold valid_inum in Hj. rewrite disk_inode_update by (try done; try lia; apply He).
    rewrite decide_False by done. unfold disk_inode. f_equal. apply F3. by apply (ly_inode _ _ Hl).
  - intros b Hb. unfold iupdate_view. rewrite used_upd by (apply Hpi || done). rewrite F2 by done. by rewrite Hown.
  - intros m Hm Hne. unfold iupdate_view, upd. rewrite decide_False by done. by apply F3.
Qed.

Lemma itrunc_ok f V L ip x :
  (length L + length M < log_cap)%nat -> (length L + length M + 1 < NBUF)%nat ->
  writeable SB f V L ip x -> valid_inum SB (i_inum x) ->
  exists f' V' L', itrunc ip f = Ok (tt, f') /\ writeable SB f' V' L' ip (set_d (emptied (i_d x)) x) /\
    isame f f' ip (set_d (emptied (i_d x)) x) /\ (length L' <= length L + length M + 1)%nat /\ trunc_post V x V' (emptied (i_d x)).
Proof.
  intros Hc Hr HW Hi. pose proof HW as [_ _ Hl _ _ Hf]. unfold itrunc.
  destruct (direct_ok L ip Hc ltac:(lia) (Z.to_nat NDIRECT) 0 f V L x) as (f1 & V1 & L1 & di1 & E1 & HW1 & I1 & HL1 & HD1);
    [done|done|done|apply lgrow_refl|].
  rewrite (bind_ok _ _ _ _ _ E1). erewrite bind_ok by reflexivity.
  rewrite (list_lookup_total_correct _ _ _ (wr_ino _ _ _ _ _ _ HW1)). cbn zeta. cbn [i_d i_dev set_d]. fold (indirect di1).
  rewrite (wr_dev _ _ _ _ _ _ HW : i_dev x = D).
  assert (Ep : exists f2 V2 L2 di2, (if negb (indirect di1 =? 0) then
      bp <- blkop (b_read D (indirect di1)) ;; itrunc_indirect (Z.to_nat NINDIRECT) D bp 0 ;;;
      blkop (b_release bp) ;;; bfree D (indirect di1) ;;; upd_d ip (with_addr NDIRECT 0) else ret tt) f1 = Ok (tt, f2) /\
    writeable SB f2 V2 L2 ip (set_d di2 x) /\ isame f1 f2 ip (set_d di2 x) /\ lgrow M L L2 /\
    dropped V1 di1 V2 di2 (fun k => bool_decide (NDIRECT <= k))).
  { destruct (Z.eqb_spec (indirect di1) 0) as [Ez|Ez]; cbn [negb].
    - exists f1, V1, L1, di1. split; [done|]. split; [done|]. split; [by apply isame_id, (wr_ino _ _ _ _ _ _ HW1)|]. split; [done|].
      apply dropped_none; [apply HW1|]. intros k Hk Hn%bool_decide_eq_true. unfold slot. fold (indirect di1).
      rewrite (proj2 (Z.ltb_ge _ _)) by done. rewrite Ez. by destruct (_ <? _).
    - by destruct (indirect_phase L f1 V1 L1 ip (set_d di1 x) Hc Hr HW1 HL1 Ez) as (f2 & V2 & L2 & di2 & H2); exists f2, V2, L2, di2. }
  destruct Ep as (f2 & V2 & L2 & di2 & E2 & HW2 & I2 & HL2 & HD2). rewrite (bind_ok _ _ _ _ _ E2). clear E1 E2.
  assert (HD : dropped V (i_d x) V2 di2 (fun k => between 0 NDIRECT k || bool_decide (NDIRECT <= k)))
    by (by eapply dropped_trans).
  assert (HP : forall k, slot_ix k -> between 0 NDIRECT k || bool_decide (NDIRECT <= k) = true).
  { intros k Hk. unfold between, slot_ix in *. rewrite <- bool_decide_or. apply bool_decide_eq_true. lia. }
  pose proof HW2 as [Hb2 HS2 Hl2 Hx2 HD2' Hf2]. pose proof (all_dropped _ _ _ _ _ HD (fi_dinode _ _ _ Hf2) HP) as Eem.
  destruct (upd_d_run f2 ip _ (with_size 0) Hx2) as (f3 & E3 & _ & I3 & F3). cbn [i_d set_d] in I3. rewrite Eem in I3. rewrite E3.
  pose proof (isame_trans _ _ _ _ _ _ I1 (isame_trans _ _ _ _ _ _ I2 I3)) as I.
  pose proof (lgrow_length _ _ _ HL2) as Hlen. pose proof (fun V => emptied_ok V (i_d x) (fi_dinode _ _ _ Hf)) as Hem.
  destruct (iupdate_ok SB f3 V2 L2 ip (set_d (emptied (i_d x)) x)) as (f4 & E4 & Hb4 & S4); try done; try lia.
  { unfold fblk. by rewrite F3. } { by destruct I3 as (_ & -> & _). } { by eapply isame_lookup. } { by apply (Hem V). }
  pose proof (isame_fsame _ _ _ _ _ I S4) as I4.
  pose proof (trunc_post_intro V x V2 di2 _ (fun m => fblk_wf f2 V2 L2 [] m Hb2) (fi_dinode _ _ _ Hf) Hi Hl HD HP) as HT.
  eexists f4, _, _. split; [exact E4|]. split; [|split; [done|split; [|exact HT]]].
  - split; [exact Hb4|by destruct I4 as (_ & -> & _); apply HW|apply HT|eapply isame_lookup; [apply HW|done]|apply HW|apply Hem].
  - pose proof (length_add (IBLOCK (i_inum x) SB) L2). cbn [i_inum set_d]. lia.
Qed.
End Trunc.
