(* ===== verification/FsIcache.v ===== *)
(** The inode cache of kernel/fs.c: [iget], [idup], [iput] as a multiset of
    references to (device, inode number) pairs, [ilock] as a load of the inode
    from its disk block, and the last [iput] of an unlinked inode. *)

From S2P Require Import Prelude Sleeplock Bio BioRing BioCst Bytes Blk Fs FsIo FsBlock FsMap FsFile FsWrite FsTrunc.

(** ** References *)

Definition key (x : inode) : Z * Z := (i_dev x, i_inum x).

Definition refs_at (k : Z * Z) (x : inode) : Z := if decide (key x = k) then i_ref x else 0.
Fixpoint refs (l : list inode) (k : Z * Z) : Z :=
  match l with [] => 0 | x :: l' => refs_at k x + refs l' k end.

(** Counts are not negative, and an inode has one entry. *)
Definition icache_ok (l : list inode) : Prop :=
  Forall (fun x => 0 <= i_ref x) l /\
  forall i j x y, l !! i = Some x -> l !! j = Some y -> 0 < i_ref x -> 0 < i_ref y -> key x = key y -> i = j.

Lemma refs_insert l i x y k : l !! i = Some x -> refs (<[i := y]> l) k = refs l k - refs_at k x + refs_at k y.
Proof.
  revert i. induction l as [|z l IH]; intros [|i] E; cbn in *; [done|done| |].
  - injection E as ->. lia.
  - rewrite IH by done. lia.
Qed.

Lemma refs_none l k : Forall (fun x => refs_at k x = 0) l -> refs l k = 0.
Proof. induction 1 as [|x l H _ IH]; cbn; [done|]. by rewrite H, IH. Qed.

Lemma refs_pos l k : Forall (fun x => 0 <= i_ref x) l -> 0 <= refs l k.
Proof. induction 1 as [|x l H _ IH]; cbn; [lia|]. unfold refs_at. case_decide; lia. Qed.

(** The count of an inode is that of its entry. *)
Lemma refs_entry l i x : icache_ok l -> l !! i = Some x -> 0 < i_ref x -> refs l (key x) = i_ref x.
Proof.
  intros [Hp Hu] Hi Hx. rewrite <- (take_drop_middle l i x Hi).
  assert (Hz : forall j y, l !! j = Some y -> j <> i -> refs_at (key x) y = 0).
  { intros j y Hj Hne. unfold refs_at. case_decide as E; [|done]. rewrite Forall_lookup in Hp. pose proof (Hp j y Hj).
    destruct (decide (i_ref y = 0)) as [|Hr]; [done|]. destruct Hne. apply (Hu j i y x); done || lia. }
  assert (Ha : forall l1 l2 k, refs (l1 ++ l2) k = refs l1 k + refs l2 k).
  { induction l1; intros; cbn; [done|]. rewrite IHl1. lia. }
  rewrite Ha. cbn. rewrite !refs_none.
  - unfold refs_at. rewrite decide_True by done. lia.
  - apply Forall_lookup. intros j y Hj. rewrite lookup_drop in Hj. apply (Hz _ y Hj). lia.
  - apply Forall_lookup. intros j y Hj. apply lookup_take_Some in Hj as [Hj Hlt]. apply (Hz _ y Hj). lia.
Qed.

Definition live (dev inum : Z) (x : inode) : bool := (0 <? i_ref x) && (i_dev x =? dev) && (i_inum x =? inum).

Lemma live_spec dev inum x : live dev inum x = true <-> 0 < i_ref x /\ key x = (dev, inum).
Proof. unfold live, key. rewrite !andb_true_iff, Z.ltb_lt, !Z.eqb_eq. split; [intros [[? ->] ->]; done|intros [? [= -> ->]]; done]. Qed.

(** The scan finds the entry, or no entry has the inode and it gives the
    remembered free one, else the first free one. *)
Lemma iget_scan_spec dev inum : forall l n e,
  match iget_scan l n dev inum e with
  | inl ip => exists i x, ip = (n + i)%nat /\ l !! i = Some x /\ live dev inum x = true
  | inr r => Forall (fun x => live dev inum x = false) l /\
      match e with
      | Some _ => r = e
      | None => match r with
                | Some ip => exists i x, ip = (n + i)%nat /\ l !! i = Some x /\ i_ref x = 0
                | None => Forall (fun x => i_ref x <> 0) l
                end
      end
  end.
Proof.
  induction l as [|x l IH]; intros n e; [by destruct e|]. cbn [iget_scan]. fold (live dev inum x).
  destruct (live dev inum x) eqn:El.
  { exists 0%nat, x. by rewrite Nat.add_0_r. }
  specialize (IH (S n) (match e with None => if i_ref x =? 0 then Some n else None | _ => e end)). cbn zeta in IH |- *.
  destruct (iget_scan l (S n) dev inum _) as [ip|r].
  - destruct IH as (i & y & -> & Hi & Hy). exists (S i), y. split; [lia|done].
  - destruct IH as [HF Hr]. split; [by constructor|]. destruct e; [done|]. destruct (Z.eqb_spec (i_ref x) 0) as [Ez|Ez].
    + subst r. exists 0%nat, x. by rewrite Nat.add_0_r.
    + destruct r as [ip|].
      * destruct Hr as (i & y & -> & Hi & Hy). exists (S i), y. split; [lia|done].
      * by constructor.
Qed.

Lemma not_live_refs l dev inum : Forall (fun x => 0 <= i_ref x) l -> Forall (fun x => live dev inum x = false) l -> refs l (dev, inum) = 0.
Proof.
  intros Hp Hf. apply refs_none. apply Forall_lookup. intros i x Hi. rewrite Forall_lookup in Hf, Hp. unfold refs_at.
  case_decide as E; [|done]. pose proof (Hf i x Hi) as Hl. pose proof (Hp i x Hi). destruct (decide (i_ref x = 0)); [done|].
  rewrite (proj2 (live_spec dev inum x)) in Hl; [done|]. split; [lia|done].
Qed.

(** Replacing an entry by one whose inode has no other entry. *)
Lemma icache_ok_insert l i y :
  icache_ok l -> 0 <= i_ref y ->
  (forall j z, l !! j = Some z -> j <> i -> 0 < i_ref z -> 0 < i_ref y -> key z <> key y) -> icache_ok (<[i := y]> l).
Proof.
  intros [Hp Hu] Hy Hne. split; [by apply Forall_insert|]. intros a b u v Ha Hb Hu0 Hv0 E.
  apply list_lookup_insert_Some in Ha as [(-> & <- & La)|[Na Ha]]; apply list_lookup_insert_Some in Hb as [(-> & <- & Lb)|[Nb Hb]].
  - done.
  - by destruct (Hne b v Hb).
  - destruct (Hne a u Ha); [done|done|done|done].
  - by eapply Hu.
Qed.

Section Icache.
Context {B : Type} {ops : BlockOps B}.
Implicit Types f : fs B.

Lemma iupd_at f ip g x : icache f !! ip = Some x -> iupd ip g f = Ok (tt, set_icache (<[ip := g x]> (icache f)) f).
Proof.
  intros E. unfold iupd, modify, bind, gets. cbn. do 3 f_equal. apply list_eq. intros j. destruct (decide (ip = j)) as [<-|Hne].
  - rewrite list_lookup_alter_eq, E, list_lookup_insert_eq; [done|by apply lookup_lt_Some in E].
  - by rewrite list_lookup_alter_ne, list_lookup_insert_ne.
Qed.

(** A reference more or less, everything else unchanged. *)
Definition ref_step (k : Z * Z) (d : Z) f f' : Prop :=
  icache_ok (icache f') /\ (forall k', refs (icache f') k' = refs (icache f) k' + if decide (k' = k) then d else 0) /\
  fb f' = fb f /\ sb f' = sb f.

Lemma ref_change f ip x d :
  icache_ok (icache f) -> icache f !! ip = Some x -> 0 < i_ref x -> 0 <= i_ref x + d ->
  ref_step (key x) d f (set_icache (<[ip := set_ref (i_ref x + d) x]> (icache f)) f).
Proof.
  intros Hok Hi Hx Hd. split; [|split; [|done]].
  - apply icache_ok_insert; [done|done|]. intros j z Hj Hne Hz _ E. apply Hne. eapply Hok; [done|done|done|done|done].
  - intros k'. cbn [icache set_icache]. rewrite (refs_insert _ _ x) by done. unfold refs_at, key, set_ref. cbn. case_decide as E1; case_decide as E2; try lia; congruence.
Qed.

(** What [iget] does to the cache. *)
Definition iget_post (dev inum : Z) f (r : res (nat * fs B)) : Prop :=
  let k := (dev, inum) in
  match r with
  | Ok (ip, f') => ref_step k 1 f f' /\ exists x x', icache f !! ip = Some x /\ icache f' = <[ip := x']> (icache f) /\
      key x' = k /\ i_ref x' = refs (icache f) k + 1 /\
      (0 < refs (icache f) k -> x' = set_ref (i_ref x + 1) x) /\ (refs (icache f) k = 0 -> i_ref x = 0 /\ i_valid x' = false)
  | Panic m => m = "iget: no inodes" /\ refs (icache f) k = 0 /\ Forall (fun x => 0 < i_ref x) (icache f)
  | _ => False
  end.

Lemma iget_ok dev inum f : icache_ok (icache f) -> iget_post dev inum f (iget dev inum f).
Proof.
  intros Hok. pose proof Hok as [Hp Hu]. unfold iget. rewrite (bind_ok _ _ _ _ _ eq_refl).
  pose proof (iget_scan_spec dev inum (icache f) 0 None) as Hsc. destruct (iget_scan _ _ _ _ _) as [ip|[ip|]].
  - destruct Hsc as (i & x & -> & Hi & [Hx Hk]%live_spec). cbn [Nat.add] in *.
    rewrite (bind_ok _ _ _ _ _ (iupd_at f i _ x Hi)). split; [rewrite <- Hk; apply ref_change; done || lia|].
    exists x, (set_ref (i_ref x + 1) x). split; [done|]. split; [done|].
    rewrite <- Hk, (refs_entry _ i x) by done. split; [done|]. split; [done|]. split; [done|lia].
  - destruct Hsc as (Hf & i & x & -> & Hi & Hx). cbn [Nat.add] in *. pose proof (not_live_refs _ dev inum Hp Hf) as Hz.
    rewrite (bind_ok _ _ _ _ _ (iupd_at f i _ x Hi)). set (x' := mkinode dev inum 1 (i_lock x) false (i_d x)).
    split; [|exists x, x'; rewrite Hz; split; [done|]; split; [done|]; split; [done|]; split; [done|]; split; [lia|done]].
    split; [|split; [|done]].
    + apply icache_ok_insert; [done|done|]. intros j z Hj _ Hz0 _ E. rewrite Forall_lookup in Hf. pose proof (Hf j z Hj) as Hn.
      rewrite (proj2 (live_spec dev inum z)) in Hn; [done|]. by split.
    + intros k'. cbn [icache set_icache]. rewrite (refs_insert _ _ x) by done. unfold refs_at at 1. rewrite Hx.
      unfold refs_at, key, x'. cbn. case_decide; case_decide; case_decide; lia || congruence.
  - destruct Hsc as [Hf Hn]. split; [done|]. split; [by apply not_live_refs|]. apply Forall_lookup. intros i x Hi.
    rewrite Forall_lookup in Hn, Hp. pose proof (Hn i x Hi). pose proof (Hp i x Hi). lia.
Qed.

Lemma idup_ok f ip x : icache_ok (icache f) -> icache f !! ip = Some x -> 0 < i_ref x ->
  exists f', idup ip f = Ok (ip, f') /\ ref_step (key x) 1 f f'.
Proof.
  intros Hok Hi Hx. eexists. unfold idup. rewrite (bind_ok _ _ _ _ _ (iupd_at f ip _ x Hi)). split; [done|].
  apply ref_change; done || lia.
Qed.

(** [iput] when the inode stays: other references, links, or never read. *)
Lemma iput_keep f ip x : icache_ok (icache f) -> icache f !! ip = Some x -> 0 < i_ref x ->
  i_ref x <> 1 \/ i_valid x = false \/ d_nlink (i_d x) <> 0 ->
  iput ip f = Ok (tt, set_icache (<[ip := set_ref (i_ref x - 1) x]> (icache f)) f) /\
  ref_step (key x) (-1) f (set_icache (<[ip := set_ref (i_ref x - 1) x]> (icache f)) f).
Proof.
  intros Hok Hi Hx Hc. unfold iput. rewrite (bind_ok _ _ _ _ _ eq_refl). rewrite (list_lookup_total_correct _ _ _ Hi).
  assert ((i_ref x =? 1) && i_valid x && (d_nlink (i_d x) =? 0) = false) as ->.
  { rewrite !andb_false_iff, !Z.eqb_neq. tauto. }
  rewrite (bind_ok _ _ _ _ _ eq_refl). split; [exact (iupd_at f ip _ x Hi)|]. apply (ref_change f ip x (-1)); done || lia.
Qed.
End Icache.

(** ** ilock and the last iput *)

Section Load.
Context {B : Type} {ops : BlockOps B} {geo : BlockGeom} {D : Z} {laws : BlockLaws B D} (SB : superblock).
Implicit Types (V : Z -> block) (f : fs B).

Definition set_lock (l : sleeplock) (x : inode) : inode := mkinode (i_dev x) (i_inum x) (i_ref x) l (i_valid x) (i_d x).

Lemma iupd_run f ip g x : icache f !! ip = Some x ->
  exists f', iupd ip g f = Ok (tt, f') /\ isame f f' ip (g x) /\ fb f' = fb f.
Proof. intros Hi. eexists. split; [by apply iupd_at|]. done. Qed.

Lemma lock_run f ip x : icache f !! ip = Some x -> sl_locked (i_lock x) = false ->
  exists f', on_ilock ip acquiresleep f = Ok (tt, f') /\ isame f f' ip (set_lock (mksleeplock true (b_pid (fb f))) x) /\ fb f' = fb f.
Proof.
  intros Hi Hl. destruct (iupd_run f ip (set_lock (mksleeplock true (b_pid (fb f)))) x Hi) as (f' & E & H'). exists f'. split; [|done].
  unfold on_ilock, bind at 1, gets at 1, zoom. rewrite (list_lookup_total_correct _ _ _ Hi), acquiresleep_free by done. exact E.
Qed.

Lemma unlock_run f ip x : icache f !! ip = Some x ->
  exists f', on_ilock ip (fun _ => releasesleep) f = Ok (tt, f') /\ isame f f' ip (set_lock initsleeplock x) /\ fb f' = fb f.
Proof. intros Hi. exact (iupd_run f ip (set_lock initsleeplock) x Hi). Qed.

(** [ilock] of an inode that was read before. *)
Lemma ilock_cached f ip x :
  icache f !! ip = Some x -> 0 < i_ref x -> sl_locked (i_lock x) = false -> i_valid x = true ->
  exists f', ilock ip f = Ok (tt, f') /\ isame f f' ip (set_lock (mksleeplock true (b_pid (fb f))) x) /\ fb f' = fb f.
Proof.
  intros Hi Hr Hl Hv. destruct (lock_run f ip x Hi Hl) as (f1 & E1 & I1 & F1). exists f1. split; [|done].
  unfold ilock. rewrite (bind_ok _ _ _ _ _ eq_refl), (list_lookup_total_correct _ _ _ Hi), (proj2 (Z.ltb_ge _ _)) by lia.
  rewrite (bind_ok _ _ _ _ _ E1), (bind_ok _ _ _ _ _ eq_refl).
  rewrite (list_lookup_total_correct _ _ _ (isame_lookup _ _ _ _ _ Hi I1)). cbn. by rewrite Hv.
Qed.

(** The first [ilock] loads the inode from its block, and panics on a free one. *)
Lemma ilock_load f V L H ip x :
  fblk f V L H -> sb f = SB -> layout_ok SB V -> icache f !! ip = Some x -> i_dev x = D -> valid_inum SB (i_inum x) ->
  0 < i_ref x -> sl_locked (i_lock x) = false -> i_valid x = false ->
  IBLOCK (i_inum x) SB ∉ H.*2 -> (length L + length H < NBUF)%nat ->
  let di := disk_inode SB V (i_inum x) in
  (d_type di = 0 -> ilock ip f = Panic "ilock: no type") /\
  (d_type di <> 0 -> exists f', ilock ip f = Ok (tt, f') /\ fblk f' V L H /\
    isame f f' ip (mkinode (i_dev x) (i_inum x) (i_ref x) (mksleeplock true (b_pid (fb f))) true di)).
Proof.
  intros Hb HS Hl Hi HD Hv Hr Hlk Hval HnH Hroom di.
  destruct (lock_run f ip x Hi Hlk) as (f1 & E1 & I1 & F1).
  destruct (ly_inode _ _ Hl _ Hv) as ((Hp & _) & _). pose proof (ao_size _ _ (ly_alloc _ _ Hl)) as Hsz.
  pose proof (isame_lookup _ _ _ _ _ Hi I1) as Hx1. assert (Hb1 : fblk f1 V L H) by (unfold fblk; by rewrite F1).
  destruct (read_run f1 V L H (IBLOCK (i_inum x) SB) Hb1 HnH) as (bp & f2 & E2 & Hb2 & Hbp & S2); [by right|].
  pose proof (fsame_refl f1) as _. pose proof (isame_fsame _ _ _ _ _ I1 S2) as I2.
  pose proof (isame_lookup _ _ _ _ _ Hi I2) as Hx2.
  destruct (iupd_run f2 ip (set_d di) _ Hx2) as (f3 & E3 & I3 & F3).
  destruct (release_top f3 V L H bp (IBLOCK (i_inum x) SB)) as (f4 & E4 & _ & Hb4 & S4); [unfold fblk; by rewrite F3|done|].
  pose proof (isame_fsame _ _ _ _ _ (isame_trans _ _ _ _ _ _ I2 I3) S4) as I4. pose proof (isame_lookup _ _ _ _ _ Hi I4) as Hx4.
  destruct (iupd_run f4 ip (set_ivalid true) _ Hx4) as (f5 & E5 & I5 & F5).
  pose proof (isame_trans _ _ _ _ _ _ I4 I5) as I. pose proof (isame_lookup _ _ _ _ _ Hi I) as Hx5.
  assert (E : ilock ip f = if d_type di =? 0 then Panic "ilock: no type" else Ok (tt, f5)).
  { unfold ilock. rewrite (bind_ok _ _ _ _ _ eq_refl), (list_lookup_total_correct _ _ _ Hi), (proj2 (Z.ltb_ge _ _)) by lia.
    rewrite (bind_ok _ _ _ _ _ E1), (bind_ok _ _ _ _ _ eq_refl), (list_lookup_total_correct _ _ _ Hx1). cbn [i_valid set_lock]. rewrite Hval.
    rewrite (bind_ok _ _ _ _ _ eq_refl). cbn [i_dev i_inum set_lock].
    assert (sb f1 = SB) as -> by (destruct I1 as (_ & -> & _); done). rewrite HD, u32_small by (unfold in_disk in Hp; lia).
    rewrite E2, (data_run f2 V L _ bp (IBLOCK (i_inum x) SB) Hb2) by set_solver.
    rewrite (bind_ok _ _ _ _ _ E3), E4, (bind_ok _ _ _ _ _ E5), (bind_ok _ _ _ _ _ eq_refl), (list_lookup_total_correct _ _ _ Hx5).
    cbn [i_d set_d set_ivalid]. by destruct (d_type di =? 0). }
  rewrite E. split; [by intros ->|]. intros Hne. rewrite (proj2 (Z.eqb_neq _ _) Hne). exists f5. split; [done|].
  split; [unfold fblk; by rewrite F5|done].
Qed.

Lemma trunc_post_store V x V' d d' :
  (forall m, wf_block (V' m)) -> layout_ok SB V -> valid_inum SB (i_inum x) -> dinode_ok d' ->
  trunc_post SB V x V' d -> trunc_post SB V x (iupdate_view SB V' (i_inum x) d') d'.
Proof.
  intros Hw Hl Hi Hd [T1 T2 T3 T4 T5]. destruct (ly_inode _ _ Hl _ Hi) as (Hpi & _).
  pose proof (grow_upd SB V' (IBLOCK (i_inum x) SB) (write_dinode (V' (IBLOCK (i_inum x) SB)) (dinode_off (i_inum x)) d') T1 Hpi) as Hg.
  pose proof Hi as Hi'. unfold valid_inum in Hi'. split.
  - apply (gr_layout _ _ _ _ _ Hg).
  - rewrite disk_inode_update by (done || lia). by rewrite decide_True.
  - intros j Hj Hne. pose proof Hj as Hj'. unfold valid_inum in Hj'. rewrite disk_inode_update by (done || lia). rewrite decide_False by done. by apply T3.
  - intros b Hb. unfold iupdate_view. rewrite used_upd by (apply Hpi || done). by apply T4.
  - intros m Hm Hne. unfold iupdate_view, upd. rewrite decide_False by done. by apply T5.
Qed.

Context (M : list Z) (HM : forall b, in_disk SB b -> BBLOCK b SB ∈ M).

(** The last reference to an unlinked inode: its blocks and its inode are freed. *)
Lemma iput_last f V L ip x :
  (length L + length M + 1 < log_cap)%nat -> (length L + length M + 1 < NBUF)%nat ->
  writeable SB f V L ip x -> valid_inum SB (i_inum x) ->
  i_ref x = 1 -> i_valid x = true -> d_nlink (i_d x) = 0 -> sl_locked (i_lock x) = false ->
  let d := with_type 0 (emptied (i_d x)) in
  exists f' V' L', iput ip f = Ok (tt, f') /\ fblk f' V' L' [] /\
    isame f f' ip (mkinode (i_dev x) (i_inum x) 0 initsleeplock false d) /\
    (length L' <= length L + length M + 2)%nat /\ trunc_post SB V x V' d.
Proof.
  intros Hc Hr HW Hi Href Hv Hn Hlk d. pose proof HW as [Hb HS Hl Hx HD Hf].
  destruct (lock_run f ip x Hx Hlk) as (f1 & E1 & I1 & F1). set (x1 := set_lock _ x) in *.
  pose proof (isame_lookup _ _ _ _ _ Hx I1) as Hx1.
  assert (HW1 : writeable SB f1 V L ip x1).
  { split; [unfold fblk; by rewrite F1|by destruct I1 as (_ & -> & _)|done|done|done|done]. }
  destruct (itrunc_ok SB M HM f1 V L ip x1 ltac:(lia) ltac:(lia) HW1 Hi) as (f2 & V2 & L2 & E2 & HW2 & I2 & HL2 & HT).
  pose proof HW2 as [Hb2 HS2 Hl2 Hx2 _ Hf2].
  destruct (upd_d_run f2 ip _ (with_type 0) Hx2) as (f3 & _ & E3 & I3 & F3). cbn [i_d set_d] in I3. fold d in I3.
  pose proof (isame_lookup _ _ _ _ _ Hx2 I3) as Hx3.
  assert (Hd : dinode_ok d) by (pose proof (fi_dinode _ _ _ Hf2) as []; by split).
  destruct (iupdate_ok SB f3 V2 L2 ip (set_d d x1)) as (f4 & E4 & Hb4 & S4); [unfold fblk; by rewrite F3|by destruct I3 as (_ & -> & _)|done|exact Hx3|done|done|done|lia|lia|].
  cbn [i_d i_inum set_d set_lock x1] in Hb4.
  pose proof (isame_fsame _ _ _ _ _ (isame_trans _ _ _ _ _ _ I1 (isame_trans _ _ _ _ _ _ I2 I3)) S4) as I4.
  destruct (iupd_run f4 ip (set_ivalid false) _ (isame_lookup _ _ _ _ _ Hx I4)) as (f5 & E5 & I5 & F5).
  pose proof (isame_trans _ _ _ _ _ _ I4 I5) as I45.
  destruct (unlock_run f5 ip _ (isame_lookup _ _ _ _ _ Hx I45)) as (f6 & E6 & I6 & F6).
  pose proof (isame_trans _ _ _ _ _ _ I45 I6) as I46.
  destruct (iupd_run f6 ip (fun x => set_ref (i_ref x - 1) x) _ (isame_lookup _ _ _ _ _ Hx I46)) as (f7 & E7 & I7 & F7).
  pose proof (isame_trans _ _ _ _ _ _ I46 I7) as I. cbn in I. rewrite Href in I.
  eexists f7, _, _. split; [|split; [unfold fblk; rewrite F7, F6, F5; exact Hb4|split; [exact I|split]]].
  - unfold iput. rewrite (bind_ok _ _ _ _ _ eq_refl), (list_lookup_total_correct _ _ _ Hx), Href, Hv, Hn. cbn [andb Z.eqb Pos.eqb].
    rewrite bind_assoc, (bind_ok _ _ _ _ _ E1), bind_assoc, (bind_ok _ _ _ _ _ E2), bind_assoc, (bind_ok _ _ _ _ _ E3),
      bind_assoc, (bind_ok _ _ _ _ _ E4), bind_assoc, (bind_ok _ _ _ _ _ E5), (bind_ok _ _ _ _ _ E6). exact E7.
  - pose proof (length_add (IBLOCK (i_inum x) SB) L2). lia.
  - apply (trunc_post_store V x V2 (emptied (i_d x))); [intros; by eapply fblk_wf|done|done|done|by destruct HT; split].
Qed.
End Load.
