(* ===== verification/FsPath.v ===== *)
(** Names and paths of kernel/fs.c: [namecmp] compares the stored names, and
    [skipelem] yields the elements of the path one after the other. *)

From S2P Require Import Prelude Sleeplock Bio BioRing BioCst Bytes Blk Fs FsIo.

(** ** Names: at most [DIRSIZ] bytes up to a NUL *)

Fixpoint cstr (s : list Z) : list Z :=
  match s with
  | [] => []
  | c :: s' => if c =? 0 then [] else c :: cstr s'
  end.

Fixpoint cstrn (n : nat) (s : list Z) : list Z :=
  match n with
  | O => []
  | S n' => if hd 0 s =? 0 then [] else hd 0 s :: cstrn n' (tl s)
  end.

(** The name a buffer of [DIRSIZ] bytes holds. *)
Definition cname (s : list Z) : list Z := cstrn (Z.to_nat DIRSIZ) s.

Lemma cstrn_cstr n s : cstrn n s = take n (cstr s).
Proof.
  revert s. induction n as [|n IH]; intros [|c s]; cbn; [done|done|done|]. destruct (c =? 0); [done|]. by rewrite IH.
Qed.

Lemma str_ncmp_eq n s t : str_ncmp n s t = 0 <-> cstrn n s = cstrn n t.
Proof.
  revert s t. induction n as [|n IH]; intros s t; cbn; [done|].
  destruct (Z.eqb_spec (hd 0 s) 0) as [Es|Es]; destruct (Z.eqb_spec (hd 0 t) 0) as [Et|Et]; cbn.
  - split; [done|lia].
  - split; [lia|done].
  - destruct (Z.eqb_spec (hd 0 s) (hd 0 t)); [lia|]. split; [lia|done].
  - destruct (Z.eqb_spec (hd 0 s) (hd 0 t)) as [E|E].
    + rewrite IH, E. split; [by intros ->|by intros [= ->]].
    + split; [lia|by intros [= ?]].
Qed.

Lemma namecmp_eq s t : namecmp s t = 0 <-> cname s = cname t.
Proof. apply str_ncmp_eq. Qed.

Lemma length_ncpy n s : length (str_ncpy n s) = n.
Proof.
  revert s. induction n as [|n IH]; intros s; cbn; [done|]. destruct (_ =? 0); cbn; [by rewrite length_replicate|by rewrite IH].
Qed.

Lemma cstrn_ncpy n s : cstrn n (str_ncpy n s) = cstrn n s.
Proof.
  revert s. induction n as [|n IH]; intros s; cbn; [done|]. destruct (Z.eqb_spec (hd 0 s) 0) as [E|E]; cbn; [done|].
  rewrite (proj2 (Z.eqb_neq _ _) E). by rewrite IH.
Qed.

Lemma ncpy_byte n s : Forall is_byte s -> Forall is_byte (str_ncpy n s).
Proof.
  revert s. induction n as [|n IH]; intros s Hs; cbn; [constructor|]. destruct (_ =? 0).
  - constructor; [unfold is_byte; lia|]. apply Forall_replicate. unfold is_byte. lia.
  - destruct s as [|c s]; cbn; [constructor; [unfold is_byte; lia|by apply IH]|]. inversion Hs; subst. constructor; [done|by apply IH].
Qed.

(** ** Paths: the nonempty runs between slashes, up to a NUL *)

Fixpoint split_path (cur p : list Z) : list (list Z) :=
  match p with
  | [] => [cur]
  | c :: p' => if c =? slash then cur :: split_path [] p' else split_path (cur ++ [c]) p'
  end.

Definition elems (p : list Z) : list (list Z) := filter (fun e => e <> []) (split_path [] (cstr p)).

Lemma elems_slash p : elems (slash :: p) = elems p.
Proof. done. Qed.

Lemma elems_skip p : elems (skip_slashes p) = elems p.
Proof. induction p as [|c p IH]; cbn [skip_slashes]; [done|]. destruct (Z.eqb_spec c slash) as [->|]; [by rewrite IH|done]. Qed.

Lemma skip_head p : hd 0 (skip_slashes p) <> slash.
Proof. induction p as [|c p IH]; cbn; [done|]. by destruct (Z.eqb_spec c slash). Qed.

Lemma skip_length p : (length (skip_slashes p) <= length p)%nat.
Proof. induction p as [|c p IH]; cbn; [done|]. destruct (c =? slash); cbn; lia. Qed.

Lemma elems_nul p : hd 0 p = 0 -> elems p = [].
Proof. destruct p as [|c p]; cbn; [done|]. by intros ->. Qed.

(** The first run of a path that starts with one. *)
Lemma span_split p : forall s rest cur, span_elem p = (s, rest) ->
  split_path cur (cstr p) = (cur ++ s) :: match cstr rest with [] => [] | _ :: r => split_path [] r end /\
  (hd 0 rest = 0 \/ hd 0 rest = slash) /\ p = s ++ rest /\ Forall (fun c => c <> 0 /\ c <> slash) s.
Proof.
  induction p as [|c p IH]; intros s rest cur E; cbn in E.
  - injection E as <- <-. cbn. rewrite app_nil_r. split; [done|]. split; [by left|done].
  - destruct (Z.eqb_spec c slash) as [->|Hs]; cbn in E.
    { injection E as <- <-. cbn. rewrite app_nil_r. split; [done|]. split; [by right|done]. }
    destruct (Z.eqb_spec c 0) as [->|Hz].
    { injection E as <- <-. cbn. rewrite app_nil_r. split; [done|]. split; [by left|done]. }
    destruct (span_elem p) as [s' rest'] eqn:E'. injection E as <- <-. cbn.
    rewrite (proj2 (Z.eqb_neq c 0) Hz). cbn. rewrite (proj2 (Z.eqb_neq c slash) Hs).
    destruct (IH s' rest' (cur ++ [c]) eq_refl) as (H1 & H2 & -> & H4). rewrite H1, <- app_assoc. cbn.
    split; [done|]. split; [done|]. split; [done|]. by constructor.
Qed.

Lemma elems_rest rest : hd 0 rest = 0 \/ hd 0 rest = slash ->
  filter (fun e => e <> []) (match cstr rest with [] => [] | _ :: r => split_path [] r end) = elems (skip_slashes rest).
Proof.
  intros H. rewrite elems_skip. destruct rest as [|c rest]; [done|]. unfold elems. cbn in *.
  destruct H as [->| ->]; [done|]. cbn. done.
Qed.

Lemma elems_nonempty p : hd 0 p <> 0 -> hd 0 p <> slash -> elems p <> [].
Proof.
  intros H0 Hs. destruct (span_elem p) as [s rest] eqn:E. destruct (span_split p s rest [] E) as (H1 & _ & Hp & _).
  unfold elems. rewrite H1. cbn. destruct s as [|c s]; [|done].
  destruct p as [|c p]; [done|]. cbn in *. apply Z.eqb_neq in H0, Hs. rewrite H0, Hs in E. cbn in E. by destruct (span_elem p).
Qed.

(** ** The element copied to [name] *)

Lemma cname_copy name s : length name = Z.to_nat DIRSIZ -> Forall (fun c => c <> 0 /\ c <> slash) s ->
  let name' := if DIRSIZ <=? Z.of_nat (length s) then splice name 0 (take (Z.to_nat DIRSIZ) s) else splice name 0 (s ++ [0]) in
  length name' = Z.to_nat DIRSIZ /\ cname name' = take (Z.to_nat DIRSIZ) s.
Proof.
  intros Hn Hs. assert (Hc : forall t r, Forall (fun c => c <> 0 /\ c <> slash) t -> cstr (t ++ r) = t ++ cstr r).
  { induction 1 as [|c t [Hc _] _ IH]; [done|]. cbn. by rewrite (proj2 (Z.eqb_neq _ _) Hc), IH. }
  cbn zeta. unfold cname. destruct (Z.leb_spec DIRSIZ (Z.of_nat (length s))) as [E|E]; change DIRSIZ with 14 in *.
  - split; [rewrite length_splice; rewrite ?length_take; lia|]. unfold splice. rewrite take_0. cbn [app].
    rewrite cstrn_cstr, Hc by (by apply Forall_take). rewrite take_app_le, take_take by (rewrite length_take; lia). done.
  - split; [rewrite length_splice; rewrite ?length_app; cbn; lia|]. unfold splice. rewrite take_0. cbn [app]. rewrite <- app_assoc.
    rewrite cstrn_cstr, Hc by done. cbn. by rewrite app_nil_r.
Qed.

(** [skipelem] against the list of elements. *)
Lemma skipelem_ok path name : length name = Z.to_nat DIRSIZ ->
  match skipelem path name with
  | None => elems path = []
  | Some (name', rest) => exists e, elems path = e :: elems rest /\ cname name' = take (Z.to_nat DIRSIZ) e /\
      length name' = Z.to_nat DIRSIZ /\ (hd 0 rest = 0 <-> elems rest = []) /\ (length rest < length path)%nat
  end.
Proof.
  intros Hn. unfold skipelem. pose proof (skip_head path) as Hh. pose proof (skip_length path) as Hlen.
  rewrite <- (elems_skip path). generalize dependent (skip_slashes path). intros p Hh Hlen. cbn zeta.
  destruct (Z.eqb_spec (hd 0 p) 0) as [E0|E0]; [by apply elems_nul|].
  destruct (span_elem p) as [s rest] eqn:E. destruct (span_split p s rest [] E) as (H1 & H2 & Hp & Hs). cbn [app] in H1.
  destruct (cname_copy name s Hn Hs) as [Hl Hc]. exists s.
  assert (Hne : s <> []).
  { intros ->. subst p. destruct rest; [done|]. cbn in H2, E0, Hh. by destruct H2. }
  split; [|split; [exact Hc|split; [exact Hl|split]]].
  - unfold elems at 1. rewrite H1, filter_cons_True by done. f_equal. by apply elems_rest.
  - split; [apply elems_nul|]. intros He. destruct (decide (hd 0 (skip_slashes rest) = 0)) as [|Hx]; [done|].
    by destruct (elems_nonempty _ Hx (skip_head rest)).
  - pose proof (skip_length rest) as Hr. subst p. rewrite length_app in Hlen. destruct s; [done|]. cbn in Hlen. lia.
Qed.

(** All the names [skipelem] yields. *)
Fixpoint skip_all (fuel : nat) (path name : list Z) : list (list Z) :=
  match fuel with
  | O => []
  | S f => match skipelem path name with
           | None => []
           | Some (name', rest) => cname name' :: skip_all f rest name'
           end
  end.

(** Iterating [skipelem] as [namex] does yields exactly the nonempty
    slash-separated elements of the path in order, each cut to [DIRSIZ] bytes,
    whatever the name buffer held before, and ends within as many calls as the
    path has bytes. *)
Theorem skipelem_elements path name : length name = Z.to_nat DIRSIZ ->
  skip_all (S (length path)) path name = take (Z.to_nat DIRSIZ) <$> elems path.
Proof.
  assert (H : forall fuel path name, (length path < fuel)%nat -> length name = Z.to_nat DIRSIZ ->
    skip_all fuel path name = take (Z.to_nat DIRSIZ) <$> elems path).
  { induction fuel as [|fuel IH]; intros p n Hf Hn; [lia|]. cbn [skip_all]. pose proof (skipelem_ok p n Hn) as Hk.
    destruct (skipelem p n) as [[n' rest]|]; [|by rewrite Hk].
    destruct Hk as (e & -> & Hc & Hl & _ & Hlt). cbn. f_equal; [done|]. apply IH; [lia|done]. }
  intros Hn. apply H; [lia|done].
Qed.

(** The path [///a//bb]. *)
Lemma skipelem_elements_witness :
  skip_all 9 [47; 47; 47; 97; 47; 47; 98; 98] (replicate 14 0) = [[97]; [98; 98]].
Proof. exact (skipelem_elements [47; 47; 47; 97; 47; 47; 98; 98] (replicate 14 0) eq_refl). Defined.
