(* ===== verification/FsDir.v ===== *)
(** Directories of kernel/fs.c: [dirlookup] is a search in the list of entries
    the directory's bytes hold, and [dirlink] adds one entry. *)

From S2P Require Import Prelude Sleeplock Bio BioRing BioCst Bytes Blk Fs FsIo FsBlock FsMap FsFile FsWrite FsPath.

(** ** Entries *)

(** Entry [i], and all of them. *)
Definition dirent V di (i : Z) : list Z := frange V di (DIRENT * i) DIRENT.
Definition dir V di : list (list Z) := dirent V di <$> seqZ 0 (d_size di / DIRENT).

Definition matches (name de : list Z) : bool := negb (de_inum de =? 0) && (namecmp name (de_name de) =? 0).

Definition dir_find (name : list Z) (l : list (list Z)) : option (nat * list Z) := list_find (fun de => matches name de = true) l.

(** Where the next entry goes. *)
Definition dir_free (l : list (list Z)) : nat :=
  match list_find (fun de => de_inum de = 0) l with Some (i, _) => i | None => length l end.

Lemma length_dir V di : 0 <= d_size di -> length (dir V di) = Z.to_nat (d_size di / DIRENT).
Proof. intros. unfold dir. by rewrite length_fmap, length_seqZ. Qed.

Lemma lookup_dir V di i : 0 <= i < d_size di / DIRENT -> dir V di !! Z.to_nat i = Some (dirent V di i).
Proof.
  intros Hi. unfold dir. rewrite list_lookup_fmap, lookup_seqZ_lt by lia. cbn. do 2 f_equal. lia.
Qed.

(** The search from entry [i] on. *)
Lemma find_drop {A} (P : A -> Prop) `{forall x, Decision (P x)} (l : list A) i x : l !! i = Some x ->
  list_find P (drop i l) = if decide (P x) then Some (0%nat, x) else prod_map S id <$> list_find P (drop (S i) l).
Proof. intros Hx. rewrite (drop_S l x i Hx). done. Qed.

(** ** Adding an entry to the list *)

Definition dir_put (l : list (list Z)) (de : list Z) : list (list Z) :=
  take (dir_free l) l ++ de :: drop (S (dir_free l)) l.

Lemma dir_free_le l : (dir_free l <= length l)%nat.
Proof.
  unfold dir_free. destruct (list_find _ l) as [[i de]|] eqn:E; [|done].
  apply list_find_Some in E as (E & _). apply lookup_lt_Some in E. lia.
Qed.

(** The place is that of an empty entry, or the end. *)
Lemma dir_free_split l : exists old, l = take (dir_free l) l ++ old ++ drop (S (dir_free l)) l /\ Forall (fun de => de_inum de = 0) old.
Proof.
  unfold dir_free. destruct (list_find _ l) as [[i de]|] eqn:E.
  - apply list_find_Some in E as (Hi & Hz & _). exists [de]. split; [by rewrite <- (take_drop_middle l i de Hi) at 1|]. by constructor.
  - exists []. rewrite take_ge, drop_ge by lia. by rewrite app_nil_r.
Qed.

(** The entry added is the one found under its name, unless the name was there. *)
Lemma dir_find_put name l de :
  dir_find name l = None -> matches name de = true -> dir_find name (dir_put l de) = Some (dir_free l, de).
Proof.
  intros Hn Hm. unfold dir_find, dir_put in *. apply list_find_Some.
  pose proof (dir_free_le l) as Hle. split; [|split; [done|]].
  - rewrite lookup_app_r by (rewrite length_take; lia). rewrite length_take, Nat.min_l, Nat.sub_diag by lia. done.
  - intros j y Hj Hlt. rewrite lookup_app_l in Hj by (rewrite length_take; lia). apply lookup_take_Some in Hj as [Hj _].
    apply list_find_None in Hn. rewrite Forall_lookup in Hn. by apply (Hn j).
Qed.

(** The inode a name leads to. *)
Definition dir_inum (name : list Z) (l : list (list Z)) : option Z := (fun p => de_inum p.2) <$> dir_find name l.

Lemma dir_inum_app name l1 l2 :
  dir_inum name (l1 ++ l2) = match dir_inum name l1 with Some i => Some i | None => dir_inum name l2 end.
Proof.
  unfold dir_inum, dir_find. induction l1 as [|x l1 IH]; [done|]. cbn. destruct (decide _); [done|].
  destruct (list_find _ (l1 ++ l2)) as [[]|], (list_find _ l1) as [[]|], (list_find _ l2) as [[]|]; cbn in *; congruence.
Qed.

Lemma dir_inum_skip name l : Forall (fun de => matches name de = false) l -> dir_inum name l = None.
Proof.
  intros Hl. unfold dir_inum, dir_find. rewrite (proj2 (list_find_None _ _)); [done|]. eapply Forall_impl; [done|].
  intros de E. cbn. by rewrite E.
Qed.

Lemma dir_inum_other name l de : matches name de = false -> dir_inum name (dir_put l de) = dir_inum name l.
Proof.
  intros Hm. destruct (dir_free_split l) as (old & E & Hold). rewrite E at 2. unfold dir_put.
  rewrite !dir_inum_app, (dir_inum_skip name old).
  - rewrite (dir_inum_app name [de] (drop _ l) : dir_inum name (de :: _) = _).
    by rewrite (dir_inum_skip name [de]) by (by constructor).
  - eapply Forall_impl; [done|]. intros x Hx. unfold matches. cbn in Hx. by rewrite Hx.
Qed.

(** The bytes of an entry. *)
Lemma mk_dirent_inum inum name : 0 <= inum < 2 ^ 16 -> de_inum (mk_dirent inum name) = inum.
Proof.
  intros Hi. unfold de_inum, rd16, mk_dirent. rewrite sub_app_l, sub_all by (rewrite length_le_bytes; lia).
  rewrite le_val_bytes. apply Z.mod_small. done.
Qed.

Lemma mk_dirent_name inum name : length name = Z.to_nat DIRSIZ -> de_name (mk_dirent inum name) = name.
Proof.
  intros Hl. unfold de_name, mk_dirent. rewrite sub_app_r by (rewrite length_le_bytes; lia). rewrite length_le_bytes. by apply sub_all.
Qed.

Lemma dirent_matches name name' inum : 0 < inum < 2 ^ 16 ->
  matches name' (mk_dirent inum (str_ncpy (Z.to_nat DIRSIZ) name)) = bool_decide (cname name' = cname name).
Proof.
  intros Hi. unfold matches. rewrite mk_dirent_inum, mk_dirent_name by (lia || apply length_ncpy).
  rewrite (proj2 (Z.eqb_neq _ _)) by lia. cbn [negb andb]. apply eq_true_iff_eq. rewrite Z.eqb_eq, bool_decide_eq_true, namecmp_eq.
  unfold cname at 2. by rewrite cstrn_ncpy.
Qed.

Section Dir.
Context {B : Type} {ops : BlockOps B} {geo : BlockGeom} {D : Z} {laws : BlockLaws B D} (SB : superblock).
Implicit Types (V : Z -> block) (f : fs B).

(** Reading an entry. *)
Lemma read_dirent f V L H ip x i :
  readable SB f V L H ip x -> d_size (i_d x) mod DIRENT = 0 -> 0 <= i < d_size (i_d x) / DIRENT ->
  exists f', readi to_kernel ip (DIRENT * i) DIRENT f = Ok ((DIRENT, dirent V (i_d x) i), f') /\ fblk f' V L H /\ fsame f f'.
Proof.
  intros HR Hm Hi. pose proof (rd_max _ _ _ _ _ _ _ HR) as Hmax. change FMAX with 274432 in Hmax. change DIRENT with 16 in *.
  destruct (readi_ok SB f V L H ip x to_kernel (16 * i) 16 HR to_kernel_ok) as (f' & E & Hb & S'); [lia|lia|lia|].
  rewrite Z.min_l in E by lia. by exists f'.
Qed.

Lemma readable_same f f' V L H ip x : readable SB f V L H ip x -> fblk f' V L H -> fsame f f' -> readable SB f' V L H ip x.
Proof. intros [] Hb (E & _). split; try done. by rewrite E. Qed.

(** ** dirlookup *)

Lemma if_matches {A} name de (a b : A) :
  (if de_inum de =? 0 then a else if namecmp name (de_name de) =? 0 then b else a) = if matches name de then b else a.
Proof. unfold matches. by destruct (_ =? 0), (_ =? 0). Qed.

Lemma dirlookup_loop_ok V L H ip x name :
  d_size (i_d x) mod DIRENT = 0 -> forall fuel i f, readable SB f V L H ip x ->
  0 <= i <= d_size (i_d x) / DIRENT -> d_size (i_d x) / DIRENT - i < Z.of_nat fuel ->
  exists f', fblk f' V L H /\ fsame f f' /\
    match dir_find name (drop (Z.to_nat i) (dir V (i_d x))) with
    | Some (j, de) => dirlookup_loop fuel ip name (DIRENT * i) f =
        (p <- iget (i_dev x) (de_inum de) ;; ret (Some (p, DIRENT * (i + Z.of_nat j)))) f'
    | None => dirlookup_loop fuel ip name (DIRENT * i) f = Ok (None, f')
    end.
Proof.
  intros Hm. induction fuel as [|fuel IH]; intros i f HR Hi Hf; [lia|]. cbn [dirlookup_loop].
  rewrite (bind_ok _ _ _ _ _ eq_refl), (list_lookup_total_correct _ _ _ (rd_ino _ _ _ _ _ _ _ HR)).
  pose proof (dk_size _ (fi_dinode _ _ _ (rd_file _ _ _ _ _ _ _ HR))) as Hsz.
  destruct (decide (i = d_size (i_d x) / DIRENT)) as [->|Hne].
  { rewrite (proj2 (Z.ltb_ge _ _)) by (change DIRENT with 16 in *; lia). rewrite drop_ge by (rewrite length_dir; lia).
    exists f. split; [apply HR|]. split; [apply fsame_refl|done]. }
  rewrite (proj2 (Z.ltb_lt _ _)) by (change DIRENT with 16 in *; lia).
  destruct (read_dirent f V L H ip x i HR Hm ltac:(lia)) as (f1 & E1 & Hb1 & S1). rewrite (bind_ok _ _ _ _ _ E1). cbn [fst snd].
  rewrite Z.eqb_refl. cbn [negb]. unfold dir_find. rewrite (find_drop _ _ (Z.to_nat i) (dirent V (i_d x) i)) by (apply lookup_dir; lia).
  set (de := dirent V (i_d x) i).
  replace (DIRENT * i + DIRENT) with (DIRENT * (i + 1)) by (change DIRENT with 16; lia).
  rewrite if_matches. destruct (decide (matches name de = true)) as [Em|Em].
  { rewrite Em. exists f1. split; [done|]. split; [done|]. by rewrite Z.add_0_r. }
  apply not_true_iff_false in Em. rewrite Em.
  destruct (IH (i + 1) f1 ltac:(by eapply readable_same) ltac:(lia) ltac:(lia)) as (f2 & Hb2 & S2 & H2).
  exists f2. split; [done|]. split; [by eapply fsame_trans|]. replace (Z.to_nat (i + 1)) with (S (Z.to_nat i)) in H2 by lia.
  fold (dir_find name (drop (S (Z.to_nat i)) (dir V (i_d x)))).
  destruct (dir_find _ _) as [[j de']|]; [|done]. cbn [prod_map fmap option_fmap option_map id fst snd].
  by replace (i + Z.of_nat (S j)) with (i + 1 + Z.of_nat j) by lia.
Qed.

Lemma dirlookup_ok f V L H ip x name :
  readable SB f V L H ip x -> d_size (i_d x) mod DIRENT = 0 -> d_type (i_d x) = T_DIR ->
  exists f', fblk f' V L H /\ fsame f f' /\
    dirlookup ip name f = match dir_find name (dir V (i_d x)) with
      | Some (j, de) => (p <- iget (i_dev x) (de_inum de) ;; ret (Some (p, DIRENT * Z.of_nat j))) f'
      | None => Ok (None, f')
      end.
Proof.
  intros HR Hm Ht. pose proof (dk_size _ (fi_dinode _ _ _ (rd_file _ _ _ _ _ _ _ HR))) as Hsz.
  destruct (dirlookup_loop_ok V L H ip x name Hm (S (S (Z.to_nat (d_size (i_d x) / DIRENT)))) 0 f HR) as (f' & Hb & S' & E);
    [change DIRENT with 16 in *; lia|change DIRENT with 16 in *; lia|].
  exists f'. split; [done|]. split; [done|]. unfold dirlookup.
  rewrite (bind_ok _ _ _ _ _ eq_refl), (list_lookup_total_correct _ _ _ (rd_ino _ _ _ _ _ _ _ HR)), Ht. cbn [negb Z.eqb T_DIR Pos.eqb].
  rewrite Z.mul_0_r in E. change (Z.to_nat 0) with 0%nat in E. rewrite drop_0 in E. destruct (dir_find _ _) as [[j de]|]; exact E.
Qed.

(** ** The place for a new entry *)

Lemma dirlink_loop_ok V L H ip x :
  d_size (i_d x) mod DIRENT = 0 -> forall fuel i f, readable SB f V L H ip x ->
  0 <= i <= d_size (i_d x) / DIRENT -> d_size (i_d x) / DIRENT - i < Z.of_nat fuel ->
  exists f', fblk f' V L H /\ fsame f f' /\
    dirlink_loop fuel ip (DIRENT * i) f = Ok (DIRENT * (i + Z.of_nat (dir_free (drop (Z.to_nat i) (dir V (i_d x))))), f').
Proof.
  intros Hm. induction fuel as [|fuel IH]; intros i f HR Hi Hf; [lia|]. cbn [dirlink_loop].
  rewrite (bind_ok _ _ _ _ _ eq_refl), (list_lookup_total_correct _ _ _ (rd_ino _ _ _ _ _ _ _ HR)).
  pose proof (dk_size _ (fi_dinode _ _ _ (rd_file _ _ _ _ _ _ _ HR))) as Hsz.
  destruct (decide (i = d_size (i_d x) / DIRENT)) as [->|Hne].
  { rewrite (proj2 (Z.ltb_ge _ _)) by (change DIRENT with 16 in *; lia). rewrite drop_ge by (rewrite length_dir; lia).
    exists f. split; [apply HR|]. split; [apply fsame_refl|]. cbn. by rewrite Z.add_0_r. }
  rewrite (proj2 (Z.ltb_lt _ _)) by (change DIRENT with 16 in *; lia).
  destruct (read_dirent f V L H ip x i HR Hm ltac:(lia)) as (f1 & E1 & Hb1 & S1). rewrite (bind_ok _ _ _ _ _ E1). cbn [fst snd].
  rewrite Z.eqb_refl. cbn [negb]. unfold dir_free. rewrite (find_drop _ _ (Z.to_nat i) (dirent V (i_d x) i)) by (apply lookup_dir; lia).
  destruct (Z.eqb_spec (de_inum (dirent V (i_d x) i)) 0) as [Ez|Ez].
  { rewrite decide_True by done. exists f1. split; [done|]. split; [done|]. by rewrite Z.add_0_r. }
  rewrite decide_False by done. destruct (IH (i + 1) f1 ltac:(by eapply readable_same) ltac:(lia) ltac:(lia)) as (f2 & Hb2 & S2 & E2).
  replace (DIRENT * i + DIRENT) with (DIRENT * (i + 1)) by (change DIRENT with 16; lia).
  exists f2. split; [done|]. split; [by eapply fsame_trans|]. rewrite E2. do 3 f_equal. unfold dir_free.
  replace (Z.to_nat (i + 1)) with (S (Z.to_nat i)) by lia.
  pose proof (length_dir V (i_d x) (proj1 Hsz)) as Hld.
  destruct (list_find _ (drop (S _) _)) as [[j de]|]; cbn; [lia|]. rewrite !length_drop, Hld. lia.
Qed.

(** ** dirlink *)

Lemma dirent_ext V V' di di' i : (forall j, DIRENT * i <= j < DIRENT * i + DIRENT -> fbyte V' di' j = fbyte V di j) -> dirent V' di' i = dirent V di i.
Proof.
  intros Hj. unfold dirent, frange. apply list_fmap_ext. intros n j Hn. apply lookup_seqZ in Hn as [-> Hlt]. apply Hj. lia.
Qed.

Lemma frange_eq V di off data : 0 <= off -> (forall i, off <= i < off + Z.of_nat (length data) -> fbyte V di i = data !!! Z.to_nat (i - off)) ->
  frange V di off (Z.of_nat (length data)) = data.
Proof.
  intros Ho Hb. apply list_eq_same_length with (length data); [done|unfold frange; by rewrite length_fmap, length_seqZ, Nat2Z.id|].
  intros i x y Hi Hx Hy. unfold frange in Hx. apply list_lookup_fmap_Some in Hx as (z & -> & Hz).
  apply lookup_seqZ in Hz as [-> Hlt]. rewrite Hb by lia. replace (off + Z.of_nat i - off) with (Z.of_nat i) by lia.
  rewrite Nat2Z.id. by apply list_lookup_total_correct.
Qed.

(** Writing an entry at a place of the directory or at its end. *)
Lemma dir_write V x V' di' (fr : nat) de :
  let di := i_d x in
  write_post SB V x V' di' (DIRENT * Z.of_nat fr) de 2 -> length de = Z.to_nat DIRENT ->
  0 <= d_size di -> d_size di mod DIRENT = 0 -> d_size di <= FMAX - DIRENT -> (fr <= length (dir V di))%nat ->
  d_size di' mod DIRENT = 0 /\ d_size di' <= FMAX /\ dir V' di' = take fr (dir V di) ++ de :: drop (S fr) (dir V di).
Proof.
  intros di HP Hd Hs Hm Hmax Hf. pose proof (wq_size _ _ _ _ _ _ _ _ HP) as Hsz. fold di in Hsz. rewrite Hd in Hsz.
  pose proof (length_dir V di Hs) as Hl. change DIRENT with 16 in *. change (Z.of_nat (Z.to_nat 16)) with 16 in Hsz.
  split; [lia|]. split; [lia|]. change FMAX with 274432 in *.
  assert (Hl' : length (dir V' di') = Z.to_nat (d_size di' / 16)) by (apply length_dir; lia).
  assert (He : forall i, 0 <= i < d_size di' / 16 -> dirent V' di' i = if decide (i = Z.of_nat fr) then de else dirent V di i).
  { intros i Hi. case_decide as E.
    - subst i. assert (E : frange V' di' (16 * Z.of_nat fr) (Z.of_nat (length de)) = de); [|by rewrite Hd in E].
      apply frange_eq; [lia|]. intros j Hj. rewrite (wq_bytes _ _ _ _ _ _ _ _ HP) by (change FMAX with 274432; lia).
      by rewrite decide_True by lia.
    - apply dirent_ext. intros j Hj. change DIRENT with 16 in Hj. rewrite (wq_bytes _ _ _ _ _ _ _ _ HP) by (change FMAX with 274432; lia).
      rewrite Hd, decide_False by lia. done. }
  apply list_eq. intros k. destruct (decide (k < Z.to_nat (d_size di' / 16))%nat) as [Hk|Hk].
  - pose proof (lookup_dir V' di' (Z.of_nat k) ltac:(change DIRENT with 16; lia)) as E. rewrite Nat2Z.id in E. rewrite E, He by lia.
    destruct (decide (Z.of_nat k = Z.of_nat fr)) as [Ek|Ek].
    + assert (k = fr) as -> by lia. rewrite lookup_app_r by (rewrite length_take; lia). rewrite length_take, Nat.min_l, Nat.sub_diag by lia. done.
    + assert (Ed : dir V di !! k = Some (dirent V di (Z.of_nat k))).
      { rewrite <- (Nat2Z.id k) at 1. apply lookup_dir. change DIRENT with 16. lia. }
      rewrite <- Ed. destruct (decide (k < fr)%nat).
      * rewrite lookup_app_l by (rewrite length_take; lia). by rewrite lookup_take_lt by lia.
      * rewrite lookup_app_r by (rewrite length_take; lia). rewrite length_take, Nat.min_l by lia.
        destruct (k - fr)%nat as [|m] eqn:Em; [lia|]. change ((de :: drop (S fr) (dir V di)) !! S m) with (drop (S fr) (dir V di) !! m). rewrite lookup_drop. f_equal. lia.
  - rewrite !lookup_ge_None_2; [done| |lia]. rewrite length_app, length_cons, length_take, length_drop. lia.
Qed.

(** [dirlink] of a name that is not there. *)
Lemma dirlink_ok f V L ip x name inum :
  writeable SB f V L ip x -> mapped V (i_d x) -> valid_inum SB (i_inum x) -> d_type (i_d x) = T_DIR ->
  d_size (i_d x) mod DIRENT = 0 -> d_size (i_d x) <= FMAX - DIRENT -> 0 < inum < 2 ^ 16 -> Forall is_byte name ->
  dir_find name (dir V (i_d x)) = None ->
  (length L + 6 < log_cap)%nat -> (length L + 6 < NBUF)%nat -> (2 <= nfree SB V)%nat ->
  let de := mk_dirent inum (str_ncpy (Z.to_nat DIRSIZ) name) in
  exists f' V' L' di', dirlink ip name inum f = Ok (0, f') /\ writeable SB f' V' L' ip (set_d di' x) /\
    isame f f' ip (set_d di' x) /\ (length L' <= length L + 7)%nat /\
    write_post SB V x V' di' (DIRENT * Z.of_nat (dir_free (dir V (i_d x)))) de 2 /\
    d_size di' mod DIRENT = 0 /\ d_size di' <= FMAX /\ dir V' di' = dir_put (dir V (i_d x)) de.
Proof.
  intros HW Hmap Hi Ht Hm Hmax Hin Hby Hnone Hc Hr Hfree de. pose proof HW as [Hb HS Hl Hx HD Hf].
  pose proof (dk_size _ (fi_dinode _ _ _ Hf)) as Hsz.
  assert (HR : readable SB f V L [] ip x).
  { split; try done; [change FMAX with 274432 in *; change DIRENT with 16 in *; lia|by intros ? ?%elem_of_nil|cbn; lia]. }
  destruct (dirlookup_ok f V L [] ip x name HR Hm Ht) as (f1 & Hb1 & S1 & E1). rewrite Hnone in E1.
  pose proof (readable_same _ _ _ _ _ _ _ HR Hb1 S1) as HR1.
  destruct (dirlink_loop_ok V L [] ip x Hm (S (S (Z.to_nat (d_size (i_d x) / DIRENT)))) 0 f1 HR1) as (f2 & Hb2 & S2 & E2);
    [change DIRENT with 16 in *; lia|change DIRENT with 16 in *; lia|].
  rewrite Z.mul_0_r, drop_0, Z.add_0_l in E2. set (fr := dir_free (dir V (i_d x))) in *.
  assert (HfrL : (fr <= length (dir V (i_d x)))%nat) by apply dir_free_le. rewrite length_dir in HfrL by lia.
  pose proof (fsame_trans _ _ _ S1 S2) as S12.
  assert (HW2 : writeable SB f2 V L ip x) by (destruct S12 as (Ei & Es & _); split; [done|congruence|done|congruence|done|done]).
  assert (Hlde : length de = 16%nat) by (unfold de, mk_dirent; rewrite length_app, length_le_bytes, length_ncpy; done).
  destruct (writei_ok SB (from_kernel de) de f2 V L ip x (DIRENT * Z.of_nat fr) DIRENT 1) as (f3 & V' & L' & di' & E3 & HW3 & I3 & HL3 & _ & HP);
    try done; try (change FMAX with 274432 in *; change DIRENT with 16 in *; lia).
  { apply from_kernel_ok. } { apply Forall_app. split; [apply le_bytes_byte|by apply ncpy_byte]. }
  { unfold turns_left. change DIRENT with 16. change BSIZE with 1024. cbn [Z.ltb Z.compare]. lia. }
  destruct (dir_write V x V' di' fr de HP Hlde) as (W1 & W2 & W3); [lia|done|done|rewrite length_dir by lia; done|].
  exists f3, V', L', di'. split; [|split; [done|split; [by eapply fsame_isame|split; [lia|done]]]].
  unfold dirlink. rewrite (bind_ok _ _ _ _ _ E1), (bind_ok _ _ _ _ _ eq_refl).
  rewrite (list_lookup_total_correct _ _ _ (rd_ino _ _ _ _ _ _ _ HR1)), (bind_ok _ _ _ _ _ E2). fold de. cbn zeta.
  rewrite (bind_ok _ _ _ _ _ E3). by rewrite Z.eqb_refl.
Qed.
End Dir.
