(* ===== verification/FsThm.v ===== *)
(** The file system's theorems: the allocator, file reads and writes, unlinked
    inodes, directories, and a file write under the log's crashes. *)

From S2P Require Import Prelude Sleeplock Bio BioRing BioSpec BioCst Bytes Log LogSpec LogRun LogThm LogOp Blk.
From S2P Require Import Fs FsIo FsBlock FsMap FsFile FsWrite FsTrunc FsIcache FsPath FsDir.

Section Thm.
Context {B : Type} {ops : BlockOps B} {geo : BlockGeom} {D : Z} {laws : BlockLaws B D} (SB : superblock).
Implicit Types (V : Z -> block) (f : fs B).

(** [balloc] returns the first free block, zeroed and marked, and changes
    no block but that one and its block of the free map; [bfree] of it makes the
    free map what it was, and a second [bfree] panics. *)
Theorem balloc_then_bfree f V L :
  fblk f V L [] -> sb f = SB -> alloc_ok SB V -> (exists n, in_disk SB n /\ used SB V n = false) ->
  (length L + 3 < log_cap)%nat -> (length L + 3 < NBUF)%nat ->
  exists n f1 f2 V1 V2 L1 L2, balloc D f = Ok (n, f1) /\ in_disk SB n /\ used SB V n = false /\
    (forall k, 0 <= k < n -> used SB V k = true) /\ fblk f1 V1 L1 [] /\ V1 n = zero_block /\ used SB V1 n = true /\
    (forall m, m <> n -> m <> BBLOCK n SB -> V1 m = V m) /\
    bfree D n f1 = Ok (tt, f2) /\ fblk f2 V2 L2 [] /\ (forall b, in_disk SB b -> used SB V2 b = used SB V b) /\
    (forall m, m <> n -> m <> BBLOCK n SB -> V2 m = V m) /\ bfree D n f2 = Panic "freeing free block".
Proof.
  intros Hb HS Ha Hex Hc Hr. assert (Hnil : forall V, held_ok SB V []) by (by intros ? ? ?%elem_of_nil).
  assert (Hw : forall m, wf_block (V m)) by (intros; by eapply fblk_wf).
  destruct (balloc_ok SB f V L [] Hb HS Ha (Hnil V)) as (n & f1 & E1 & Hn & Hu & Hlow & Hb1 & S1); [lia|cbn; lia|done|].
  set (V1 := balloc_view SB V n) in *. set (L1 := add n (add (BBLOCK n SB) L)) in *.
  pose proof (length_add n (add (BBLOCK n SB) L) : (length L1 <= _)%nat). pose proof (length_add (BBLOCK n SB) L).
  assert (Hw1 : forall m, wf_block (V1 m)) by (intros; by eapply fblk_wf).
  pose proof (alloc_ok_balloc SB V n Hw Ha Hu Hn) as Ha1. fold V1 in Ha1.
  assert (Hu1 : used SB V1 n = true) by (unfold V1; rewrite used_balloc by done; by rewrite bool_decide_true).
  assert (HS1 : sb f1 = SB) by (by destruct S1 as (_ & -> & _)).
  destruct (bfree_ok SB f1 V1 L1 [] n Hb1 HS1 Ha1 (Hnil V1) Hn Hu1) as (f2 & E2 & Hb2 & S2); [right; cbn; lia|lia|].
  set (V2 := unmark SB V1 n) in *. pose proof (length_add (BBLOCK n SB) L1).
  assert (HU2 : forall b, in_disk SB b -> used SB V2 b = used SB V b).
  { intros b Hbd. unfold V2, V1. rewrite used_unmark, used_balloc by done. by destruct (decide (n = b)) as [->|Hne];
      [rewrite bool_decide_true|rewrite bool_decide_false]. }
  assert (Ha2 : alloc_ok SB V2).
  { apply alloc_ok_unmark; try done; [by apply (ao_free SB V Ha)|]. intros b' Hb'. by apply (free_not_map SB V). }
  assert (Hs1 : forall m, m <> n -> m <> BBLOCK n SB -> V1 m = V m) by (intros; by apply balloc_view_other).
  exists n, f1, f2, V1, V2, L1, (add (BBLOCK n SB) L1). split_and!; try done; [apply balloc_view_new| |].
  - intros m Hm1 Hm2. unfold V2, unmark, upd. rewrite decide_False by done. by apply Hs1.
  - apply (bfree_twice SB f2 V2 _ [] n Hb2); try done; [by destruct S2 as (_ & -> & _)|by rewrite HU2|cbn; lia].
Qed.

(** C15: [writei] of a nonempty range within the file or right after it, below
    the maximal size, returns the count and replaces exactly those bytes,
    extends the size, stores the inode, keeps every other inode, every other
    block in use and the free map's discipline; [readi] of the range then returns
    the bytes written. *)
Theorem writei_then_readi copyin copyout data f V L ip x off n (T : nat) :
  writeable SB f V L ip x -> mapped V (i_d x) -> valid_inum SB (i_inum x) -> source_ok copyin data -> sink_ok copyout ->
  Forall is_byte data -> n = Z.of_nat (length data) -> 0 < n -> 0 <= off <= d_size (i_d x) -> d_size (i_d x) <= FMAX ->
  off + n <= FMAX -> turns_left off n <= Z.of_nat T -> (length L + 6 * T < log_cap)%nat -> (length L + 6 * T + 1 < NBUF)%nat ->
  (2 * T <= nfree SB V)%nat ->
  exists f1 f2 V' L' di', writei copyin ip off n f = Ok (n, f1) /\ fblk f1 V' L' [] /\ icache f1 !! ip = Some (set_d di' x) /\
    (length L' <= length L + 6 * T + 1)%nat /\ write_post SB V x V' di' off data (2 * T) /\ mapped V' di' /\
    readi copyout ip off n f1 = Ok ((n, data), f2) /\ fblk f2 V' L' [].
Proof.
  intros HW Hm Hi Hsrc Hsnk Hby Hn Hn0 Ho Hsz He HT Hc Hr Hfree.
  destruct (writei_ok SB copyin data f V L ip x off n T) as (f1 & V' & L' & di' & E & HW1 & I & HL & _ & HP); try done; [lia|].
  pose proof (wq_mapped _ _ _ _ _ _ _ _ HP Hm) as Hm'. pose proof (wq_size _ _ _ _ _ _ _ _ HP) as Hs'. pose proof HW1 as [Hb1 HS1 Hl1 Hx1 HD1 Hf1].
  assert (HR : readable SB f1 V' L' [] ip (set_d di' x)).
  { split; try done; [cbn; lia|by intros ? ?%elem_of_nil|cbn; lia]. }
  change FMAX with 274432 in *.
  destruct (readi_ok SB f1 V' L' [] ip (set_d di' x) copyout off n HR Hsnk) as (f2 & E2 & Hb2 & S2); [cbn; lia|lia|lia|].
  cbn [i_d set_d] in E2. rewrite Z.min_l in E2 by lia.
  exists f1, f2, V', L', di'. split_and!; try done. rewrite E2. do 3 f_equal. rewrite Hn. apply frange_eq; [lia|].
  intros i Hi'. rewrite (wq_bytes _ _ _ _ _ _ _ _ HP) by (change FMAX with 274432; lia). by rewrite decide_True by lia.
Qed.

(** C22: the last [iput] of an inode without links frees its blocks, direct,
    indirect and the indirect block, and no other block, frees the inode on disk,
    keeps all other inodes and blocks, and leaves the cache entry free. *)
Theorem iput_frees_unlinked M f V L ip x :
  (forall b, in_disk SB b -> BBLOCK b SB ∈ M) ->
  (length L + length M + 1 < log_cap)%nat -> (length L + length M + 1 < NBUF)%nat ->
  writeable SB f V L ip x -> valid_inum SB (i_inum x) ->
  i_ref x = 1 -> i_valid x = true -> d_nlink (i_d x) = 0 -> sl_locked (i_lock x) = false ->
  exists f' V' L' x', iput ip f = Ok (tt, f') /\ fblk f' V' L' [] /\ icache f' = <[ip := x']> (icache f) /\
    i_ref x' = 0 /\ i_valid x' = false /\ sl_locked (i_lock x') = false /\
    d_type (disk_inode SB V' (i_inum x)) = 0 /\
    (forall b, in_disk SB b -> used SB V' b = true <-> used SB V b = true /\ ~ owns V (i_d x) b) /\
    (forall j, valid_inum SB j -> j <> i_inum x -> disk_inode SB V' j = disk_inode SB V j) /\
    (forall m, plain SB m -> m <> IBLOCK (i_inum x) SB -> V' m = V m).
Proof.
  intros HM Hc Hr HW Hi Href Hv Hn Hlk.
  destruct (iput_last SB M HM f V L ip x Hc Hr HW Hi Href Hv Hn Hlk) as (f' & V' & L' & E & Hb & (HI & _) & _ & [T1 T2 T3 T4 T5]).
  eexists f', V', L', _. split; [done|]. split; [done|]. split; [exact HI|]. split_and!; try done. by rewrite T2.
Qed.

(** C28: [dirlink] of a name that the directory does not have returns 0, puts
    the entry in the first empty place or at the end, and from then on the name
    leads to the given inode and every other name to where it led before;
    [dirlookup] of any name gives [iget] of the inode it leads to, or null. *)
Theorem dirlink_then_dirlookup f V L ip x name inum :
  writeable SB f V L ip x -> mapped V (i_d x) -> valid_inum SB (i_inum x) -> d_type (i_d x) = T_DIR ->
  d_size (i_d x) mod DIRENT = 0 -> d_size (i_d x) <= FMAX - DIRENT -> 0 < inum < 2 ^ 16 -> Forall is_byte name ->
  dir_inum name (dir V (i_d x)) = None ->
  (length L + 6 < log_cap)%nat -> (length L + 7 < NBUF)%nat -> (2 <= nfree SB V)%nat ->
  exists f1 V' L' di', dirlink ip name inum f = Ok (0, f1) /\ writeable SB f1 V' L' ip (set_d di' x) /\
    (forall name', dir_inum name' (dir V' di') =
       if decide (cname name' = cname name) then Some inum else dir_inum name' (dir V (i_d x))) /\
    (forall name', exists f2, fblk f2 V' L' [] /\ fsame f1 f2 /\
       match dir_inum name' (dir V' di') with
       | Some i => exists off, dirlookup ip name' f1 = (p <- iget D i ;; ret (Some (p, off))) f2
       | None => dirlookup ip name' f1 = Ok (None, f2)
       end).
Proof.
  intros HW Hm Hi Ht Hmod Hmax Hin Hby Hnone Hc Hr Hfree. pose proof HW as [_ _ _ _ HD Hf].
  assert (Hnf : dir_find name (dir V (i_d x)) = None) by (unfold dir_inum in Hnone; by destruct (dir_find _ _)).
  destruct (dirlink_ok SB f V L ip x name inum) as (f1 & V' & L' & di' & E & HW1 & I & HL & HP & Hmod' & Hmax' & Hdir); try done; [lia|].
  pose proof HW1 as [Hb1 HS1 Hl1 Hx1 HD1 Hf1]. exists f1, V', L', di'. split; [done|]. split; [done|]. split.
  - intros name'. rewrite Hdir. pose proof (dirent_matches name name' inum Hin) as Hma. case_decide as Ec.
    + rewrite bool_decide_true in Hma by done. unfold dir_inum. rewrite dir_find_put; [cbn [fmap option_fmap option_map snd]| |done].
      * by rewrite mk_dirent_inum by lia.
      * rewrite <- Hnf. unfold dir_find. apply list_find_ext. intros de. unfold matches.
        rewrite !andb_true_iff, !Z.eqb_eq, !namecmp_eq. by rewrite Ec.
    + rewrite bool_decide_false in Hma by done. by apply dir_inum_other.
  - intros name'. assert (HR : readable SB f1 V' L' [] ip (set_d di' x)).
    { split; try done; [by apply (wq_mapped _ _ _ _ _ _ _ _ HP)|by intros ? ?%elem_of_nil|cbn; lia]. }
    destruct (wq_meta _ _ _ _ _ _ _ _ HP) as (Ht' & _).
    destruct (dirlookup_ok SB f1 V' L' [] ip (set_d di' x) name' HR Hmod') as (f2 & Hb2 & S2 & E2); [cbn; congruence|].
    exists f2. split; [done|]. split; [done|]. rewrite E2. cbn [i_d i_dev set_d]. rewrite HD. unfold dir_inum.
    destruct (dir_find name' (dir V' di')) as [[j de]|]; cbn; [by eexists|done].
Qed.
End Thm.

(** ** A file write and crashes *)

Section CrashFile.
Context (D st sz : Z) (d0 : gmap Z block) (w0 : list (Z * block)) (SB : superblock).
#[local] Instance log_geo : BlockGeom := log_geom st sz.
#[local] Instance log_laws : BlockLaws log D := log_block_laws D st sz d0 w0 1.

(** What a file is on a disk: type, links and bytes. *)
Definition file_at (R : Z -> block) (inum : Z) : Z * Z * list Z :=
  let d := disk_inode SB R inum in (d_type d, d_nlink d, frange R d 0 (d_size d)).

(** It depends only on blocks outside the log. *)
Lemma file_at_ext (V R : Z -> block) inum :
  layout_ok SB V -> valid_inum SB inum -> file_ok SB V (disk_inode SB V inum) -> d_size (disk_inode SB V inum) <= FMAX ->
  (forall m, outside st sz m -> R m = V m) -> file_at R inum = file_at V inum.
Proof.
  intros Hl Hi Hf Hsz HR. destruct (ly_inode _ _ Hl _ Hi) as (_ & [_ Hw] & _).
  assert (Ed : disk_inode SB R inum = disk_inode SB V inum) by (unfold disk_inode; by rewrite HR).
  unfold file_at. rewrite Ed. cbn zeta. apply pair_equal_spec. split; [done|]. set (d := disk_inode SB V inum) in *.
  assert (Hown : forall k, slot_ix k -> slot V d k <> 0 -> R (slot V d k) = V (slot V d k)).
  { intros k Hk Hz. apply HR. destruct (fi_data _ _ _ Hf k Hk Hz) as (_ & _ & [_ Hh] & _). done. }
  assert (Hs : forall k, slot R d k = slot V d k).
  { intros k. unfold slot. destruct (k <? NDIRECT); [done|]. destruct (k <? MAXFILE); [|done].
    fold (indirect d). destruct (Z.eqb_spec (indirect d) 0) as [E|E]; [done|]. f_equal. rewrite <- (slot_indirect V d).
    apply Hown; [split; done|done]. }
  unfold frange. apply list_fmap_ext. intros n j Hn. apply lookup_seqZ in Hn as [-> Hlt]. unfold fbyte. rewrite Hs.
  destruct (Z.eqb_spec (slot V d ((0 + Z.of_nat n) / BSIZE)) 0) as [E|E]; [done|]. rewrite Hown; [done| |done].
  pose proof (block_ix (0 + Z.of_nat n) ltac:(lia)). unfold slot_ix. lia.
Qed.

(** The state between [begin_op] and [end_op] of the only operation under way:
    nothing logged yet, and the disk up to date. *)
Definition op_started (f : fs log) (V : Z -> block) : Prop :=
  log_blk D st sz d0 w0 1 (fb f) V [] [] [].

(** C6: a [writei] inside an operation, then [commit]: wherever the machine
    stops between the first write of the commit and the end of recovery, over any
    number of reboots, the file is after the boot that completes what it was
    before the operation, or what it is after the whole write: its old bytes
    with the range replaced by the data; after an undisturbed commit the latter. *)
Theorem writei_crash_atomic copyin data f V ip x off n (T : nat) :
  let inum := i_inum x in let old := i_d x in
  op_started f V -> writeable SB f V [] ip x -> mapped V old -> valid_inum SB inum -> disk_inode SB V inum = old ->
  source_ok copyin data -> Forall is_byte data -> n = Z.of_nat (length data) -> 0 < n -> 0 <= off <= d_size old ->
  d_size old <= FMAX -> off + n <= FMAX -> turns_left off n <= Z.of_nat T -> (6 * T < cap sz)%nat -> (6 * T < NBUF)%nat ->
  (2 * T <= nfree SB V)%nat ->
  exists f1 V1 l2 ws, writei copyin ip off n f = Ok (n, f1) /\ commit (fb f1) = Ok (tt, l2) /\ dtrace (lb l2) = w0 ++ ws /\
    file_at V1 inum = (d_type old, d_nlink old, (fun i => if decide (off <= i < off + n) then data !!! Z.to_nat (i - off)
                                                          else fbyte V old i) <$> seqZ 0 (Z.max (d_size old) (off + n))) /\
    file_at (dread (dsk (lb l2))) inum = file_at V1 inum /\
    forall pre d l3, pre `prefix_of` ws -> boots D st sz (replay pre d0) d -> fresh D l3 d ->
    exists l4, initlog D st sz l3 = Ok (tt, l4) /\
      (file_at (dread (dsk (lb l4))) inum = file_at V inum \/ file_at (dread (dsk (lb l4))) inum = file_at V1 inum).
Proof.
  intros inum old Hlb HW Hm Hi Hdi Hsrc Hby Hn Hn0 Hof Hsz He HT Hc Hr Hfree.
  destruct (writei_ok SB copyin data f V [] ip x off n T) as (f1 & V1 & L1 & di' & E1 & HW1 & I1 & HL1 & HIL & HP); try done.
  destruct (wr_blk _ _ _ _ _ _ HW1) as (Hl1 & HV1 & _ & _ & _ & _ & Hd1 & Hw1).
  assert (Hne : L1 <> []) by (intros ->; by apply elem_of_nil in HIL).
  destruct (log_crash D st sz (fb f1) L1 Hl1 Hne) as (l2 & ws & E2 & Ht & Hfin & Hcr). rewrite Hd1 in Hcr. rewrite Hw1 in Ht.
  pose proof (wq_size _ _ _ _ _ _ _ _ HP) as Hs'. pose proof (wq_inode _ _ _ _ _ _ _ _ HP) as Hin'. pose proof (wq_meta _ _ _ _ _ _ _ _ HP) as (Ht' & _ & _ & Hnl').
  assert (HV0 : forall m, V m = dread d0 m).
  { destruct Hlb as (_ & HV & _ & Hcl & _ & _ & Hd & _). intros m. rewrite HV, Hcl, Hd; [done|apply not_elem_of_nil|apply not_elem_of_nil]. }
  assert (Hold : forall R, (forall m, outside st sz m -> R m = dread d0 m) -> file_at R inum = file_at V inum).
  { intros R HR. apply file_at_ext; [apply HW|done|rewrite Hdi; apply HW|by rewrite Hdi|]. intros m Hmo. by rewrite HR, HV0. }
  assert (Hnew : forall R, (forall m, outside st sz m -> R m = view D (lb (fb f1)) m) -> file_at R inum = file_at V1 inum).
  { intros R HR. apply file_at_ext; [apply HP|done|unfold inum; rewrite Hin'; apply HP|unfold inum; rewrite Hin', Hs'; unfold old in *; lia|].
    intros m Hmo. by rewrite HR, HV1. }
  exists f1, V1, l2, ws. split; [done|]. split; [done|]. split; [done|]. split; [|split; [by apply Hnew|]].
  - unfold file_at, inum. rewrite Hin', Ht', Hnl', Hs'. fold old. rewrite <- Hn. cbn zeta. apply pair_equal_spec. split; [done|].
    unfold frange. apply list_fmap_ext. intros k j Hk. apply lookup_seqZ in Hk as [-> Hlt].
    rewrite (wq_bytes _ _ _ _ _ _ _ _ HP) by lia. by rewrite <- Hn.
  - intros pre d l3 Hpre Hb Hf. destruct (Hcr pre d l3 Hpre Hb Hf) as (l4 & E4 & _ & Hor). exists l4. split; [done|].
    destruct Hor; [left; by apply Hold|right; by apply Hnew].
Qed.
End CrashFile.
