(* ===== verification/FsRefs.v ===== *)
(** The inode cache under any interleaving of the file system's operations: an
    entry counts the references that processes hold and is never given to
    another inode while one is held. *)

From S2P Require Import Prelude Sleeplock Bio BioRing BioCst Bytes Blk Fs FsIo FsIcache.

(** ** Operations that leave the identities and counts of the entries alone *)

Definition hdr (x : inode) : Z * Z * Z := (i_dev x, i_inum x, i_ref x).

Section Refs.
Context {B : Type} {ops : BlockOps B}.
Implicit Types f : fs B.

Definition ikeep {A} (m : M (fs B) A) : Prop :=
  forall f a f', m f = Ok (a, f') -> hdr <$> icache f' = hdr <$> icache f.

Lemma ikeep_ret {A} (a : A) : ikeep (ret a).
Proof. by intros f a' f' [= _ <-]. Qed.

Lemma ikeep_bind {A C} (m : M (fs B) A) (k : A -> M (fs B) C) : ikeep m -> (forall a, ikeep (k a)) -> ikeep (bind m k).
Proof. intros Hm Hk f c f' (a & f1 & E1 & E2)%bind_ok_inv. rewrite (Hk _ _ _ _ E2). by apply (Hm _ _ _ E1). Qed.

Lemma ikeep_gets {A} (g : fs B -> A) : ikeep (gets g).
Proof. by intros f a f' [= _ <-]. Qed.

Lemma ikeep_panic {A} m : ikeep (@panic (fs B) A m).
Proof. done. Qed.

Lemma ikeep_nofuel {A} : ikeep (@nofuel (fs B) A).
Proof. done. Qed.

Lemma ikeep_blkop {A} (m : M B A) : ikeep (blkop m).
Proof. intros f a f'. unfold blkop, zoom. destruct (m (fb f)) as [[b s]| | |]; [|done..]. by intros [= _ <-]. Qed.

Lemma hdr_alter g ip (l : list inode) : (forall x, hdr (g x) = hdr x) -> hdr <$> alter g ip l = hdr <$> l.
Proof.
  intros Hg. apply list_eq. intros i. rewrite !list_lookup_fmap. destruct (decide (ip = i)) as [<-|Hne].
  - rewrite list_lookup_alter_eq. destruct (l !! ip); cbn; [by rewrite Hg|done].
  - by rewrite list_lookup_alter_ne.
Qed.

Lemma ikeep_iupd ip g : (forall x, hdr (g x) = hdr x) -> ikeep (iupd ip g).
Proof. intros Hg f a f' [= _ <-]. by apply hdr_alter. Qed.

Lemma ikeep_upd_d ip g : ikeep (upd_d ip g).
Proof. by apply ikeep_iupd. Qed.

Lemma ikeep_on_ilock {A} ip (m : Z -> M sleeplock A) : ikeep (on_ilock ip m).
Proof.
  apply ikeep_bind; [apply ikeep_gets|]. intros pid f a f'. unfold zoom. destruct (m pid _) as [[b s]| | |]; [|done..].
  intros [= _ <-]. by apply hdr_alter.
Qed.

Create HintDb ikeep discriminated.
Hint Resolve ikeep_ret ikeep_gets ikeep_panic ikeep_nofuel ikeep_blkop ikeep_upd_d ikeep_on_ilock : ikeep.
Hint Extern 1 (ikeep (iupd _ _)) => (apply ikeep_iupd; done) : ikeep.
Hint Extern 1 (ikeep (iat _)) => (apply ikeep_gets) : ikeep.
Hint Extern 1 (ikeep (bdata_of _)) => (apply ikeep_gets) : ikeep.

(** Walk through the body. *)
Ltac ikeep :=
  repeat match goal with
  | |- ikeep (bind _ _) => apply ikeep_bind; [|intros ?]
  | |- ikeep (if ?b then _ else _) => destruct b
  | |- ikeep (match ?x with _ => _ end) => destruct x
  | |- ikeep (let _ := _ in _) => cbn zeta
  end; eauto with ikeep.

Lemma ikeep_bzero dev b : ikeep (bzero dev b).
Proof. unfold bzero. ikeep. Qed.
Hint Resolve ikeep_bzero : ikeep.

Lemma ikeep_balloc dev : ikeep (balloc dev).
Proof.
  assert (H : forall fuel b, ikeep (balloc_loop fuel dev b)) by (induction fuel; intros; cbn [balloc_loop]; ikeep).
  unfold balloc. ikeep.
Qed.

Lemma ikeep_bfree dev b : ikeep (bfree dev b).
Proof. unfold bfree. ikeep. Qed.
Hint Resolve ikeep_balloc ikeep_bfree : ikeep.

Lemma ikeep_iupdate ip : ikeep (iupdate ip).
Proof. unfold iupdate. ikeep. Qed.

Lemma ikeep_bmap ip bn : ikeep (bmap ip bn).
Proof. unfold bmap. ikeep. Qed.
Hint Resolve ikeep_iupdate ikeep_bmap : ikeep.

Lemma ikeep_itrunc ip : ikeep (itrunc ip).
Proof.
  assert (H1 : forall k i, ikeep (itrunc_direct k ip i)) by (induction k; intros; cbn [itrunc_direct]; ikeep).
  assert (H2 : forall k dev bp j, ikeep (itrunc_indirect k dev bp j)) by (induction k; intros; cbn [itrunc_indirect]; ikeep).
  unfold itrunc. ikeep.
Qed.
Hint Resolve ikeep_itrunc : ikeep.

Lemma ikeep_ilock ip : ikeep (ilock ip).
Proof. unfold ilock. ikeep. Qed.

Lemma ikeep_iunlock ip : ikeep (iunlock ip).
Proof. unfold iunlock. ikeep. Qed.
Hint Resolve ikeep_ilock ikeep_iunlock : ikeep.

Lemma ikeep_readi copyout ip off n : (forall t b, ikeep (copyout t b)) -> ikeep (readi copyout ip off n).
Proof.
  intros Hc. assert (H : forall fuel n tot off acc, ikeep (readi_loop fuel copyout ip n tot off acc))
    by (induction fuel; intros; cbn [readi_loop]; ikeep).
  unfold readi. ikeep.
Qed.

Lemma ikeep_writei copyin ip off n : (forall t m, ikeep (copyin t m)) -> ikeep (writei copyin ip off n).
Proof.
  intros Hc. assert (H : forall fuel tot off, ikeep (writei_loop fuel copyin ip n tot off))
    by (induction fuel; intros; cbn [writei_loop]; ikeep).
  unfold writei. ikeep.
Qed.

(** ** Interleavings *)

(** The cache and the references held, each with the inode it was taken for. *)
Notation held := (list (nat * (Z * Z))).

Inductive istep : fs B * held -> fs B * held -> Prop :=
| istep_iget f R dev inum ip f' : iget dev inum f = Ok (ip, f') -> istep (f, R) (f', (ip, (dev, inum)) :: R)
| istep_idup f R ip k ip' f' : (ip, k) ∈ R -> idup ip f = Ok (ip', f') -> istep (f, R) (f', (ip', k) :: R)
| istep_iput f R1 ip k R2 f' : iput ip f = Ok (tt, f') -> istep (f, R1 ++ (ip, k) :: R2) (f', R1 ++ R2)
| istep_keep A (m : M (fs B) A) f R a f' : ikeep m -> m f = Ok (a, f') -> istep (f, R) (f', R).

Fixpoint count (ip : nat) (R : held) : Z :=
  match R with [] => 0 | (i, _) :: R' => (if decide (i = ip) then 1 else 0) + count ip R' end.

Lemma count_app ip R1 R2 : count ip (R1 ++ R2) = count ip R1 + count ip R2.
Proof. induction R1 as [|[i k] R1 IH]; cbn; [done|]. rewrite IH. lia. Qed.

Lemma count_pos ip R : 0 <= count ip R.
Proof. induction R as [|[i k] R IH]; cbn; [lia|]. case_decide; lia. Qed.

Lemma count_elem ip k R : (ip, k) ∈ R -> 0 < count ip R.
Proof.
  induction R as [|[i k'] R IH]; [by intros ?%elem_of_nil|]. cbn. pose proof (count_pos ip R).
  intros [[= -> ->]|Hin]%elem_of_cons; [rewrite decide_True by done; lia|]. specialize (IH Hin). case_decide; lia.
Qed.

Definition refs_inv (s : fs B * held) : Prop :=
  icache_ok (icache s.1) /\ (forall ip x, icache s.1 !! ip = Some x -> i_ref x = count ip s.2) /\
  (forall ip k, (ip, k) ∈ s.2 -> exists x, icache s.1 !! ip = Some x /\ key x = k).

Lemma hdr_lookup (l l' : list inode) i x : hdr <$> l' = hdr <$> l -> l' !! i = Some x -> exists y, l !! i = Some y /\ hdr y = hdr x.
Proof.
  intros E Hx. assert (H : (hdr <$> l') !! i = Some (hdr x)) by (by rewrite list_lookup_fmap, Hx).
  rewrite E in H. apply list_lookup_fmap_Some in H as (y & ? & Hy). by exists y.
Qed.

Lemma refs_inv_keep f f' R : hdr <$> icache f' = hdr <$> icache f -> refs_inv (f, R) -> refs_inv (f', R).
Proof.
  intros E ([Hp Hu] & Hc & Hk). cbn in *. split; [split|split].
  - apply Forall_lookup. intros i x Hi. destruct (hdr_lookup _ _ _ _ E Hi) as (y & Hy & [= _ _ <-]). rewrite Forall_lookup in Hp. by apply (Hp i).
  - intros i j x y Hi Hj Hx Hy Hxy. destruct (hdr_lookup _ _ _ _ E Hi) as (x0 & Hi0 & [= E1 E2 E3]).
    destruct (hdr_lookup _ _ _ _ E Hj) as (y0 & Hj0 & [= E4 E5 E6]). apply (Hu i j x0 y0); try done; try lia.
    unfold key in *. congruence.
  - intros ip x Hi. cbn in Hi. destruct (hdr_lookup _ _ _ _ E Hi) as (y & Hy & [= _ _ <-]). by apply Hc.
  - intros ip k Hin. destruct (Hk ip k Hin) as (x & Hx & <-). symmetry in E. destruct (hdr_lookup _ _ _ _ E Hx) as (y & Hy & [= H1 H2 _]).
    exists y. split; [done|]. unfold key. congruence.
Qed.

(** One entry's count changes along with the references held to it. *)
Lemma refs_inv_set f R R' ip x x' :
  refs_inv (f, R) -> icache f !! ip = Some x -> icache_ok (<[ip := x']> (icache f)) ->
  i_ref x' = count ip R' -> (forall i, i <> ip -> count i R' = count i R) ->
  (forall i k, (i, k) ∈ R' -> if decide (i = ip) then key x' = k else (i, k) ∈ R) ->
  refs_inv (set_icache (<[ip := x']> (icache f)) f, R').
Proof.
  intros (Hok & Hc & Hk) Hx Hok' Hr Hne Hin. cbn in *. split; [done|]. split.
  - intros i y Hi. cbn in Hi. apply list_lookup_insert_Some in Hi as [(-> & <- & _)|[Hn Hi]]; [done|]. rewrite Hne by done. by apply Hc.
  - intros i k Hik. cbn in Hik. specialize (Hin i k Hik). cbn. case_decide as E.
    + subst i. exists x'. split; [|done]. apply list_lookup_insert_eq. by apply lookup_lt_Some in Hx.
    + rewrite list_lookup_insert_ne by done. by apply Hk.
Qed.

Lemma refs_inv_step s s' : istep s s' -> refs_inv s -> refs_inv s'.
Proof.
  destruct 1 as [f R dev inum ip f' E|f R ip k ip' f' Hin E|f R1 ip k R2 f' E|A m f R a f' Hm E]; intros Hinv;
    pose proof Hinv as (Hok & Hc & Hk); cbn [fst snd] in *.
  - pose proof (iget_ok dev inum f Hok) as HP. rewrite E in HP. destruct HP as ((Hok' & _ & Hfb & Hsb) & x & x' & Hx & Hi & Hkey & Hr & Hl & Hz).
    assert (f' = set_icache (<[ip := x']> (icache f)) f) as -> by (destruct f as [a1 a2 a3], f' as [c1 c2 c3]; unfold set_icache; cbn in *; subst; done).
    rewrite (Hc ip x Hx) in *. apply (refs_inv_set f R _ ip x); try done.
    + cbn. rewrite decide_True by done. pose proof (refs_pos (icache f) (dev, inum) (proj1 Hok)) as H0.
      destruct (decide (0 < refs (icache f) (dev, inum))) as [Hp|Hp].
      * rewrite (Hl Hp). cbn. lia.
      * destruct (Hz ltac:(lia)) as [Hz0 _]. lia.
    + intros i Hne. cbn. by rewrite decide_False.
    + intros i k [[= -> ->]|Hik]%elem_of_cons; [by rewrite decide_True|]. case_decide as Ei; [|done]. subst i.
      destruct (Hk ip k Hik) as (y & Hy & <-). assert (y = x) as -> by congruence. pose proof (count_elem _ _ _ Hik).
      destruct (decide (0 < refs (icache f) (dev, inum))) as [Hp|Hp]; [by rewrite (Hl Hp)|].
      pose proof (refs_pos (icache f) (dev, inum) (proj1 Hok)). destruct (Hz ltac:(lia)). lia.
  - destruct (Hk ip k Hin) as (x & Hx & <-). pose proof (count_elem _ _ _ Hin) as Hpos. rewrite <- (Hc ip x Hx) in Hpos.
    unfold idup in E. rewrite (bind_ok _ _ _ _ _ (iupd_at f ip _ x Hx)) in E. injection E as <- <-.
    apply (refs_inv_set f R _ ip x); try done.
    + apply (ref_change f ip x 1 Hok Hx); lia.
    + cbn. rewrite decide_True, (Hc ip x Hx) by done. lia.
    + intros i Hne. cbn. by rewrite decide_False.
    + intros i k [[= -> ->]|Hik]%elem_of_cons; [by rewrite decide_True|]. case_decide as Ei; [|done]. subst i.
      destruct (Hk ip k Hik) as (y & Hy & <-). by simplify_eq.
  - assert (Hin : (ip, k) ∈ R1 ++ (ip, k) :: R2) by set_solver. unfold iput in E. apply bind_ok_inv in E as (x0 & f0 & [= <- <-] & E).
    apply bind_ok_inv in E as (u & f1 & E1 & E2).
    assert (Hh : hdr <$> icache f1 = hdr <$> icache f).
    { revert E1. match goal with |- ?m f = _ -> _ => assert (Hm : ikeep m) by ikeep end. apply Hm. }
    pose proof (refs_inv_keep _ _ _ Hh Hinv) as Hinv1. pose proof Hinv1 as (Hok1 & Hc1 & Hk1). cbn in *.
    destruct (Hk1 ip k Hin) as (x & Hx & <-). pose proof (count_elem _ _ _ Hin) as Hpos. pose proof (Hc1 ip x Hx) as Hr.
    rewrite (iupd_at f1 ip _ x Hx) in E2. injection E2 as <-.
    apply (refs_inv_set f1 (R1 ++ (ip, key x) :: R2) _ ip x); try done.
    + apply (ref_change f1 ip x (-1) Hok1 Hx); lia.
    + cbn. rewrite Hr, !count_app. cbn. rewrite decide_True by done. lia.
    + intros i Hne. rewrite !count_app. cbn. by rewrite decide_False.
    + intros i k Hik. assert (Hik' : (i, k) ∈ R1 ++ (ip, key x) :: R2) by set_solver. case_decide as Ei; [|done]. subst i.
      destruct (Hk1 ip k Hik') as (y & Hy & <-). by simplify_eq.
  - by apply (refs_inv_keep f), Hinv; apply (Hm _ _ _ E).
Qed.
End Refs.

(** C17: from an inode cache without references, under any interleaving of
    [iget], [idup], [iput] (also the one that frees the inode) and operations
    that keep the entries' identities, such as [ilock], [readi], [writei], a held
    reference stays with an entry of the inode it was taken for, two references
    to one inode are to the same entry, and each entry counts the references
    held to it. *)
Theorem inode_references {B : Type} {ops : BlockOps B} (f0 f : fs B) R :
  Forall (fun x => i_ref x = 0) (icache f0) -> rtc istep (f0, []) (f, R) ->
  (forall ip k, (ip, k) ∈ R -> exists x, icache f !! ip = Some x /\ key x = k /\ 0 < i_ref x) /\
  (forall ip ip' k, (ip, k) ∈ R -> (ip', k) ∈ R -> ip = ip') /\
  (forall ip x, icache f !! ip = Some x -> i_ref x = count ip R).
Proof.
  intros H0 Hs. assert (Hinv : refs_inv (f, R)).
  { apply (rtc_ind_r (fun s => refs_inv s) (f0, [])) with (z := (f, R)) in Hs; [done| |].
    - split; [split|split].
      + eapply Forall_impl; [done|]. intros x ->. done.
      + intros i j x y Hi Hj Hx. rewrite Forall_lookup in H0. rewrite (H0 i x Hi) in Hx. lia.
      + intros ip x Hi. rewrite Forall_lookup in H0. by apply (H0 ip).
      + by intros ip k ?%elem_of_nil.
    - intros y z _ Hst IH. by apply (refs_inv_step y). }
  destruct Hinv as ([Hp Hu] & Hc & Hk). cbn in *.
  assert (Hpos : forall ip k, (ip, k) ∈ R -> exists x, icache f !! ip = Some x /\ key x = k /\ 0 < i_ref x).
  { intros ip k Hin. destruct (Hk ip k Hin) as (x & Hx & E). exists x. split; [done|]. split; [done|].
    rewrite (Hc ip x Hx). by apply (count_elem _ k). }
  split; [done|]. split; [|done]. intros ip ip' k H1 H2. destruct (Hpos _ _ H1) as (x & Hx & Ex & Px), (Hpos _ _ H2) as (y & Hy & Ey & Py).
  apply (Hu ip ip' x y); congruence.
Qed.
