(* ===== verification/FsExample.v ===== *)
(** A small file system on the log, the witness of the file system's theorems:
    100 blocks, the log in blocks 2-31, the inodes in block 32, the free map in
    block 33, and one file of 5 bytes in block 34. *)

From S2P Require Import Prelude Sleeplock Bio BioRing BioSpec BioCst Bytes Log LogSpec LogRun LogThm LogOp Blk LogExample.
From S2P Require Import Fs FsIo FsBlock FsMap FsFile FsWrite FsTrunc FsIcache FsPath FsDir FsThm FsRefs.

Definition ex_sb : superblock := mksb 0 100 66 16 30 2 32 33.
Definition ex_di : dinode := mkdinode 2 0 0 0 5 (34 :: replicate 12 0).
Definition ex_dir_di : dinode := mkdinode T_DIR 0 0 1 0 (replicate 13 0).
Definition ex_inodes : block := write_dinode (write_dinode zero_block (dinode_off 1) ex_dir_di) (dinode_off 2) ex_di.
Definition ex_map : block := splice zero_block 0 [255; 255; 255; 255; 7].
Definition ex_disk : gmap Z block := <[34 := splice zero_block 0 [104; 101; 108; 108; 111]]> (<[33 := ex_map]> (<[32 := ex_inodes]> ∅)).

(** The cache after [binit], the log after [initlog] and [begin_op]. *)
Definition ex_bst : bst := mkbst (replicate (S NBUF) buf0) 7 ex_disk [].
Definition ex_off : log :=
  mklog (match binit ex_bst with Ok (_, s) => s | _ => ex_bst end) 0 0 0 false 0 0 (replicate (Z.to_nat LOGSIZE) 0).
Definition ex_on : log := match (initlog 1 2 30 ;;; begin_op) ex_off with Ok (_, l) => l | _ => ex_off end.

Definition ex_ino (inum : Z) (d : dinode) : inode := mkinode 1 inum 1 initsleeplock true d.
Definition ex_fs (inum : Z) (d : dinode) : fs log := mkfs ex_on [ex_ino inum d] ex_sb.
Definition ex_view : Z -> block := dread (dsk (lb ex_on)).

Lemma ex_disk_wf : disk_wf ex_disk.
Proof.
  unfold ex_disk. apply disk_wf_insert; [apply disk_wf_insert; [apply disk_wf_insert; [apply disk_wf_empty|]|]|].
  - apply write_dinode_wf; [apply write_dinode_wf; [apply wf_zero|done|apply dinode_off_range]|done|apply dinode_off_range].
  - apply splice_wf; [apply wf_zero| |cbn; unfold BSIZE; lia]. unfold is_byte. repeat constructor; lia.
  - apply splice_wf; [apply wf_zero| |cbn; unfold BSIZE; lia]. unfold is_byte. repeat constructor; lia.
Qed.

Lemma ex_fresh_fs : fresh 1 ex_off ex_disk.
Proof.
  destruct (cache_binit 1 ex_bst) as (s' & E & HC & Hd & Hp); [done|reflexivity|].
  unfold ex_off. rewrite E. split; [exact HC|]. split; [exact Hd|]. reflexivity.
Qed.

Lemma ex_on_ok : log_blk 1 2 30 (dsk (lb ex_on)) (dtrace (lb ex_on)) 1 ex_on ex_view [] [] [] /\
  forall m, m <> 2 -> ex_view m = dread ex_disk m.
Proof.
  assert (Hh : head_ok 2 30 (dread ex_disk 2)) by (apply head_ok_nil; [apply ex_geom|reflexivity|reflexivity]).
  destruct (initlog_ok 1 2 30 ex_off ex_disk ex_geom ex_fresh_fs Hh) as (l1 & E1 & (_ & W1 & _) & Hl1 & Ho1 & Hc1).
  change (outstanding ex_off) with 0 in Ho1. change (committing ex_off) with false in Hc1.
  assert (Hd1 : dsk (lb l1) = <[2 := wr32 (dread ex_disk 2) 0 0]> ex_disk).
  { rewrite W1. destruct ex_fresh_fs as (_ & Hd & _). rewrite Hd. reflexivity. }
  pose proof (begin_op_ok 1 2 30 l1 [] [] Hl1 Hc1 ltac:(rewrite Ho1, (lo_n _ _ _ _ _ _ Hl1); done)) as E2.
  unfold ex_view, ex_on. rewrite (bind_ok _ _ _ _ _ E1), E2.
  split.
  - rewrite Ho1. apply (log_blk_start 1 2 30 (set_outstanding (0 + 1) l1)); [by apply log_ok_outstanding| |cbn; lia|done]. cbn. rewrite Hd1.
    apply disk_wf_insert; [apply ex_disk_wf|]. apply wr32_wf; [apply ex_disk_wf|unfold BSIZE; lia].
  - intros m Hm. cbn. rewrite Hd1, dread_insert. by rewrite decide_False.
Qed.

#[local] Opaque ex_on ex_view.

(** ** The layout, by computation on the disk *)

Lemma ex_range (P : Z -> bool) n : forallb P (seqZ 0 n) = true -> forall b, 0 <= b < n -> P b = true.
Proof. intros H b Hb. rewrite forallb_forall in H. apply H. apply list_elem_of_In, elem_of_seqZ. lia. Qed.

#[local] Instance ex_geo : BlockGeom := log_geom 2 30.
#[local] Instance ex_laws : BlockLaws log 1 := log_block_laws 1 2 30 (dsk (lb ex_on)) (dtrace (lb ex_on)) 1.

Lemma ex_bblock b : in_disk ex_sb b -> BBLOCK b ex_sb = 33.
Proof. unfold in_disk, BBLOCK, BPB, BSIZE. cbn. lia. Qed.

Lemma ex_iblock i : valid_inum ex_sb i -> IBLOCK i ex_sb = 32.
Proof. unfold valid_inum, IBLOCK. change IPB with 16. cbn. lia. Qed.

Lemma ex_used b : in_disk ex_sb b -> used ex_sb ex_view b = (b <=? 34).
Proof.
  intros Hb. unfold used. rewrite ex_bblock by done. destruct ex_on_ok as (_ & Hv). rewrite Hv by done.
  apply eqb_prop. apply (ex_range (fun b => eqb (bit_set (dread ex_disk 33) (b mod BPB)) (b <=? 34)) 100); [vm_compute; reflexivity|done].
Qed.

Lemma ex_alloc : alloc_ok ex_sb ex_view.
Proof.
  split; [done| |].
  - intros b Hb. rewrite ex_bblock by done. split; [done|]. split; [unfold writable; cbn; split; lia|]. by rewrite ex_used.
  - intros b Hb. rewrite ex_used by done. intros E%Z.leb_gt. split; [unfold in_disk, ex_sb in Hb; cbn in Hb|]; lia.
Qed.

Lemma ex_plain m : 0 <= m < 100 -> m <> 33 -> plain ex_sb m.
Proof. intros Hm Hne. split; [done|]. intros b Hb. by rewrite ex_bblock. Qed.

Lemma ex_layout : layout_ok ex_sb ex_view.
Proof.
  split; [apply ex_alloc|by rewrite ex_used| |done|done].
  intros i Hi. rewrite ex_iblock by done. split; [by apply ex_plain|]. split; [split; lia|]. by rewrite ex_used.
Qed.

Lemma ex_free : (2 <= nfree ex_sb ex_view)%nat.
Proof.
  assert (Hs : [35; 36] ⊆+ free_blocks ex_sb ex_view).
  { apply NoDup_submseteq; [apply NoDup_ListNoDup; repeat constructor; cbn; lia|].
    intros b Hb. apply elem_of_free. assert (b = 35 \/ b = 36) as [->| ->] by set_solver; (split; [done|by rewrite ex_used]). }
  by apply submseteq_length in Hs.
Qed.

(** ** The file *)

Lemma ex_slot V k : slot_ix k -> slot V ex_di k = if k =? 0 then 34 else 0.
Proof.
  intros Hk. unfold slot. change (d_addrs ex_di !!! Z.to_nat NDIRECT) with 0. cbn zeta. rewrite Z.eqb_refl.
  destruct (Z.ltb_spec k NDIRECT) as [E|E].
  - assert (Hc : k = 0 \/ 0 < k) by (unfold slot_ix in Hk; lia). destruct Hc as [->|Hp]; [done|].
    rewrite (proj2 (Z.eqb_neq _ _)) by lia. cbn [ex_di d_addrs]. replace (Z.to_nat k) with (S (Z.to_nat (k - 1))) by lia.
    change ((34 :: replicate 12 0) !!! S (Z.to_nat (k - 1))) with (replicate 12 0 !!! Z.to_nat (k - 1)).
    apply lookup_total_replicate_2. change NDIRECT with 12 in E. lia.
  - change NDIRECT with 12 in E. rewrite (proj2 (Z.eqb_neq _ _)) by lia. by destruct (k <? MAXFILE).
Qed.

Lemma ex_file : file_ok ex_sb ex_view ex_di.
Proof.
  split.
  - split; try (cbn; lia). cbn. repeat constructor; lia.
  - intros k Hk. rewrite ex_slot by done. destruct (k =? 0); [|done]. intros _. split; [by apply ex_plain|].
    split; [by rewrite ex_used|]. split; [split; lia|]. split; [done|]. intros i Hi. by rewrite ex_iblock.
  - intros k k' Hk Hk'. rewrite !ex_slot by done. destruct (Z.eqb_spec k 0), (Z.eqb_spec k' 0); done || lia.
Qed.

Lemma ex_writeable : writeable ex_sb (ex_fs 2 ex_di) ex_view [] 0 (ex_ino 2 ex_di).
Proof. split; [apply ex_on_ok|done|apply ex_layout|done|done|apply ex_file]. Qed.

Lemma ex_mapped : mapped ex_view ex_di.
Proof. intros bn H0 Hlt. cbn [ex_di d_size] in Hlt. change BSIZE with 1024 in Hlt. assert (bn = 0) as -> by lia. done. Qed.

Lemma balloc_then_bfree_witness :
  exists n f1 f2, balloc 1 (ex_fs 2 ex_di) = Ok (n, f1) /\ n = 35 /\ bfree 1 n f1 = Ok (tt, f2) /\
    bfree 1 n f2 = Panic "freeing free block".
Proof.
  assert (H35 : in_disk ex_sb 35) by done.
  destruct (balloc_then_bfree ex_sb (ex_fs 2 ex_di) ex_view []) as (n & f1 & f2 & V1 & V2 & L1 & L2 & E1 & Hn & Hu & Hlow & _ & _ & _ & _ & E2 & _ & _ & _ & E3).
  - apply ex_on_ok.
  - reflexivity.
  - apply ex_alloc.
  - exists 50. split; [done|]. by rewrite ex_used.
  - cbn. unfold cap, LOGSIZE, MAXOPBLOCKS. lia.
  - cbn. unfold NBUF. lia.
  - exists n, f1, f2. split; [exact E1|]. split; [|split; [exact E2|exact E3]].
    rewrite ex_used in Hu by exact Hn. apply Z.leb_gt in Hu. destruct (Z.eq_dec n 35) as [|Hne]; [assumption|].
    assert (Hk : used ex_sb ex_view 35 = true) by (apply Hlow; clear -Hu Hne; lia). rewrite (ex_used 35 H35) in Hk.
    clear -Hk. discriminate Hk.
Defined.

Lemma writei_then_readi_witness :
  exists f1 f2, writei (from_kernel [72; 73]) 0 3 2 (ex_fs 2 ex_di) = Ok (2, f1) /\ readi to_kernel 0 3 2 f1 = Ok ((2, [72; 73]), f2).
Proof.
  destruct (writei_then_readi ex_sb (from_kernel [72; 73]) to_kernel [72; 73] (ex_fs 2 ex_di) ex_view [] 0 (ex_ino 2 ex_di) 3 2 1)
    as (f1 & f2 & V' & L' & di' & E1 & _ & _ & _ & _ & _ & E2 & _); try (cbn; lia).
  - apply ex_writeable.
  - apply ex_mapped.
  - done.
  - apply from_kernel_ok.
  - apply to_kernel_ok.
  - unfold is_byte. repeat constructor; lia.
  - done.
  - done.
  - done.
  - unfold log_cap. cbn. unfold cap, LOGSIZE, MAXOPBLOCKS. lia.
  - unfold NBUF. cbn. lia.
  - apply ex_free.
  - exists f1, f2. split; [exact E1|exact E2].
Defined.

Lemma iput_frees_unlinked_witness :
  exists f' V', iput 0 (ex_fs 2 ex_di) = Ok (tt, f') /\ d_type (disk_inode ex_sb V' 2) = 0 /\ used ex_sb V' 34 = false.
Proof.
  assert (H34 : in_disk ex_sb 34) by done.
  destruct (iput_frees_unlinked ex_sb [33] (ex_fs 2 ex_di) ex_view [] 0 (ex_ino 2 ex_di))
    as (f' & V' & L' & x' & E & _ & _ & _ & _ & _ & Ht & Hu & _); try reflexivity.
  - intros b Hb. rewrite (ex_bblock b Hb). by left.
  - unfold log_cap. cbn. unfold cap, LOGSIZE, MAXOPBLOCKS. lia.
  - unfold NBUF. cbn. lia.
  - apply ex_writeable.
  - done.
  - exists f', V'. split; [exact E|]. split; [exact Ht|]. apply not_true_iff_false. rewrite (Hu 34 H34). intros [_ Hn].
    apply Hn. split; [discriminate|]. exists 0. split; [split; discriminate|reflexivity].
Defined.

Lemma ex_dir_writeable : writeable ex_sb (ex_fs 1 ex_dir_di) ex_view [] 0 (ex_ino 1 ex_dir_di).
Proof.
  split; [apply ex_on_ok|done|apply ex_layout|done|done|]. apply (emptied_ok ex_sb ex_view ex_dir_di).
  split; try (cbn; unfold T_DIR; lia). cbn. repeat constructor; lia.
Qed.

Lemma dirlink_then_dirlookup_witness :
  exists f1 V' di', dirlink 0 [97] 2 (ex_fs 1 ex_dir_di) = Ok (0, f1) /\ dir_inum [97] (dir V' di') = Some 2 /\ dir_inum [98] (dir V' di') = None.
Proof.
  destruct (dirlink_then_dirlookup ex_sb (ex_fs 1 ex_dir_di) ex_view [] 0 (ex_ino 1 ex_dir_di) [97] 2)
    as (f1 & V' & L' & di' & E & _ & Hd & _); try reflexivity.
  - apply ex_dir_writeable.
  - intros bn H0 Hlt. cbn in Hlt. change BSIZE with 1024 in Hlt. lia.
  - done.
  - done.
  - done.
  - unfold is_byte. repeat constructor; lia.
  - unfold log_cap. cbn. unfold cap, LOGSIZE, MAXOPBLOCKS. lia.
  - unfold NBUF. cbn. lia.
  - apply ex_free.
  - exists f1, V', di'. split; [exact E|]. rewrite !Hd. split; reflexivity.
Defined.

Lemma writei_crash_atomic_witness :
  exists f1 V1 l2 ws, writei (from_kernel [72; 73]) 0 3 2 (ex_fs 2 ex_di) = Ok (2, f1) /\ commit (fb f1) = Ok (tt, l2) /\
    dtrace (lb l2) = dtrace (lb ex_on) ++ ws /\ file_at ex_sb V1 2 = (2, 0, [104; 101; 108; 72; 73]).
Proof.
  destruct (writei_crash_atomic 1 2 30 (dsk (lb ex_on)) (dtrace (lb ex_on)) ex_sb (from_kernel [72; 73]) [72; 73] (ex_fs 2 ex_di) ex_view 0
    (ex_ino 2 ex_di) 3 2 1) as (f1 & V1 & l2 & ws & E1 & E2 & E3 & Ef & _).
  - apply ex_on_ok.
  - apply ex_writeable.
  - apply ex_mapped.
  - done.
  - unfold disk_inode. change (IBLOCK (i_inum (ex_ino 2 ex_di)) ex_sb) with 32. rewrite (proj2 ex_on_ok 32) by done. vm_compute. reflexivity.
  - apply from_kernel_ok.
  - unfold is_byte. repeat constructor; lia.
  - done.
  - done.
  - done.
  - done.
  - done.
  - done.
  - unfold cap, LOGSIZE, MAXOPBLOCKS. cbn. lia.
  - unfold NBUF. cbn. lia.
  - apply ex_free.
  - exists f1, V1, l2, ws. split; [exact E1|]. split; [exact E2|]. split; [exact E3|]. refine (eq_trans Ef _). clear.
    change (seqZ 0 _) with [0; 1; 2; 3; 4]. cbn [fmap list_fmap]. unfold fbyte. cbn [i_d ex_ino].
    rewrite !(proj2 ex_on_ok) by done. vm_compute. reflexivity.
Defined.

Definition ex_idle : fs log := mkfs ex_on (replicate 2 (mkinode 0 0 0 initsleeplock false ex_di)) ex_sb.

(** Two references to inode 2 of device 1. *)
Lemma inode_references_witness :
  exists f, rtc istep (ex_idle, []) (f, [(0%nat, (1, 2)); (0%nat, (1, 2))]) /\
    exists x, icache f !! 0%nat = Some x /\ key x = (1, 2) /\ i_ref x = 2.
Proof.
  eexists. assert (Hs : rtc istep (ex_idle, [])
    (mkfs ex_on [mkinode 1 2 2 initsleeplock false ex_di; mkinode 0 0 0 initsleeplock false ex_di] ex_sb, [(0%nat, (1, 2)); (0%nat, (1, 2))])).
  { eapply rtc_l; [apply (istep_iget _ _ 1 2); reflexivity|]. eapply rtc_l; [apply (istep_idup _ _ 0 (1, 2)); [by left|reflexivity]|]. apply rtc_refl. }
  assert (H0 : Forall (fun x => i_ref x = 0) (replicate 2 (mkinode 0 0 0 initsleeplock false ex_di))) by (by apply Forall_replicate).
  split; [exact Hs|]. destruct (inode_references ex_idle _ _ H0 Hs) as (H1 & _ & H3).
  eexists. split; [reflexivity|]. split; [reflexivity|]. exact (H3 0%nat _ eq_refl).
Defined.
