(* ===== verification/Pipe.v ===== *)
(** kernel/pipe.c: the ring buffer of a pipe.  [sleep] gives up the lock, so
    [pipewrite] and [piperead] are sequences of atomic sections: a section runs
    until it returns or sleeps, and a woken thread starts its next section at the
    test it slept in.  The channels are [&pi->nread] and [&pi->nwrite]. *)

From S2P Require Import Prelude.

Definition PIPESIZE : Z := 512.

Record pipe := mkpipe {
  pdata : list Z; nread : Z; nwrite : Z; readopen : bool; writeopen : bool
}.

Inductive chan := Cread | Cwrite.

#[export] Instance chan_eq_dec : EqDecision chan.
Proof. solve_decision. Defined.

(** The pipe, the channels on which [wakeup] was called in the section, and the
    bytes put in and taken out so far. *)
Record pst := mkpst { pi : pipe; woken : list chan; pin : list Z; pout : list Z }.

Definition set_pi (p : pipe) (s : pst) : pst := mkpst p (woken s) (pin s) (pout s).
Definition wakeup (c : chan) : M pst unit := modify (fun s => mkpst (pi s) (woken s ++ [c]) (pin s) (pout s)).

(** How a section ends: the function returns, or sleeps with loop counter [i]. *)
Inductive section := Done (r : Z) | Sleep (i : Z).

Definition pipe_full (p : pipe) : bool := nwrite p =? u32 (nread p + PIPESIZE).
Definition pipe_empty (p : pipe) : bool := nread p =? nwrite p.

(** [pi->data[pi->nwrite++ % PIPESIZE] = ch] *)
Definition put_byte (ch : Z) : M pst unit :=
  modify (fun s => let p := pi s in
    mkpst (mkpipe (<[Z.to_nat (nwrite p mod PIPESIZE) := ch]> (pdata p)) (nread p) (u32 (nwrite p + 1)) (readopen p) (writeopen p))
      (woken s) (pin s ++ [ch]) (pout s)).

(** [ch = pi->data[pi->nread++ % PIPESIZE]] *)
Definition take_byte : M pst Z :=
  fun s => let p := pi s in
    let ch := pdata p !!! Z.to_nat (nread p mod PIPESIZE) in
    Ok (ch, mkpst (mkpipe (pdata p) (u32 (nread p + 1)) (nwrite p) (readopen p) (writeopen p)) (woken s) (pin s) (pout s ++ [ch])).

(** [pipealloc]'s part for the pipe itself; the file structures are in File.v. *)
Definition pipe_init (data : list Z) : pipe := mkpipe data 0 0 true true.

(** The section of [pipewrite] from iteration [i] with [k = n - i] to go; [copyin i]
    is the byte at [addr + i], [None] when the copy fails. *)
Fixpoint pipewrite_loop (k : nat) (copyin : Z -> option Z) (killed : bool) (i : Z) : M pst section :=
  match k with
  | O => wakeup Cread ;;; ret (Done i)
  | S k' =>
      p <- gets pi ;;
      if pipe_full p then
        if negb (readopen p) || killed then ret (Done (-1))
        else wakeup Cread ;;; ret (Sleep i)
      else
        match copyin i with
        | None => wakeup Cread ;;; ret (Done i)
        | Some ch => put_byte ch ;;; pipewrite_loop k' copyin killed (i + 1)
        end
  end.

Definition pipewrite (copyin : Z -> option Z) (killed : bool) (n i : Z) : M pst section :=
  pipewrite_loop (Z.to_nat (n - i)) copyin killed i.

(** The copying loop of [piperead]; [copyout i ch] stores the byte at [addr + i]. *)
Fixpoint piperead_loop (k : nat) (copyout : Z -> Z -> bool) (i : Z) : M pst Z :=
  match k with
  | O => ret i
  | S k' =>
      p <- gets pi ;;
      if pipe_empty p then ret i else
      ch <- take_byte ;;
      if negb (copyout i ch) then ret i else piperead_loop k' copyout (i + 1)
  end.

Definition piperead (copyout : Z -> Z -> bool) (killed : bool) (n : Z) : M pst section :=
  p <- gets pi ;;
  if pipe_empty p && writeopen p then
    if killed then ret (Done (-1)) else ret (Sleep 0)
  else
    i <- piperead_loop (Z.to_nat n) copyout 0 ;;
    wakeup Cwrite ;;;
    ret (Done i).

(** [true] when the page is given back with [kfree]. *)
Definition pipeclose (writable : bool) : M pst bool :=
  (if writable then
     modify (fun s => let p := pi s in set_pi (mkpipe (pdata p) (nread p) (nwrite p) (readopen p) false) s) ;;;
     wakeup Cread
   else
     modify (fun s => let p := pi s in set_pi (mkpipe (pdata p) (nread p) (nwrite p) false (writeopen p)) s) ;;;
     wakeup Cwrite) ;;;
  gets (fun s => negb (readopen (pi s)) && negb (writeopen (pi s))).

(** ** The bytes in the pipe *)

Definition qlen (p : pipe) : Z := u32 (nwrite p - nread p).
Definition queue (p : pipe) : list Z := (fun k => pdata p !!! Z.to_nat ((nread p + k) mod PIPESIZE)) <$> seqZ 0 (qlen p).

(** The counters are 32-bit, at most a buffer apart, and the log of bytes is right. *)
Record pipe_ok (s : pst) : Prop := mkpipe_ok {
  po_len : length (pdata (pi s)) = Z.to_nat PIPESIZE;
  po_r : 0 <= nread (pi s) < 2 ^ 32; po_w : 0 <= nwrite (pi s) < 2 ^ 32;
  po_q : qlen (pi s) <= PIPESIZE;
  po_fifo : pin s = pout s ++ queue (pi s)
}.

Lemma length_queue p : length (queue p) = Z.to_nat (qlen p).
Proof. unfold queue. by rewrite length_fmap, length_seqZ. Qed.

Lemma full_spec p : 0 <= nread p < 2 ^ 32 -> 0 <= nwrite p < 2 ^ 32 -> qlen p <= PIPESIZE -> pipe_full p = (qlen p =? PIPESIZE).
Proof.
  unfold pipe_full, qlen, u32, PIPESIZE. change (2 ^ 32) with 4294967296. intros Hr Hw Hq. apply eq_true_iff_eq. rewrite !Z.eqb_eq. lia.
Qed.

Lemma empty_spec p : 0 <= nread p < 2 ^ 32 -> 0 <= nwrite p < 2 ^ 32 -> pipe_empty p = (qlen p =? 0).
Proof.
  unfold pipe_empty, qlen, u32. change (2 ^ 32) with 4294967296. intros Hr Hw. apply eq_true_iff_eq. rewrite !Z.eqb_eq. lia.
Qed.

Lemma seqZ_1 m : seqZ m 1 = [m].
Proof. done. Qed.

(** The slot of byte [k] of the queue. *)
Lemma slot_inj a k k' : 0 <= k < PIPESIZE -> 0 <= k' < PIPESIZE -> Z.to_nat ((a + k) mod PIPESIZE) = Z.to_nat ((a + k') mod PIPESIZE) -> k = k'.
Proof. unfold PIPESIZE. lia. Qed.

Lemma queue_put p ch : length (pdata p) = Z.to_nat PIPESIZE -> 0 <= nread p < 2 ^ 32 -> 0 <= nwrite p < 2 ^ 32 -> qlen p < PIPESIZE ->
  let p' := mkpipe (<[Z.to_nat (nwrite p mod PIPESIZE) := ch]> (pdata p)) (nread p) (u32 (nwrite p + 1)) (readopen p) (writeopen p) in
  qlen p' = qlen p + 1 /\ queue p' = queue p ++ [ch].
Proof.
  intros Hl Hr Hw Hq p'. assert (Hn : 0 <= qlen p) by (unfold qlen; apply u32_range).
  assert (Eq : qlen p' = qlen p + 1).
  { unfold qlen, p', u32, PIPESIZE in *. cbn. change (2 ^ 32) with 4294967296 in *. lia. }
  assert (Es : (nread p + qlen p) mod PIPESIZE = nwrite p mod PIPESIZE).
  { unfold qlen, u32, PIPESIZE. change (2 ^ 32) with 4294967296 in *. lia. }
  split; [done|]. unfold queue. rewrite Eq, seqZ_app, fmap_app by lia. f_equal.
  - apply list_fmap_ext. intros i k Hk. apply lookup_seqZ in Hk as [-> Hlt]. cbn [p' pdata nread].
    rewrite list_lookup_total_insert_ne; [done|]. rewrite <- Es. intros E. apply slot_inj in E; lia.
  - rewrite seqZ_1. cbn [fmap list_fmap p' pdata nread]. rewrite Z.add_0_l, Es. f_equal. apply list_lookup_total_insert_eq. unfold PIPESIZE in *. lia.
Qed.

Lemma queue_take p : 0 <= nread p < 2 ^ 32 -> 0 <= nwrite p < 2 ^ 32 -> 0 < qlen p ->
  let p' := mkpipe (pdata p) (u32 (nread p + 1)) (nwrite p) (readopen p) (writeopen p) in
  qlen p' = qlen p - 1 /\ queue p = (pdata p !!! Z.to_nat (nread p mod PIPESIZE)) :: queue p'.
Proof.
  intros Hr Hw Hq p'.
  assert (Eq : qlen p' = qlen p - 1).
  { unfold qlen, p', u32 in *. cbn. change (2 ^ 32) with 4294967296 in *. lia. }
  split; [done|]. unfold queue. rewrite Eq. replace (qlen p) with (1 + (qlen p - 1)) at 1 by lia.
  rewrite seqZ_app, seqZ_1, fmap_app by lia. cbn [fmap list_fmap app]. rewrite Z.add_0_r. cbn [p' pdata nread]. f_equal. apply list_eq. intros i. rewrite !list_lookup_fmap.
  destruct (decide (Z.of_nat i < qlen p - 1)) as [Hi|Hi].
  - rewrite !lookup_seqZ_lt by lia. cbn. do 3 f_equal. unfold u32, PIPESIZE. change (2 ^ 32) with 4294967296 in *. lia.
  - by rewrite !lookup_seqZ_ge by lia.
Qed.
