(* ===== verification/PipeThm.v ===== *)
(** Pipes under any interleaving of readers, writers, closes and kills: bytes
    come out in the order they went in, and no thread sleeps that could go on,
    except for one path of [pipewrite]. *)

From S2P Require Import Prelude Pipe.

(** ** Sections *)

(** How a section of [pipewrite] ends, having put [bs] in the pipe. *)
Definition write_end (killed : bool) (j : Z) (p : pipe) (ws : list chan) (r : section) : Prop :=
  match r with
  | Sleep j' => j' = j /\ pipe_full p = true /\ readopen p = true /\ Cread ∈ ws
  | Done r => r = j /\ Cread ∈ ws \/ r = -1 /\ pipe_full p = true /\ (readopen p = false \/ killed = true)
  end.

Definition write_post (copyin : Z -> option Z) (killed : bool) (i : Z) (s : pst) (r : section) (s' : pst) : Prop :=
  pipe_ok s' /\ pout s' = pout s /\ readopen (pi s') = readopen (pi s) /\ writeopen (pi s') = writeopen (pi s) /\
  exists ws bs, woken s' = woken s ++ ws /\ pin s' = pin s ++ bs /\
    (forall m, 0 <= m < Z.of_nat (length bs) -> copyin (i + m) = Some (bs !!! Z.to_nat m)) /\
    write_end killed (i + Z.of_nat (length bs)) (pi s') ws r.

Lemma put_ok s ch : pipe_ok s -> pipe_full (pi s) = false ->
  exists s', put_byte ch s = Ok (tt, s') /\ pipe_ok s' /\ pout s' = pout s /\ pin s' = pin s ++ [ch] /\ woken s' = woken s /\
    readopen (pi s') = readopen (pi s) /\ writeopen (pi s') = writeopen (pi s).
Proof.
  intros [H1 H2 H3 H4 H5] Hf. eexists. split; [reflexivity|]. rewrite full_spec in Hf by done. apply Z.eqb_neq in Hf.
  destruct (queue_put (pi s) ch H1 H2 H3 ltac:(lia)) as [E1 E2].
  split; [|done]. split; cbn; [by rewrite length_insert|done|apply u32_range| |].
  - rewrite E1. lia.
  - rewrite E2, app_assoc. by rewrite <- H5.
Qed.

Lemma wakeup_ok c s : pipe_ok s -> exists s', wakeup c s = Ok (tt, s') /\ pipe_ok s' /\ pi s' = pi s /\ pin s' = pin s /\ pout s' = pout s /\
  woken s' = woken s ++ [c].
Proof. intros []. eexists. split; [reflexivity|]. done. Qed.

(** Ending without a byte put. *)
Lemma write_post_end copyin killed i s r s' ws :
  pipe_ok s' -> pi s' = pi s -> pin s' = pin s -> pout s' = pout s -> woken s' = woken s ++ ws ->
  write_end killed i (pi s) ws r -> write_post copyin killed i s r s'.
Proof.
  intros Hs Ep Ei Eo Ew He. split; [done|]. split; [done|]. rewrite Ep. split; [done|]. split; [done|].
  exists ws, []. rewrite app_nil_r. split; [done|]. split; [done|]. split; [cbn; lia|]. cbn. by rewrite Z.add_0_r.
Qed.

(** Ending after one byte more. *)
Lemma write_post_step copyin killed i s s1 r s' ch :
  copyin i = Some ch -> pout s1 = pout s -> pin s1 = pin s ++ [ch] -> woken s1 = woken s ->
  readopen (pi s1) = readopen (pi s) -> writeopen (pi s1) = writeopen (pi s) ->
  write_post copyin killed (i + 1) s1 r s' -> write_post copyin killed i s r s'.
Proof.
  intros Hc O1 I1 W1 R1 X1 (P1 & P2 & P3 & P4 & ws & bs & Pw & Pi & Pc & Pe).
  split; [done|]. split; [congruence|]. split; [congruence|]. split; [congruence|]. exists ws, (ch :: bs).
  split; [congruence|]. split; [rewrite Pi, I1, <- app_assoc; done|]. split.
  - intros m Hm. cbn in Hm. destruct (decide (m = 0)) as [->|Hne]; [by rewrite Z.add_0_r|].
    replace (i + m) with (i + 1 + (m - 1)) by lia. rewrite Pc by lia. replace (Z.to_nat m) with (S (Z.to_nat (m - 1))) by lia. done.
  - cbn [length]. replace (i + Z.of_nat (S (length bs))) with (i + 1 + Z.of_nat (length bs)) by lia. done.
Qed.

Lemma pipewrite_section copyin killed : forall k i s, pipe_ok s ->
  exists r s', pipewrite_loop k copyin killed i s = Ok (r, s') /\ write_post copyin killed i s r s'.
Proof.
  induction k as [|k IH]; intros i s Hs; cbn [pipewrite_loop]; destruct (wakeup_ok Cread s Hs) as (sw & E & Hsw & Ep & Ei & Eo & Ew).
  - exists (Done i), sw. rewrite (bind_ok _ _ _ _ _ E). split; [done|]. apply (write_post_end _ _ _ _ _ _ [Cread]); try done. left. set_solver.
  - rewrite (bind_ok _ _ _ _ _ eq_refl). destruct (pipe_full (pi s)) eqn:Ef.
    + destruct (negb (readopen (pi s)) || killed) eqn:Ek.
      * exists (Done (-1)), s. split; [done|]. apply (write_post_end _ _ _ _ _ _ []); try done; [by rewrite app_nil_r|]. right.
        apply orb_true_iff in Ek. rewrite negb_true_iff in Ek. done.
      * apply orb_false_iff in Ek as [Ek1 _]. rewrite negb_false_iff in Ek1. exists (Sleep i), sw. rewrite (bind_ok _ _ _ _ _ E).
        split; [done|]. apply (write_post_end _ _ _ _ _ _ [Cread]); try done. split; [done|]. split; [done|]. split; [done|]. set_solver.
    + destruct (copyin i) as [ch|] eqn:Ec.
      * destruct (put_ok s ch Hs Ef) as (s1 & E1 & Hs1 & O1 & I1 & W1 & R1 & X1). rewrite (bind_ok _ _ _ _ _ E1).
        destruct (IH (i + 1) s1 Hs1) as (r & s' & E' & HP). exists r, s'. split; [done|]. by eapply write_post_step.
      * exists (Done i), sw. rewrite (bind_ok _ _ _ _ _ E). split; [done|]. apply (write_post_end _ _ _ _ _ _ [Cread]); try done. left. set_solver.
Qed.

(** What the copying loop of [piperead] takes out: [bs], of which all but at most
    the last, whose copy failed, reached the user. *)
Lemma piperead_loop_ok copyout : forall k i s, pipe_ok s ->
  exists j s' bs, piperead_loop k copyout i s = Ok (j, s') /\ pipe_ok s' /\ pin s' = pin s /\ pout s' = pout s ++ bs /\ woken s' = woken s /\
    readopen (pi s') = readopen (pi s) /\ writeopen (pi s') = writeopen (pi s) /\
    i <= j /\ (forall m, i <= m < j -> exists ch, bs !! Z.to_nat (m - i) = Some ch /\ copyout m ch = true) /\
    (Z.of_nat (length bs) = j - i /\ (j = i + Z.of_nat k \/ queue (pi s') = []) \/
     Z.of_nat (length bs) = j - i + 1 /\ exists ch, bs !! Z.to_nat (j - i) = Some ch /\ copyout j ch = false).
Proof.
  induction k as [|k IH]; intros i s Hs; cbn [piperead_loop].
  { exists i, s, []. rewrite app_nil_r. split; [done|]. split_and!; try done; [intros; lia|]. left. cbn. lia. }
  pose proof Hs as [H1 H2 H3 H4 H5]. rewrite (bind_ok _ _ _ _ _ eq_refl), empty_spec by done.
  destruct (Z.eqb_spec (qlen (pi s)) 0) as [Ez|Ez].
  { exists i, s, []. rewrite app_nil_r. split; [done|]. split_and!; try done; [intros; lia|]. left. cbn. split; [lia|]. right. unfold queue. by rewrite Ez. }
  assert (Hp : 0 <= qlen (pi s)) by (apply u32_range). destruct (queue_take (pi s) H2 H3 ltac:(lia)) as [E1 E2].
  set (ch := pdata (pi s) !!! Z.to_nat (nread (pi s) mod PIPESIZE)) in *. erewrite bind_ok by reflexivity. fold ch.
  set (s1 := mkpst _ _ _ _). assert (Hs1 : pipe_ok s1).
  { split; cbn; [done|apply u32_range|done|rewrite E1; lia|]. rewrite H5, E2, <- app_assoc. done. }
  destruct (copyout i ch) eqn:Ec; cbn [negb].
  - destruct (IH (i + 1) s1 Hs1) as (j & s' & bs & E & P1 & P2 & P3 & P4 & P5 & P6 & P7 & P8 & P9).
    exists j, s', (ch :: bs). split; [done|]. split_and!; try done; [rewrite P3; cbn; by rewrite <- app_assoc|lia| |].
    + intros m Hm. destruct (decide (m = i)) as [->|Hne]; [exists ch; by rewrite Z.sub_diag|].
      destruct (P8 m ltac:(lia)) as (c & Hc & Ho). exists c. replace (Z.to_nat (m - i)) with (S (Z.to_nat (m - (i + 1)))) by lia. done.
    + cbn [length]. destruct P9 as [[P9 P10]|(P9 & c & Hc & Ho)]; [left; split; [lia|]; destruct P10; [left; lia|by right]|right].
      split; [lia|]. exists c. replace (Z.to_nat (j - i)) with (S (Z.to_nat (j - (i + 1)))) by lia. done.
  - exists i, s1, [ch]. split; [done|]. split_and!; try done; [intros; lia|]. right. split; [cbn; lia|]. exists ch. by rewrite Z.sub_diag.
Qed.

(** ** Threads *)

Inductive thread :=
| Idle
| Writing (copyin : Z -> option Z) (n i : Z)
| Wsleep (copyin : Z -> option Z) (n i : Z)
| Reading (copyout : Z -> Z -> bool) (n : Z)
| Rsleep (copyout : Z -> Z -> bool) (n : Z).

(** [wakeup] on the channels [cs]. *)
Definition wake (cs : list chan) (t : thread) : thread :=
  match t with
  | Wsleep c n i => if decide (Cwrite ∈ cs) then Writing c n i else t
  | Rsleep c n => if decide (Cread ∈ cs) then Reading c n else t
  | _ => t
  end.

Definition after_write (c : Z -> option Z) (n : Z) (r : section) : thread := match r with Done _ => Idle | Sleep i => Wsleep c n i end.
Definition after_read (c : Z -> Z -> bool) (n : Z) (r : section) : thread := match r with Done _ => Idle | Sleep _ => Rsleep c n end.

(** The thread is inside a call on the write end ([w]) or the read end. *)
Definition uses (w : bool) (t : thread) : bool :=
  match t with Idle => false | Writing _ _ _ | Wsleep _ _ _ => w | _ => negb w end.

Definition begin_section (s : pst) : pst := mkpst (pi s) [] (pin s) (pout s).

(** Any thread may take a step; [killed] is what it reads of [pr->killed], and is
    false for writers unless [kw].  An end
    is closed when no call on it is under way: a call holds a reference to it.
    [kill] wakes a sleeping thread. *)
Inductive pstep (kw : bool) : pst * list thread -> pst * list thread -> Prop :=
| ps_write s ts t c n : ts !! t = Some Idle -> writeopen (pi s) = true -> pstep kw (s, ts) (s, <[t := Writing c n 0]> ts)
| ps_read s ts t c n : ts !! t = Some Idle -> readopen (pi s) = true -> pstep kw (s, ts) (s, <[t := Reading c n]> ts)
| ps_run_write s ts t c n i killed r s' : ts !! t = Some (Writing c n i) -> (killed = true -> kw = true) ->
    pipewrite c killed n i (begin_section s) = Ok (r, s') ->
    pstep kw (s, ts) (s', <[t := after_write c n r]> (wake (woken s') <$> ts))
| ps_run_read s ts t c n killed r s' : ts !! t = Some (Reading c n) ->
    piperead c killed n (begin_section s) = Ok (r, s') ->
    pstep kw (s, ts) (s', <[t := after_read c n r]> (wake (woken s') <$> ts))
| ps_kill s ts t x : ts !! t = Some x -> pstep kw (s, ts) (s, <[t := wake [Cread; Cwrite] x]> ts)
| ps_close s ts w b s' : Forall (fun t => uses w t = false) ts -> pipeclose w (begin_section s) = Ok (b, s') ->
    pstep kw (s, ts) (s', wake (woken s') <$> ts).

Lemma begin_ok s : pipe_ok s -> pipe_ok (begin_section s).
Proof. by intros []. Qed.

(** The sections of [piperead]. *)
Definition read_post (killed : bool) (s : pst) (r : section) (s' : pst) : Prop :=
  pipe_ok s' /\ pin s' = pin s /\ readopen (pi s') = readopen (pi s) /\ writeopen (pi s') = writeopen (pi s) /\
  (pi s' = pi s /\ woken s' = woken s /\ match r with Sleep _ => pipe_empty (pi s) = true /\ writeopen (pi s) = true | Done _ => killed = true end \/
   pipe_empty (pi s) && writeopen (pi s) = false /\ woken s' = woken s ++ [Cwrite] /\ exists i, r = Done i).

Lemma piperead_section copyout killed n s : pipe_ok s -> exists r s', piperead copyout killed n s = Ok (r, s') /\ read_post killed s r s'.
Proof.
  intros Hs. unfold piperead. rewrite (bind_ok _ _ _ _ _ eq_refl). destruct (pipe_empty (pi s) && writeopen (pi s)) eqn:E.
  - apply andb_true_iff in E as [E1 E2]. destruct killed; eexists _, s; (split; [done|]); (split; [done|]);
      (split; [done|]); (split; [done|]); (split; [done|]); left; done.
  - destruct (piperead_loop_ok copyout (Z.to_nat n) 0 s Hs) as (j & s1 & bs & E1 & P1 & P2 & P3 & P4 & P5 & P6 & _).
    destruct (wakeup_ok Cwrite s1 P1) as (s2 & E2 & Hs2 & Ep & Ei & Eo & Ew).
    exists (Done j), s2. rewrite (bind_ok _ _ _ _ _ E1), (bind_ok _ _ _ _ _ E2). split; [done|].
    split; [done|]. split; [congruence|]. rewrite Ep. split; [done|]. split; [done|]. right. rewrite Ew, P4. split; [done|]. split; [done|]. by exists j.
Qed.

Lemma pipeclose_section w s : pipe_ok s ->
  exists b s', pipeclose w s = Ok (b, s') /\ pipe_ok s' /\ pin s' = pin s /\ pout s' = pout s /\ queue (pi s') = queue (pi s) /\
    pipe_empty (pi s') = pipe_empty (pi s) /\ pipe_full (pi s') = pipe_full (pi s) /\
    readopen (pi s') = (readopen (pi s) && w) /\ writeopen (pi s') = (writeopen (pi s) && negb w) /\
    woken s' = woken s ++ [if w then Cread else Cwrite].
Proof.
  intros []. destruct w; eexists _, _; (split; [reflexivity|]); cbn; rewrite ?andb_true_r, ?andb_false_r; split_and!; done.
Qed.

Lemma pstep_ok kw x y : pstep kw x y -> pipe_ok x.1 -> pipe_ok y.1.
Proof.
  destruct 1 as [s ts t c n _ _|s ts t c n _ _|s ts t c n i killed r s' _ _ E|s ts t c n killed r s' _ E|s ts t x _|s ts w b s' _ E]; cbn; intros Hs; try done;
    pose proof (begin_ok s Hs) as Hb.
  - destruct (pipewrite_section c killed (Z.to_nat (n - i)) i _ Hb) as (r' & s2 & E2 & HP). unfold pipewrite in E. rewrite E2 in E. injection E as -> ->. apply HP.
  - destruct (piperead_section c killed n _ Hb) as (r' & s2 & E2 & HP). rewrite E2 in E. injection E as -> ->. apply HP.
  - destruct (pipeclose_section w _ Hb) as (b' & s2 & E2 & HP & _). rewrite E2 in E. injection E as -> ->. done.
Qed.

(** ** No lost wakeup *)

Definition may_sleep (p : pipe) (t : thread) : Prop :=
  match t with
  | Rsleep _ _ => pipe_empty p = true /\ writeopen p = true
  | Wsleep _ _ _ => pipe_full p = true /\ readopen p = true
  | _ => True
  end.

(** The ends in use are open. *)
Definition ends_open (p : pipe) (t : thread) : Prop :=
  (uses true t = true -> writeopen p = true) /\ (uses false t = true -> readopen p = true).

Definition awake (x : pst * list thread) : Prop :=
  pipe_ok x.1 /\ Forall (fun t => may_sleep (pi x.1) t /\ ends_open (pi x.1) t) x.2.

Lemma uses_wake cs w t : uses w (wake cs t) = uses w t.
Proof. destruct t; cbn; try done; by case_decide. Qed.

Lemma ends_wake p p' cs t : readopen p' = readopen p -> writeopen p' = writeopen p -> ends_open p t -> ends_open p' (wake cs t).
Proof. intros E1 E2. unfold ends_open. by rewrite !uses_wake, E1, E2. Qed.

(** The queue after a section of [pipewrite], and fullness. *)
Lemma write_queue c killed i s r s' : pipe_ok s -> write_post c killed i s r s' -> pipe_full (pi s) = true -> pipe_full (pi s') = true.
Proof.
  intros [H1 H2 H3 H4 H5] ([K1 K2 K3 K4 K5] & Po & _ & _ & ws & bs & _ & Pi & _) Hf.
  rewrite full_spec in * by done. apply Z.eqb_eq in Hf. apply Z.eqb_eq.
  assert (E : queue (pi s') = queue (pi s) ++ bs) by (apply (app_inv_head (pout s)); rewrite app_assoc, <- H5, <- Pi, K5, Po; done).
  apply (f_equal length) in E. rewrite length_app, !length_queue in E.
  assert (0 <= qlen (pi s')) by apply u32_range. unfold PIPESIZE in *. lia.
Qed.

(** Sleepers that stay asleep may. *)
Lemma wake_may_sleep p p' cs t : may_sleep p t ->
  (Cread ∉ cs -> pipe_empty p = true -> writeopen p = true -> uses false t = true -> pipe_empty p' = true /\ writeopen p' = true) ->
  (Cwrite ∉ cs -> pipe_full p = true -> readopen p = true -> uses true t = true -> pipe_full p' = true /\ readopen p' = true) -> may_sleep p' (wake cs t).
Proof.
  intros Ht Hr Hw. destruct t as [|c n i|c n i|c n|c n]; cbn in *; try done; case_decide as E; cbn; try done; destruct Ht; auto.
Qed.

Lemma Forall_insert_map {A} (P Q : A -> Prop) (f : A -> A) l i x :
  Forall P l -> (forall y, P y -> Q (f y)) -> Q x -> Forall Q (<[i := x]> (f <$> l)).
Proof. intros Hl Hf Hx. apply Forall_insert; [|done]. apply Forall_fmap. by eapply Forall_impl. Qed.

Lemma awake_step x y : pstep false x y -> awake x -> awake y.
Proof.
  intros Hst [Hok Hall]. split; [by eapply pstep_ok|].
  destruct Hst as [s ts t c n Ht Hop|s ts t c n Ht Hop|s ts t c n i killed r s' Ht Hk E|s ts t c n killed r s' Ht E|s ts t x Ht|s ts w b s' Hu E]; cbn [fst snd] in *.
  - apply Forall_insert; [done|]. split; [done|]. split; [done|]. done.
  - apply Forall_insert; [done|]. split; [done|]. split; [done|]. done.
  - destruct (pipewrite_section c killed (Z.to_nat (n - i)) i _ (begin_ok s Hok)) as (r' & s2 & E2 & HP).
    unfold pipewrite in E. rewrite E2 in E. injection E as -> ->. pose proof (write_queue _ _ _ _ _ _ (begin_ok s Hok) HP) as Hfull.
    destruct HP as (P1 & P2 & P3 & P4 & ws & bs & Pw & Pi & _ & Pe). cbn in *. rewrite Forall_lookup in Hall. destruct (Hall t _ Ht) as [_ [He _]].
    apply (Forall_insert_map (fun t => may_sleep (pi s) t /\ ends_open (pi s) t)); [by rewrite Forall_lookup| |].
    + intros y [Hm Ho]. split; [|by apply (ends_wake (pi s))]. apply (wake_may_sleep (pi s)); [done| |].
      * intros Hn H1 H2 H3. exfalso. rewrite Pw in Hn. destruct r as [r|j]; cbn in Pe.
        -- destruct Pe as [[_ Hin]|(_ & _ & [Hr| ->])]; [done| |by discriminate Hk]. destruct Ho as [_ Ho]. rewrite Ho in P3 by done. congruence.
        -- by destruct Pe as (_ & _ & _ & Hin).
      * intros _ H1 H2 _. rewrite P3. split; [by apply Hfull|done].
    + destruct r as [r|j]; cbn; [done|]. destruct Pe as (_ & Hf & Hr & _). split; [done|]. split; [|done]. intros _. rewrite P4. by apply He.
  - destruct (piperead_section c killed n _ (begin_ok s Hok)) as (r' & s2 & E2 & HP). rewrite E2 in E. injection E as -> ->.
    destruct HP as (P1 & P2 & P3 & P4 & Pc). cbn in *. rewrite Forall_lookup in Hall. destruct (Hall t _ Ht) as [_ [_ He]].
    apply (Forall_insert_map (fun t => may_sleep (pi s) t /\ ends_open (pi s) t)); [by rewrite Forall_lookup| |].
    + intros y [Hm Ho]. split; [|by apply (ends_wake (pi s))]. apply (wake_may_sleep (pi s)); [done| |].
      * intros Hn H1 H2 _. rewrite P4. destruct Pc as [(-> & _)|(Hne & _)]; [done|]. by rewrite H1, H2 in Hne.
      * intros Hn H1 H2 _. rewrite P3. destruct Pc as [(-> & _)|(_ & Ew & _)]; [done|]. rewrite Ew in Hn. set_solver.
    + destruct r as [r|j]; cbn; [done|]. destruct Pc as [(-> & _ & Hs)|(_ & _ & i & [=])]. split; [done|]. split; [done|]. intros _. by apply He.
  - apply Forall_insert; [done|]. rewrite Forall_lookup in Hall. destruct (Hall t _ Ht) as [_ He].
    split; [by destruct x|]. by apply (ends_wake (pi s)).
  - destruct (pipeclose_section w _ (begin_ok s Hok)) as (b' & s2 & E2 & P1 & P2 & P3 & P4 & P5 & P6 & P7 & P8 & P9). rewrite E2 in E. injection E as -> ->. cbn in *.
    apply Forall_fmap. rewrite Forall_lookup in *. intros t y Hy. destruct (Hall t y Hy) as [Hm [Ho1 Ho2]]. pose proof (Hu t y Hy) as Huy. cbn in Huy. cbn. split.
    + apply (wake_may_sleep (pi s)); [done| |].
      * intros Hn H1 H2 H3. rewrite P5, P8, P9 in *. destruct w; [set_solver|]. congruence.
      * intros Hn H1 H2 H3. rewrite P6, P7, P9 in *. destruct w; [|set_solver]. congruence.
    + unfold ends_open. rewrite !uses_wake, P7, P8. destruct w; cbn; rewrite ?andb_true_r; split; intros H; try congruence; auto.
Qed.

(** C7: whatever readers and writers do to a new pipe, in any interleaving of
    their sections, with closes, kills and failing copies, across the wrap of the
    32-bit counters: the bytes taken out are the first bytes put in, in order, and
    the rest, at most [PIPESIZE] bytes, is what the ring holds. *)
Theorem pipe_fifo data ts s ts' :
  length data = Z.to_nat PIPESIZE -> rtc (pstep true) (mkpst (pipe_init data) [] [] [], ts) (s, ts') ->
  pin s = pout s ++ queue (pi s) /\ (length (queue (pi s)) <= 512)%nat.
Proof.
  intros Hd Hs. assert (Hok : pipe_ok s).
  { apply (rtc_ind_r (fun x => pipe_ok x.1) (mkpst (pipe_init data) [] [] [], ts)) with (z := (s, ts')) in Hs; [done| |].
    - split; cbn; unfold PIPESIZE; try done; lia.
    - intros y z _ Hst IH. by eapply pstep_ok. }
  destruct Hok as [_ _ _ Hq Hf]. split; [done|]. rewrite length_queue. unfold PIPESIZE in Hq. lia.
Qed.

(** C21: as long as no writer returns because it was killed, a reader sleeps
    only while the pipe is empty and the write end is open, and a writer only
    while it is full and the read end is open. *)
Theorem pipe_no_lost_wakeup data ts s ts' t :
  length data = Z.to_nat PIPESIZE -> Forall (fun t => t = Idle) ts ->
  rtc (pstep false) (mkpst (pipe_init data) [] [] [], ts) (s, ts') ->
  (forall c n, ts' !! t = Some (Rsleep c n) -> queue (pi s) = [] /\ writeopen (pi s) = true) /\
  (forall c n i, ts' !! t = Some (Wsleep c n i) -> length (queue (pi s)) = 512%nat /\ readopen (pi s) = true).
Proof.
  intros Hd Hts Hs. assert (Ha : awake (s, ts')).
  { apply (rtc_ind_r awake (mkpst (pipe_init data) [] [] [], ts)) with (z := (s, ts')) in Hs; [done| |].
    - split; [split; cbn; unfold PIPESIZE; try done; lia|]. eapply Forall_impl; [done|]. intros x ->. done.
    - intros y z _ Hst IH. by eapply awake_step. }
  destruct Ha as [[H1 H2 H3 H4 H5] Hall]. cbn in *. rewrite Forall_lookup in Hall. split.
  - intros c n Ht. destruct (Hall t _ Ht) as [[He Hw] _]. rewrite empty_spec in He by done. apply Z.eqb_eq in He. unfold queue. by rewrite He.
  - intros c n i Ht. destruct (Hall t _ Ht) as [[He Hr] _]. rewrite full_spec in He by done. apply Z.eqb_eq in He.
    rewrite length_queue, He. done.
Qed.

(** A writer of 600 bytes fills the pipe and sleeps. *)
Lemma pipe_fifo_witness : exists s ts,
  rtc (pstep true) (mkpst (pipe_init (replicate 512 0)) [] [] [], [Idle; Idle]) (s, ts) /\
  pin s = pout s ++ queue (pi s) /\ length (pin s) = 512%nat.
Proof.
  set (s1 := match pipewrite (fun i => Some (i mod 256)) false 600 0 (mkpst (pipe_init (replicate 512 0)) [] [] []) with Ok (_, s) => s | _ => mkpst (pipe_init []) [] [] [] end).
  assert (Hs : rtc (pstep true) (mkpst (pipe_init (replicate 512 0)) [] [] [], [Idle; Idle]) (s1, [Wsleep (fun i => Some (i mod 256)) 600 512; Idle])).
  { eapply rtc_l; [apply (ps_write true _ _ 0%nat (fun i => Some (i mod 256)) 600); reflexivity|].
    eapply rtc_l; [eapply (ps_run_write true _ _ 0%nat (fun i => Some (i mod 256)) 600 0 false (Sleep 512) s1); [reflexivity|done|vm_compute; reflexivity]|].
    vm_compute. apply rtc_refl. }
  exists s1, [Wsleep (fun i => Some (i mod 256)) 600 512; Idle]. split; [exact Hs|]. split.
  - exact (proj1 (pipe_fifo (replicate 512 0) _ _ _ eq_refl Hs)).
  - vm_compute. reflexivity.
Defined.

(** Boot, a call of [piperead] that sleeps, and a write of two bytes that wakes it. *)
Lemma pipe_no_lost_wakeup_witness : exists s ts c n,
  rtc (pstep false) (mkpst (pipe_init (replicate 512 0)) [] [] [], [Idle; Idle]) (s, ts) /\
  ts !! 1%nat = Some (Rsleep c n) /\ queue (pi s) = [] /\ writeopen (pi s) = true.
Proof.
  set (s0 := mkpst (pipe_init (replicate 512 0)) [] [] []).
  assert (Hs : rtc (pstep false) (s0, [Idle; Idle]) (s0, [Idle; Rsleep (fun _ _ => true) 100])).
  { eapply rtc_l; [apply (ps_read false _ _ 1%nat (fun _ _ => true) 100); reflexivity|].
    eapply rtc_l; [eapply (ps_run_read false _ _ 1%nat (fun _ _ => true) 100 false (Sleep 0) s0); reflexivity|]. apply rtc_refl. }
  exists s0, [Idle; Rsleep (fun _ _ => true) 100], (fun _ _ => true), 100. split; [exact Hs|]. split; [reflexivity|].
  exact (proj1 (pipe_no_lost_wakeup (replicate 512 0) [Idle; Idle] _ _ 1%nat eq_refl ltac:(repeat constructor) Hs) _ _ eq_refl).
Defined.

(** C35: the exception: a writer that fills the pipe and then finds itself
    killed returns without [wakeup], and a reader sleeps on although the pipe is
    full of data. *)
Theorem pipe_killed_writer_strands_reader : exists s ts c n,
  rtc (pstep true) (mkpst (pipe_init (replicate 512 0)) [] [] [], [Idle; Idle]) (s, ts) /\
  ts = [Idle; Rsleep c n] /\ length (queue (pi s)) = 512%nat /\ readopen (pi s) = true /\ writeopen (pi s) = true.
Proof.
  set (s0 := mkpst (pipe_init (replicate 512 0)) [] [] []). set (c := fun i => Some (i mod 256)).
  set (s1 := match pipewrite c true 600 0 s0 with Ok (_, s) => s | _ => s0 end).
  exists s1, [Idle; Rsleep (fun _ _ => true) 100], (fun _ _ => true), 100. split; [|by vm_compute].
  eapply rtc_l; [apply (ps_read true _ _ 1%nat (fun _ _ => true) 100); reflexivity|].
  eapply rtc_l; [eapply (ps_run_read true _ _ 1%nat (fun _ _ => true) 100 false (Sleep 0) s0); reflexivity|].
  eapply rtc_l; [apply (ps_write true _ _ 0%nat c 600); reflexivity|].
  eapply rtc_l; [eapply (ps_run_write true _ _ 0%nat c 600 0 true (Done (-1)) s1); [reflexivity|done|vm_compute; reflexivity]|].
  vm_compute. apply rtc_refl.
Qed.
