(* ===== verification/File.v ===== *)
(** kernel/file.c and [pipealloc] of kernel/pipe.c: the table of open files over
    the file system, the pipes and the page allocator. *)

From S2P Require Import Prelude Mem Kalloc Sleeplock Bio Bytes Blk Fs FsIo Pipe.

Definition NFILE : nat := 100.
Definition NDEV : Z := 10.

Inductive ftype := FD_NONE | FD_PIPE | FD_INODE | FD_DEVICE.

#[export] Instance ftype_eq_dec : EqDecision ftype.
Proof. solve_decision. Defined.

(** struct file; [f_pipe] is the address of the pipe. *)
Record file := mkfd {
  f_type : ftype; f_ref : Z; f_readable : bool; f_writable : bool; f_pipe : Z; f_ip : nat; f_off : Z; f_major : Z
}.

Definition file0 : file := mkfd FD_NONE 0 false false 0 0 0 0.
#[export] Instance file_inhabited : Inhabited file := populate file0.

Definition set_fref (n : Z) (f : file) : file :=
  mkfd (f_type f) n (f_readable f) (f_writable f) (f_pipe f) (f_ip f) (f_off f) (f_major f).
Definition set_ftype (t : ftype) (f : file) : file :=
  mkfd t (f_ref f) (f_readable f) (f_writable f) (f_pipe f) (f_ip f) (f_off f) (f_major f).
Definition set_foff (o : Z) (f : file) : file :=
  mkfd (f_type f) (f_ref f) (f_readable f) (f_writable f) (f_pipe f) (f_ip f) o (f_major f).
Definition set_fpipe (r w : bool) (p : Z) (f : file) : file :=
  mkfd FD_PIPE (f_ref f) r w p (f_ip f) (f_off f) (f_major f).

(** The page allocator as its clients see it: [kalloc], 0 when it fails, [kfree],
    and the bytes a page starts with. *)
Class PageOps (K : Type) := {
  p_alloc : M K Z;
  p_free : Z -> M K unit;
  p_bytes : K -> Z -> list Z
}.

(** [data] follows the lock, 24 bytes, in struct pipe. *)
#[export] Instance kalloc_pages : PageOps kst := {
  p_alloc := kalloc;
  p_free := kfree;
  p_bytes k a := ld_bytes (kmem k) (a + 24) (Z.to_nat PIPESIZE)
}.

Record kfs (B K : Type) := mkkfs { kf_fs : fs B; kf_files : list file; kf_pipes : gmap Z pst; kf_mem : K }.
Arguments mkkfs {B K}.
Arguments kf_fs {B K}.
Arguments kf_files {B K}.
Arguments kf_pipes {B K}.
Arguments kf_mem {B K}.

#[export] Instance pst_inhabited : Inhabited pst := populate (mkpst (pipe_init []) [] [] []).

Section File.
Context {B K : Type} {ops : BlockOps B} {pops : PageOps K}.
Notation S := (kfs B K).

Definition set_kfs (f : fs B) (s : S) : S := mkkfs f (kf_files s) (kf_pipes s) (kf_mem s).
Definition set_files (l : list file) (s : S) : S := mkkfs (kf_fs s) l (kf_pipes s) (kf_mem s).
Definition set_pipes (p : gmap Z pst) (s : S) : S := mkkfs (kf_fs s) (kf_files s) p (kf_mem s).
Definition set_kmem (k : K) (s : S) : S := mkkfs (kf_fs s) (kf_files s) (kf_pipes s) k.

Definition fsop {A} (m : M (fs B) A) : M S A := zoom kf_fs set_kfs m.
Definition memop {A} (m : M K A) : M S A := zoom kf_mem set_kmem m.
Definition fat (f : nat) : M S file := gets (fun s => kf_files s !!! f).
Definition fupd (f : nat) (g : file -> file) : M S unit := modify (fun s => set_files (alter g f (kf_files s)) s).

(** A section on the pipe at address [a]; a section that sleeps blocks. *)
Definition on_pipe {A} (a : Z) (m : M pst A) : M S A :=
  zoom (fun s => kf_pipes s !!! a) (fun p s => set_pipes (<[a := p]> (kf_pipes s)) s) m.
Definition finish (r : section) : M S Z := match r with Done n => ret n | Sleep _ => Prelude.block end.

(** The index of the first file with no reference. *)
Fixpoint free_file (l : list file) (i : nat) : option nat :=
  match l with
  | [] => None
  | f :: l' => if f_ref f =? 0 then Some i else free_file l' (Datatypes.S i)
  end.

Definition filealloc : M S (option nat) :=
  l <- gets kf_files ;;
  match free_file l 0 with
  | Some f => fupd f (set_fref 1) ;;; ret (Some f)
  | None => ret None
  end.

Definition filedup (f : nat) : M S nat :=
  x <- fat f ;;
  if f_ref x <? 1 then panic "filedup" else
  fupd f (set_fref (f_ref x + 1)) ;;;
  ret f.

Definition fileclose (f : nat) : M S unit :=
  x <- fat f ;;
  if f_ref x <? 1 then panic "fileclose" else
  fupd f (set_fref (f_ref x - 1)) ;;;
  if 0 <? f_ref x - 1 then ret tt else
  ff <- fat f ;;
  fupd f (fun x => set_ftype FD_NONE (set_fref 0 x)) ;;;
  match f_type ff with
  | FD_PIPE =>
      dead <- on_pipe (f_pipe ff) (pipeclose (f_writable ff)) ;;
      if (dead : bool) then memop (p_free (f_pipe ff)) ;;; modify (fun s => set_pipes (delete (f_pipe ff) (kf_pipes s)) s)
      else ret tt
  | FD_INODE | FD_DEVICE =>
      fsop (blkop b_begin) ;;;
      fsop (iput (f_ip ff)) ;;;
      fsop (blkop b_end)
  | FD_NONE => ret tt
  end.

(** [copyout st] is [copyout(p->pagetable, addr, (char* )&st, sizeof(st))]. *)
Definition filestat (f : nat) (copyout : stat -> M S Z) : M S Z :=
  x <- fat f ;;
  match f_type x with
  | FD_INODE | FD_DEVICE =>
      fsop (ilock (f_ip x)) ;;;
      st <- fsop (stati (f_ip x)) ;;
      fsop (iunlock (f_ip x)) ;;;
      r <- copyout st ;;
      ret (if r <? 0 then -1 else 0)
  | _ => ret (-1)
  end.

(** [devsw[major].read] and [.write]; [None] is a null pointer. *)
Context (dev_read dev_write : Z -> option (M S Z)).

(** The user's buffer is reached through [pcopyout], [pcopyin] byte by byte for a
    pipe and through [ucopyout], [ucopyin] for an inode; [killed] is
    [myproc()->killed].  The bytes read from an inode are returned beside the
    result. *)
Definition fileread (f : nat) (pcopyout : Z -> Z -> bool) (ucopyout : Z -> list Z -> M (fs B) Z) (killed : bool) (n : Z) : M S (Z * list Z) :=
  x <- fat f ;;
  if negb (f_readable x) then ret (-1, []) else
  match f_type x with
  | FD_PIPE => r <- on_pipe (f_pipe x) (piperead pcopyout killed n) ;; v <- finish r ;; ret (v, [])
  | FD_DEVICE =>
      if (f_major x <? 0) || (NDEV <=? f_major x) then ret (-1, []) else
      match dev_read (f_major x) with
      | None => ret (-1, [])
      | Some rd => v <- rd ;; ret (v, [])
      end
  | FD_INODE =>
      fsop (ilock (f_ip x)) ;;;
      x <- fat f ;;
      r <- fsop (readi ucopyout (f_ip x) (f_off x) (u32 n)) ;;
      (if 0 <? r.1 then fupd f (fun x => set_foff (u32 (f_off x + r.1)) x) else ret tt) ;;;
      fsop (iunlock (f_ip x)) ;;;
      ret r
  | FD_NONE => panic "fileread"
  end.

(** [((MAXOPBLOCKS - 1 - 1 - 2) / 2) * BSIZE] *)
Definition max_chunk : Z := (10 - 1 - 1 - 2) / 2 * BSIZE.

Fixpoint filewrite_loop (fuel : nat) (f : nat) (ucopyin : Z -> Z -> Z -> M (fs B) (Z * list Z)) (n i : Z) : M S Z :=
  match fuel with
  | O => nofuel
  | Datatypes.S fuel' =>
      if i <? n then
        let n1 := Z.min (n - i) max_chunk in
        x <- fat f ;;
        fsop (blkop b_begin) ;;;
        fsop (ilock (f_ip x)) ;;;
        x <- fat f ;;
        r <- fsop (writei (ucopyin i) (f_ip x) (f_off x) n1) ;;
        (if 0 <? r then fupd f (fun x => set_foff (u32 (f_off x + r)) x) else ret tt) ;;;
        fsop (iunlock (f_ip x)) ;;;
        fsop (blkop b_end) ;;;
        if r <? 0 then ret i else
        if negb (r =? n1) then panic "short filewrite" else
        filewrite_loop fuel' f ucopyin n (i + r)
      else ret i
  end.

(** [ucopyin i] reads the user's buffer from [addr + i]. *)
Definition filewrite (f : nat) (pcopyin : Z -> option Z) (ucopyin : Z -> Z -> Z -> M (fs B) (Z * list Z)) (killed : bool) (n : Z) : M S Z :=
  x <- fat f ;;
  if negb (f_writable x) then ret (-1) else
  match f_type x with
  | FD_PIPE => r <- on_pipe (f_pipe x) (pipewrite pcopyin killed n 0) ;; finish r
  | FD_DEVICE =>
      if (f_major x <? 0) || (NDEV <=? f_major x) then ret (-1) else
      match dev_write (f_major x) with
      | None => ret (-1)
      | Some wr => wr
      end
  | FD_INODE =>
      i <- filewrite_loop (Datatypes.S (Z.to_nat n)) f ucopyin n 0 ;;
      ret (if i =? n then n else -1)
  | FD_NONE => panic "filewrite"
  end.

(** The label [bad] of [pipealloc]. *)
Definition pipealloc_bad (pg : Z) (f0 f1 : option nat) : M S (option (nat * nat)) :=
  (if pg =? 0 then ret tt else memop (p_free pg)) ;;;
  (match f0 with Some f => fileclose f | None => ret tt end) ;;;
  (match f1 with Some f => fileclose f | None => ret tt end) ;;;
  ret None.

Definition pipealloc : M S (option (nat * nat)) :=
  f0 <- filealloc ;;
  match f0 with
  | None => pipealloc_bad 0 None None
  | Some r =>
      f1 <- filealloc ;;
      match f1 with
      | None => pipealloc_bad 0 f0 None
      | Some w =>
          pg <- memop p_alloc ;;
          if pg =? 0 then pipealloc_bad 0 f0 f1 else
          d <- gets (fun s => p_bytes (kf_mem s) pg) ;;
          modify (fun s => set_pipes (<[pg := mkpst (pipe_init d) [] [] []]> (kf_pipes s)) s) ;;;
          fupd r (set_fpipe true false pg) ;;;
          fupd w (set_fpipe false true pg) ;;;
          ret (Some (r, w))
      end
  end.
End File.
