(* ===== verification/FileThm.v ===== *)
(** [filewrite] on an inode, from its chunks: each is an operation of the log, and
    together they write the user's bytes at the file's offset. *)

From S2P Require Import Prelude Sleeplock Bio BioRing BioSpec BioCst Bytes Log LogSpec LogRun LogThm LogOp Blk LogExample.
From S2P Require Import Fs FsIo FsBlock FsMap FsFile FsWrite FsIcache Pipe File.
From S2P Require Import Mem Kalloc.

Section Idle.
Context (D st sz : Z).

(** No operation is under way and the disk holds [V]. *)
Definition idle (l : log) (V : Z -> block) : Prop :=
  log_ok D st sz l [] [] /\ outstanding l = 0 /\ committing l = false /\ disk_wf (dsk (lb l)) /\ forall m, V m = dread (dsk (lb l)) m.

Lemma idle_begin l V : idle l V ->
  exists l', begin_op l = Ok (tt, l') /\ b_pid l' = b_pid l /\
    log_blk D st sz (dsk (lb l)) (dtrace (lb l)) 1 l' V [] [] [].
Proof.
  intros (Hl & Ho & Hc & Hw & HV). eexists. split; [apply (begin_op_ok D st sz l [] []); [done|done|]|].
  { rewrite Ho, (lo_n _ _ _ _ _ _ Hl). done. }
  split; [done|]. rewrite Ho. pose proof (log_blk_start D st sz (set_outstanding (0 + 1) l)) as Hb. cbn in Hb.
  eapply (blk_ext (BlockLaws := log_block_laws D st sz _ _ 1)); [|apply Hb; [by apply log_ok_outstanding|done|lia|done]]. intros n. by rewrite HV.
Qed.

(** Blocks stay blocks of bytes over a commit. *)
Lemma put_entries_wf : forall bl d i, wf_block d -> 0 <= i -> i + Z.of_nat (length bl) <= LOGSIZE -> wf_block (put_entries d i bl).
Proof.
  induction bl as [|x bl IH]; intros d i Hd Hi Hl; cbn [put_entries]; [done|]. cbn [length] in Hl. apply IH; [|lia|lia].
  apply wr32_wf; [done|]. unfold hd_off, LOGSIZE, MAXOPBLOCKS, BSIZE in *. lia.
Qed.

Lemma put_head_wf d bl : wf_block d -> Z.of_nat (length bl) <= LOGSIZE -> wf_block (put_head d bl).
Proof. intros Hd Hl. apply put_entries_wf; [|lia|lia]. apply wr32_wf; [done|]. unfold BSIZE. lia. Qed.

Lemma replay_wf ws : forall d, disk_wf d -> Forall (fun w => wf_block w.2) ws -> disk_wf (replay ws d).
Proof.
  induction ws as [|[n x] ws IH]; intros d Hd Hw; [done|]. inversion Hw; subst. apply (IH (<[n := x]> d)); [|done]. by apply disk_wf_insert.
Qed.

Lemma zip_wf (V : Z -> block) (l1 l2 : list Z) : (forall m, wf_block (V m)) -> Forall (fun w => wf_block w.2) (zip l1 (V <$> l2)).
Proof. intros Hw. apply Forall_lookup. intros i [a b] E. apply lookup_zip_Some in E as [_ E]. apply list_lookup_fmap_Some in E as (y & -> & _). apply Hw. Qed.

Lemma commit_wf V bl d : (forall m, wf_block (V m)) -> Z.of_nat (length bl) <= LOGSIZE -> disk_wf d -> disk_wf (replay (commit_writes V st bl) d).
Proof.
  intros Hw Hl Hd. apply replay_wf; [done|]. unfold commit_writes. repeat (apply Forall_app; split); try (by apply zip_wf).
  - constructor; [|constructor]. by apply put_head_wf.
  - constructor; [|constructor]. apply put_head_wf; [by apply put_head_wf|]. cbn. unfold LOGSIZE, MAXOPBLOCKS. lia.
Qed.

Lemma idle_end d0 w0 l V L : log_blk D st sz d0 w0 1 l V L [] [] -> disk_wf d0 ->
  exists l' V', end_op l = Ok (tt, l') /\ idle l' V' /\ b_pid l' = b_pid l /\ forall m, home st sz m -> V' m = V m.
Proof.
  intros (Hl & HV & Hw & _ & (_ & Ho & Hc) & _ & Hd & _) Hwf.
  destruct (end_op_commits D st sz l L Hl Hc Ho) as (l' & E & Hl' & Ho' & Hc' & _ & Hv' & ws & Hws & _ & Hds & Hpid).
  exists l', (dread (dsk (lb l'))). split; [done|]. split; [|split; [done|]].
  - split; [done|]. split; [done|]. split; [done|]. split; [|done]. rewrite Hds, Hd. destruct Hws as [->| ->]; [done|].
    apply commit_wf; [intros m; by rewrite <- HV| |done]. destruct (lo_txn _ _ _ _ _ _ Hl) as (_ & H1 & H2 & _).
    unfold NBUF, LOGSIZE, MAXOPBLOCKS in *. lia.
  - intros m [_ Hm]. by rewrite Hv', HV.
Qed.
End Idle.

(** ** One chunk of [filewrite] *)

Section Chunk.
Context {K : Type} {pops : PageOps K} (D st sz : Z) (SB : superblock).
#[local] Instance chunk_geo : BlockGeom := log_geom st sz.
Notation S := (kfs log K).
Implicit Types (V : Z -> block) (s : S).

Definition free_lock : sleeplock := mksleeplock false 0.

(** An inode that was read, is unlocked, and is on the idle disk [V]. *)
Record opened (f : fs log) V (ip : nat) (x : inode) : Prop := mkopened {
  op_idle : idle D st sz (fb f) V; op_sb : sb f = SB; op_layout : layout_ok SB V;
  op_ino : icache f !! ip = Some x; op_dev : i_dev x = D; op_inum : valid_inum SB (i_inum x);
  op_file : file_ok SB V (i_d x); op_map : mapped V (i_d x); op_max : d_size (i_d x) <= FMAX;
  op_disk : disk_inode SB V (i_inum x) = i_d x; op_ref : 0 < i_ref x; op_valid : i_valid x = true; op_lock : i_lock x = free_lock
}.

Lemma fsop_run {A} (m : M (fs log) A) s a f' : m (kf_fs s) = Ok (a, f') -> fsop m s = Ok (a, set_kfs f' s).
Proof. apply zoom_ok. Qed.

Lemma fupd_run (g : file -> file) s fd y : kf_files s !! fd = Some y -> fupd fd g s = Ok (tt, set_files (<[fd := g y]> (kf_files s)) s).
Proof.
  intros Hy. unfold fupd, modify. do 3 f_equal. apply list_eq. intros j. destruct (decide (fd = j)) as [<-|Hne].
  - rewrite list_lookup_alter_eq, Hy, list_lookup_insert_eq; [done|by apply lookup_lt_Some in Hy].
  - by rewrite list_lookup_alter_ne, list_lookup_insert_ne.
Qed.

(** [iunlock] by the process that locked. *)
Lemma iunlock_run (f : fs log) ip x : icache f !! ip = Some x -> holdingsleep (b_pid (fb f)) (i_lock x) = true -> 0 < i_ref x ->
  exists f', iunlock ip f = Ok (tt, f') /\ isame f f' ip (set_lock free_lock x) /\ fb f' = fb f.
Proof.
  intros Hx Hh Hr. destruct (unlock_run f ip x Hx) as (f' & E & H'). exists f'. split; [|done].
  unfold iunlock. rewrite (bind_ok _ _ _ _ _ eq_refl), (bind_ok _ _ _ _ _ eq_refl), (list_lookup_total_correct _ _ _ Hx), Hh.
  by rewrite (proj2 (Z.ltb_ge _ _)) by lia.
Qed.

(** A source that delivers [data] and does not touch the file system. *)
Definition source_pure (copyin : Z -> Z -> M (fs log) (Z * list Z)) (data : list Z) : Prop :=
  forall f tot m, 0 <= tot -> 0 <= m -> tot + m <= Z.of_nat (length data) ->
  copyin tot m f = Ok ((0, sub data (Z.to_nat tot) (Z.to_nat m)), f).

(** Begin, lock, write, unlock, end. *)
Lemma write_op copyin data (f : fs log) V ip x off n (T : nat) :
  opened f V ip x -> source_pure copyin data -> Forall is_byte data -> n = Z.of_nat (length data) -> 0 < n -> 0 <= off <= d_size (i_d x) ->
  off + n <= FMAX -> turns_left off n <= Z.of_nat T -> (6 * T < cap sz)%nat -> (6 * T < NBUF)%nat -> (2 * T <= nfree SB V)%nat ->
  exists f1 f2 f3 f4 f5 V' di', blkop b_begin f = Ok (tt, f1) /\ ilock ip f1 = Ok (tt, f2) /\ writei copyin ip off n f2 = Ok (n, f3) /\
    iunlock ip f3 = Ok (tt, f4) /\ blkop b_end f4 = Ok (tt, f5) /\ opened f5 V' ip (set_d di' x) /\
    write_post SB V x V' di' off data (2 * T) /\ isame f f5 ip (set_d di' x).
Proof.
  intros [Hid Hsb Hl Hx HD Hi Hf Hm Hmax Hdk Hr Hv Hlk] Hsrc Hby Hn Hn0 Ho He HT Hc1 Hc2 Hfree.
  destruct (idle_begin D st sz (fb f) V Hid) as (l1 & E1 & Hp1 & Hb1).
  set (d0 := dsk (lb (fb f))) in *. set (w0 := dtrace (lb (fb f))) in *.
  pose (laws := log_block_laws D st sz d0 w0 1). set (f1 := set_fb l1 f).
  destruct (ilock_cached f1 ip x Hx Hr) as (f2 & E2 & I2 & F2); [by rewrite Hlk|done|]. pose proof (isame_lookup f1 f2 ip x _ Hx I2) as Hx2.
  set (x2 := set_lock _ x) in *.
  assert (HW : writeable (laws := laws) SB f2 V [] ip x2).
  { split; [unfold fblk; rewrite F2; exact Hb1|by destruct I2 as (_ & -> & _)|done|done|done|done]. }
  assert (Hs : source_ok (laws := laws) copyin data).
  { intros g V0 L0 H0 tot m Hg H1 H2 H3. exists g. by rewrite Hsrc. }
  destruct (writei_ok (laws := laws) SB copyin data f2 V [] ip x2 off n T) as (f3 & V3 & L3 & di' & E3 & HW3 & I3 & _ & _ & HP); try done.
  destruct (iunlock_run f3 ip (set_d di' x2) (wr_ino _ _ _ _ _ _ HW3)) as (f4 & E4 & I4 & F4); [|done|].
  { destruct I3 as (_ & _ & ->). cbn [set_d i_lock x2 set_lock]. rewrite F2. apply holdingsleep_acquired. }
  destruct (idle_end D st sz d0 w0 (fb f4) V3 L3) as (l5 & V5 & E5 & Hid5 & Hp5 & HV5); [rewrite F4; apply (wr_blk _ _ _ _ _ _ HW3)|apply Hid|].
  set (f5 := set_fb l5 f4). assert (HP5 : write_post SB V x2 V5 di' off data (2 * T)) by (by eapply write_post_view).
  assert (Ex : set_lock free_lock (set_d di' x2) = set_d di' x).
  { unfold x2, set_lock, set_d. cbn. by rewrite <- Hlk. }
  assert (I : isame f f5 ip (set_d di' x)).
  { rewrite Ex in I4. destruct (isame_trans _ _ _ _ _ _ I2 (isame_trans _ _ _ _ _ _ I3 I4)) as (J1 & J2 & J3).
    split; [exact J1|]. split; [exact J2|]. exact (eq_trans Hp5 (eq_trans J3 Hp1)). }
  exists f1, f2, f3, f4, f5, V5, di'. split; [by apply blkop_run|]. split; [done|]. split; [done|]. split; [done|]. split; [by apply blkop_run|].
  split; [|split; [by destruct HP5; split|done]].
  pose proof (wq_size _ _ _ _ _ _ _ _ HP5) as Hsz. cbn [i_d set_lock x2] in Hsz.
  split; try done; [by destruct I as (_ & -> & _)|apply HP5|eapply isame_lookup; [exact Hx|exact I]|apply HP5|by apply HP5|cbn; lia|apply HP5].
Qed.

Lemma write_post_nil V ip x f off : opened f V ip x -> 0 <= off <= d_size (i_d x) -> write_post SB V x V (i_d x) off [] 0.
Proof.
  intros [] Ho. split; [done|cbn; lia|done| |done|by left|lia|done|done|done|done|done].
  intros i _. by rewrite decide_False by (cbn; lia).
Qed.

Lemma source_take copyin data (m : nat) : (m <= length data)%nat -> source_pure copyin data -> source_pure copyin (take m data).
Proof.
  intros Hm Hs f tot k H1 H2 H3. rewrite length_take in H3. rewrite Hs by lia. do 3 f_equal. unfold sub.
  rewrite skipn_firstn_comm, take_take. f_equal. lia.
Qed.

Definition chunks (n : Z) : Z := (n + max_chunk - 1) / max_chunk.

Lemma filewrite_loop_ok fd ip data (ucopyin : Z -> Z -> Z -> M (fs log) (Z * list Z)) n :
  n = Z.of_nat (length data) -> Forall is_byte data -> (forall i, 0 <= i <= n -> source_pure (ucopyin i) (drop (Z.to_nat i) data)) ->
  (24 < cap sz)%nat ->
  forall fuel s V x y i, opened (kf_fs s) V ip x -> kf_files s !! fd = Some y -> f_ip y = ip -> 0 <= i <= n -> n - i < Z.of_nat fuel ->
  0 <= f_off y <= d_size (i_d x) -> f_off y + (n - i) <= FMAX -> 8 * chunks (n - i) <= Z.of_nat (nfree SB V) ->
  exists f' V' di' k, filewrite_loop fuel fd ucopyin n i s =
      Ok (n, set_files (<[fd := set_foff (f_off y + (n - i)) y]> (kf_files s)) (set_kfs f' s)) /\
    opened f' V' ip (set_d di' x) /\ write_post SB V x V' di' (f_off y) (drop (Z.to_nat i) data) k.
Proof.
  intros Hn Hby Hsrc Hcap. induction fuel as [|fuel IH]; intros s V x y i Hop Hy Hip Hi Hf Ho He Hfree; [lia|].
  destruct (decide (i < n)) as [Hlt|Hge].
  2: { assert (i = n) as -> by lia. cbn [filewrite_loop]. rewrite Z.ltb_irrefl. exists (kf_fs s), V, (i_d x), 0%nat. rewrite set_d_id, Z.sub_diag, Z.add_0_r.
       split; [|split; [done|]].
       - rewrite list_insert_id by (by destruct y). by destruct s.
       - rewrite Hn, Nat2Z.id, drop_all. by eapply write_post_nil. }
  set (n1 := Z.min (n - i) max_chunk). change max_chunk with 3072 in n1. set (d1 := take (Z.to_nat n1) (drop (Z.to_nat i) data)).
  assert (Hd1 : Z.of_nat (length d1) = n1) by (unfold d1; rewrite length_take, length_drop; lia).
  assert (Hch : 8 <= 8 * chunks (n - i)) by (unfold chunks; change max_chunk with 3072; lia).
  destruct (write_op (ucopyin i) d1 (kf_fs s) V ip x (f_off y) n1 4) as (f1 & f2 & f3 & f4 & f5 & V' & di' & E1 & E2 & E3 & E4 & E5 & Hop' & HP & I); try done; try lia.
  { apply source_take; [rewrite length_drop; lia|by apply Hsrc]. } { by apply Forall_take, Forall_drop. }
  { unfold turns_left, BSIZE. destruct (0 <? n1); lia. } { unfold NBUF. lia. }
  assert (EF : FMAX = 274432) by done. set (y1 := set_foff (f_off y + n1) y). set (s5 := set_files (<[fd := y1]> (kf_files s)) (set_kfs f5 s)).
  pose proof (lookup_lt_Some _ _ _ Hy) as Hlen.
  assert (Eb : filewrite_loop (Datatypes.S fuel) fd ucopyin n i s = filewrite_loop fuel fd ucopyin n (i + n1) s5).
  { cbn [filewrite_loop]. rewrite (proj2 (Z.ltb_lt _ _)) by lia. cbn zeta. change max_chunk with 3072. fold n1.
    rewrite (bind_ok _ _ _ _ _ eq_refl), (list_lookup_total_correct _ _ _ Hy), Hip.
    rewrite (bind_ok _ _ _ _ _ (fsop_run _ s _ _ E1)), (bind_ok _ _ _ _ _ (fsop_run _ (set_kfs f1 s) _ _ E2)), (bind_ok _ _ _ _ _ eq_refl).
    rewrite (list_lookup_total_correct (kf_files (set_kfs f2 (set_kfs f1 s))) fd y Hy), Hip.
    rewrite (bind_ok _ _ _ _ _ (fsop_run _ (set_kfs f2 s) _ _ E3)), (proj2 (Z.ltb_lt _ _)) by lia.
    rewrite (bind_ok _ _ _ _ _ (fupd_run _ (set_kfs f3 s) fd y Hy)), u32_small by lia. fold y1.
    rewrite (bind_ok _ _ _ _ _ (fsop_run _ (set_files (<[fd := y1]> (kf_files s)) (set_kfs f3 s)) _ _ E4)).
    rewrite (bind_ok _ _ _ _ _ (fsop_run _ (set_kfs f4 (set_files (<[fd := y1]> (kf_files s)) (set_kfs f3 s))) _ _ E5)).
    by rewrite (proj2 (Z.ltb_ge _ _)), Z.eqb_refl by lia. }
  pose proof (wq_size _ _ _ _ _ _ _ _ HP) as Hsz. rewrite Hd1 in Hsz. pose proof (wq_free _ _ _ _ _ _ _ _ HP) as Hfr.
  destruct (IH s5 V' (set_d di' x) y1 (i + n1)) as (f' & V2 & di2 & k & E & Hop2 & HP2); try done.
  { by apply list_lookup_insert_eq. } { lia. } { lia. } { cbn. lia. } { cbn. lia. }
  { assert (chunks (n - (i + n1)) <= chunks (n - i) - 1) by (unfold chunks; change max_chunk with 3072; lia). lia. }
  exists f', V2, di2, (2 * 4 + k)%nat. rewrite Eb, E. split; [|split; [exact Hop2|]].
  - unfold s5, set_files, set_kfs. cbn [kf_fs kf_files kf_pipes kf_mem]. rewrite list_insert_insert_eq. unfold y1, set_foff. cbn [f_type f_ref f_readable f_writable f_pipe f_ip f_off f_major].
    by replace (f_off y + n1 + (n - (i + n1))) with (f_off y + (n - i)) by lia.
  - rewrite <- (take_drop (Z.to_nat n1) (drop (Z.to_nat i) data)). fold d1. rewrite drop_drop.
    replace (Z.to_nat i + Z.to_nat n1)%nat with (Z.to_nat (i + n1)) by lia.
    eapply write_post_trans; [exact HP|]. rewrite Hd1. exact HP2.
Qed.
End Chunk.

(** C29: [filewrite] of [n] bytes to an open inode returns [n], advances the
    offset by [n], and leaves the file with exactly those bytes replaced and the
    size extended, committed to the disk with no operation under way; every chunk
    fits into the log.  Other inodes, other blocks in use, the other open files,
    pipes and pages are as before. *)
Theorem filewrite_writes {K : Type} {pops : PageOps K} (D st sz : Z) (SB : superblock) (dev_write : Z -> option (M (kfs log K) Z))
    fd ip data pcopyin ucopyin killed n (s : kfs log K) V x y :
  opened D st sz SB (kf_fs s) V ip x -> kf_files s !! fd = Some y ->
  f_type y = FD_INODE -> f_writable y = true -> f_ip y = ip -> 0 <= f_off y <= d_size (i_d x) ->
  n = Z.of_nat (length data) -> Forall is_byte data -> f_off y + n <= FMAX ->
  (forall i, 0 <= i <= n -> source_pure (ucopyin i) (drop (Z.to_nat i) data)) ->
  (24 < cap sz)%nat -> 8 * chunks n <= Z.of_nat (nfree SB V) ->
  exists f' V' di' k, filewrite dev_write fd pcopyin ucopyin killed n s =
      Ok (n, set_files (<[fd := set_foff (f_off y + n) y]> (kf_files s)) (set_kfs f' s)) /\
    opened D st sz SB f' V' ip (set_d di' x) /\ write_post (geo := log_geom st sz) SB V x V' di' (f_off y) data k.
Proof.
  intros Hop Hy Ht Hw Hip Ho Hn Hby He Hsrc Hcap Hfree.
  destruct (filewrite_loop_ok D st sz SB fd ip data ucopyin n Hn Hby Hsrc Hcap (Datatypes.S (Z.to_nat n)) s V x y 0)
    as (f' & V' & di' & k & E & Hop' & HP); try done; try lia.
  { by rewrite Z.sub_0_r. }
  rewrite Z.sub_0_r in E. exists f', V', di', k. split; [|split; [done|exact HP]].
  unfold filewrite. rewrite (bind_ok _ _ _ _ _ eq_refl), (list_lookup_total_correct _ _ _ Hy), Hw, Ht. cbn [negb].
  rewrite (bind_ok _ _ _ _ _ E), Z.eqb_refl. done.
Qed.

(** * The table of open files: [pipealloc] makes two files or changes nothing. *)

(** A file without references has no type; [fileclose] sees to it. *)
Definition table_ok (l : list file) : Prop := Forall (fun f => f_ref f = 0 -> f_type f = FD_NONE) l.

Lemma free_file_spec l : forall n, match free_file l n with
  | Some i => exists k x, i = (n + k)%nat /\ l !! k = Some x /\ f_ref x = 0
  | None => Forall (fun f => f_ref f <> 0) l
  end.
Proof.
  induction l as [|x l IH]; intros n; cbn; [done|]. destruct (Z.eqb_spec (f_ref x) 0) as [E|E].
  - exists 0%nat, x. by rewrite Nat.add_0_r.
  - specialize (IH (S n)). destruct (free_file l (S n)) as [i|]; [|by constructor].
    destruct IH as (k & y & -> & Hk & Hy). exists (S k), y. split; [lia|done].
Qed.

Section Alloc.
Context {B K : Type} {ops : BlockOps B} {pops : PageOps K}.
Notation S := (kfs B K).
Implicit Types s : S.

Lemma fupd_at (g : file -> file) s fd y : kf_files s !! fd = Some y -> fupd fd g s = Ok (tt, set_files (<[fd := g y]> (kf_files s)) s).
Proof.
  intros Hy. unfold fupd, modify. do 3 f_equal. apply list_eq. intros j. destruct (decide (fd = j)) as [<-|Hne].
  - rewrite list_lookup_alter_eq, Hy, list_lookup_insert_eq; [done|by apply lookup_lt_Some in Hy].
  - by rewrite list_lookup_alter_ne, list_lookup_insert_ne.
Qed.

Lemma filealloc_ok s : filealloc s = Ok (None, s) /\ Forall (fun f => f_ref f <> 0) (kf_files s) \/
  exists i x, filealloc s = Ok (Some i, set_files (<[i := set_fref 1 x]> (kf_files s)) s) /\ kf_files s !! i = Some x /\ f_ref x = 0.
Proof.
  unfold filealloc. rewrite (bind_ok _ _ _ _ _ eq_refl). pose proof (free_file_spec (kf_files s) 0) as H.
  destruct (free_file (kf_files s) 0) as [i|]; [right|by left]. destruct H as (k & x & -> & Hx & Hr). exists k, x.
  by rewrite (bind_ok _ _ _ _ _ (fupd_at _ s k x Hx)).
Qed.

(** Closing a file that was just allocated gives its entry back. *)
Lemma fileclose_fresh s i x : kf_files s !! i = Some (set_fref 1 x) -> f_ref x = 0 -> f_type x = FD_NONE ->
  fileclose i s = Ok (tt, set_files (<[i := x]> (kf_files s)) s).
Proof.
  intros Hi Hr Ht. pose proof (lookup_lt_Some _ _ _ Hi) as Hlt. unfold fileclose.
  rewrite (bind_ok _ _ _ _ _ eq_refl), (list_lookup_total_correct _ _ _ Hi). cbn [f_ref set_fref].
  change (1 <? 1) with false. cbn iota. change (1 - 1) with 0. rewrite (bind_ok _ _ _ _ _ (fupd_at _ s i _ Hi)). change (0 <? 0) with false. cbn iota. rewrite (bind_ok _ _ _ _ _ eq_refl).
  set (s1 := set_files _ s). assert (H1 : kf_files s1 !! i = Some (set_fref 0 (set_fref 1 x))) by (by apply list_lookup_insert_eq).
  rewrite (list_lookup_total_correct _ _ _ H1), (bind_ok _ _ _ _ _ (fupd_at _ s1 i _ H1)). cbn [f_type set_fref]. rewrite Ht.
  unfold ret, s1, set_files. cbn. rewrite list_insert_insert_eq. do 5 f_equal. destruct x; cbn in *; subst; done.
Qed.

Lemma set_files_id s l : l = kf_files s -> set_files l s = s.
Proof. intros ->. by destruct s. Qed.

(** [pipealloc] gives a read end and a write end of a new, empty, open
    pipe, in two entries that were free, or returns -1 and leaves files, pipes and
    pages as they were, provided a failing page allocation changes nothing. *)
Theorem pipealloc_all_or_nothing s :
  table_ok (kf_files s) ->
  (forall k, exists a k', p_alloc k = Ok (a, k') /\ (a = 0 -> k' = k)) ->
  match pipealloc s with
  | Ok (None, s') => s' = s
  | Ok (Some (r, w), s') => r <> w /\ exists x y pg d k', kf_files s !! r = Some x /\ kf_files s !! w = Some y /\ f_ref x = 0 /\ f_ref y = 0 /\
      p_alloc (kf_mem s) = Ok (pg, k') /\ pg <> 0 /\
      s' = mkkfs (kf_fs s) (<[w := set_fpipe false true pg (set_fref 1 y)]> (<[r := set_fpipe true false pg (set_fref 1 x)]> (kf_files s)))
             (<[pg := mkpst (mkpipe d 0 0 true true) [] [] []]> (kf_pipes s)) k'
  | _ => False
  end.
Proof.
  intros Hok Hal. unfold pipealloc. destruct (filealloc_ok s) as [[E _]|(r & x & E & Hr & Hx)]; rewrite (bind_ok _ _ _ _ _ E); [done|]. clear E.
  assert (Htx : f_type x = FD_NONE) by (unfold table_ok in Hok; rewrite Forall_lookup in Hok; by apply (Hok r)).
  pose proof (lookup_lt_Some _ _ _ Hr) as Hrl. set (s1 := set_files _ s).
  assert (H1 : kf_files s1 !! r = Some (set_fref 1 x)) by (by apply list_lookup_insert_eq).
  assert (Eback : set_files (<[r := x]> (kf_files s1)) s1 = s).
  { unfold s1, set_files. cbn. rewrite list_insert_insert_eq, list_insert_id by done. by destruct s. }
  destruct (filealloc_ok s1) as [[E _]|(w & y & E & Hw & Hy)]; rewrite (bind_ok _ _ _ _ _ E); clear E.
  { unfold pipealloc_bad. cbn [Z.eqb]. rewrite (bind_ok _ _ _ _ _ eq_refl), (bind_ok _ _ _ _ _ (fileclose_fresh s1 r x H1 Hx Htx)), (bind_ok _ _ _ _ _ eq_refl). exact Eback. }
  assert (Hne : r <> w) by (intros <-; rewrite H1 in Hw; injection Hw as <-; done).
  assert (Hw0 : kf_files s !! w = Some y) by (unfold s1 in Hw; cbn in Hw; by rewrite list_lookup_insert_ne in Hw).
  assert (Hty : f_type y = FD_NONE) by (unfold table_ok in Hok; rewrite Forall_lookup in Hok; by apply (Hok w)).
  pose proof (lookup_lt_Some _ _ _ Hw) as Hwl. set (s2 := set_files _ s1).
  assert (H2r : kf_files s2 !! r = Some (set_fref 1 x)) by (unfold s2; cbn; by rewrite list_lookup_insert_ne).
  destruct (Hal (kf_mem s)) as (pg & k' & Ea & Hz). assert (Em : memop p_alloc s2 = Ok (pg, set_kmem k' s2)) by (exact (zoom_ok _ _ _ s2 _ _ Ea)).
  rewrite (bind_ok _ _ _ _ _ Em). destruct (Z.eqb_spec pg 0) as [->|Hpg].
  - rewrite (Hz eq_refl) in *. unfold pipealloc_bad. cbn [Z.eqb]. rewrite (bind_ok _ _ _ _ _ eq_refl). set (s3 := set_kmem _ s2).
    rewrite (bind_ok _ _ _ _ _ (fileclose_fresh s3 r x H2r Hx Htx)). set (s4 := set_files _ s3).
    assert (H4 : kf_files s4 !! w = Some (set_fref 1 y)) by (unfold s4; cbn; rewrite list_lookup_insert_ne by done; by apply list_lookup_insert_eq).
    rewrite (bind_ok _ _ _ _ _ (fileclose_fresh s4 w y H4 Hy Hty)). unfold ret. unfold s4, s3, s2, s1, set_files, set_kmem. cbn.
    rewrite (list_insert_insert_ne _ r w) by done. rewrite !list_insert_insert_eq, (list_insert_id (kf_files s) r), (list_insert_id _ w) by done. by destruct s.
  - rewrite (bind_ok _ _ _ _ _ eq_refl). erewrite bind_ok by reflexivity. set (s3 := set_pipes _ (set_kmem k' s2)).
    assert (H3r : kf_files s3 !! r = Some (set_fref 1 x)) by exact H2r. rewrite (bind_ok _ _ _ _ _ (fupd_at _ s3 r _ H3r)). set (s4 := set_files _ s3).
    assert (H4 : kf_files s4 !! w = Some (set_fref 1 y)) by (unfold s4; cbn; rewrite list_lookup_insert_ne by done; by apply list_lookup_insert_eq).
    rewrite (bind_ok _ _ _ _ _ (fupd_at _ s4 w _ H4)). split; [done|]. exists x, y, pg, (p_bytes k' pg), k'. split_and!; try done.
    unfold s4, s3, s2, s1, set_files, set_pipes, set_kmem, pipe_init. cbn. f_equal. rewrite (list_insert_insert_ne _ r w) by done.
    by rewrite !list_insert_insert_eq.
Qed.
End Alloc.

(** The page allocator: a failing [kalloc] changes nothing. *)
Lemma kalloc_fails_unchanged k : exists a k', kalloc k = Ok (a, k') /\ (a = 0 -> k' = k).
Proof.
  unfold kalloc. rewrite (bind_ok _ _ _ _ _ eq_refl). destruct (Z.eqb_spec (freelist k) 0) as [E|E].
  - by eexists _, _.
  - eexists _, _. split; [reflexivity|]. intros E'. by rewrite E' in E.
Qed.
