(* ===== verification/FileExample.v ===== *)
(** An open file on the small file system, the witness of [filewrite]'s theorem. *)

From S2P Require Import Prelude Mem Kalloc Sleeplock Bio BioRing BioSpec BioCst Bytes Log LogSpec LogRun LogThm LogOp Blk LogExample.
From S2P Require Import Fs FsIo FsBlock FsMap FsFile FsWrite FsIcache FsThm FsExample Pipe File FileThm.

Definition ex_booted : log := match initlog 1 2 30 ex_off with Ok (_, l) => l | _ => ex_off end.

#[local] Opaque ex_off.

Lemma ex_booted_idle : idle 1 2 30 ex_booted ex_view.
Proof.
  assert (Hh : head_ok 2 30 (dread ex_disk 2)) by (apply head_ok_nil; [apply ex_geom|reflexivity|reflexivity]).
  destruct (initlog_ok 1 2 30 ex_off ex_disk ex_geom ex_fresh_fs Hh) as (l1 & E1 & (_ & W1 & _) & Hl1 & Ho1 & Hc1).
  rewrite (eq_refl : outstanding ex_off = 0) in Ho1. rewrite (eq_refl : committing ex_off = false) in Hc1.
  pose proof (begin_op_ok 1 2 30 l1 [] [] Hl1 Hc1 ltac:(rewrite Ho1, (lo_n _ _ _ _ _ _ Hl1); done)) as E2.
  assert (Eon : ex_on = set_outstanding (outstanding l1 + 1) l1) by (unfold ex_on; by rewrite (bind_ok _ _ _ _ _ E1), E2).
  unfold ex_booted. rewrite E1. split; [exact Hl1|]. split; [exact Ho1|]. split; [exact Hc1|].
  assert (Ed : dsk (lb ex_on) = dsk (lb l1)) by exact (f_equal (fun l => dsk (lb l)) Eon).
  split; [|intros m; unfold ex_view; rewrite Ed; reflexivity].
  rewrite <- Ed. intros m. exact (proj1 (proj2 (proj2 (proj1 ex_on_ok))) m).
Qed.

#[local] Opaque ex_booted ex_view.

Definition ex_open : file := mkfd FD_INODE 1 true true 0 0 3 0.
Definition ex_kfs : kfs log kst := mkkfs (mkfs ex_booted [ex_ino 2 ex_di] ex_sb) [ex_open] ∅ (mkkst ∅ 0).

Lemma ex_opened : opened 1 2 30 ex_sb (kf_fs ex_kfs) ex_view 0 (ex_ino 2 ex_di).
Proof.
  split; [apply ex_booted_idle|done|apply ex_layout|done|done|done|apply ex_file|apply ex_mapped|done| |done|done|done].
  unfold disk_inode. change (IBLOCK (i_inum (ex_ino 2 ex_di)) ex_sb) with 32. rewrite (proj2 ex_on_ok 32) by done. vm_compute. reflexivity.
Qed.

Lemma ex_free8 : (8 <= nfree ex_sb ex_view)%nat.
Proof.
  assert (Hs : seqZ 35 8 ⊆+ free_blocks ex_sb ex_view).
  { apply NoDup_submseteq; [apply NoDup_seqZ|]. intros b Hb%elem_of_seqZ. apply elem_of_free. split; [unfold in_disk; cbn; lia|].
    rewrite ex_used by (unfold in_disk; cbn; lia). apply Z.leb_gt. lia. }
  by apply submseteq_length in Hs.
Qed.

Lemma filewrite_writes_witness :
  exists f' V' di' k, filewrite (fun _ => None) 0 (fun _ => None) (fun i => from_kernel (drop (Z.to_nat i) [72; 73])) false 2 ex_kfs =
      Ok (2, set_files [set_foff 5 ex_open] (set_kfs f' ex_kfs)) /\
    write_post (geo := log_geom 2 30) ex_sb ex_view (ex_ino 2 ex_di) V' di' 3 [72; 73] k.
Proof.
  destruct (filewrite_writes 1 2 30 ex_sb (fun _ => None) 0 0 [72; 73] (fun _ => None) (fun i => from_kernel (drop (Z.to_nat i) [72; 73]))
    false 2 ex_kfs ex_view (ex_ino 2 ex_di) ex_open) as (f' & V' & di' & k & E & _ & HP).
  - apply ex_opened.
  - reflexivity.
  - reflexivity.
  - reflexivity.
  - reflexivity.
  - done.
  - reflexivity.
  - unfold is_byte. repeat constructor; lia.
  - done.
  - intros i Hi f tot m H1 H2 H3. reflexivity.
  - unfold cap, LOGSIZE, MAXOPBLOCKS. lia.
  - pose proof ex_free8. change (8 * chunks 2) with 8. lia.
  - exists f', V', di', k. split; [exact E|exact HP].
Defined.

(** Two free entries and no page left. *)
Definition ex_no_page : kfs log kst := mkkfs (kf_fs ex_kfs) [file0; ex_open; file0] ∅ (mkkst ∅ 0).

Lemma pipealloc_all_or_nothing_witness : pipealloc ex_no_page = Ok (None, ex_no_page).
Proof.
  assert (H1 : table_ok (kf_files ex_no_page)) by (repeat constructor; done).
  pose proof (pipealloc_all_or_nothing ex_no_page H1 kalloc_fails_unchanged) as H. revert H.
  destruct (pipealloc ex_no_page) as [[[[r w]|] s']| | |] eqn:E; intros H; try contradiction.
  - destruct H as (_ & x & y & pg & d & k' & _ & _ & _ & _ & Ea & Hpg & _). injection Ea as <- _. contradiction.
  - rewrite H. reflexivity.
Defined.
