(* ===== verification/Gic.v ===== *)
(** kernel/gic.c and the registers of kernel/timer.c: the interrupt controller.  Its
    registers and the service routines are parameters: [rd] and [wr] access a register
    of the controller, at its offset from [GICBASE], and [run] is what a routine does
    to the rest of the kernel. *)

From S2P Require Import Prelude.


Definition GICD_CTLR : Z := 0x000.
Definition GICD_ISENABLERn : Z := 0x100.
Definition GICD_ITARGETSRn : Z := 0x800.
Definition GICD_ICFGRn : Z := 0xc00.
Definition GICC_CTLR : Z := 0x10000.
Definition GICC_PMR : Z := 0x10004.
Definition GICC_IAR : Z := 0x1000c.
Definition GICC_EOIR : Z := 0x10010.
Definition PIC_TIMER : Z := 30.
Definition PIC_UART0 : Z := 1.
Definition PIC_VIRTIO : Z := 16.
Definition NISR : nat := 64.

(** Registers as the driver sees them; a read can change the controller. *)
Class GicRegs (R : Type) := { rd : Z -> R -> Z * R; wr : Z -> Z -> R -> R }.

(** Registers that keep what is written to them, as those of the configuration do. *)
Class GicStore (R : Type) `{GicRegs R} (a : Z) := {
  store_rd : forall r b, (rd a (rd b r).2).1 = (rd a r).1;
  store_same : forall r v, (rd a (wr a v r)).1 = v;
  store_other : forall r b v, a <> b -> (rd a (wr b v r)).1 = (rd a r).1 }.

Section Gic.
Context {R ISR S : Type} `{GicRegs R}.
Context (default_isr : ISR) (run : ISR -> S -> res (unit * S)).
(** What a call through the word at index [n] does when the table has none there. *)
Context (wild : Z -> S -> res (unit * S)).

(** The registers, the table of routines ([None] is a null pointer), and the rest. *)
Record gst := mkgst { g_regs : R; g_isrs : list (option ISR); g_os : S }.
Notation G := (M gst).

Definition reg_read (a : Z) : G Z := fun s => let '(v, r) := rd a (g_regs s) in Ok (u32 v, mkgst r (g_isrs s) (g_os s)).
Definition reg_write (a v : Z) : G unit := modify (fun s => mkgst (wr a (u32 v) (g_regs s)) (g_isrs s) (g_os s)).

Definition gic_dist_switch (num : Z) (enable : bool) : G unit :=
  let bitoff := num mod 32 in
  val <- reg_read (GICD_ISENABLERn + num / 32 * 4) ;;
  let val := if enable then Z.lor val (Z.shiftl 1 bitoff) else Z.land val (Z.lnot (Z.shiftl 1 bitoff)) in
  reg_write (GICD_ISENABLERn + num / 32 * 4) val.

Definition gic_dist_config (num : Z) (edge : bool) (target : Z) : G unit :=
  let bitoff := num mod 16 * 2 in
  val <- reg_read (GICD_ICFGRn + num / 16 * 4) ;;
  let val := Z.land val (u32 (Z.shiftl (Z.lnot 3) bitoff)) in
  let val := if edge then Z.lor val (Z.shiftl 2 bitoff) else val in
  reg_write (GICD_ICFGRn + num / 16 * 4) val ;;;
  gic_dist_switch num true ;;;
  let bitoff := num mod 4 * 8 in
  val <- reg_read (GICD_ITARGETSRn + num / 4 * 4) ;;
  reg_write (GICD_ITARGETSRn + num / 4 * 4) (Z.lor val (Z.shiftl target bitoff)).

Definition gichartinit (hart : Z) : G unit :=
  reg_write GICC_PMR 0xf ;;;
  v <- reg_read GICC_CTLR ;;
  reg_write GICC_CTLR (Z.lor v 1) ;;;
  gic_dist_config PIC_TIMER false (Z.shiftl 1 hart).

Definition gic_init : G unit :=
  modify (fun s => mkgst (g_regs s) (replicate 32 (Some default_isr) ++ drop 32 (g_isrs s)) (g_os s)) ;;;
  reg_write GICC_PMR 0xf ;;;
  gic_dist_config PIC_TIMER false 1 ;;;
  gic_dist_config (PIC_UART0 + 32) false 0x11 ;;;
  gic_dist_config (PIC_VIRTIO + 32) true 0x11 ;;;
  v <- reg_read GICD_CTLR ;;
  reg_write GICD_CTLR (Z.lor v 1) ;;;
  v <- reg_read GICC_CTLR ;;
  reg_write GICC_CTLR (Z.lor v 1).

Definition gic_set (n : Z) (isr : ISR) : G unit :=
  if n <? Z.of_nat NISR then modify (fun s => mkgst (g_regs s) (<[Z.to_nat n := Some isr]> (g_isrs s)) (g_os s)) else ret tt.

(** [isrs[irq]()] *)
Definition call_isr (irq : Z) : G unit := fun s =>
  let r := match g_isrs s !! Z.to_nat irq with Some (Some f) => run f (g_os s) | _ => wild irq (g_os s) end in
  match r with
  | Ok (_, os) => Ok (tt, mkgst (g_regs s) (g_isrs s) os)
  | Panic msg => Panic msg
  | Blocked => Blocked
  | OutOfFuel => OutOfFuel
  end.
Definition call_default : G unit := zoom g_os (fun os s => mkgst (g_regs s) (g_isrs s) os) (run default_isr).

(** ask the gic what interrupt we should serve *)
Definition gic_handler : G Z :=
  irq <- reg_read GICC_IAR ;;
  (if irq =? 1023 then call_default else ret tt) ;;;
  call_isr irq ;;;
  reg_write GICC_EOIR irq ;;;
  ret irq.

(** ** kernel/timer.c: the writes of [set_physical_timer], with the frequency and the
    counter of the CPU *)
Inductive sysreg := CNTP_CTL_EL0 | CNTP_CVAL_EL0.
Definition set_physical_timer (freq cnt timeout_ms : Z) : list (sysreg * Z) :=
  [(CNTP_CTL_EL0, 0); (CNTP_CVAL_EL0, u64 (cnt + freq / 1000 * timeout_ms)); (CNTP_CTL_EL0, 1)].
Definition PERIOED : Z := 100.
Definition timer_init (isr_timer : ISR) (cpuid freq cnt : Z) : gst -> res (list (sysreg * Z) * gst) :=
  writes <- ret (set_physical_timer freq cnt PERIOED) ;;
  (if cpuid =? 0 then gic_set PIC_TIMER isr_timer else ret tt) ;;;
  ret writes.

End Gic.

(** ** Properties *)

(** The trigger field of interrupt [j] in its register. *)
Definition trigger (val j : Z) : Z := Z.land (Z.shiftr val (j mod 16 * 2)) 3.

Lemma trigger_bit val j i : 0 <= i -> Z.testbit (trigger val j) i = (i <? 2) && Z.testbit val (j mod 16 * 2 + i).
Proof.
  intros Hi. unfold trigger. change 3 with (Z.ones 2). rewrite Z.land_spec, Z.shiftr_spec, Z.testbit_ones_nonneg by lia. rewrite andb_comm. f_equal. f_equal. lia.
Qed.

Lemma mask_bit b i : 0 <= b <= 30 -> 0 <= i -> Z.testbit (u32 (Z.shiftl (Z.lnot 3) b)) i = (b + 2 <=? i) && (i <? 32).
Proof.
  intros Hb Hi. unfold u32. change (2 ^ 32) with (2 ^ 32). rewrite <- Z.land_ones, Z.land_spec, Z.testbit_ones_nonneg, Z.shiftl_spec by lia. f_equal. destruct (Z.lt_ge_cases i b) as [Hlt|Hge].
  - rewrite Z.testbit_neg_r by lia. symmetry. apply Z.leb_gt. lia.
  - rewrite Z.lnot_spec by lia. change 3 with (Z.ones 2). rewrite Z.testbit_ones_nonneg by lia. destruct (Z.leb_spec (b + 2) i), (Z.ltb_spec (i - b) 2); lia || done.
Qed.

Lemma two_bit b i : 0 <= b -> 0 <= i -> Z.testbit (Z.shiftl 2 b) i = (i =? b + 1).
Proof.
  intros Hb Hi. rewrite Z.shiftl_mul_pow2 by lia. change 2 with (2 ^ 1) at 1. rewrite <- Z.pow_add_r, Z.pow2_bits_eqb by lia. rewrite Z.eqb_sym. f_equal. lia.
Qed.

(** The value [gic_dist_config] computes for the configuration register. *)
Definition config_val (val num : Z) (edge : bool) : Z :=
  let v := Z.land val (u32 (Z.shiftl (Z.lnot 3) (num mod 16 * 2))) in if edge then Z.lor v (Z.shiftl 2 (num mod 16 * 2)) else v.

Lemma config_trigger val num edge j : 0 <= val < 2 ^ 32 -> trigger (config_val val num edge) j = if decide (j mod 16 = num mod 16) then (if edge then 2 else 0) else if decide (j mod 16 < num mod 16) then 0 else trigger val j.
Proof.
  intros Hv. apply Z.bits_inj'. intros i Hi. rewrite trigger_bit by done. assert (Hhi : forall i, 2 <= i -> Z.testbit (if edge then 2 else 0) i = false) by (intros k Hk; destruct edge; [by apply (testbit_below 2 2); lia|apply Z.testbit_0_l]).
  destruct (Z.ltb_spec i 2) as [Hlt|Hge]; cbn [andb].
  2:{ case_decide; [by rewrite Hhi|]. case_decide; [by rewrite Z.testbit_0_l|]. rewrite trigger_bit by done. destruct (Z.ltb_spec i 2); [lia|done]. }
  assert (Hc : Z.testbit (config_val val num edge) (j mod 16 * 2 + i) = Z.testbit val (j mod 16 * 2 + i) && (num mod 16 * 2 + 2 <=? j mod 16 * 2 + i) || (edge && (j mod 16 * 2 + i =? num mod 16 * 2 + 1))).
  { unfold config_val. assert (E32 : (j mod 16 * 2 + i <? 32) = true) by lia. destruct edge; rewrite ?Z.lor_spec, Z.land_spec, mask_bit, E32, ?two_bit by lia; rewrite andb_true_r; [done|by rewrite orb_false_r]. }
  rewrite Hc. clear Hc. case_decide as E1; [|case_decide as E2].
  - rewrite E1. replace (num mod 16 * 2 + 2 <=? num mod 16 * 2 + i) with false by lia. rewrite andb_false_r. cbn [orb]. assert (i = 0 \/ i = 1) as [->| ->] by lia; destruct edge; cbn [andb]; try done; [|]; destruct (Z.eqb_spec (num mod 16 * 2 + 0) (num mod 16 * 2 + 1)), (Z.eqb_spec (num mod 16 * 2 + 1) (num mod 16 * 2 + 1)); lia || done.
  - rewrite Z.testbit_0_l. replace (num mod 16 * 2 + 2 <=? j mod 16 * 2 + i) with false by lia. replace (j mod 16 * 2 + i =? num mod 16 * 2 + 1) with false by lia. by rewrite !andb_false_r.
  - rewrite trigger_bit by done. replace (i <? 2) with true by lia. replace (num mod 16 * 2 + 2 <=? j mod 16 * 2 + i) with true by lia. replace (j mod 16 * 2 + i =? num mod 16 * 2 + 1) with false by lia. by rewrite andb_true_r, andb_false_r, orb_false_r.
Qed.

Section Handler.
Context {R ISR S : Type} `{GicRegs R}.
Implicit Types s : gst (R := R) (ISR := ISR) (S := S).

(** C37: [gic_dist_config] gives interrupt [num] the trigger mode asked for and
    leaves the modes of higher-numbered interrupts of the same register alone, but it
    makes every lower-numbered one of that register level-sensitive: the mask [~0x3 <<
    bitoff] of line 65 clears all the bits below the field, not the field alone. *)
Theorem gic_config_clears_lower s num edge target `{!GicStore R (GICD_ICFGRn + num / 16 * 4)} : 0 <= num < 1020 ->
  exists s', gic_dist_config num edge target s = Ok (tt, s') /\
  let old := u32 (rd (GICD_ICFGRn + num / 16 * 4) (g_regs s)).1 in
  let new := (rd (GICD_ICFGRn + num / 16 * 4) (g_regs s')).1 in
  forall j, j / 16 = num / 16 ->
    trigger new j = if decide (j = num) then (if edge then 2 else 0) else if decide (j < num) then 0 else trigger old j.
Proof.
  intros Hn. unfold gic_dist_config, gic_dist_switch, reg_read, reg_write, bind, modify. set (a := GICD_ICFGRn + num / 16 * 4) in *.
  destruct (rd a (g_regs s)) as [v0 r0] eqn:E0. cbn [g_regs g_isrs g_os]. destruct (rd (GICD_ISENABLERn + num / 32 * 4) _) as [v1 r1] eqn:E1. cbn [g_regs g_isrs g_os].
  destruct (rd (GICD_ITARGETSRn + num / 4 * 4) _) as [v2 r2] eqn:E2. eexists. split; [reflexivity|]. cbn [g_regs g_isrs g_os fst]. intros j Hj.
  rewrite store_other by (unfold a, GICD_ICFGRn, GICD_ITARGETSRn; lia). rewrite <- (f_equal snd E2 : _ = r2), store_rd, store_other by (unfold a, GICD_ICFGRn, GICD_ISENABLERn; lia).
  rewrite <- (f_equal snd E1 : _ = r1), store_rd, store_same. fold (config_val (u32 v0) num edge).
  assert (Hc : u32 (config_val (u32 v0) num edge) = config_val (u32 v0) num edge).
  { apply Z.bits_inj'. intros i Hi. unfold u32 at 1. rewrite <- Z.land_ones, Z.land_spec, Z.testbit_ones_nonneg by lia. destruct (Z.ltb_spec i 32); [by rewrite andb_true_r|]. rewrite andb_false_r. symmetry.
    unfold config_val. assert (Hm : Z.testbit (u32 (Z.shiftl (Z.lnot 3) (num mod 16 * 2))) i = false) by (rewrite mask_bit by lia; replace (i <? 32) with false by lia; apply andb_false_r).
    destruct edge; rewrite ?Z.lor_spec, Z.land_spec, Hm, andb_false_r; [|done]. rewrite two_bit by lia. cbn [orb]. lia. }
  rewrite Hc, config_trigger by apply u32_range. repeat case_decide; try lia; done.
Qed.

Context (default_isr : ISR) (run : ISR -> S -> res (unit * S)) (wild : Z -> S -> res (unit * S)).
Notation gic_handler := (gic_handler default_isr run wild).

(** A spurious interrupt, which the controller reports as number 1023, is
    not only reported: the handler then calls through entry 1023 of a table of 64. *)
Theorem gic_handler_spurious s r os : length (g_isrs s) = NISR -> rd GICC_IAR (g_regs s) = (1023, r) -> run default_isr (g_os s) = Ok (tt, os) ->
  gic_handler s = match wild 1023 os with
                  | Ok (_, os') => Ok (1023, mkgst (wr GICC_EOIR 1023 r) (g_isrs s) os')
                  | Panic msg => Panic msg
                  | Blocked => Blocked
                  | OutOfFuel => OutOfFuel
                  end.
Proof.
  intros Hl Hr Hd. unfold gic_handler, reg_read, bind. rewrite Hr. change (u32 1023) with 1023. cbn [Z.eqb Pos.eqb]. unfold call_default. rewrite (zoom_ok _ _ _ _ tt os) by done. unfold call_isr. cbn [g_isrs g_regs g_os].
  rewrite lookup_ge_None_2 by (rewrite Hl; unfold NISR; lia). destruct (wild 1023 os) as [[[] os']| | |]; done.
Qed.

(** An interrupt with a routine in the table runs that routine, and the controller is
    told that this interrupt has been served. *)
Theorem gic_handler_serves s irq r f os : 0 <= irq < 1023 -> rd GICC_IAR (g_regs s) = (irq, r) -> g_isrs s !! Z.to_nat irq = Some (Some f) -> run f (g_os s) = Ok (tt, os) ->
  gic_handler s = Ok (irq, mkgst (wr GICC_EOIR irq r) (g_isrs s) os).
Proof.
  intros Hi Hr Hf Ho. unfold gic_handler, reg_read, bind. rewrite Hr, (u32_small irq) by lia. destruct (Z.eqb_spec irq 1023); [lia|]. unfold ret, call_isr. cbn [g_isrs g_regs g_os]. rewrite Hf, Ho. unfold reg_write, modify. cbn [g_isrs g_regs g_os].
  by rewrite u32_small by lia.
Qed.
End Handler.

(** ** A controller whose registers keep what is written *)
#[export] Instance plain_regs : GicRegs (Z -> Z) := {| rd a r := (r a, r); wr a v r := fun b => if b =? a then v else r b |}.
#[export] Instance plain_store a : GicStore (Z -> Z) a.
Proof.
  split; [done| |].
  - intros r v. cbn. by rewrite Z.eqb_refl.
  - intros r b v Hne. cbn. destruct (Z.eqb_spec a b); done.
Qed.

(** Interrupt 48 is edge-triggered until 49 is configured. *)
Lemma gic_config_clears_lower_witness : exists s' : gst (R := Z -> Z) (ISR := unit) (S := unit),
  gic_dist_config 49 true 0x11 (mkgst (fun _ => 2) [] tt) = Ok (tt, s') /\ trigger 2 48 = 2 /\ trigger (g_regs s' 0xc0c) 48 = 0.
Proof.
  destruct (gic_config_clears_lower (R := Z -> Z) (ISR := unit) (S := unit) (mkgst (fun _ => 2) [] tt) 49 true 0x11 ltac:(lia)) as (s' & E & Ht). exists s'. split; [exact E|]. split; [reflexivity|].
  exact (Ht 48 eq_refl).
Defined.

Lemma gic_handler_spurious_witness :
  gic_handler (R := Z -> Z) tt (fun _ os => Ok (tt, os)) (fun _ _ => Panic "jump to a wild address") (mkgst (fun _ => 1023) (replicate 64 (Some tt)) tt) = Panic "jump to a wild address".
Proof.
  exact (gic_handler_spurious (R := Z -> Z) tt (fun _ os => Ok (tt, os)) (fun _ _ => Panic "jump to a wild address") (mkgst (fun _ => 1023) (replicate 64 (Some tt)) tt) (fun _ => 1023) tt eq_refl eq_refl eq_refl).
Defined.
