(* ===== verification/Printf.v ===== *)
(** kernel/printf.c: formatted output.  The output is the list of characters
    handed to [consputc]. *)

From S2P Require Import Prelude.

(** [static char digits[] = "0123456789abdef"]: 15 characters and a NUL. *)
Definition digits : list Z := [48; 49; 50; 51; 52; 53; 54; 55; 56; 57; 97; 98; 100; 101; 102; 0].

(** The do-while loop: the characters in the order they are put in [buf]. *)
Fixpoint digit_loop (fuel : nat) (x base : Z) : list Z :=
  match fuel with
  | O => []
  | S f =>
      let x' := x / base in
      (digits !!! Z.to_nat (x mod base)) :: if x' =? 0 then [] else digit_loop f x' base
  end.

(** [x] has at most 32 digits in any base. *)
Definition printfint (xx base : Z) (sign : bool) : list Z :=
  let neg := sign && (xx <? 0) in
  let x := if neg then u32 (- xx) else u32 xx in
  rev (digit_loop 32 x base ++ if neg then [45] else []).

Fixpoint ptr_loop (k : nat) (x : Z) : list Z :=
  match k with
  | O => []
  | S k' => (digits !!! Z.to_nat (Z.shiftr x 60)) :: ptr_loop k' (u64 (Z.shiftl x 4))
  end.

Definition printptr (x : Z) : list Z := 48 :: 120 :: ptr_loop 16 x.

(** The variable arguments; a string is its bytes, [None] a null pointer. *)
Inductive arg := AInt (v : Z) | APtr (v : Z) | AStr (s : option (list Z)).

Fixpoint cchars (s : list Z) : list Z :=
  match s with
  | [] => []
  | c :: s' => if c =? 0 then [] else c :: cchars s'
  end.

Definition null_str : list Z := [40; 110; 117; 108; 108; 41].

(** The output, [None] when an argument is missing or of another type, which C
    leaves undefined. *)
Fixpoint printf (fmt : list Z) (ap : list arg) : option (list Z) :=
  match fmt with
  | [] => Some []
  | c :: fmt' =>
      if c =? 0 then Some [] else
      if negb (c =? 37) then cons c <$> printf fmt' ap else
      match fmt' with
      | [] => Some []
      | c :: fmt'' =>
          if c =? 0 then Some [] else
          if c =? 100 then
            match ap with AInt v :: ap' => app (printfint v 10 true) <$> printf fmt'' ap' | _ => None end
          else if c =? 120 then
            match ap with AInt v :: ap' => app (printfint v 16 true) <$> printf fmt'' ap' | _ => None end
          else if c =? 112 then
            match ap with APtr v :: ap' => app (printptr v) <$> printf fmt'' ap' | _ => None end
          else if c =? 115 then
            match ap with AStr s :: ap' => app (cchars (default null_str s)) <$> printf fmt'' ap' | _ => None end
          else if c =? 37 then cons 37 <$> printf fmt'' ap
          else (fun o => 37 :: c :: o) <$> printf fmt'' ap
      end
  end.

(** ** Decimal numbers *)

Definition is_digit (c : Z) : Prop := 48 <= c <= 57.

(** The value of decimal digits, most significant first. *)
Definition dec_val (s : list Z) : Z := foldl (fun n c => 10 * n + (c - 48)) 0 s.

(** Reading a decimal number with an optional minus sign. *)
Definition read_dec (s : list Z) : Z :=
  match s with
  | 45 :: s' => - dec_val s'
  | _ => dec_val s
  end.

Lemma head_rev {A} (l : list A) : head (rev l) = last l.
Proof. destruct l as [|x l _] using rev_ind; [done|]. by rewrite rev_app_distr, last_snoc. Qed.

Lemma digit_dec k : 0 <= k < 10 -> digits !!! Z.to_nat k = 48 + k.
Proof. intros Hk. by assert (k = 0 \/ k = 1 \/ k = 2 \/ k = 3 \/ k = 4 \/ k = 5 \/ k = 6 \/ k = 7 \/ k = 8 \/ k = 9) as [->|[->|[->|[->|[->|[->|[->|[->|[->| ->]]]]]]]]] by lia. Qed.

(** Decimal digits, the value, the number of digits, no leading zero. *)
Lemma digit_loop_dec : forall fuel x, 0 <= x < 10 ^ Z.of_nat fuel -> (0 < fuel)%nat ->
  let l := digit_loop fuel x 10 in
  Forall is_digit l /\ dec_val (rev l) = x /\ (1 <= length l <= fuel)%nat /\
  (x <> 0 -> last l <> Some 48) /\ (x = 0 -> l = [48]) /\ (forall n, 0 < Z.of_nat n -> x < 10 ^ Z.of_nat n -> (length l <= n)%nat).
Proof.
  induction fuel as [|fuel IH]; intros x Hx Hf; [lia|]. cbn zeta. cbn [digit_loop]. rewrite digit_dec by lia.
  destruct (Z.eqb_spec (x / 10) 0) as [E|E].
  - assert (Hs : x < 10) by lia. rewrite Z.mod_small by lia. split; [constructor; [unfold is_digit; lia|done]|].
    split; [cbn; lia|]. split; [cbn; lia|]. split; [cbn; intros H [= ?]; lia|]. split; [by intros ->|]. intros; cbn; lia.
  - destruct fuel as [|fuel]; [cbn in Hx; lia|]. rewrite Nat2Z.inj_succ, Z.pow_succ_r in Hx by lia.
    destruct (IH (x / 10)) as (H1 & H2 & H3 & H4 & H5 & H6); [lia|lia|].
    split; [constructor; [unfold is_digit; lia|done]|]. split; [|split; [cbn [length]; lia|split; [|split; [intros ->; done|]]]].
    + cbn [rev]. unfold dec_val in *. rewrite foldl_app, H2. cbn. lia.
    + intros _. rewrite last_cons. destruct (last (digit_loop (S fuel) (x / 10) 10)) eqn:El; [by apply H4|].
      apply last_None in El. by rewrite El in H3; cbn in H3; lia.
    + intros n Hn Hlt. cbn [length]. destruct n as [|[|n]]; [lia|cbn in Hlt; lia|].
      rewrite Nat2Z.inj_succ, Z.pow_succ_r in Hlt by lia. apply le_n_S, H6; lia.
Qed.

(** [%d] prints every 32-bit integer, also the least one, as its decimal
    numeral: an optional minus sign, then at most 10 digits without a leading zero,
    which read back as the integer; the 16-byte buffer is never exceeded. *)
Theorem printfint_decimal xx : - 2 ^ 31 <= xx < 2 ^ 31 ->
  let s := printfint xx 10 true in
  read_dec s = xx /\ (length s <= 11)%nat /\
  exists t, s = (if xx <? 0 then [45] else []) ++ t /\ Forall is_digit t /\ (head t = Some 48 -> t = [48]).
Proof.
  intros Hx. cbn zeta. unfold printfint. cbn [andb]. set (x := if xx <? 0 then u32 (- xx) else u32 xx).
  assert (Ex : x = Z.abs xx) by (unfold x; destruct (Z.ltb_spec xx 0); rewrite u32_small by lia; lia).
  destruct (digit_loop_dec 32 x) as (H1 & H2 & H3 & H4 & H5 & H6); [rewrite Ex; cbn; lia|lia|].
  set (l := digit_loop 32 x 10) in *. assert (Hlen : (length l <= 10)%nat) by (apply (H6 10%nat); [lia|rewrite Ex; cbn; lia]).
  assert (Hd : Forall is_digit (rev l)) by (by apply Forall_rev).
  rewrite rev_app_distr. destruct (Z.ltb_spec xx 0) as [Hn|Hn]; cbn [rev app].
  - split; [change (- dec_val (rev l) = xx); rewrite H2; lia|]. split; [cbn [length]; rewrite length_rev; lia|]. exists (rev l). split; [done|]. split; [done|].
    intros Hh. destruct (decide (x = 0)) as [E0|E0]; [by rewrite (H5 E0)|]. exfalso. apply (H4 E0). by rewrite <- head_rev.
  - split; [|split; [rewrite length_rev; lia|]].
    + destruct (rev l) as [|c t] eqn:Er; [cbn in H2; cbn; lia|]. inversion Hd as [|? ? Hc]; subst. unfold is_digit in Hc.
      assert (E : read_dec (c :: t) = dec_val (c :: t)) by (unfold read_dec; destruct c as [|p|p]; [done| |done]; repeat (destruct p; try done); cbn in Hc; lia).
      rewrite E, H2. lia.
    + exists (rev l). split; [done|]. split; [done|]. intros Hh. destruct (decide (x = 0)) as [E0|E0]; [by rewrite (H5 E0)|].
      exfalso. apply (H4 E0). by rewrite <- head_rev.
Qed.

(** The hexadecimal digit of a nibble. *)
Definition hex_digit (k : Z) : Z := if k <? 10 then 48 + k else 87 + k.

Definition nibbles : list Z := seqZ 0 16.

Lemma digits_hex k : 0 <= k < 16 -> digits !!! Z.to_nat k = hex_digit k <-> k < 12.
Proof.
  intros Hk. assert (Hf : Forall (fun k => digits !!! Z.to_nat k = hex_digit k <-> k < 12) nibbles).
  { apply (bool_decide_eq_true_1 _). by vm_compute. }
  rewrite Forall_forall in Hf. apply Hf, elem_of_seqZ. lia.
Qed.

(** The digit table lacks the letter c, so [%x] prints a nibble as its
    hexadecimal digit exactly when it is below 12: 12 to 14 come out as the next
    letter and 15 as a NUL character. *)
Theorem printfint_hex_digit k : 0 <= k < 16 -> printfint k 16 true = [hex_digit k] <-> k < 12.
Proof.
  intros Hk. rewrite <- (digits_hex k Hk). unfold printfint. rewrite (proj2 (Z.ltb_ge k 0)) by lia. cbn [andb].
  rewrite u32_small by lia. cbn [digit_loop]. rewrite Z.mod_small, Z.div_small by lia. cbn [Z.eqb app rev].
  split; [by intros [= ?]|by intros ->].
Qed.

Lemma printfint_decimal_witness : read_dec (printfint (-2147483648) 10 true) = -2147483648.
Proof. apply (printfint_decimal (-2147483648)). lia. Defined.

Lemma printfint_hex_digit_witness : ~ printfint 15 16 true = [hex_digit 15].
Proof. intros H. apply (printfint_hex_digit 15) in H; [discriminate|lia]. Defined.
