(* ===== verification/Uart.v ===== *)
(** kernel/uart.c: the driver of the PL011 UART.  The device is a parameter: what a
    read of a register gives and how reads and writes change it.  The transmit
    routines run under [uart_tx_lock]; a call of [uartputc] that finds the buffer
    full gives up the lock in [sleep] and starts again when woken. *)

From S2P Require Import Prelude.

(** Memory-mapped registers of a device in state [H]. *)
Class Mmio (H : Type) := { rd : Z -> H -> Z * H; wr : Z -> Z -> H -> H }.

Definition UART_DR : Z := 0.
Definition UART_FR : Z := 6.
Definition UART_IBRD : Z := 9.
Definition UART_FBRD : Z := 10.
Definition UART_LCR : Z := 11.
Definition UART_CR : Z := 12.
Definition UART_IMSC : Z := 14.
Definition UART_MIS : Z := 16.
Definition UART_ICR : Z := 17.
Definition UARTFR_TXFF : Z := Z.shiftl 1 5.
Definition UARTFR_RXFE : Z := Z.shiftl 1 4.
Definition UARTCR_RXE : Z := Z.shiftl 1 9.
Definition UARTCR_TXE : Z := Z.shiftl 1 8.
Definition UARTCR_EN : Z := Z.shiftl 1 0.
Definition UARTLCR_FEN : Z := Z.shiftl 1 4.
Definition UART_RXI : Z := Z.shiftl 1 4.
Definition UART_TXI : Z := Z.shiftl 1 5.
Definition UART_BITRATE : Z := 19200.
Definition UART_CLK : Z := 24000000.
Definition UART_TX_BUF_SIZE : Z := 32.

(** Who wrote a character to the data register. *)
Inductive source := Buffered | Sync.

#[export] Instance source_eq_dec : EqDecision source.
Proof. solve_decision. Defined.

(** The driver's variables, the device, and two logs: the characters written to the
    data register, and the number of calls [wakeup(&uart_tx_r)]. *)
Record uart {H : Type} := mkuart {
  uart_tx_buf : list Z; uart_tx_w : Z; uart_tx_r : Z;
  panicked : bool;
  dev : H;
  sent : list (source * Z); wakes : Z
}.
Arguments uart : clear implicits.

(** How the critical section of [uartputc] ends. *)
Inductive put_result := Put | Full.

Section driver.
Context {H : Type} {io : Mmio H}.

Definition set_dev (h : H) (u : uart H) : uart H :=
  mkuart H (uart_tx_buf u) (uart_tx_w u) (uart_tx_r u) (panicked u) h (sent u) (wakes u).

(** [uart_base[r]] read and written *)
Definition reg (r : Z) : M (uart H) Z := fun u => let '(v, h) := rd r (dev u) in Ok (v, set_dev h u).
Definition set_reg (r v : Z) : M (uart H) unit := modify (fun u => set_dev (wr r (u32 v) (dev u)) u).

Definition log_sent (o : source) (c : Z) : M (uart H) unit :=
  modify (fun u => mkuart H (uart_tx_buf u) (uart_tx_w u) (uart_tx_r u) (panicked u) (dev u) (sent u ++ [(o, c)]) (wakes u)).

(** [uart_base[UART_DR] = c] *)
Definition send (o : source) (c : Z) : M (uart H) unit := set_reg UART_DR c ;;; log_sent o c.

Definition uart_init : M (uart H) unit :=
  set_reg UART_IBRD (UART_CLK / (16 * UART_BITRATE)) ;;;
  let left := UART_CLK mod (16 * UART_BITRATE) in
  set_reg UART_FBRD ((left * 4 + UART_BITRATE / 2) / UART_BITRATE) ;;;
  cr <- reg UART_CR ;;
  set_reg UART_CR (Z.lor cr (Z.lor UARTCR_EN (Z.lor UARTCR_RXE UARTCR_TXE))) ;;;
  lcr <- reg UART_LCR ;;
  set_reg UART_LCR (Z.lor lcr UARTLCR_FEN).

(** The interrupt handler is registered in Gic.v. *)
Definition uart_enable_rx : M (uart H) unit := set_reg UART_IMSC UART_RXI.

(** The loop sends at least one character of the buffer each time round. *)
Fixpoint uartstart_loop (fuel : nat) : M (uart H) unit :=
  match fuel with
  | O => nofuel
  | S f =>
      u <- get ;;
      if uart_tx_w u =? uart_tx_r u then ret tt else
      fr <- reg UART_FR ;;
      if negb (Z.land fr UARTFR_TXFF =? 0) then ret tt else
      modify (fun u => mkuart H (uart_tx_buf u) (uart_tx_w u) ((uart_tx_r u + 1) mod UART_TX_BUF_SIZE) (panicked u) (dev u) (sent u) (wakes u + 1)) ;;;
      send Buffered (uart_tx_buf u !!! Z.to_nat (uart_tx_r u)) ;;;
      uartstart_loop f
  end.

Definition uartstart : M (uart H) unit := uartstart_loop (Z.to_nat UART_TX_BUF_SIZE).

(** One critical section of [uartputc]; once [panicked] it spins for ever. *)
Definition uartputc (c : Z) : M (uart H) put_result :=
  u <- get ;;
  if panicked u then nofuel else
  if (uart_tx_w u + 1) mod UART_TX_BUF_SIZE =? uart_tx_r u then ret Full
  else
    modify (fun u => mkuart H (<[Z.to_nat (uart_tx_w u) := u8 c]> (uart_tx_buf u)) ((uart_tx_w u + 1) mod UART_TX_BUF_SIZE)
      (uart_tx_r u) (panicked u) (dev u) (sent u) (wakes u)) ;;;
    uartstart ;;;
    ret Put.

(** [while (uart_base[UART_FR] & UARTFR_TXFF);] *)
Fixpoint wait_txff (fuel : nat) : M (uart H) unit :=
  match fuel with
  | O => nofuel
  | S f => fr <- reg UART_FR ;; if negb (Z.land fr UARTFR_TXFF =? 0) then wait_txff f else ret tt
  end.

Definition uartputc_sync (fuel : nat) (c : Z) : M (uart H) unit :=
  u <- get ;;
  if panicked u then nofuel else
  wait_txff fuel ;;;
  send Sync c.

(** [None] for -1 *)
Definition uartgetc : M (uart H) (option Z) :=
  fr <- reg UART_FR ;;
  if negb (Z.land fr UARTFR_RXFE =? 0) then ret None else
  c <- reg UART_DR ;; ret (Some c).

End driver.
