(* ===== verification/UartThm.v ===== *)
(** The transmit ring of the UART driver: every interleaving of writers, the
    interrupt handler, polled output and the device sends the buffered characters
    in order, without loss or repetition. *)

From S2P Require Import Prelude Uart.

Section ring.
Context {H : Type} {io : Mmio H}.

Implicit Types u : uart H.

Definition ulen u : Z := (uart_tx_w u - uart_tx_r u) mod UART_TX_BUF_SIZE.
Definition uslot u (k : Z) : Z := uart_tx_buf u !!! Z.to_nat ((uart_tx_r u + k) mod UART_TX_BUF_SIZE).

(** The characters that wait in the buffer. *)
Definition pending u : list Z := uslot u <$> seqZ 0 (ulen u).

(** The characters of the data register that came from the buffer. *)
Definition from_buf (l : list (source * Z)) : list Z := omap (fun x => if decide (x.1 = Buffered) then Some x.2 else None) l.

Record uart_ok u : Prop := mkuart_ok {
  uo_len : length (uart_tx_buf u) = Z.to_nat UART_TX_BUF_SIZE;
  uo_w : 0 <= uart_tx_w u < UART_TX_BUF_SIZE; uo_r : 0 <= uart_tx_r u < UART_TX_BUF_SIZE
}.

Lemma from_buf_app l l' : from_buf (l ++ l') = from_buf l ++ from_buf l'.
Proof. apply omap_app. Qed.

Lemma ulen_range u : 0 <= ulen u < 32.
Proof. unfold ulen, UART_TX_BUF_SIZE. lia. Qed.

Lemma length_pending u : Z.of_nat (length (pending u)) = ulen u.
Proof. unfold pending. rewrite length_fmap, length_seqZ. pose proof (ulen_range u). lia. Qed.

Lemma empty_ulen u : uart_ok u -> (uart_tx_w u =? uart_tx_r u) = (ulen u =? 0).
Proof. intros [_ Hw Hr]. unfold ulen, UART_TX_BUF_SIZE in *. apply eq_true_iff_eq. rewrite !Z.eqb_eq. lia. Qed.

Lemma full_ulen u : uart_ok u -> ((uart_tx_w u + 1) mod UART_TX_BUF_SIZE =? uart_tx_r u) = (ulen u =? 31).
Proof. intros [_ Hw Hr]. unfold ulen, UART_TX_BUF_SIZE in *. apply eq_true_iff_eq. rewrite !Z.eqb_eq. lia. Qed.

(** Taking the first character out. *)
Lemma pending_take u u' : uart_ok u -> 0 < ulen u -> uart_tx_buf u' = uart_tx_buf u -> uart_tx_w u' = uart_tx_w u ->
  uart_tx_r u' = (uart_tx_r u + 1) mod UART_TX_BUF_SIZE ->
  uart_ok u' /\ ulen u' = ulen u - 1 /\ pending u = (uart_tx_buf u !!! Z.to_nat (uart_tx_r u)) :: pending u'.
Proof.
  intros [Hl Hw Hr] Hp Eb Ew Er. assert (El : ulen u' = ulen u - 1) by (unfold ulen, UART_TX_BUF_SIZE in *; rewrite Ew, Er; lia).
  split; [split; rewrite ?Eb, ?Ew, ?Er; [done..|unfold UART_TX_BUF_SIZE; lia]|]. split; [done|].
  unfold pending. rewrite (seqZ_cons 0 (ulen u)), fmap_cons by lia. f_equal.
  - unfold uslot. do 2 f_equal. unfold UART_TX_BUF_SIZE in *. lia.
  - rewrite El. change (Z.succ 0) with 1. rewrite <- Z.sub_1_r. change 1 with (0 + 1) at 1. rewrite (Z.add_comm 0 1), <- fmap_add_seqZ, <- list_fmap_compose.
    apply list_fmap_ext. intros i k Hk. unfold uslot, compose. rewrite Eb, Er. do 2 f_equal. unfold UART_TX_BUF_SIZE. lia.
Qed.

(** Adding a character at the end. *)
Lemma pending_put u u' c : uart_ok u -> ulen u < 31 -> uart_tx_buf u' = <[Z.to_nat (uart_tx_w u) := c]> (uart_tx_buf u) ->
  uart_tx_w u' = (uart_tx_w u + 1) mod UART_TX_BUF_SIZE -> uart_tx_r u' = uart_tx_r u ->
  uart_ok u' /\ pending u' = pending u ++ [c].
Proof.
  intros [Hl Hw Hr] Hp Eb Ew Er. pose proof (ulen_range u) as Hu.
  assert (El : ulen u' = ulen u + 1) by (unfold ulen, UART_TX_BUF_SIZE in *; rewrite Ew, Er; lia).
  assert (Es : (uart_tx_r u + ulen u) mod UART_TX_BUF_SIZE = uart_tx_w u) by (unfold ulen, UART_TX_BUF_SIZE in *; lia).
  split; [split; rewrite ?Eb, ?Ew, ?Er, ?length_insert; [done| |done]; unfold UART_TX_BUF_SIZE; lia|].
  unfold pending. rewrite El, seqZ_app, fmap_app by lia. f_equal.
  - apply list_fmap_ext. intros i k Hk. apply lookup_seqZ in Hk as [-> Hlt]. unfold uslot. rewrite Eb, Er.
    apply list_lookup_total_insert_ne. intros E. unfold UART_TX_BUF_SIZE in *.
    assert (uart_tx_w u = (uart_tx_r u + (0 + Z.of_nat i)) mod 32) by lia. unfold ulen, UART_TX_BUF_SIZE in *. lia.
  - change (seqZ (0 + ulen u) 1) with [0 + ulen u]. cbn [fmap list_fmap]. f_equal. unfold uslot. rewrite Eb, Er, Z.add_0_l, Es.
    apply list_lookup_total_insert_eq. rewrite Hl. lia.
Qed.

(** What [uartstart] does: it sends a prefix of the pending characters, and stops
    when none is left or the device is full. *)
Lemma uartstart_loop_ok : forall fuel u, uart_ok u -> ulen u < Z.of_nat fuel ->
  exists u' l, uartstart_loop fuel u = Ok (tt, u') /\ uart_ok u' /\ panicked u' = panicked u /\
    pending u = l ++ pending u' /\ sent u' = sent u ++ (pair Buffered <$> l) /\ wakes u' = wakes u + Z.of_nat (length l) /\
    (pending u' = [] \/ exists h, Z.land (rd UART_FR h).1 UARTFR_TXFF <> 0 /\ dev u' = (rd UART_FR h).2).
Proof.
  induction fuel as [|fuel IH]; intros u Hu Hf; [pose proof (ulen_range u); lia|].
  cbn [uartstart_loop]. unfold bind at 1, get at 1. rewrite empty_ulen by done. destruct (Z.eqb_spec (ulen u) 0) as [E0|E0].
  { exists u, []. rewrite app_nil_r, Z.add_0_r. repeat (split; [done|]). left. unfold pending. by rewrite E0. }
  unfold reg at 1, bind at 1. destruct (rd UART_FR (dev u)) as [v h] eqn:Er.
  destruct (Z.eqb_spec (Z.land v UARTFR_TXFF) 0) as [Ev|Ev]; cbn [negb].
  2: { exists (set_dev h u), []. rewrite app_nil_r, Z.add_0_r. repeat (split; [by destruct Hu|]). right. exists (dev u). by rewrite Er. }
  pose proof (ulen_range u) as Hr. unfold send, set_reg, log_sent, modify, bind. cbn [set_dev uart_tx_buf uart_tx_w uart_tx_r panicked dev sent wakes].
  match goal with |- context [uartstart_loop fuel ?x] => set (u1 := x) end.
  destruct (pending_take u u1) as (H1 & H2 & H3); [done|lia|done|done|done|].
  destruct (IH u1 H1) as (u' & l & E & G1 & G2 & G3 & G4 & G5 & G6); [lia|]. fold u1 in E.
  exists u', ((uart_tx_buf u !!! Z.to_nat (uart_tx_r u)) :: l). split; [done|]. split; [done|]. split; [done|].
  split; [by rewrite H3, G3|]. split; [rewrite G4; cbn; by rewrite <- app_assoc|]. split; [rewrite G5; cbn [wakes u1 length]; lia|done].
Qed.

Lemma uartstart_ok u : uart_ok u ->
  exists u' l, uartstart u = Ok (tt, u') /\ uart_ok u' /\ panicked u' = panicked u /\
    pending u = l ++ pending u' /\ sent u' = sent u ++ (pair Buffered <$> l) /\ wakes u' = wakes u + Z.of_nat (length l) /\
    (pending u' = [] \/ exists h, Z.land (rd UART_FR h).1 UARTFR_TXFF <> 0 /\ dev u' = (rd UART_FR h).2).
Proof. intros Hu. apply uartstart_loop_ok; [done|]. pose proof (ulen_range u). unfold UART_TX_BUF_SIZE; lia. Qed.

Lemma from_buf_pairs l : from_buf (pair Buffered <$> l) = l.
Proof. induction l as [|c l IH]; [done|]. cbn. f_equal. exact IH. Qed.

(** One step of the system: a critical section of [uartputc], which accepts the
    character or sleeps, [uartstart] from the interrupt handler, polled output, a
    change of the device.  The list holds the characters accepted so far. *)
Inductive ustep : uart H * list Z -> uart H * list Z -> Prop :=
| us_put u a c u' : uartputc c u = Ok (Put, u') -> ustep (u, a) (u', a ++ [u8 c])
| us_full u a c u' : uartputc c u = Ok (Full, u') -> ustep (u, a) (u', a)
| us_start u a u' : uartstart u = Ok (tt, u') -> ustep (u, a) (u', a)
| us_sync u a fuel c u' : uartputc_sync fuel c u = Ok (tt, u') -> ustep (u, a) (u', a)
| us_getc u a r u' : uartgetc u = Ok (r, u') -> ustep (u, a) (u', a)
| us_dev u a h : ustep (u, a) (set_dev h u, a).

Definition uinv (s : uart H * list Z) : Prop := uart_ok s.1 /\ s.2 = from_buf (sent s.1) ++ pending s.1.

(** The driver's variables and the buffered output are unchanged. *)
Definition ukeep u u' : Prop :=
  uart_tx_buf u' = uart_tx_buf u /\ uart_tx_w u' = uart_tx_w u /\ uart_tx_r u' = uart_tx_r u /\ panicked u' = panicked u /\
  from_buf (sent u') = from_buf (sent u).

Lemma ukeep_inv u u' a : ukeep u u' -> uinv (u, a) -> uinv (u', a).
Proof.
  intros (E1 & E2 & E3 & _ & E4) [[H1 H2 H3] H4]. split; cbn [fst snd] in *; [split; congruence|].
  rewrite H4, E4. f_equal. unfold pending, uslot, ulen. by rewrite E1, E2, E3.
Qed.

Lemma reg_keep r u v u' : reg r u = Ok (v, u') -> ukeep u u'.
Proof. unfold reg. destruct (rd r (dev u)). by intros [= <- <-]. Qed.

Lemma wait_keep : forall fuel u u', wait_txff fuel u = Ok (tt, u') -> ukeep u u'.
Proof.
  induction fuel as [|fuel IH]; intros u u'; [done|]. cbn [wait_txff]. unfold bind.
  destruct (reg UART_FR u) as [[v u1]| | |] eqn:E; try done. apply reg_keep in E as (E1 & E2 & E3 & E4 & E5).
  destruct (negb _); [|by intros [= <-]]. intros (G1 & G2 & G3 & G4 & G5)%IH. repeat split; congruence.
Qed.

Lemma sync_keep fuel c u u' : uartputc_sync fuel c u = Ok (tt, u') -> ukeep u u'.
Proof.
  unfold uartputc_sync, bind, get. destruct (panicked u) eqn:Ep; [done|].
  destruct (wait_txff fuel u) as [[[] u1]| | |] eqn:E; try done. apply wait_keep in E as (G1 & G2 & G3 & G4 & G5).
  intros [= <-]. repeat split; try done. cbn. rewrite from_buf_app, G5. cbn. by rewrite app_nil_r.
Qed.

Lemma getc_keep r u u' : uartgetc u = Ok (r, u') -> ukeep u u'.
Proof.
  unfold uartgetc, bind. destruct (reg UART_FR u) as [[v u1]| | |] eqn:E; try done. apply reg_keep in E as (E1 & E2 & E3 & E4 & E5).
  destruct (negb _); [by intros [= _ <-]|]. destruct (reg UART_DR u1) as [[w u2]| | |] eqn:E'; try done.
  apply reg_keep in E' as (G1 & G2 & G3 & G4 & G5). intros [= _ <-]. repeat split; congruence.
Qed.

(** [uartputc] accepts the character unless 31 are pending. *)
Lemma uartputc_ok c u : uart_ok u -> panicked u = false ->
  exists r u', uartputc c u = Ok (r, u') /\ panicked u' = false /\
    if ulen u =? 31 then r = Full /\ u' = u
    else r = Put /\ uart_ok u' /\ exists l, pending u ++ [u8 c] = l ++ pending u' /\ sent u' = sent u ++ (pair Buffered <$> l).
Proof.
  intros Hu Hp. unfold uartputc. unfold bind at 1, get at 1. rewrite Hp, full_ulen by done.
  destruct (Z.eqb_spec (ulen u) 31) as [E|E]; [by exists Full, u|]. pose proof (ulen_range u) as Hr.
  unfold bind, modify. match goal with |- context [uartstart ?x] => set (u1 := x) end.
  destruct (pending_put u u1 (u8 c)) as [H1 H2]; [done|lia|done..|].
  destruct (uartstart_ok u1 H1) as (u' & l & E1 & G1 & G2 & G3 & G4 & _). rewrite E1. exists Put, u'.
  split; [done|]. split; [by rewrite G2|]. split; [done|]. split; [done|]. exists l. split; [by rewrite <- H2|done].
Qed.

(** While the device is full nothing leaves the buffer. *)
Lemma uartputc_none c u u' l : (forall h, Z.land (rd UART_FR h).1 UARTFR_TXFF <> 0) ->
  uart_ok u -> panicked u = false -> ulen u <> 31 -> uartputc c u = Ok (Put, u') -> sent u' = sent u ++ (pair Buffered <$> l) -> length l = 0%nat.
Proof.
  intros Hd Hu Hp Hn. unfold uartputc. unfold bind at 1, get at 1. rewrite Hp, full_ulen by done. rewrite (proj2 (Z.eqb_neq _ _) Hn).
  unfold bind, modify. match goal with |- context [uartstart ?x] => set (u1 := x) end.
  change uartstart with (uartstart_loop (S 31)). cbn [uartstart_loop]. unfold bind at 1, get at 1. destruct (uart_tx_w u1 =? uart_tx_r u1).
  - intros [= <-] Es. apply (f_equal length) in Es. rewrite length_app, length_fmap in Es. change (sent u1) with (sent u) in Es. lia.
  - unfold reg at 1, bind at 1. destruct (rd UART_FR (dev u1)) as [v h] eqn:Er. assert (Hv : Z.land v UARTFR_TXFF <> 0) by (specialize (Hd (dev u1)); by rewrite Er in Hd).
    rewrite (proj2 (Z.eqb_neq _ _) Hv). cbn [negb]. intros [= <-] Es. apply (f_equal length) in Es. rewrite length_app, length_fmap in Es. change (sent (set_dev h u1)) with (sent u) in Es. lia.
Qed.

Lemma ustep_inv s s' : uinv s -> ustep s s' -> uinv s'.
Proof.
  intros Hi Hs. destruct Hs as [u a c u' E|u a c u' E|u a u' E|u a fuel c u' E|u a r u' E|u a h].
  - destruct Hi as [Hu Ha]. cbn [fst snd] in *. destruct (panicked u) eqn:Ep; [unfold uartputc, bind, get in E; by rewrite Ep in E|].
    destruct (uartputc_ok c u Hu Ep) as (r & u2 & E' & _ & Hr). rewrite E in E'. injection E' as <- <-.
    destruct (ulen u =? 31); [by destruct Hr|]. destruct Hr as (_ & H1 & l & H2 & H3). split; [done|]. cbn [fst snd].
    rewrite Ha, H3, from_buf_app, from_buf_pairs, <- !app_assoc. by f_equal.
  - destruct Hi as [Hu Ha]. cbn [fst snd] in *. destruct (panicked u) eqn:Ep; [unfold uartputc, bind, get in E; by rewrite Ep in E|].
    destruct (uartputc_ok c u Hu Ep) as (r & u2 & E' & _ & Hr). rewrite E in E'. injection E' as <- <-.
    destruct (ulen u =? 31); [destruct Hr as [_ ->]; done|by destruct Hr].
  - destruct Hi as [Hu Ha]. cbn [fst snd] in *. destruct (uartstart_ok u Hu) as (u2 & l & E' & G1 & G2 & G3 & G4 & _).
    rewrite E in E'. injection E' as <-. split; [done|]. cbn [fst snd]. by rewrite Ha, G4, from_buf_app, from_buf_pairs, <- app_assoc, <- G3.
  - eapply ukeep_inv; [by eapply sync_keep|done].
  - eapply ukeep_inv; [by eapply getc_keep|done].
  - apply (ukeep_inv u); [by repeat split|done].
Qed.

Lemma ureach_inv s s' : rtc ustep s s' -> uinv s -> uinv s'.
Proof. induction 1; eauto using ustep_inv. Qed.

(** C30: whatever the device does, and however writers, the interrupt handler and
    polled output interleave, the characters [uartputc] accepted are the ones written
    to the data register from the buffer followed by the pending ones, in that order;
    at most 31 are pending; a further character is accepted unless all 31 places
    are taken; and the handler's [uartstart] ends with nothing pending or the
    device full. *)
Theorem uart_output_in_order u u' a : uart_ok u -> pending u = [] -> rtc ustep (u, from_buf (sent u)) (u', a) ->
  a = from_buf (sent u') ++ pending u' /\ (length (pending u') <= 31)%nat /\
  (forall c, panicked u' = false -> exists r v, uartputc c u' = Ok (r, v) /\ (r = Full <-> length (pending u') = 31%nat)) /\
  exists v, uartstart u' = Ok (tt, v) /\ (pending v = [] \/ exists h, Z.land (rd UART_FR h).1 UARTFR_TXFF <> 0 /\ dev v = (rd UART_FR h).2).
Proof.
  intros Hu Hp Hr. assert (Hi : uinv (u', a)) by (eapply ureach_inv; [exact Hr|split; [done|cbn [fst snd]; by rewrite Hp, app_nil_r]]).
  destruct Hi as [Ho Ha]. cbn [fst snd] in *. pose proof (length_pending u') as Hl. pose proof (ulen_range u') as Hn.
  split; [done|]. split; [lia|]. split.
  - intros c Hc. destruct (uartputc_ok c u' Ho Hc) as (r & v & E & _ & Hv). exists r, v. split; [done|].
    destruct (Z.eqb_spec (ulen u') 31); destruct Hv as [-> _]; split; intros ?; done || lia.
  - destruct (uartstart_ok u' Ho) as (v & l & E & _ & _ & _ & _ & _ & Hv). by exists v.
Qed.

End ring.
