(* ===== verification/Console.v ===== *)
(** kernel/console.c: the console's line discipline, and the UART's interrupt
    handler, which feeds it.  [cons.lock] makes each routine up to a [sleep] one
    step.  The depth of [push_off] is kept, since [sched] refuses to switch with
    another spin lock held. *)

From S2P Require Import Prelude Uart.

Definition BACKSPACE : Z := 256.
Definition Ctrl (x : Z) : Z := x - 64.
Definition CtrlP : Z := Ctrl 80.
Definition CtrlU : Z := Ctrl 85.
Definition CtrlH : Z := Ctrl 72.
Definition CtrlD : Z := Ctrl 68.
Definition INPUT_BUF : Z := 128.

(** The input part of [cons]. *)
Record cons_t := mkcons { cbuf : list Z; c_r : Z; c_w : Z; c_e : Z }.

(** The console, the UART, this CPU's [noff], the number of calls [wakeup(&cons.r)]
    and the bytes copied to readers. *)
Record kcon {H : Type} := mkkcon { kc : cons_t; ku : uart H; knoff : Z; kwakes : Z; kread : list Z }.
Arguments kcon : clear implicits.

(** How a section of [consoleread] ends: it returns, or sleeps with [n] to go. *)
Inductive csection := CDone (r : Z) | CSleep (n : Z).

Section console.
Context {H : Type} {io : Mmio H}.

(** [poll] bounds the polls of the transmit flag for one character. *)
Variable poll : nat.

Definition upd_cons (f : cons_t -> cons_t) : M (kcon H) unit :=
  modify (fun k => mkkcon H (f (kc k)) (ku k) (knoff k) (kwakes k) (kread k)).
Definition set_r (r : Z) : M (kcon H) unit := upd_cons (fun c => mkcons (cbuf c) r (c_w c) (c_e c)).
Definition set_w (w : Z) : M (kcon H) unit := upd_cons (fun c => mkcons (cbuf c) (c_r c) w (c_e c)).
Definition set_e (e : Z) : M (kcon H) unit := upd_cons (fun c => mkcons (cbuf c) (c_r c) (c_w c) e).

Definition on_uart {A} (m : M (uart H) A) : M (kcon H) A :=
  zoom ku (fun u k => mkkcon H (kc k) u (knoff k) (kwakes k) (kread k)) m.

(** The effect of [acquire] and [release] on [noff]. *)
Definition locks (d : Z) : M (kcon H) unit :=
  modify (fun k => mkkcon H (kc k) (ku k) (knoff k + d) (kwakes k) (kread k)).

(** [sleep(chan, lk)] up to the switch: takes [p->lock], gives up [lk], and [sched]
    checks that no other lock is held. *)
Definition sleep_locks : M (kcon H) unit :=
  locks 1 ;;; locks (-1) ;;;
  n <- gets knoff ;;
  if n =? 1 then ret tt else panic "sched locks".

Definition consputc (c : Z) : M (kcon H) unit :=
  if c =? BACKSPACE then
    on_uart (uartputc_sync poll 8) ;;;
    on_uart (uartputc_sync poll 32) ;;;
    on_uart (uartputc_sync poll 8)
  else on_uart (uartputc_sync poll c).

Fixpoint consputs (s : list Z) : M (kcon H) unit :=
  match s with
  | [] => ret tt
  | c :: s' => consputc c ;;; consputs s'
  end.

(** [for(i = 0; i < n; ++i)], [k = n - i]; [copyin i] is the byte at [src + i]. *)
Fixpoint consolewrite_loop (k : nat) (copyin : Z -> option Z) (i : Z) : M (kcon H) Z :=
  match k with
  | O => ret i
  | S k' =>
      match copyin i with
      | None => ret i
      | Some c =>
          locks 1 ;;;
          r <- on_uart (uartputc c) ;;
          match r with
          | Put => locks (-1) ;;; consolewrite_loop k' copyin (i + 1)
          | Full => sleep_locks ;;; Prelude.block
          end
      end
  end.

Definition consolewrite (copyin : Z -> option Z) (n : Z) : M (kcon H) Z :=
  locks 1 ;;;
  i <- consolewrite_loop (Z.to_nat n) copyin 0 ;;
  locks (-1) ;;;
  ret i.

(** A section of [consoleread] with [k] bytes to go of [target], from the test it
    slept in; [copyout i c] stores the byte at [dst + i]. *)
Fixpoint consoleread_loop (k : nat) (copyout : Z -> Z -> bool) (killed : bool) (target : Z) : M (kcon H) csection :=
  match k with
  | O => locks (-1) ;;; ret (CDone target)
  | S k' =>
      let n := Z.of_nat k in
      b <- gets kc ;;
      if c_r b =? c_w b then
        if killed then locks (-1) ;;; ret (CDone (-1))
        else sleep_locks ;;; ret (CSleep n)
      else
        let c := cbuf b !!! Z.to_nat (c_r b mod INPUT_BUF) in
        set_r (u32 (c_r b + 1)) ;;;
        if c =? CtrlD then
          (if n <? target then set_r (c_r b) else ret tt) ;;;
          locks (-1) ;;; ret (CDone (target - n))
        else if negb (copyout (target - n) c) then locks (-1) ;;; ret (CDone (target - n))
        else
          modify (fun k => mkkcon H (kc k) (ku k) (knoff k) (kwakes k) (kread k ++ [c])) ;;;
          if c =? 10 then locks (-1) ;;; ret (CDone (target - (n - 1)))
          else consoleread_loop k' copyout killed target
  end.

(** The first section takes the lock. *)
Definition consoleread (copyout : Z -> Z -> bool) (killed : bool) (n : Z) : M (kcon H) csection :=
  locks 1 ;;; consoleread_loop (Z.to_nat n) copyout killed n.

(** [while(cons.e != cons.w && cons.buf[(cons.e-1) % INPUT_BUF] != '\n')] *)
Fixpoint kill_line (fuel : nat) : M (kcon H) unit :=
  match fuel with
  | O => nofuel
  | S f =>
      b <- gets kc ;;
      if negb (c_e b =? c_w b) && negb (cbuf b !!! Z.to_nat (u32 (c_e b - 1) mod INPUT_BUF) =? 10) then
        set_e (u32 (c_e b - 1)) ;;;
        consputc BACKSPACE ;;;
        kill_line f
      else ret tt
  end.

(** The edited line is in the buffer, so [INPUT_BUF + 1] tests of the loop are enough;
    [procdump] prints [proc_text]. *)
Definition consoleintr (proc_text : list Z) (c : Z) : M (kcon H) unit :=
  locks 1 ;;;
  (if c =? CtrlP then consputs proc_text
   else if c =? CtrlU then kill_line (S (Z.to_nat INPUT_BUF))
   else if (c =? CtrlH) || (c =? 127) then
     b <- gets kc ;;
     if negb (c_e b =? c_w b) then set_e (u32 (c_e b - 1)) ;;; consputc BACKSPACE else ret tt
   else
     b <- gets kc ;;
     if negb (c =? 0) && (u32 (c_e b - c_r b) <? INPUT_BUF) then
       let c := if c =? 13 then 10 else c in
       consputc c ;;;
       upd_cons (fun b => mkcons (<[Z.to_nat (c_e b mod INPUT_BUF) := u8 c]> (cbuf b)) (c_r b) (c_w b) (u32 (c_e b + 1))) ;;;
       b <- gets kc ;;
       if (c =? 10) || (c =? CtrlD) || (c_e b =? u32 (c_r b + INPUT_BUF)) then
         set_w (c_e b) ;;;
         modify (fun k => mkkcon H (kc k) (ku k) (knoff k) (kwakes k + 1) (kread k))
       else ret tt
     else ret tt) ;;;
  locks (-1).

(** The loop of [isr_uart]; every character read leaves the device's FIFO. *)
Fixpoint isr_loop (fuel : nat) (proc_text : list Z) : M (kcon H) unit :=
  match fuel with
  | O => nofuel
  | S f =>
      r <- on_uart uartgetc ;;
      match r with
      | None => ret tt
      | Some c => consoleintr proc_text c ;;; isr_loop f proc_text
      end
  end.

Definition isr_uart (fuel : nat) (proc_text : list Z) : M (kcon H) unit :=
  mis <- on_uart (reg UART_MIS) ;;
  (if negb (Z.land mis UART_RXI =? 0) then isr_loop fuel proc_text else ret tt) ;;;
  on_uart uartstart ;;;
  on_uart (set_reg UART_ICR (Z.lor UART_RXI UART_TXI)).

(** [cons] as the linker leaves it. *)
Definition cons0 : cons_t := mkcons (replicate (Z.to_nat INPUT_BUF) 0) 0 0 0.

End console.
