(* ===== verification/ConsoleThm.v ===== *)
(** The line discipline of the console: [consoleintr] and [consoleread] implement a
    line editor on two lists of characters. *)

From S2P Require Import Prelude Uart UartThm Console.

(** ** The editor *)

(** Characters ready for readers, and the line being edited. *)
Record editor := mkeditor { ed_ready : list Z; ed_line : list Z }.

Definition ed_room (ed : editor) : bool := bool_decide (length (ed_ready ed) + length (ed_line ed) < 128)%nat.

Definition newline (c : Z) : Z := if c =? 13 then 10 else c.

Definition ends_line (c : Z) : bool := (c =? 10) || (c =? 4).

(** The effect of a key. *)
Definition ed_key (c : Z) (ed : editor) : editor :=
  if c =? 16 then ed
  else if c =? 21 then mkeditor (ed_ready ed) []
  else if (c =? 8) || (c =? 127) then mkeditor (ed_ready ed) (removelast (ed_line ed))
  else if negb (c =? 0) && ed_room ed then
    let l := ed_line ed ++ [newline c] in
    if ends_line (newline c) || bool_decide (length (ed_ready ed) + length l = 128)%nat
    then mkeditor (ed_ready ed ++ l) [] else mkeditor (ed_ready ed) l
  else ed.

Definition rubout : list Z := [8; 32; 8].

(** What a key echoes. *)
Definition ed_echo (text : list Z) (c : Z) (ed : editor) : list Z :=
  if c =? 16 then text
  else if c =? 21 then concat (replicate (length (ed_line ed)) rubout)
  else if (c =? 8) || (c =? 127) then (if ed_line ed then [] else rubout)
  else if negb (c =? 0) && ed_room ed then [newline c] else [].

(** ** The ring *)

(** [n] characters of the ring from index [a]. *)
Definition seg (buf : list Z) (a n : Z) : list Z := (fun k => buf !!! Z.to_nat ((a + k) mod INPUT_BUF)) <$> seqZ 0 n.

Definition ready (b : cons_t) : list Z := seg (cbuf b) (c_r b) (u32 (c_w b - c_r b)).
Definition line (b : cons_t) : list Z := seg (cbuf b) (c_w b) (u32 (c_e b - c_w b)).
Definition ed_of (b : cons_t) : editor := mkeditor (ready b) (line b).

(** The indices are 32-bit, in order, at most a buffer apart, and the edited line
    has no end of line in it. *)
Record cons_ok (b : cons_t) : Prop := mkcons_ok {
  co_len : length (cbuf b) = Z.to_nat INPUT_BUF;
  co_r : 0 <= c_r b < 2 ^ 32; co_w : 0 <= c_w b < 2 ^ 32; co_e : 0 <= c_e b < 2 ^ 32;
  co_n : u32 (c_w b - c_r b) + u32 (c_e b - c_w b) <= INPUT_BUF;
  co_line : Forall (fun c => ends_line c = false) (line b)
}.

Lemma length_seg buf a n : length (seg buf a n) = Z.to_nat n.
Proof. unfold seg. by rewrite length_fmap, length_seqZ. Qed.

Lemma seg_snoc buf a n : 0 <= n -> seg buf a (n + 1) = seg buf a n ++ [buf !!! Z.to_nat ((a + n) mod INPUT_BUF)].
Proof. intros Hn. unfold seg. by rewrite seqZ_app, fmap_app by lia. Qed.

Lemma seg_wrap buf a n : seg buf (u32 a) n = seg buf a n.
Proof. unfold seg. apply list_fmap_ext. intros i k _. do 2 f_equal. unfold u32, INPUT_BUF. change (2 ^ 32) with 4294967296. lia. Qed.

Lemma seg_cons buf a n : 0 < n -> seg buf a n = (buf !!! Z.to_nat (a mod INPUT_BUF)) :: seg buf (a + 1) (n - 1).
Proof.
  intros Hn. unfold seg. rewrite (seqZ_cons 0 n), fmap_cons by lia. f_equal; [by rewrite Z.add_0_r|].
  change (Z.succ 0) with 1. rewrite <- Z.sub_1_r. rewrite <- (Z.add_0_r 1) at 1. rewrite <- fmap_add_seqZ, <- list_fmap_compose.
  apply list_fmap_ext. intros i k _. unfold compose. do 2 f_equal. f_equal. lia.
Qed.

Lemma seg_app buf a n m : 0 <= n -> 0 <= m -> seg buf a (n + m) = seg buf a n ++ seg buf (a + n) m.
Proof.
  intros Hn Hm. unfold seg. rewrite seqZ_app, fmap_app by lia. f_equal.
  rewrite (Z.add_comm 0 n), <- fmap_add_seqZ, <- list_fmap_compose. apply list_fmap_ext. intros i k _. unfold compose. do 2 f_equal. f_equal. lia.
Qed.

(** Writing just after a segment, or within a buffer's length of its start. *)
Lemma seg_insert buf a n d c : 0 <= d < INPUT_BUF -> n <= d -> seg (<[Z.to_nat ((a + d) mod INPUT_BUF) := c]> buf) a n = seg buf a n.
Proof.
  intros Hd Hn. unfold seg. apply list_fmap_ext. intros i k Hk. apply lookup_seqZ in Hk as [-> Hlt].
  apply list_lookup_total_insert_ne. unfold INPUT_BUF in *. lia.
Qed.

Ltac ring32 := unfold u32, INPUT_BUF in *; change (2 ^ 32) with 4294967296 in *; lia.

Lemma removelast_snoc {A} (l : list A) x : removelast (l ++ [x]) = l.
Proof. apply removelast_last. Qed.

(** ** Echo *)

Section echo.
Context {H : Type} {io : Mmio H}.
Variable poll : nat.

(** The transmit flag clears within [n] polls. *)
Fixpoint tx_ready (n : nat) (h : H) : bool :=
  match n with
  | O => false
  | S n' => let '(v, h') := rd UART_FR h in if negb (Z.land v UARTFR_TXFF =? 0) then tx_ready n' h' else true
  end.

Context (Hpoll : forall h, tx_ready poll h = true).

(** All but the device is unchanged, and [l] was sent. *)
Record echoed (l : list Z) (k k' : kcon H) : Prop := mkechoed {
  eh_noff : knoff k' = knoff k; eh_wakes : kwakes k' = kwakes k; eh_read : kread k' = kread k;
  eh_pan : panicked (ku k') = panicked (ku k); eh_sent : sent (ku k') = sent (ku k) ++ (pair Sync <$> l)
}.

Lemma echoed_trans l l' k k' k'' : echoed l k k' -> echoed l' k' k'' -> echoed (l ++ l') k k''.
Proof. intros [A1 A2 A3 A4 A5] [B1 B2 B3 B4 B5]. split; try congruence. by rewrite B5, A5, fmap_app, app_assoc. Qed.

Lemma wait_txff_ok : forall n u, tx_ready n (dev u) = true -> exists h, wait_txff n u = Ok (tt, set_dev h u).
Proof.
  induction n as [|n IH]; intros u; [done|]. cbn [tx_ready wait_txff]. unfold bind, reg. destruct (rd UART_FR (dev u)) as [v h].
  destruct (negb _); [|intros _; by exists h]. intros E. destruct (IH (set_dev h u) E) as [h' ->]. by exists h'.
Qed.

Lemma sync_ok c (k : kcon H) : panicked (ku k) = false ->
  exists k', on_uart (uartputc_sync poll c) k = Ok (tt, k') /\ kc k' = kc k /\ echoed [c] k k'.
Proof.
  intros Hp. unfold on_uart. unfold zoom, uartputc_sync, bind at 1, get. rewrite Hp. destruct (wait_txff_ok poll (ku k)) as [h Eh]; [done|].
  unfold bind at 1. rewrite Eh. eexists. split; [reflexivity|]. split; [done|]. by split.
Qed.

Lemma bind_done {S A B} (m : M S A) (f : A -> M S B) s a s' r : m s = Ok (a, s') -> f a s' = r -> bind m f s = r.
Proof. unfold bind. by intros -> ->. Qed.

Lemma consputc_ok c (k : kcon H) : panicked (ku k) = false ->
  exists k', consputc poll c k = Ok (tt, k') /\ kc k' = kc k /\ echoed (if c =? BACKSPACE then rubout else [c]) k k'.
Proof.
  intros Hp. unfold consputc. destruct (c =? BACKSPACE); [|by apply sync_ok].
  destruct (sync_ok 8 k Hp) as (k1 & E1 & F1 & G1). destruct (sync_ok 32 k1) as (k2 & E2 & F2 & G2); [by rewrite (eh_pan _ _ _ G1)|].
  destruct (sync_ok 8 k2) as (k3 & E3 & F3 & G3); [by rewrite (eh_pan _ _ _ G2), (eh_pan _ _ _ G1)|].
  exists k3. split; [by do 2 (eapply bind_done; [eassumption|])|]. split; [congruence|].
  change rubout with ([8] ++ [32] ++ [8]). eauto using echoed_trans.
Qed.

Lemma consputs_ok : forall s (k : kcon H), panicked (ku k) = false -> Forall (fun c => c <> BACKSPACE) s ->
  exists k', consputs poll s k = Ok (tt, k') /\ kc k' = kc k /\ echoed s k k'.
Proof.
  induction s as [|c s IH]; intros k Hp Hs; cbn [consputs].
  - exists k. split; [done|]. split; [done|]. split; try done. by rewrite app_nil_r.
  - inversion Hs as [|? ? Hc Hs']; subst. destruct (consputc_ok c k Hp) as (k1 & E1 & F1 & G1). rewrite (proj2 (Z.eqb_neq _ _) Hc) in G1.
    destruct (IH k1) as (k2 & E2 & F2 & G2); [by rewrite (eh_pan _ _ _ G1)|done|]. exists k2.
    split; [by eapply bind_done|]. split; [congruence|]. change (c :: s) with ([c] ++ s). by eapply echoed_trans.
Qed.

End echo.

(** ** The ring's operations *)

Lemma length_ready b : Z.of_nat (length (ready b)) = u32 (c_w b - c_r b).
Proof. unfold ready. rewrite length_seg. pose proof (u32_range (c_w b - c_r b)). lia. Qed.

Lemma length_line b : Z.of_nat (length (line b)) = u32 (c_e b - c_w b).
Proof. unfold line. rewrite length_seg. pose proof (u32_range (c_e b - c_w b)). lia. Qed.

Lemma ready_empty b : cons_ok b -> (c_r b =? c_w b) = bool_decide (ready b = []).
Proof.
  intros [_ Hr Hw _ _ _]. pose proof (length_ready b) as Hl. apply eq_true_iff_eq. rewrite Z.eqb_eq, bool_decide_eq_true.
  rewrite <- length_zero_iff_nil. ring32.
Qed.

Lemma line_empty b : cons_ok b -> (c_e b =? c_w b) = bool_decide (line b = []).
Proof.
  intros [_ _ Hw He _ _]. pose proof (length_line b) as Hl. apply eq_true_iff_eq. rewrite Z.eqb_eq, bool_decide_eq_true.
  rewrite <- length_zero_iff_nil. ring32.
Qed.

Lemma room_spec b : cons_ok b -> (u32 (c_e b - c_r b) <? INPUT_BUF) = ed_room (ed_of b).
Proof.
  intros [_ Hr Hw He Hn _]. pose proof (length_ready b) as H1. pose proof (length_line b) as H2. unfold ed_room, ed_of. cbn [ed_ready ed_line].
  apply eq_true_iff_eq. rewrite Z.ltb_lt, bool_decide_eq_true. ring32.
Qed.

Definition back (b : cons_t) : cons_t := mkcons (cbuf b) (c_r b) (c_w b) (u32 (c_e b - 1)).

Lemma back_ok b : cons_ok b -> line b <> [] ->
  cons_ok (back b) /\ ready (back b) = ready b /\ line b = line (back b) ++ [cbuf b !!! Z.to_nat (u32 (c_e b - 1) mod INPUT_BUF)].
Proof.
  intros Hb Hne. pose proof (line_empty b Hb) as Hz. rewrite bool_decide_eq_false_2 in Hz by done. apply Z.eqb_neq in Hz.
  destruct Hb as [Hl Hr Hw He Hn Hf].
  assert (El : line b = line (back b) ++ [cbuf b !!! Z.to_nat (u32 (c_e b - 1) mod INPUT_BUF)]).
  { unfold line at 1. replace (u32 (c_e b - c_w b)) with (u32 (u32 (c_e b - 1) - c_w b) + 1) by ring32.
    rewrite seg_snoc by apply u32_range. f_equal. do 2 f_equal. f_equal. ring32. }
  split; [|done]. split; cbn [back cbuf c_r c_w c_e]; try done; [apply u32_range|ring32|].
  rewrite El, Forall_app in Hf. apply Hf.
Qed.

Definition put_char (c : Z) (b : cons_t) : cons_t :=
  mkcons (<[Z.to_nat (c_e b mod INPUT_BUF) := u8 c]> (cbuf b)) (c_r b) (c_w b) (u32 (c_e b + 1)).

Lemma put_char_ok c b : cons_ok b -> ed_room (ed_of b) = true ->
  ready (put_char c b) = ready b /\ line (put_char c b) = line b ++ [u8 c] /\ length (cbuf (put_char c b)) = Z.to_nat INPUT_BUF /\
  u32 (c_w b - c_r b) + u32 (c_e (put_char c b) - c_w b) <= INPUT_BUF /\
  (c_e (put_char c b) =? u32 (c_r b + INPUT_BUF)) = bool_decide (length (ready b) + length (line b ++ [u8 c]) = 128)%nat.
Proof.
  intros Hb. rewrite <- room_spec by done. intros Hlt%Z.ltb_lt. destruct Hb as [Hl Hr Hw He Hn Hf].
  assert (Er : c_e b mod INPUT_BUF = (c_r b + u32 (c_e b - c_r b)) mod INPUT_BUF) by ring32.
  assert (Ew : c_e b mod INPUT_BUF = (c_w b + u32 (c_e b - c_w b)) mod INPUT_BUF) by ring32.
  split; [unfold ready; cbn [put_char cbuf c_r c_w]; rewrite Er; apply seg_insert; ring32|].
  assert (En : u32 (u32 (c_e b + 1) - c_w b) = u32 (c_e b - c_w b) + 1) by ring32.
  split; [|split; [cbn [put_char cbuf]; by rewrite length_insert|split; [cbn [put_char c_e]; ring32|]]].
  - unfold line. cbn [put_char cbuf c_w c_e]. rewrite En, seg_snoc by apply u32_range. f_equal.
    + rewrite Ew. apply seg_insert; ring32.
    + rewrite <- Ew. f_equal. apply list_lookup_total_insert_eq. rewrite Hl. ring32.
  - pose proof (length_ready b) as H1. pose proof (length_line b) as H2. rewrite length_app. cbn [put_char c_e length].
    apply eq_true_iff_eq. rewrite Z.eqb_eq, bool_decide_eq_true. ring32.
Qed.

Definition commit_line (b : cons_t) : cons_t := mkcons (cbuf b) (c_r b) (c_e b) (c_e b).

Lemma commit_line_ok b : length (cbuf b) = Z.to_nat INPUT_BUF -> 0 <= c_r b < 2 ^ 32 -> 0 <= c_w b < 2 ^ 32 -> 0 <= c_e b < 2 ^ 32 ->
  u32 (c_w b - c_r b) + u32 (c_e b - c_w b) <= INPUT_BUF ->
  cons_ok (commit_line b) /\ ready (commit_line b) = ready b ++ line b /\ line (commit_line b) = [].
Proof.
  intros Hl Hr Hw He Hn. assert (E0 : line (commit_line b) = []) by (unfold line; cbn [commit_line c_e c_w]; by rewrite Z.sub_diag).
  split; [split; cbn [commit_line cbuf c_r c_w c_e]; try done; [ring32|by rewrite E0]|]. split; [|done].
  unfold ready, line. cbn [commit_line cbuf c_r c_w c_e]. replace (u32 (c_e b - c_r b)) with (u32 (c_w b - c_r b) + u32 (c_e b - c_w b)) by ring32.
  rewrite seg_app by apply u32_range. f_equal. rewrite <- (seg_wrap _ (c_r b + _)). f_equal. ring32.
Qed.

Definition take_char (b : cons_t) : cons_t := mkcons (cbuf b) (u32 (c_r b + 1)) (c_w b) (c_e b).

Lemma take_char_ok b : cons_ok b -> ready b <> [] ->
  cons_ok (take_char b) /\ line (take_char b) = line b /\ ready b = (cbuf b !!! Z.to_nat (c_r b mod INPUT_BUF)) :: ready (take_char b).
Proof.
  intros Hb Hne. pose proof (ready_empty b Hb) as Hz. rewrite bool_decide_eq_false_2 in Hz by done. apply Z.eqb_neq in Hz.
  destruct Hb as [Hl Hr Hw He Hn Hf]. split; [split; cbn [take_char cbuf c_r c_w c_e]; try done; [apply u32_range|ring32]|].
  split; [done|]. unfold ready. cbn [take_char cbuf c_r c_w]. rewrite seg_cons by ring32. f_equal. rewrite seg_wrap. f_equal. ring32.
Qed.

(** ** Keys *)

Section keys.
Context {H : Type} {io : Mmio H} (poll : nat) (Hpoll : forall h, tx_ready poll h = true).

Lemma kill_line_ok : forall fuel (k : kcon H), panicked (ku k) = false -> cons_ok (kc k) -> (length (line (kc k)) < fuel)%nat ->
  exists k', kill_line poll fuel k = Ok (tt, k') /\ cons_ok (kc k') /\ ed_of (kc k') = mkeditor (ready (kc k)) [] /\
    echoed (concat (replicate (length (line (kc k))) rubout)) k k'.
Proof.
  induction fuel as [|fuel IH]; intros k Hp Hb Hf; [lia|]. cbn [kill_line]. unfold bind at 1, gets at 1.
  rewrite line_empty by done. case_bool_decide as El; cbn [negb andb].
  { exists k. split; [done|]. split; [done|]. split; [unfold ed_of; by rewrite El|]. rewrite El. cbn. split; try done. by rewrite app_nil_r. }
  destruct (back_ok (kc k) Hb El) as (Hb' & Er & Es). set (c := cbuf (kc k) !!! _) in *.
  assert (Hc : (c =? 10) = false).
  { pose proof (co_line _ Hb) as Hl. rewrite Es, Forall_app, Forall_singleton in Hl. destruct Hl as [_ Hl]. unfold ends_line in Hl. by destruct (c =? 10). }
  rewrite Hc. cbn [negb]. set (k1 := mkkcon H (back (kc k)) (ku k) (knoff k) (kwakes k) (kread k)).
  destruct (consputc_ok poll Hpoll BACKSPACE k1 Hp) as (k2 & E2 & F2 & G2). change (BACKSPACE =? BACKSPACE) with true in G2. cbn match in G2.
  assert (Ek2 : kc k2 = back (kc k)) by exact F2.
  destruct (IH k2) as (k3 & E3 & H3 & F3 & G3).
  { by rewrite (eh_pan _ _ _ G2). } { by rewrite Ek2. } { rewrite Ek2. rewrite Es, length_app in Hf. cbn in Hf. lia. }
  exists k3. split; [eapply bind_done; [reflexivity|eapply bind_done; [exact E2|exact E3]]|]. split; [done|].
  split; [by rewrite F3, Ek2, Er|]. rewrite Es, length_app. cbn [length]. rewrite Nat.add_comm. cbn [replicate concat Nat.add].
  rewrite Ek2 in G3. apply (echoed_trans rubout _ k k2 k3); [|done]. destruct G2 as [A1 A2 A3 A4 A5]. by split.
Qed.

(** The wakeups and locks around a key. *)
Definition commits (c : Z) (ed : editor) : bool :=
  negb (c =? 0) && negb (c =? 16) && negb (c =? 21) && negb (c =? 8) && negb (c =? 127) && ed_room ed &&
  (ends_line (newline c) || bool_decide (length (ed_ready ed) + length (ed_line ed ++ [newline c]) = 128)%nat).

Record keyed (text : list Z) (c : Z) (k k' : kcon H) : Prop := mkkeyed {
  ky_ok : cons_ok (kc k');
  ky_ed : ed_of (kc k') = ed_key c (ed_of (kc k));
  ky_wake : kwakes k' = kwakes k + if commits c (ed_of (kc k)) then 1 else 0;
  ky_sent : sent (ku k') = sent (ku k) ++ (pair Sync <$> ed_echo text c (ed_of (kc k)));
  ky_pan : panicked (ku k') = false; ky_noff : knoff k' = knoff k; ky_read : kread k' = kread k
}.

(** [k] with one more lock held, and one less. *)
Definition held (d : Z) (k : kcon H) : kcon H := mkkcon H (kc k) (ku k) (knoff k + d) (kwakes k) (kread k).

(** The default case of the switch. *)
Definition char_branch (c : Z) : M (kcon H) unit :=
  b <- gets kc ;;
  if negb (c =? 0) && (u32 (c_e b - c_r b) <? INPUT_BUF) then
    let c := if c =? 13 then 10 else c in
    consputc poll c ;;;
    upd_cons (put_char c) ;;;
    b <- gets kc ;;
    if (c =? 10) || (c =? CtrlD) || (c_e b =? u32 (c_r b + INPUT_BUF)) then
      set_w (c_e b) ;;;
      modify (fun k => mkkcon H (kc k) (ku k) (knoff k) (kwakes k + 1) (kread k))
    else ret tt
  else ret tt.

Lemma char_branch_ok text c (k : kcon H) : panicked (ku k) = false -> cons_ok (kc k) -> 0 <= c < 256 ->
  c <> 16 -> c <> 21 -> c <> 8 -> c <> 127 -> exists k', char_branch c k = Ok (tt, k') /\ keyed text c k k'.
Proof.
  intros Hp Hb Hc N1 N2 N3 N4. unfold char_branch. unfold bind at 1, gets at 1. rewrite room_spec by done.
  assert (Ee : ed_echo text c (ed_of (kc k)) = if negb (c =? 0) && ed_room (ed_of (kc k)) then [newline c] else []).
  { unfold ed_echo. by rewrite (proj2 (Z.eqb_neq _ _) N1), (proj2 (Z.eqb_neq _ _) N2), (proj2 (Z.eqb_neq _ _) N3), (proj2 (Z.eqb_neq _ _) N4). }
  assert (Ek : ed_key c (ed_of (kc k)) = if negb (c =? 0) && ed_room (ed_of (kc k)) then
      let l := line (kc k) ++ [newline c] in
      if ends_line (newline c) || bool_decide (length (ready (kc k)) + length l = 128)%nat then mkeditor (ready (kc k) ++ l) [] else mkeditor (ready (kc k)) l
    else ed_of (kc k)).
  { unfold ed_key. by rewrite (proj2 (Z.eqb_neq _ _) N1), (proj2 (Z.eqb_neq _ _) N2), (proj2 (Z.eqb_neq _ _) N3), (proj2 (Z.eqb_neq _ _) N4). }
  assert (Em : commits c (ed_of (kc k)) = negb (c =? 0) && ed_room (ed_of (kc k)) &&
      (ends_line (newline c) || bool_decide (length (ready (kc k)) + length (line (kc k) ++ [newline c]) = 128)%nat)).
  { unfold commits. rewrite (proj2 (Z.eqb_neq _ _) N1), (proj2 (Z.eqb_neq _ _) N2), (proj2 (Z.eqb_neq _ _) N3), (proj2 (Z.eqb_neq _ _) N4). cbn [negb]. by rewrite !andb_true_r. }
  destruct (negb (c =? 0) && ed_room (ed_of (kc k))) eqn:Ec.
  2: { exists k. split; [done|]. split; rewrite ?Ee, ?Ek, ?Em; try done; [cbn; lia|by rewrite app_nil_r]. }
  apply andb_true_iff in Ec as [_ Hroom]. fold (newline c). set (d := newline c) in *.
  assert (Hd : 0 <= d < 256) by (unfold d, newline; destruct (c =? 13); lia).
  destruct (consputc_ok poll Hpoll d k Hp) as (k1 & E1 & F1 & G1). rewrite (proj2 (Z.eqb_neq d BACKSPACE)) in G1 by (unfold BACKSPACE; lia).
  destruct (put_char_ok d (kc k) Hb Hroom) as (P1 & P2 & P3 & P4 & P5). rewrite u8_small in P2, P5 by lia.
  cbn zeta. rewrite (bind_ok _ _ _ _ _ E1). unfold bind at 1, upd_cons at 1, modify at 1. unfold bind at 1, gets at 1. cbn [kc]. rewrite F1.
  change (c_r (put_char d (kc k))) with (c_r (kc k)). rewrite P5. change ((d =? 10) || (d =? CtrlD)) with (ends_line d).
  destruct Hb as [Hl Hr Hw He Hn Hf]. destruct G1 as [A1 A2 A3 A4 A5].
  cbv zeta in Ek. destruct (ends_line d || bool_decide _) eqn:Ecm.
  - destruct (commit_line_ok (put_char d (kc k)) P3 Hr Hw (u32_range _) P4) as (C1 & C2 & C3).
    eexists. split; [reflexivity|]. split; cbn [kc ku knoff kwakes kread]; rewrite ?F1, ?Ee, ?Ek, ?Em; try done.
    + change (ed_of (commit_line (put_char d (kc k))) = mkeditor (ready (kc k) ++ line (kc k) ++ [d]) []). unfold ed_of. by rewrite C2, C3, P1, P2.
    + rewrite A2. reflexivity.
    + by rewrite A4.
  - eexists. split; [reflexivity|]. apply orb_false_iff in Ecm as [Hend _].
    split; cbn [kc ku knoff kwakes kread]; rewrite ?F1, ?Ee, ?Ek, ?Em; try done.
    + split; try done; [apply u32_range|]. rewrite P2. apply Forall_app_2; [done|]. by constructor.
    + unfold ed_of. by rewrite P1, P2.
    + rewrite A2. cbn. lia.
    + by rewrite A4.
Qed.

Lemma keyed_held text c (k k' : kcon H) : keyed text c (held 1 k) k' -> keyed text c k (held (-1) k').
Proof. intros [A1 A2 A3 A4 A5 A6 A7]. split; try done. cbn [held knoff] in *. lia. Qed.

Lemma consoleintr_ok text c (k : kcon H) : panicked (ku k) = false -> cons_ok (kc k) -> 0 <= c < 256 ->
  Forall (fun c => c <> BACKSPACE) text ->
  exists k', consoleintr poll text c k = Ok (tt, k') /\ keyed text c k k'.
Proof.
  intros Hp Hb Hc Ht.
  assert (exists k', (if c =? CtrlP then consputs poll text else if c =? CtrlU then kill_line poll (S (Z.to_nat INPUT_BUF))
     else if (c =? CtrlH) || (c =? 127) then b <- gets kc ;; if negb (c_e b =? c_w b) then set_e (u32 (c_e b - 1)) ;;; consputc poll BACKSPACE else ret tt
     else char_branch c) (held 1 k) = Ok (tt, k') /\ keyed text c (held 1 k) k') as (k2 & E2 & K2).
  2: { exists (held (-1) k2). split; [|by apply keyed_held]. eapply bind_done; [reflexivity|]. eapply bind_done; [exact E2|reflexivity]. }
  set (k1 := held 1 k). change CtrlP with 16. change CtrlU with 21. change CtrlH with 8.
  destruct (Z.eqb_spec c 16) as [->|N1].
  { destruct (consputs_ok poll Hpoll text k1 Hp Ht) as (k2 & E2 & F2 & [A1 A2 A3 A4 A5]). exists k2. split; [done|].
    split; rewrite ?F2; try done; [rewrite A2; cbn; lia|by rewrite A4]. }
  destruct (Z.eqb_spec c 21) as [->|N2].
  { destruct (kill_line_ok (S (Z.to_nat INPUT_BUF)) k1) as (k2 & E2 & F2 & F3 & [A1 A2 A3 A4 A5]); [done|done| |].
    { change (kc k1) with (kc k). pose proof (length_line (kc k)). pose proof (co_n _ Hb). pose proof (u32_range (c_w (kc k) - c_r (kc k))). unfold INPUT_BUF in *. lia. }
    exists k2. split; [done|]. split; try done; [rewrite A2; cbn; lia|by rewrite A4]. }
  destruct (decide (c = 8 \/ c = 127)) as [H8|H8].
  - assert (Eb : (c =? 8) || (c =? 127) = true) by (destruct H8 as [-> | ->]; done). rewrite Eb. unfold bind at 1, gets at 1. rewrite line_empty by done.
    assert (Hk : ed_key c (ed_of (kc k1)) = mkeditor (ready (kc k)) (removelast (line (kc k))) /\
      commits c (ed_of (kc k1)) = false /\ ed_echo text c (ed_of (kc k1)) = if line (kc k) then [] else rubout) by (destruct H8 as [-> | ->]; done).
    destruct Hk as (Hk1 & Hk2 & Hk3). case_bool_decide as El; cbn [negb]; change (kc k1) with (kc k) in *.
    + exists k1. split; [done|]. split; change (kc k1) with (kc k); rewrite ?Hk1, ?Hk2, ?Hk3; try done; [unfold ed_of; by rewrite El|lia|by rewrite El, app_nil_r].
    + destruct (back_ok (kc k) Hb El) as (B1 & B2 & B3). set (kb := mkkcon H (back (kc k)) (ku k1) (knoff k1) (kwakes k1) (kread k1)).
      destruct (consputc_ok poll Hpoll BACKSPACE kb Hp) as (k2 & E2 & F2 & [A1 A2 A3 A4 A5]). exists k2.
      split; [eapply bind_done; [reflexivity|exact E2]|]. change (kc kb) with (back (kc k)) in F2.
      split; change (kc k1) with (kc k); rewrite ?F2, ?Hk1, ?Hk2, ?Hk3; try done.
      * unfold ed_of. by rewrite B2, B3, removelast_snoc.
      * rewrite A2. cbn. lia.
      * rewrite A5. by destruct (line (kc k)).
      * by rewrite A4.
  - assert (Eb : (c =? 8) || (c =? 127) = false) by (apply orb_false_iff; rewrite !Z.eqb_neq; lia). rewrite Eb.
    apply char_branch_ok; try done; lia.
Qed.

End keys.

(** ** Reading *)

Section reading.
Context {H : Type} {io : Mmio H}.

Definition no_end (d : list Z) : Prop := Forall (fun c => ends_line c = false) d.

(** How a section of a read of [target] bytes with [n] to go ends, when the ready
    characters were [rdy], [d] of them were delivered, and [rest] remain. *)
Inductive read_result (killed : bool) (target : Z) (n : nat) (rdy d rest : list Z) : csection -> Prop :=
| rr_all : rdy = d ++ rest -> no_end d -> length d = n -> read_result killed target n rdy d rest (CDone target)
| rr_line d0 : d = d0 ++ [10] -> no_end d0 -> rdy = d ++ rest -> (length d <= n)%nat ->
    read_result killed target n rdy d rest (CDone (target - Z.of_nat n + Z.of_nat (length d)))
| rr_eof : d = [] -> rdy = 4 :: rest -> target = Z.of_nat n -> read_result killed target n rdy d rest (CDone 0)
| rr_keep_eof : rdy = d ++ rest -> no_end d -> head rest = Some 4 -> (length d < n)%nat -> 0 < target - Z.of_nat n + Z.of_nat (length d) ->
    read_result killed target n rdy d rest (CDone (target - Z.of_nat n + Z.of_nat (length d)))
| rr_sleep : rdy = d -> rest = [] -> no_end d -> (length d < n)%nat -> killed = false ->
    read_result killed target n rdy d rest (CSleep (Z.of_nat n - Z.of_nat (length d)))
| rr_killed : rdy = d -> rest = [] -> no_end d -> (length d < n)%nat -> killed = true ->
    read_result killed target n rdy d rest (CDone (-1)).

Lemma read_result_cons killed target n c rdy d rest r : ends_line c = false -> Z.of_nat (S n) <= target ->
  read_result killed target n rdy d rest r -> read_result killed target (S n) (c :: rdy) (c :: d) rest r.
Proof.
  intros Hc Hn Hr. assert (Hne : no_end d -> no_end (c :: d)) by (by constructor).
  destruct Hr as [E1 E2 E3|d0 E1 E2 E3 E4|E1 E2 E3|E1 E2 E3 E4 E5|E1 E2 E3 E4 E5|E1 E2 E3 E4 E5].
  - apply rr_all; [by rewrite E1|auto|cbn; lia].
  - replace (target - Z.of_nat n + Z.of_nat (length d)) with (target - Z.of_nat (S n) + Z.of_nat (length (c :: d))) by (cbn [length]; lia).
    apply (rr_line _ _ _ _ _ _ (c :: d0)); [by rewrite E1|by constructor|by rewrite E3|cbn; lia].
  - lia.
  - replace (target - Z.of_nat n + Z.of_nat (length d)) with (target - Z.of_nat (S n) + Z.of_nat (length (c :: d))) by (cbn [length]; lia).
    apply rr_keep_eof; [by rewrite E1|auto|done|cbn; lia|cbn [length]; lia].
  - replace (Z.of_nat n - Z.of_nat (length d)) with (Z.of_nat (S n) - Z.of_nat (length (c :: d))) by (cbn [length]; lia).
    apply rr_sleep; [by rewrite E1|done|auto|cbn; lia|done].
  - apply rr_killed; [by rewrite E1|done|auto|cbn; lia|done].
Qed.

Lemma set_r_back b : 0 <= c_r b < 2 ^ 32 -> mkcons (cbuf (take_char b)) (c_r b) (c_w (take_char b)) (c_e (take_char b)) = b.
Proof. by destruct b. Qed.

Lemma consoleread_ok copyout killed target : (forall i c, copyout i c = true) -> forall n (k : kcon H),
  cons_ok (kc k) -> knoff k = 1 -> Z.of_nat n <= target ->
  exists r k' d, consoleread_loop n copyout killed target k = Ok (r, k') /\ cons_ok (kc k') /\ line (kc k') = line (kc k) /\
    ku k' = ku k /\ kread k' = kread k ++ d /\ read_result killed target n (ready (kc k)) d (ready (kc k')) r.
Proof.
  intros Hcopy. induction n as [|n IH]; intros k Hb Hn Ht; cbn [consoleread_loop].
  { exists (CDone target). eexists. exists []. split; [reflexivity|]. do 3 (split; [done|]). split; [by rewrite app_nil_r|]. apply rr_all; [done|constructor|done]. }
  unfold bind at 1, gets at 1. rewrite ready_empty by done. case_bool_decide as Er.
  { destruct killed.
    - exists (CDone (-1)). eexists. exists []. split; [reflexivity|]. do 3 (split; [done|]). split; [by rewrite app_nil_r|]. cbn [kc]. apply rr_killed; [exact Er|exact Er|constructor|cbn; lia|done].
    - exists (CSleep (Z.of_nat (S n))). eexists. exists []. split; [unfold sleep_locks, locks, bind, modify, gets; cbn [knoff]; rewrite Hn; reflexivity|].
      do 3 (split; [done|]). split; [by rewrite app_nil_r|]. cbn [kc]. replace (Z.of_nat (S n)) with (Z.of_nat (S n) - Z.of_nat (length (@nil Z))) by (cbn [length]; lia).
      apply rr_sleep; [exact Er|exact Er|constructor|cbn; lia|done]. }
  destruct (take_char_ok (kc k) Hb Er) as (T1 & T2 & T3). set (c := cbuf (kc k) !!! _) in *.
  unfold bind at 1, set_r at 1, upd_cons at 1, modify at 1. fold (take_char (kc k)). change CtrlD with 4.
  destruct (Z.eqb_spec c 4) as [E4|E4].
  { destruct (Z.ltb_spec (Z.of_nat (S n)) target) as [Hlt|Hge].
    - exists (CDone (target - Z.of_nat (S n))). eexists. exists []. split; [reflexivity|]. unfold upd_cons. cbn [kc ku kread]. rewrite set_r_back by apply Hb.
      split; [done|]. do 2 (split; [done|]). split; [by rewrite app_nil_r|]. replace (target - Z.of_nat (S n)) with (target - Z.of_nat (S n) + Z.of_nat (length (@nil Z))) by (cbn [length]; lia).
      apply rr_keep_eof; [done|constructor|rewrite T3, E4; done|cbn; lia|cbn [length]; lia].
    - exists (CDone (target - Z.of_nat (S n))). eexists. exists []. split; [reflexivity|]. cbn [kc ku kread].
      split; [done|]. do 2 (split; [done|]). split; [by rewrite app_nil_r|]. replace (target - Z.of_nat (S n)) with 0 by lia. apply rr_eof; [done|rewrite T3; by f_equal|lia]. }
  rewrite Hcopy. cbn [negb]. unfold bind at 1, modify at 1. cbn [kc ku knoff kwakes kread].
  destruct (Z.eqb_spec c 10) as [E10|E10].
  { exists (CDone (target - (Z.of_nat (S n) - 1))). eexists. exists [c]. split; [reflexivity|]. cbn [kc ku kread]. do 4 (split; [done|]).
    replace (target - (Z.of_nat (S n) - 1)) with (target - Z.of_nat (S n) + Z.of_nat (length [c])) by (cbn [length]; lia).
    apply (rr_line _ _ _ _ _ _ []); [by rewrite E10|constructor|by rewrite T3|cbn; lia]. }
  match goal with |- context [consoleread_loop n copyout killed target ?x] => set (k1 := x) end.
  destruct (IH k1 T1 Hn) as (r & k' & d & E & R1 & R2 & R3 & R4 & R5); [lia|]. exists r, k', (c :: d). split; [done|]. split; [done|].
  split; [by rewrite R2|]. split; [by rewrite R3|]. split; [rewrite R4; cbn [kread k1]; by rewrite <- app_assoc|].
  rewrite T3. apply read_result_cons; [unfold ends_line; apply orb_false_iff; by rewrite !Z.eqb_neq|lia|done].
Qed.

(** C13: the console's ring buffer implements a line editor on two lists, the
    ready characters and the edited line.  A key updates the lists and echoes as the
    editor says: control-U and backspace erase within the line only, with a
    rubout for each character; a full buffer drops the key; return, newline,
    control-D or a full buffer hand the line to readers and wake them.  A section of
    a read delivers ready characters in order up to the end of a line, the requested
    count or an end of file, which is kept for the next read unless it comes
    first; it sleeps, with the requested rest, only when no ready character is left. *)
Theorem console_line_editor (poll : nat) (k : kcon H) :
  (forall h, tx_ready poll h = true) -> panicked (ku k) = false -> cons_ok (kc k) ->
  (forall text c, 0 <= c < 256 -> Forall (fun c => c <> BACKSPACE) text -> exists k', consoleintr poll text c k = Ok (tt, k') /\ keyed text c k k') /\
  (forall copyout killed target n, (forall i c, copyout i c = true) -> Z.of_nat n <= target -> knoff k = 1 ->
    exists r k' d, consoleread_loop n copyout killed target k = Ok (r, k') /\ cons_ok (kc k') /\ line (kc k') = line (kc k) /\
      ku k' = ku k /\ kread k' = kread k ++ d /\ read_result killed target n (ready (kc k)) d (ready (kc k')) r).
Proof.
  intros Hpoll Hp Hb. split.
  - intros text c Hc Ht. by apply consoleintr_ok.
  - intros copyout killed target n Hcopy Ht Hn. by apply consoleread_ok.
Qed.

End reading.

(** * Writing to the console through the transmit ring, and a concrete device. *)

Section writing.
Context {H : Type} {io : Mmio H}.

(** The bytes [copyin] gives from index [i]. *)
Definition input (copyin : Z -> option Z) (i : Z) (l : list Z) : Prop :=
  forall j c, l !! j = Some c -> copyin (i + Z.of_nat j) = Some c.

Lemma input_cons copyin i c l : input copyin i (c :: l) -> copyin i = Some c /\ input copyin (i + 1) l.
Proof.
  intros Hi. split; [rewrite <- (Z.add_0_r i); by apply (Hi 0%nat)|].
  intros j d Hj. replace (i + 1 + Z.of_nat j) with (i + Z.of_nat (S j)) by lia. by apply Hi.
Qed.

(** Each character accepted leaves at most one more pending. *)
Lemma consolewrite_fits : forall l copyin i (k : kcon H), input copyin i l -> uart_ok (ku k) -> panicked (ku k) = false ->
  ulen (ku k) + Z.of_nat (length l) <= 31 ->
  exists k', consolewrite_loop (length l) copyin i k = Ok (i + Z.of_nat (length l), k') /\ uart_ok (ku k') /\ panicked (ku k') = false /\
    knoff k' = knoff k /\ kc k' = kc k /\
    from_buf (sent (ku k)) ++ pending (ku k) ++ (u8 <$> l) = from_buf (sent (ku k')) ++ pending (ku k').
Proof.
  induction l as [|c l IH]; intros copyin i k Hi Hu Hp Hl; cbn [consolewrite_loop length].
  { exists k. rewrite Z.add_0_r. repeat (split; [done|]). cbn. by rewrite app_nil_r. }
  apply input_cons in Hi as [-> Hi]. cbn [length] in Hl. set (k1 := held 1 k).
  destruct (uartputc_ok c (ku k1) Hu Hp) as (r & u' & E & Hp' & Hr). change (ku k1) with (ku k) in *.
  rewrite (proj2 (Z.eqb_neq _ _)) in Hr by lia. destruct Hr as (-> & Hu' & m & Em & Es).
  set (k2 := mkkcon H (kc k) u' (knoff k + 1) (kwakes k) (kread k)). set (k3 := held (-1) k2).
  assert (Hlen : ulen u' <= ulen (ku k) + 1).
  { rewrite <- !length_pending. apply (f_equal length) in Em. rewrite !length_app in Em. cbn in Em. lia. }
  destruct (IH copyin (i + 1) k3) as (k' & E3 & F1 & F2 & F3 & F4 & F5); [done|done|done|change (ku k3) with u'; lia|].
  exists k'. split.
  - eapply bind_done; [reflexivity|]. eapply bind_done; [apply (zoom_ok ku); exact E|]. cbn match. eapply bind_done; [reflexivity|].
    transitivity (consolewrite_loop (length l) copyin (i + 1) k3); [reflexivity|]. rewrite E3. do 2 f_equal. lia.
  - split; [done|]. split; [done|]. split; [rewrite F3; cbn [k3 k2 held knoff]; lia|]. split; [done|]. rewrite <- F5. change (ku k3) with u'.
    rewrite Es, from_buf_app, from_buf_pairs, <- !app_assoc. f_equal. cbn [fmap list_fmap]. change (u8 c :: (u8 <$> l)) with ([u8 c] ++ (u8 <$> l)).
    by rewrite app_assoc, Em, <- app_assoc.
Qed.

(** A device that stays full takes nothing. *)
Lemma consolewrite_stuck : forall n copyin i (k : kcon H), (forall h, Z.land (rd UART_FR h).1 UARTFR_TXFF <> 0) ->
  (forall j, i <= j < i + Z.of_nat n -> is_Some (copyin j)) -> uart_ok (ku k) -> panicked (ku k) = false -> knoff k = 1 ->
  31 < ulen (ku k) + Z.of_nat n -> consolewrite_loop n copyin i k = Panic "sched locks".
Proof.
  induction n as [|n IH]; intros copyin i k Hd Hi Hu Hp Hn Hl; [pose proof (ulen_range (ku k)); lia|]. cbn [consolewrite_loop].
  destruct (Hi i) as [c ->]; [lia|]. destruct (uartputc_ok c (ku k) Hu Hp) as (r & u' & E & Hp' & Hr).
  eapply bind_done; [reflexivity|]. eapply bind_done; [apply (zoom_ok ku); exact E|].
  destruct (Z.eqb_spec (ulen (ku k)) 31) as [E31|E31].
  { destruct Hr as [-> ->]. cbn match. unfold sleep_locks, locks, bind, modify, gets. cbn [knoff]. by rewrite Hn. }
  destruct Hr as (-> & Hu' & m & Em & Es). cbn match. eapply bind_done; [reflexivity|]. apply IH; [done|..]; cbn [ku knoff].
  - intros j Hj. apply Hi. lia.
  - done.
  - done.
  - lia.
  - rewrite <- length_pending. apply (f_equal length) in Em. rewrite !length_app in Em. cbn in Em. rewrite <- length_pending in Hl, E31.
    enough (length m = 0)%nat by lia. apply (uartputc_none c (ku k) u' m); try done. by rewrite length_pending in E31.
Qed.

End writing.

(** ** Concrete devices *)

(** A transmit FIFO with [h] free places. *)
Definition fifo_dev : Mmio nat := {|
  rd r h := (if (r =? UART_FR) && bool_decide (h = 0%nat) then UARTFR_TXFF else 0, h);
  wr r v h := if r =? UART_DR then pred h else h
|}.

(** One that is always ready, and one that never is. *)
Definition ready_dev : Mmio unit := {| rd r h := (0, h); wr r v h := h |}.
Definition full_dev : Mmio unit := {| rd r h := (if r =? UART_FR then UARTFR_TXFF else 0, h); wr r v h := h |}.

Definition ex_uart {H} (h : H) : uart H := mkuart H (replicate 32 0) 30 30 false h [] 0.
Definition ex_kcon {H} (h : H) (noff : Z) : kcon H := mkkcon H cons0 (ex_uart h) noff 0 [].

Lemma ex_uart_ok {H} (h : H) : uart_ok (ex_uart h).
Proof. split; cbn; done. Qed.

Lemma cons0_ok : cons_ok cons0.
Proof. split; cbn; done. Qed.

(** Three characters through a FIFO of one place. *)
Definition ex_run_end : uart nat :=
  match (uartputc (io := fifo_dev) 97 ;;; uartputc (io := fifo_dev) 98 ;;; uartputc (io := fifo_dev) 99) (ex_uart 1%nat) with
  | Ok (_, u) => match uartstart (io := fifo_dev) (set_dev 1%nat u) with Ok (_, u') => u' | _ => u end
  | _ => ex_uart 1%nat
  end.

Lemma ex_run : rtc (ustep (io := fifo_dev)) (ex_uart 1%nat, []) (ex_run_end, [97; 98; 99]).
Proof.
  eapply rtc_l; [eapply (us_put (io := fifo_dev) _ _ 97); vm_compute; reflexivity|].
  eapply rtc_l; [eapply (us_put (io := fifo_dev) _ _ 98); vm_compute; reflexivity|].
  eapply rtc_l; [eapply (us_put (io := fifo_dev) _ _ 99); vm_compute; reflexivity|].
  eapply rtc_l; [eapply (us_dev (io := fifo_dev) _ _ 1%nat)|].
  eapply rtc_l; [eapply (us_start (io := fifo_dev)); vm_compute; reflexivity|].
  apply rtc_refl.
Qed.

Lemma uart_output_in_order_witness : [97; 98; 99] = from_buf (sent ex_run_end) ++ pending ex_run_end.
Proof.
  apply (uart_output_in_order (io := fifo_dev) (ex_uart 1%nat) ex_run_end [97; 98; 99]); [apply ex_uart_ok|vm_compute; reflexivity|apply ex_run].
Defined.

Lemma console_line_editor_witness :
  exists k', consoleintr (io := ready_dev) 1 [] 97 (ex_kcon tt 1) = Ok (tt, k') /\ keyed [] 97 (ex_kcon tt 1) k'.
Proof.
  apply (console_line_editor (io := ready_dev) 1 (ex_kcon tt 1)); [intros []; vm_compute; reflexivity|reflexivity|exact cons0_ok|lia|constructor].
Defined.

