(* ===== verification/Proc.v ===== *)
(** kernel/proc.c: processes.  A routine runs under the locks of the processes it
    touches, so between two switches it is one step; [sleep], [yield] and the end
    of [exit] stop at the switch.  Trap frames and contexts are in kernel memory at
    the addresses the code computes. *)

From S2P Require Import Prelude Spinlock Mem KString Mmu Kalloc Vm Bio Blk Fs FsIo Pipe File Printf.

Definition NPROC : nat := 64.
Definition NOFILE : nat := 16.
Definition KSTACKSIZE : Z := 4096.

Inductive procstate := UNUSED | SLEEPING | RUNNABLE | RUNNING | ZOMBIE.

#[export] Instance procstate_eq_dec : EqDecision procstate.
Proof. solve_decision. Defined.

(** What a process sleeps on: null, a process structure, another address. *)
Inductive channel := NoChan | ChanProc (i : nat) | ChanAt (a : Z).

#[export] Instance channel_eq_dec : EqDecision channel.
Proof. solve_decision. Defined.

(** struct proc; pointers to processes, files and inodes are table indices. *)
Record proc := mkproc {
  p_state : procstate; p_parent : option nat; p_chan : channel; p_killed : bool; p_xstate : Z; p_pid : Z;
  p_kstack : Z; p_sz : Z; p_pagetable : Z; p_trapframe : Z; p_context : Z;
  p_ofile : list (option nat); p_cwd : option nat; p_name : list Z
}.

Definition proc0 : proc := mkproc UNUSED None NoChan false 0 0 0 0 0 0 0 (replicate NOFILE None) None (replicate 16 0).
#[export] Instance proc_inhabited : Inhabited proc := populate proc0.

Definition set_state (v : procstate) (p : proc) : proc :=
  mkproc v (p_parent p) (p_chan p) (p_killed p) (p_xstate p) (p_pid p) (p_kstack p) (p_sz p) (p_pagetable p) (p_trapframe p) (p_context p) (p_ofile p) (p_cwd p) (p_name p).
Definition set_parent (v : option nat) (p : proc) : proc :=
  mkproc (p_state p) v (p_chan p) (p_killed p) (p_xstate p) (p_pid p) (p_kstack p) (p_sz p) (p_pagetable p) (p_trapframe p) (p_context p) (p_ofile p) (p_cwd p) (p_name p).
Definition set_chan (v : channel) (p : proc) : proc :=
  mkproc (p_state p) (p_parent p) v (p_killed p) (p_xstate p) (p_pid p) (p_kstack p) (p_sz p) (p_pagetable p) (p_trapframe p) (p_context p) (p_ofile p) (p_cwd p) (p_name p).
Definition set_killed (v : bool) (p : proc) : proc :=
  mkproc (p_state p) (p_parent p) (p_chan p) v (p_xstate p) (p_pid p) (p_kstack p) (p_sz p) (p_pagetable p) (p_trapframe p) (p_context p) (p_ofile p) (p_cwd p) (p_name p).
Definition set_xstate (v : Z) (p : proc) : proc :=
  mkproc (p_state p) (p_parent p) (p_chan p) (p_killed p) v (p_pid p) (p_kstack p) (p_sz p) (p_pagetable p) (p_trapframe p) (p_context p) (p_ofile p) (p_cwd p) (p_name p).
Definition set_pid (v : Z) (p : proc) : proc :=
  mkproc (p_state p) (p_parent p) (p_chan p) (p_killed p) (p_xstate p) v (p_kstack p) (p_sz p) (p_pagetable p) (p_trapframe p) (p_context p) (p_ofile p) (p_cwd p) (p_name p).
Definition set_kstack (v : Z) (p : proc) : proc :=
  mkproc (p_state p) (p_parent p) (p_chan p) (p_killed p) (p_xstate p) (p_pid p) v (p_sz p) (p_pagetable p) (p_trapframe p) (p_context p) (p_ofile p) (p_cwd p) (p_name p).
Definition set_sz (v : Z) (p : proc) : proc :=
  mkproc (p_state p) (p_parent p) (p_chan p) (p_killed p) (p_xstate p) (p_pid p) (p_kstack p) v (p_pagetable p) (p_trapframe p) (p_context p) (p_ofile p) (p_cwd p) (p_name p).
Definition set_pagetable (v : Z) (p : proc) : proc :=
  mkproc (p_state p) (p_parent p) (p_chan p) (p_killed p) (p_xstate p) (p_pid p) (p_kstack p) (p_sz p) v (p_trapframe p) (p_context p) (p_ofile p) (p_cwd p) (p_name p).
Definition set_trapframe (v : Z) (p : proc) : proc :=
  mkproc (p_state p) (p_parent p) (p_chan p) (p_killed p) (p_xstate p) (p_pid p) (p_kstack p) (p_sz p) (p_pagetable p) v (p_context p) (p_ofile p) (p_cwd p) (p_name p).
Definition set_context (v : Z) (p : proc) : proc :=
  mkproc (p_state p) (p_parent p) (p_chan p) (p_killed p) (p_xstate p) (p_pid p) (p_kstack p) (p_sz p) (p_pagetable p) (p_trapframe p) v (p_ofile p) (p_cwd p) (p_name p).
Definition set_ofile (v : list (option nat)) (p : proc) : proc :=
  mkproc (p_state p) (p_parent p) (p_chan p) (p_killed p) (p_xstate p) (p_pid p) (p_kstack p) (p_sz p) (p_pagetable p) (p_trapframe p) (p_context p) v (p_cwd p) (p_name p).
Definition set_cwd (v : option nat) (p : proc) : proc :=
  mkproc (p_state p) (p_parent p) (p_chan p) (p_killed p) (p_xstate p) (p_pid p) (p_kstack p) (p_sz p) (p_pagetable p) (p_trapframe p) (p_context p) (p_ofile p) v (p_name p).
Definition set_pname (v : list Z) (p : proc) : proc :=
  mkproc (p_state p) (p_parent p) (p_chan p) (p_killed p) (p_xstate p) (p_pid p) (p_kstack p) (p_sz p) (p_pagetable p) (p_trapframe p) (p_context p) (p_ofile p) (p_cwd p) v.

(** struct trapframe is 34 registers: x0 to x30, sp, elr, spsr; struct context is 27:
    x4 to x29 and lr. *)
Definition TRAPFRAME : Z := 34 * 8.
Definition CONTEXT : Z := 27 * 8.
Definition TF_X30 : Z := 30.
Definition TF_SP : Z := 31.
Definition TF_ELR : Z := 32.
Definition TF_SPSR : Z := 33.
Definition CTX_LR : Z := 26.

(** The process table, [nextpid], [initproc], the tick counter, the translation base
    register, and the rest of the kernel. *)
Record kern (B : Type) := mkkern {
  k_procs : list proc; k_nextpid : Z; k_init : option nat; k_ticks : Z; k_ttbr : Z; k_io : kfs B kst
}.
Arguments mkkern {B}.
Arguments k_procs {B}.
Arguments k_nextpid {B}.
Arguments k_init {B}.
Arguments k_ticks {B}.
Arguments k_ttbr {B}.
Arguments k_io {B}.

(** How [wait] ends its section: it returns, or sleeps on the process itself. *)
Inductive wsection := WDone (r : Z) | WSleep.

(** The index of the first process that satisfies [f]. *)
Fixpoint find_proc (f : proc -> bool) (l : list proc) (i : nat) : option nat :=
  match l with
  | [] => None
  | p :: l' => if f p then Some i else find_proc f l' (S i)
  end.

(** [safestrcpy(dst, src, 16)] on the bytes of a name: at most 15 characters; the
    copied NUL, if reached, is followed by another. *)
Definition name_cpy (dst src : list Z) : list Z :=
  let s := take 15 (cchars src) in
  let z := if (length s <? 15)%nat then [0; 0] else [0] in
  s ++ z ++ drop (length s + length z) dst.

Definition initcode : list Z := [
  0x80; 0x01; 0x00; 0x58; 0xa1; 0x01; 0x00; 0x58;
  0xe7; 0x00; 0x80; 0xd2; 0x01; 0x00; 0x00; 0xd4;
  0x47; 0x00; 0x80; 0xd2; 0x01; 0x00; 0x00; 0xd4;
  0xfe; 0xff; 0xff; 0x17; 0x2f; 0x69; 0x6e; 0x69;
  0x74; 0x00; 0x00; 0x00; 0x1c; 0x00; 0x00; 0x00;
  0x00; 0x00; 0x00; 0x00; 0x00; 0x00; 0x00; 0x00;
  0x1c; 0x00; 0x00; 0x00; 0x00; 0x00; 0x00; 0x00;
  0x24; 0x00; 0x00; 0x00; 0x00; 0x00; 0x00; 0x00].

Section Proc.
Context {B : Type} {ops : BlockOps B}.
Notation K := (kern B).

(** Addresses the linker chooses: two routines, [initcode], and [procs[i].xstate]. *)
Context (trapret forkret initcode_addr : Z) (xstate_addr : nat -> Z).

Definition upd_procs (g : list proc -> list proc) : M K unit :=
  modify (fun s => mkkern (g (k_procs s)) (k_nextpid s) (k_init s) (k_ticks s) (k_ttbr s) (k_io s)).
Definition pupd (i : nat) (g : proc -> proc) : M K unit := upd_procs (alter g i).
Definition pat (i : nat) : M K proc := gets (fun s => k_procs s !!! i).

Definition ioop {A} (m : M (kfs B kst) A) : M K A :=
  zoom k_io (fun io s => mkkern (k_procs s) (k_nextpid s) (k_init s) (k_ticks s) (k_ttbr s) io) m.
Definition vmop {A} (m : M kst A) : M K A := ioop (memop m).

(** A null pointer is not followed. *)
Definition deref {A} (o : option A) : M K A := match o with Some a => ret a | None => panic "null pointer" end.

(** Register [r] of the trap frame of [p]. *)
Definition tf_get (p : proc) (r : Z) : M K Z := vmop (load64 (p_trapframe p + 8 * r)).
Definition tf_set (p : proc) (r v : Z) : M K unit := vmop (store64 (p_trapframe p + 8 * r) (u64 v)).

(** [memset(a, 0, n)] *)
Definition zero_mem (a n : Z) : M K unit := vmop (on_mem (fun m => st_bytes m a (replicate (Z.to_nat n) 0))).

Definition allocpid : M K Z :=
  pid <- gets k_nextpid ;;
  modify (fun s => mkkern (k_procs s) (s32 (pid + 1)) (k_init s) (k_ticks s) (k_ttbr s) (k_io s)) ;;;
  ret pid.

Fixpoint procinit_loop (n : nat) (i : nat) : M K unit :=
  match n with
  | O => ret tt
  | S n' => pg <- vmop kalloc ;; pupd i (set_kstack pg) ;;; procinit_loop n' (S i)
  end.

Definition procinit : M K unit := procinit_loop NPROC 0.

Definition proc_pagetable : M K Z :=
  pagetable <- vmop uvmcreate ;;
  if pagetable =? 0 then ret 0 else ret pagetable.

Definition proc_freepagetable (pagetable sz : Z) : M K unit := vmop (uvmfree pagetable sz).

Definition freeproc (i : nat) : M K unit :=
  pupd i (set_trapframe 0) ;;;
  p <- pat i ;;
  (if negb (p_pagetable p =? 0) then vmop (uvmfree (p_pagetable p) (p_sz p)) else ret tt) ;;;
  pupd i (fun p => set_state UNUSED (set_xstate 0 (set_killed false (set_chan NoChan
    (set_pname (<[0%nat := 0]> (p_name p)) (set_parent None (set_pid 0 (set_sz 0 (set_pagetable 0 p))))))))).

Definition allocproc : M K (option nat) :=
  l <- gets k_procs ;;
  match find_proc (fun p => bool_decide (p_state p = UNUSED)) l 0 with
  | None => ret None
  | Some i =>
      pid <- allocpid ;;
      pupd i (set_pid pid) ;;;
      p <- pat i ;;
      let sp := p_kstack p + KSTACKSIZE - TRAPFRAME in
      pupd i (set_trapframe sp) ;;;
      zero_mem sp TRAPFRAME ;;;
      vmop (store64 (sp - 8) trapret) ;;;
      vmop (store64 (sp - 16) (p_kstack p + PGSIZE)) ;;;
      let cx := sp - 16 - CONTEXT in
      pupd i (set_context cx) ;;;
      pagetable <- proc_pagetable ;;
      pupd i (set_pagetable pagetable) ;;;
      if pagetable =? 0 then freeproc i ;;; ret None
      else
        zero_mem cx CONTEXT ;;;
        vmop (store64 (cx + 8 * CTX_LR) (u64 (forkret + 8))) ;;;
        ret (Some i)
  end.

Definition uvmswitch (i : nat) : M K unit :=
  p <- pat i ;;
  if p_pagetable p =? 0 then panic "uvmswitch: no pagetable"
  else modify (fun s => mkkern (k_procs s) (k_nextpid s) (k_init s) (k_ticks s) (V2P (p_pagetable p)) (k_io s)).

(** [cwd] of the caller of [namei] is not used for an absolute path. *)
Definition userinit : M K unit :=
  o <- allocproc ;;
  modify (fun s => mkkern (k_procs s) (k_nextpid s) o (k_ticks s) (k_ttbr s) (k_io s)) ;;;
  i <- deref o ;;
  p <- pat i ;;
  vmop (on_mem (fun m => st_bytes m initcode_addr initcode)) ;;;
  vmop (uvminit (p_pagetable p) initcode_addr 64) ;;;
  pupd i (set_sz PGSIZE) ;;;
  tf_set p TF_ELR 0 ;;;
  tf_set p TF_SPSR 0 ;;;
  tf_set p TF_X30 0 ;;;
  tf_set p TF_SP PGSIZE ;;;
  pupd i (fun p => set_pname (name_cpy (p_name p) [105; 110; 105; 116; 99; 111; 100; 101]) p) ;;;
  ip <- ioop (fsop (namei 0 [slash])) ;;
  pupd i (set_cwd ip) ;;;
  pupd i (set_state RUNNABLE).

(** [sz] is a 32-bit variable. *)
Definition growproc (me : nat) (n : Z) : M K Z :=
  p <- pat me ;;
  let sz := u32 (p_sz p) in
  sz <- (if 0 <? n then r <- vmop (uvmalloc (p_pagetable p) sz (u32 (sz + n))) ;; ret (if u32 r =? 0 then None else Some (u32 r))
         else if n <? 0 then r <- vmop (uvmdealloc (p_pagetable p) sz (u32 (sz + n))) ;; ret (Some (u32 r))
         else ret (Some sz)) ;;
  match sz with
  | None => ret (-1)
  | Some sz => pupd me (set_sz sz) ;;; uvmswitch me ;;; ret 0
  end.

(** [for(i = 0; i < NOFILE; i++) if(p->ofile[i]) np->ofile[i] = filedup(p->ofile[i]);] *)
Fixpoint fork_files (l : list (option nat)) (np : nat) (i : nat) : M K unit :=
  match l with
  | [] => ret tt
  | None :: l' => fork_files l' np (S i)
  | Some f :: l' =>
      f' <- ioop (filedup f) ;;
      pupd np (fun q => set_ofile (<[i := Some f']> (p_ofile q)) q) ;;;
      fork_files l' np (S i)
  end.

Definition fork (me : nat) : M K Z :=
  p <- pat me ;;
  o <- allocproc ;;
  match o with
  | None => ret (-1)
  | Some np =>
      q <- pat np ;;
      r <- vmop (uvmcopy (p_pagetable p) (p_pagetable q) (p_sz p)) ;;
      if r <? 0 then freeproc np ;;; ret (-1)
      else
        pupd np (fun q => set_parent (Some me) (set_sz (p_sz p) q)) ;;;
        vmop (on_mem (fun m => st_bytes m (p_trapframe q) (ld_bytes m (p_trapframe p) (Z.to_nat TRAPFRAME)))) ;;;
        tf_set q 0 0 ;;;
        fork_files (p_ofile p) np 0 ;;;
        cwd <- deref (p_cwd p) ;;
        cwd <- ioop (fsop (idup cwd)) ;;
        pupd np (set_cwd (Some cwd)) ;;;
        q <- pat np ;;
        pupd np (set_state RUNNABLE) ;;;
        pupd np (fun q => set_pname (name_cpy (p_name q) (p_name p)) q) ;;;
        ret (p_pid q)
  end.

Definition reparent (me : nat) : M K unit :=
  s <- get ;;
  upd_procs (fmap (fun pp => if decide (p_parent pp = Some me) then set_parent (k_init s) pp else pp)).

Definition wakeup1 (i : nat) : M K unit :=
  pupd i (fun p => if bool_decide (p_chan p = ChanProc i) && bool_decide (p_state p = SLEEPING) then set_state RUNNABLE p else p).

(** This CPU after [acquire]. *)
Definition acquired (c : cpu) : cpu := match push_off c with Ok (_, c') => c' | _ => c end.

(** [sched] up to [swtch]; [held] is [holding(&p->lock)]. *)
Definition sched (me : nat) (held : bool) (c : cpu) : M K unit :=
  p <- pat me ;;
  if negb held then panic "sched p->lock" else
  if negb (noff c =? 1) then panic "sched locks" else
  if bool_decide (p_state p = RUNNING) then panic "sched running" else
  if intr_get c then panic "sched interruptible" else ret tt.

(** [sleep] up to the switch, and after it; [c] is the CPU with the lock [lk] held,
    which [p->lock] replaces. *)
Definition sleep (me : nat) (ch : channel) (c : cpu) : M K unit :=
  pupd me (fun p => set_state SLEEPING (set_chan ch p)) ;;; sched me true c.
Definition sleep_return (me : nat) : M K unit := pupd me (set_chan NoChan).

(** [for (fd = 0; fd < NOFILE; ++fd)] close; [n = NOFILE - fd] *)
Fixpoint exit_files (n : nat) (me fd : nat) : M K unit :=
  match n with
  | O => ret tt
  | S n' =>
      p <- pat me ;;
      (match p_ofile p !!! fd with
       | Some f => ioop (fileclose f) ;;; pupd me (fun p => set_ofile (<[fd := None]> (p_ofile p)) p)
       | None => ret tt
       end) ;;;
      exit_files n' me (S fd)
  end.

(** [exit] up to its last switch, with only [p->lock] held; [c] is the CPU before. *)
Definition exit (me : nat) (status : Z) (c : cpu) : M K unit :=
  init <- gets k_init ;;
  if decide (init = Some me) then panic "init exiting" else
  exit_files NOFILE me 0 ;;;
  p <- pat me ;;
  ioop (fsop (blkop b_begin)) ;;;
  cwd <- deref (p_cwd p) ;;
  ioop (fsop (iput cwd)) ;;;
  ioop (fsop (blkop b_end)) ;;;
  pupd me (set_cwd None) ;;;
  init <- deref init ;;
  wakeup1 init ;;;
  p <- pat me ;;
  parent <- deref (p_parent p) ;;
  reparent me ;;;
  wakeup1 parent ;;;
  pupd me (fun p => set_state ZOMBIE (set_xstate status p)) ;;;
  sched me true (acquired c).

(** The scan of [wait] from process [i], [n = NPROC - i]; [c] is the CPU with [p->lock] held. *)
Fixpoint wait_scan (n : nat) (me i : nat) (addr : Z) (c : cpu) (havekids : bool) : M K wsection :=
  match n with
  | O =>
      p <- pat me ;;
      if negb havekids || p_killed p then ret (WDone (-1))
      else sleep me (ChanProc me) c ;;; ret WSleep
  | S n' =>
      np <- pat i ;;
      if negb (bool_decide (p_parent np = Some me)) then wait_scan n' me (S i) addr c havekids
      else if bool_decide (p_state np = ZOMBIE) then
        p <- pat me ;;
        r <- (if negb (addr =? 0) then
                vmop (on_mem (fun m => st_le m (xstate_addr i) 4 (u32 (p_xstate np)))) ;;;
                vmop (copyout (p_pagetable p) addr (xstate_addr i) 4)
              else ret 0) ;;
        if r <? 0 then ret (WDone (-1))
        else freeproc i ;;; ret (WDone (p_pid np))
      else wait_scan n' me (S i) addr c true
  end.

Definition wait (me : nat) (addr : Z) (c : cpu) : M K wsection := wait_scan NPROC me 0 addr (acquired c) false.

Definition wakeup (c : channel) : M K unit :=
  upd_procs (fmap (fun p => if bool_decide (p_state p = SLEEPING) && bool_decide (p_chan p = c) then set_state RUNNABLE p else p)).

(** The body of the loop of [scheduler] for process [i], up to the switch; [true] when
    it switches to the process. *)
Definition scheduler_try (i : nat) : M K bool :=
  p <- pat i ;;
  if bool_decide (p_state p = RUNNABLE) then
    pupd i (set_state RUNNING) ;;; uvmswitch i ;;; ret true
  else ret false.

(** The first process to run initialises the file system; [first] is the routine's
    static variable, and its new value is returned. *)
Definition forkret_run (first : bool) : M K bool :=
  if first then ioop (fsop (fsinit ROOTDEV)) ;;; ret false else ret first.

Definition yield (me : nat) (c : cpu) : M K unit := pupd me (set_state RUNNABLE) ;;; sched me true (acquired c).

Definition kill (pid : Z) : M K Z :=
  l <- gets k_procs ;;
  match find_proc (fun p => p_pid p =? pid) l 0 with
  | Some i =>
      pupd i (fun p => let p := set_killed true p in if bool_decide (p_state p = SLEEPING) then set_state RUNNABLE p else p) ;;;
      ret 0
  | None => ret (-1)
  end.

Definition either_copyout (me : nat) (user_dst : bool) (dst src len : Z) : M K Z :=
  p <- pat me ;;
  if user_dst then vmop (copyout (p_pagetable p) dst src len)
  else vmop (on_mem (fun m => memmove m dst src len)) ;;; ret 0.

Definition either_copyin (me : nat) (dst : Z) (user_src : bool) (src len : Z) : M K Z :=
  p <- pat me ;;
  if user_src then vmop (copyin (p_pagetable p) dst src len)
  else vmop (on_mem (fun m => memmove m dst src len)) ;;; ret 0.

Definition state_name (s : procstate) : list Z :=
  match s with
  | UNUSED => [117; 110; 117; 115; 101; 100]
  | SLEEPING => [115; 108; 101; 101; 112; 32]
  | RUNNABLE => [114; 117; 110; 98; 108; 101]
  | RUNNING => [114; 117; 110; 32; 32; 32]
  | ZOMBIE => [122; 111; 109; 98; 105; 101]
  end.

(** What [procdump] prints: [printf("%d %s %s", ...)] and a newline for each process. *)
Definition procdump_line (p : proc) : list Z :=
  if bool_decide (p_state p = UNUSED) then []
  else default [] (Printf.printf [37; 100; 32; 37; 115; 32; 37; 115] [AInt (p_pid p); AStr (Some (state_name (p_state p))); AStr (Some (p_name p))]) ++ [10].

Definition procdump (l : list proc) : list Z := 10 :: concat (procdump_line <$> l).

End Proc.
