(* ===== verification/ProcInv.v ===== *)
(** The process table under every routine that changes it: the table's invariant,
    and what each routine does to it. *)

From S2P Require Import Prelude Spinlock Mem Mmu Kalloc Vm Bio Blk Fs FsIo Pipe File Proc.

(** ** The invariant *)

Definition alive (p : proc) : Prop := p_state p <> UNUSED /\ p_state p <> ZOMBIE.

#[export] Instance alive_dec p : Decision (alive p).
Proof. unfold alive. apply _. Defined.

Definition no_files (p : proc) : Prop := Forall (fun o => o = None) (p_ofile p).

Definition no_child (l : list proc) (i : nat) : Prop := forall j q, l !! j = Some q -> p_parent q <> Some i.

(** What holds of process [i] in a table. *)
Record proc_ok (l : list proc) (next : Z) (init i : nat) (p : proc) : Prop := mkproc_ok {
  pk_unused : p_state p = UNUSED -> p_pid p = 0 /\ p_parent p = None;
  pk_pid : p_state p <> UNUSED -> 0 < p_pid p < next;
  pk_parent : forall j, p_parent p = Some j -> exists q, l !! j = Some q /\ alive q;
  pk_root : p_state p <> UNUSED -> i <> init -> is_Some (p_parent p);
  pk_len : length (p_ofile p) = NOFILE;
  pk_files : ~ alive p -> no_files p
}.

Record table_inv (l : list proc) (next : Z) (init : nat) : Prop := mktable_inv {
  ti_len : length l = NPROC;
  ti_ok : forall i p, l !! i = Some p -> proc_ok l next init i p;
  ti_uniq : forall i j p q, l !! i = Some p -> l !! j = Some q -> p_state p <> UNUSED -> p_pid p = p_pid q -> i = j;
  ti_init : exists p, l !! init = Some p /\ alive p
}.

(** A change that keeps a process alive or as it is, with its identity. *)
Record quiet (p q : proc) : Prop := mkquiet {
  qt_pid : p_pid q = p_pid p; qt_parent : p_parent q = p_parent p; qt_ofile : p_ofile q = p_ofile p;
  qt_state : p_state q = p_state p \/ alive p /\ alive q
}.

Lemma quiet_alive p q : quiet p q -> alive q <-> alive p.
Proof. intros [_ _ _ [E|[? ?]]]; [unfold alive; by rewrite E|done]. Qed.

Lemma quiet_unused p q : quiet p q -> p_state q = UNUSED <-> p_state p = UNUSED.
Proof. intros [_ _ _ [E|[[? ?] [? ?]]]]; [by rewrite E|done]. Qed.

Lemma quiet_refl p : quiet p p.
Proof. split; auto. Qed.

Lemma quiet_inv l l' next init : Forall2 quiet l l' -> table_inv l next init -> table_inv l' next init.
Proof.
  intros Hq [H1 H2 H3 H4]. assert (Hb : forall i q, l' !! i = Some q -> exists p, l !! i = Some p /\ quiet p q).
  { intros i q Hi. eapply Forall2_lookup_r in Hq as (p & ? & ?); [|done]. by exists p. }
  assert (Ha : forall j p, l !! j = Some p -> alive p -> exists q, l' !! j = Some q /\ alive q).
  { intros j p Hj Hal. eapply Forall2_lookup_l in Hq as (q & Hq1 & Hq2); [|done]. exists q. split; [done|]. by apply (quiet_alive p q). }
  split.
  - by rewrite <- (Forall2_length _ _ _ Hq).
  - intros i q Hi. destruct (Hb i q Hi) as (p & Hp & Hpq). destruct (H2 i p Hp) as [P1 P2 P3 P4 P5 P6].
    pose proof (quiet_unused p q Hpq) as Hu. pose proof (quiet_alive p q Hpq) as Hal. destruct Hpq as [E1 E2 E3 _].
    split; rewrite ?E1, ?E2, ?E3; try tauto.
    + intros j Hj. destruct (P3 j Hj) as (r & Hr & Hra). by apply (Ha j r).
    + unfold no_files. rewrite E3. intros Hn. apply P6. tauto.
  - intros i j q q' Hi Hj Hn Hpid. destruct (Hb i q Hi) as (p & Hp & Hpq). destruct (Hb j q' Hj) as (p' & Hp' & Hpq').
    apply (H3 i j p p' Hp Hp'); [by rewrite <- (quiet_unused p q Hpq)|]. by rewrite <- (qt_pid _ _ Hpq), <- (qt_pid _ _ Hpq').
  - destruct H4 as (p & Hp & Hal). by apply (Ha init p).
Qed.

Lemma quiet_list_refl l : Forall2 quiet l l.
Proof. apply Forall_Forall2_diag, Forall_true. apply quiet_refl. Qed.

Lemma quiet_alter g i l : (forall p, l !! i = Some p -> quiet p (g p)) -> Forall2 quiet l (alter g i l).
Proof.
  intros Hg. apply Forall2_same_length_lookup. split; [by rewrite length_alter|]. intros j x y Hx Hy.
  destruct (decide (j = i)) as [->|Hne].
  - rewrite list_lookup_alter_eq, Hx in Hy. injection Hy as <-. by apply Hg.
  - rewrite list_lookup_alter_ne, Hx in Hy by done. injection Hy as <-. apply quiet_refl.
Qed.

Lemma quiet_fmap g l : (forall p, quiet p (g p)) -> Forall2 quiet l (g <$> l).
Proof. intros Hg. apply Forall2_fmap_r, Forall_Forall2_diag, Forall_true, Hg. Qed.

Lemma alter_twice {A} (g h : A -> A) i (l : list A) : alter g i (alter h i l) = alter (fun x => g (h x)) i l.
Proof.
  apply list_eq. intros j. destruct (decide (j = i)) as [->|?]; [|by rewrite !list_lookup_alter_ne].
  rewrite !list_lookup_alter_eq. by destruct (l !! i).
Qed.

Lemma alter_insert {A} (g : A -> A) i (l : list A) x : l !! i = Some x -> alter g i l = <[i := g x]> l.
Proof.
  intros Hx. apply list_eq. intros j. destruct (decide (j = i)) as [->|?]; [|by rewrite list_lookup_alter_ne, list_lookup_insert_ne].
  rewrite list_lookup_alter_eq, Hx, list_lookup_insert_eq; [done|by eapply lookup_lt_Some].
Qed.

(** One process replaced by another. *)
Lemma insert_inv l next init i p q next' : table_inv l next init -> l !! i = Some p -> next <= next' ->
  (p_state q = UNUSED -> p_pid q = 0 /\ p_parent q = None) ->
  (p_state q <> UNUSED -> 0 < p_pid q < next') ->
  (p_state q <> UNUSED -> i <> init -> is_Some (p_parent q)) ->
  (forall j, p_parent q = Some j -> exists r, <[i := q]> l !! j = Some r /\ alive r) ->
  length (p_ofile q) = NOFILE -> (~ alive q -> no_files q) ->
  (p_state q <> UNUSED -> forall j r, j <> i -> l !! j = Some r -> p_pid r <> p_pid q) ->
  (alive p -> ~ alive q -> no_child l i /\ i <> init) ->
  table_inv (<[i := q]> l) next' init.
Proof.
  intros [H1 H2 H3 H4] Hi Hn Q1 Q2 Q3 Q4 Q5 Q6 Q7 Q8. assert (Hlt : (i < length l)%nat) by (by eapply lookup_lt_Some).
  assert (Ha : forall j r, l !! j = Some r -> alive r -> (j = i -> alive q) -> exists r', <[i := q]> l !! j = Some r' /\ alive r').
  { intros j r Hj Hal Hji. destruct (decide (j = i)) as [->|Hne]; [exists q; rewrite list_lookup_insert_eq by done; auto|].
    exists r. by rewrite list_lookup_insert_ne. }
  split.
  - by rewrite length_insert.
  - intros j r Hj. destruct (decide (j = i)) as [->|Hne].
    + rewrite list_lookup_insert_eq in Hj by done. injection Hj as <-. by split.
    + rewrite list_lookup_insert_ne in Hj by done. destruct (H2 j r Hj) as [P1 P2 P3 P4 P5 P6]. split; try done; [intros Hu; specialize (P2 Hu); lia|].
      intros k Hk. destruct (P3 k Hk) as (r' & Hr' & Hal). apply (Ha k r'); [done|done|]. intros ->.
      destruct (decide (alive q)) as [|Hna]; [done|]. rewrite Hi in Hr'. injection Hr' as <-. destruct (Q8 Hal Hna) as [Hc _]. by destruct (Hc j r).
  - intros j k r r' Hj Hk Hu Hpid. destruct (decide (j = i)) as [->|Hne], (decide (k = i)) as [->|Hne']; try done.
    + rewrite list_lookup_insert_eq in Hj by done. injection Hj as <-. rewrite list_lookup_insert_ne in Hk by done.
      by destruct (Q7 Hu k r').
    + rewrite list_lookup_insert_ne in Hj by done. rewrite list_lookup_insert_eq in Hk by done. injection Hk as <-.
      destruct (decide (p_state q = UNUSED)) as [Eu|Eu]; [|by destruct (Q7 Eu j r)].
      destruct (Q1 Eu) as [E0 _]. pose proof (pk_pid _ _ _ _ _ (H2 j r Hj) Hu). lia.
    + rewrite list_lookup_insert_ne in Hj, Hk by done. by apply (H3 j k r r').
  - destruct H4 as (r & Hr & Hal). apply (Ha init r); [done|done|]. intros <-. destruct (decide (alive q)) as [|Hna]; [done|].
    rewrite Hi in Hr. injection Hr as <-. by destruct (Q8 Hal Hna).
Qed.

(** ** What the routines do to the tables *)

(** The process table, the process numbers and the open files. *)
Record view := mkview { v_procs : list proc; v_next : Z; v_init : option nat; v_files : list file }.

Definition on_procs (g : list proc -> list proc) (v : view) : view := mkview (g (v_procs v)) (v_next v) (v_init v) (v_files v).
Definition on_files (g : list file -> list file) (v : view) : view := mkview (v_procs v) (v_next v) (v_init v) (g (v_files v)).

(** [p->ofile] after the copying loop of [fork]. *)
Fixpoint copy_ofile (l : list (option nat)) (i : nat) (o : list (option nat)) : list (option nat) :=
  match l with
  | [] => o
  | None :: l' => copy_ofile l' (S i) o
  | Some f :: l' => copy_ofile l' (S i) (<[i := Some f]> o)
  end.

Lemma copy_ofile_app l : forall a t, length t = length l -> Forall (fun x => x = None) t -> copy_ofile l (length a) (a ++ t) = a ++ l.
Proof.
  induction l as [|x l IH]; intros a t Hl Hn; cbn [copy_ofile]; (destruct t as [|y t]; [try done|]); [done|].
  inversion Hn as [|? ? -> Ht]; subst. injection Hl as Hl.
  assert (Hgo : forall z, copy_ofile l (S (length a)) (a ++ z :: t) = a ++ z :: l).
  { intros z. specialize (IH (a ++ [z]) t Hl Ht). rewrite length_app, Nat.add_1_r, <- !app_assoc in IH. exact IH. }
  destruct x as [f|]; [|apply Hgo]. rewrite insert_app_r_alt, Nat.sub_diag by done. apply Hgo.
Qed.

Lemma copy_ofile_none l o : length o = length l -> Forall (fun x => x = None) o -> copy_ofile l 0 o = l.
Proof. apply (copy_ofile_app l []). Qed.

Section effects.
Context {B : Type} {ops : BlockOps B}.

Implicit Types s : kern B.

Definition kview s : view := mkview (k_procs s) (k_nextpid s) (k_init s) (kf_files (k_io s)).

Lemma vmop_view {A} (m : M kst A) s a s' : vmop m s = Ok (a, s') -> kview s' = kview s.
Proof. unfold vmop, ioop, memop, zoom. destruct (m _) as [[b k]| | |]; try done. by intros [= _ <-]. Qed.

Lemma fs_view {A} (m : M (fs B) A) s a s' : ioop (fsop m) s = Ok (a, s') -> kview s' = kview s.
Proof. unfold ioop, fsop, zoom. destruct (m _) as [[b k]| | |]; try done. by intros [= _ <-]. Qed.

Lemma pupd_view i g s a s' : pupd i g s = Ok (a, s') -> kview s' = on_procs (alter g i) (kview s).
Proof. unfold pupd, upd_procs, modify. by intros [= _ <-]. Qed.

Lemma upd_procs_view g s a s' : upd_procs g s = Ok (a, s') -> kview s' = on_procs g (kview s).
Proof. unfold upd_procs, modify. by intros [= _ <-]. Qed.

Lemma pat_view i s p s' : pat i s = Ok (p, s') -> s' = s /\ p = v_procs (kview s) !!! i.
Proof. unfold pat, gets. by intros [= <- <-]. Qed.

Lemma gets_view {A} (f : kern B -> A) s a s' : gets f s = Ok (a, s') -> s' = s /\ a = f s.
Proof. unfold gets. by intros [= <- <-]. Qed.

Lemma ret_view {A} (x : A) s a s' : ret x s = Ok (a, s') -> s' = s /\ a = x.
Proof. unfold ret. by intros [= <- <-]. Qed.

Lemma deref_view {A} (o : option A) s a s' : deref o s = Ok (a, s') -> s' = s /\ o = Some a.
Proof. unfold deref. destruct o; [|done]. unfold ret. by intros [= <- <-]. Qed.

Lemma uvmswitch_view i s a s' : uvmswitch i s = Ok (a, s') -> kview s' = kview s.
Proof.
  unfold uvmswitch, bind, pat, gets. destruct (_ =? _); [done|]. unfold modify. by intros [= _ <-].
Qed.

Lemma sched_view me held c s a s' : sched me held c s = Ok (a, s') -> s' = s.
Proof.
  unfold sched, bind, pat, gets. destruct (negb held); [done|]. destruct (negb _); [done|]. destruct (bool_decide _); [done|].
  destruct (Spinlock.intr_get c); [done|]. by intros [= _ <-].
Qed.

Lemma sleep_view me ch c s a s' : sleep me ch c s = Ok (a, s') -> kview s' = on_procs (alter (fun p => set_state SLEEPING (set_chan ch p)) me) (kview s).
Proof. unfold sleep. intros (x & s1 & E & ->%sched_view)%bind_ok_inv. by eapply pupd_view. Qed.

Lemma tf_set_view p r v s a s' : tf_set p r v s = Ok (a, s') -> kview s' = kview s.
Proof. apply vmop_view. Qed.

Lemma zero_mem_view x n s a s' : zero_mem x n s = Ok (a, s') -> kview s' = kview s.
Proof. apply vmop_view. Qed.

Lemma allocpid_view s a s' : allocpid s = Ok (a, s') ->
  a = v_next (kview s) /\ kview s' = mkview (v_procs (kview s)) (s32 (v_next (kview s) + 1)) (v_init (kview s)) (v_files (kview s)).
Proof. unfold allocpid, bind, gets, modify, ret. by intros [= <- <-]. Qed.

Definition dup_file (x : file) : file := set_fref (f_ref x + 1) x.

Lemma filedup_view f s a s' : ioop (filedup f) s = Ok (a, s') ->
  a = f /\ 1 <= f_ref (v_files (kview s) !!! f) /\ kview s' = on_files (alter dup_file f) (kview s).
Proof.
  unfold ioop, zoom, filedup, bind, fat, gets. destruct (Z.ltb_spec (f_ref (kf_files (k_io s) !!! f)) 1); [done|].
  unfold fupd, modify, ret. intros [= <- <-]. split; [done|]. split; [done|]. unfold kview, on_files. cbn [k_procs k_nextpid k_init k_io kf_files set_files v_procs v_next v_init v_files].
  f_equal. apply list_eq. intros j. destruct (decide (j = f)) as [->|?]; [|by rewrite !list_lookup_alter_ne].
  rewrite !list_lookup_alter_eq. destruct (kf_files (k_io s) !! f) as [x|] eqn:Ex; [|done]. cbn. by rewrite (list_lookup_total_correct _ _ _ Ex).
Qed.

(** The last reference dropped, the file is marked free. *)
Definition close_file (x : file) : file := if 0 <? f_ref x - 1 then set_fref (f_ref x - 1) x else set_ftype FD_NONE (set_fref 0 x).

Definition same_files {A} (m : M (kfs B kst) A) : Prop := forall io a io', m io = Ok (a, io') -> kf_files io' = kf_files io.

Lemma same_bind {A C} (m : M (kfs B kst) A) (k : A -> M (kfs B kst) C) : same_files m -> (forall a, same_files (k a)) -> same_files (bind m k).
Proof. intros Hm Hk io c io' (a & io1 & E1 & E2)%bind_ok_inv. by rewrite (Hk _ _ _ _ E2), (Hm _ _ _ E1). Qed.

Lemma same_fsop {A} (m : M (fs B) A) : same_files (fsop m).
Proof. intros io a io'. unfold fsop, zoom. destruct (m _) as [[b k]| | |]; try done. by intros [= _ <-]. Qed.

Lemma same_memop {A} (m : M kst A) : same_files (memop m).
Proof. intros io a io'. unfold memop, zoom. destruct (m _) as [[b k]| | |]; try done. by intros [= _ <-]. Qed.

Lemma same_on_pipe {A} x (m : M pst A) : same_files (on_pipe x m).
Proof. intros io a io'. unfold on_pipe, zoom. destruct (m _) as [[b k]| | |]; try done. by intros [= _ <-]. Qed.

Lemma fileclose_files f io a io' : fileclose f io = Ok (a, io') ->
  1 <= f_ref (kf_files io !!! f) /\ kf_files io' = alter close_file f (kf_files io).
Proof.
  unfold fileclose. intros (x & io1 & E1 & E)%bind_ok_inv. injection E1 as <- <-.
  destruct (Z.ltb_spec (f_ref (kf_files io !!! f)) 1); [done|]. split; [done|].
  apply bind_ok_inv in E as ([] & io1 & E1 & E). injection E1 as <-. unfold close_file.
  assert (Hext : forall g, (forall x, kf_files io !! f = Some x -> g x = close_file x) -> alter g f (kf_files io) = alter close_file f (kf_files io)).
  { intros g Hg. apply list_eq. intros j. destruct (decide (j = f)) as [->|?]; [|by rewrite !list_lookup_alter_ne].
    rewrite !list_lookup_alter_eq. destruct (kf_files io !! f) as [x|] eqn:Ex; [|done]. cbn. f_equal. by apply Hg. }
  assert (Href : forall x, kf_files io !! f = Some x -> x = kf_files io !!! f) by (intros x Hx; symmetry; by apply list_lookup_total_correct).
  destruct (0 <? f_ref (kf_files io !!! f) - 1) eqn:Ez.
  { injection E as _ <-. cbn [set_files kf_files]. apply Hext. intros x Hx. rewrite <- (Href x Hx) in *. unfold close_file. by rewrite Ez. }
  apply bind_ok_inv in E as (ff & io1 & E1 & E). injection E1 as _ <-. apply bind_ok_inv in E as ([] & io2 & E1 & E). injection E1 as <-.
  assert (Es : kf_files io' = alter (fun x => set_ftype FD_NONE (set_fref 0 x)) f (alter (set_fref (f_ref (kf_files io !!! f) - 1)) f (kf_files io))).
  { revert E. destruct (f_type ff).
    - by intros [= _ <-].
    - intros (d & io3 & E3 & E)%bind_ok_inv. apply same_on_pipe in E3. destruct (d : bool); [|by injection E as _ <-].
      apply bind_ok_inv in E as ([] & io4 & E4 & E). apply same_memop in E4. injection E as _ <-. cbn [set_pipes kf_files]. by rewrite E4, E3.
    - intros (d & io3 & E3 & E)%bind_ok_inv. apply bind_ok_inv in E as (d' & io4 & E4 & E). apply same_fsop in E3, E4, E. by rewrite E, E4, E3.
    - intros (d & io3 & E3 & E)%bind_ok_inv. apply bind_ok_inv in E as (d' & io4 & E4 & E). apply same_fsop in E3, E4, E. by rewrite E, E4, E3. }
  rewrite Es, alter_twice. apply Hext. intros x Hx. unfold compose, close_file. by rewrite (Href x Hx), Ez.
Qed.

Lemma fileclose_view f s a s' : ioop (fileclose f) s = Ok (a, s') ->
  1 <= f_ref (v_files (kview s) !!! f) /\ kview s' = on_files (alter close_file f) (kview s).
Proof.
  unfold ioop, zoom. destruct (fileclose f (k_io s)) as [[x io]| | |] eqn:E; try done. apply fileclose_files in E as [H1 H2].
  intros [= _ <-]. split; [done|]. unfold kview. cbn. by rewrite H2.
Qed.

End effects.

(** Inverts a run through the routines' effects on the tables. *)
Ltac run_inv1 :=
  match goal with
  | H : bind _ _ _ = Ok _ |- _ => let a := fresh "x" in let s := fresh "s" in let E := fresh "E" in apply bind_ok_inv in H as (a & s & E & H)
  | H : vmop _ _ = Ok _ |- _ => apply vmop_view in H
  | H : ioop (fsop _) _ = Ok _ |- _ => apply fs_view in H
  | H : pupd _ _ _ = Ok _ |- _ => apply pupd_view in H
  | H : upd_procs _ _ = Ok _ |- _ => apply upd_procs_view in H
  | H : pat _ _ = Ok _ |- _ => apply pat_view in H as [-> ->]
  | H : gets _ _ = Ok _ |- _ => apply gets_view in H as [-> ->]
  | H : ret _ _ = Ok _ |- _ => first [apply ret_view in H as [-> ->]|apply ret_view in H as [-> _]]
  | H : deref _ _ = Ok _ |- _ => let Ed := fresh "Ed" in apply deref_view in H as [-> Ed]
  | H : tf_set _ _ _ _ = Ok _ |- _ => apply tf_set_view in H
  | H : uvmswitch _ _ = Ok _ |- _ => apply uvmswitch_view in H
  | H : panic _ _ = Ok _ |- _ => discriminate H
  | H : sched _ _ _ _ = Ok _ |- _ => apply sched_view in H as ->
  | H : sleep _ _ _ _ = Ok _ |- _ => apply sleep_view in H
  | H : zero_mem _ _ _ = Ok _ |- _ => apply zero_mem_view in H
  | H : allocpid _ = Ok _ |- _ => apply allocpid_view in H as [-> H]
  | H : ioop (filedup _) _ = Ok _ |- _ => apply filedup_view in H as (-> & ? & H)
  | H : ioop (fileclose _) _ = Ok _ |- _ => apply fileclose_view in H as (? & H)
  end.
Ltac run_if :=
  match goal with
  | H : (if ?b then _ else _) _ = Ok _ |- _ => let Eb := fresh "Eb" in destruct b eqn:Eb
  end.
Ltac run_inv := repeat (run_inv1 || run_if).
(** Rewrites the tables of a state with its history. *)
Ltac views := repeat match goal with H : kview ?s = _ |- context [kview ?s] => rewrite H end; unfold on_procs, on_files; cbn [v_procs v_next v_init v_files].

(** * What [fork], [exit], [wait] and their helpers do to the process table and the
    open files. *)

(** A process as [freeproc] leaves it. *)
Definition freed_proc (p : proc) : proc :=
  set_state UNUSED (set_xstate 0 (set_killed false (set_chan NoChan
    (set_pname (<[0%nat := 0]> (p_name p)) (set_parent None (set_pid 0 (set_sz 0 (set_pagetable 0 (set_trapframe 0 p))))))))).

(** A process as [allocproc] returns it. *)
Definition new_proc (pid sp cx pt : Z) (p : proc) : proc := set_pagetable pt (set_context cx (set_trapframe sp (set_pid pid p))).

Lemma find_proc_spec f l : forall i j, find_proc f l i = Some j -> exists p, (i <= j)%nat /\ l !! (j - i)%nat = Some p /\ f p = true.
Proof.
  induction l as [|p l IH]; intros i j; cbn [find_proc]; [done|]. destruct (f p) eqn:E.
  - intros [= <-]. exists p. rewrite Nat.sub_diag. by split; [lia|].
  - intros (q & H1 & H2 & H3)%IH. exists q. split; [lia|]. replace (j - i)%nat with (S (j - S i)) by lia. done.
Qed.

Lemma find_proc_first f l : forall i j, find_proc f l i = Some j -> forall k p, (k < j - i)%nat -> l !! k = Some p -> f p = false.
Proof.
  induction l as [|p l IH]; intros i j; cbn [find_proc]; [done|]. destruct (f p) eqn:E; [intros [= <-]; lia|].
  intros Hj k q Hk Hq. destruct k as [|k]; [by injection Hq as <-|]. cbn in Hq. by apply (IH _ _ Hj k q); [lia|].
Qed.

Lemma find_proc_none f l : forall i, find_proc f l i = None -> Forall (fun p => f p = false) l.
Proof. induction l as [|p l IH]; intros i; cbn [find_proc]; [constructor|]. destruct (f p) eqn:E; [done|]. intros H%IH. by constructor. Qed.

Section runs.
Context {B : Type} {ops : BlockOps B}.

Implicit Types s : kern B.

Lemma freeproc_view i s a s' : freeproc i s = Ok (a, s') -> kview s' = on_procs (alter freed_proc i) (kview s).
Proof.
  unfold freeproc. intros H. run_inv; views; by rewrite alter_twice.
Qed.

Lemma allocproc_view trapret forkret s r s' : allocproc trapret forkret s = Ok (r, s') ->
  match r with
  | None => kview s' = kview s /\ Forall (fun p => p_state p <> UNUSED) (v_procs (kview s)) \/
      exists i p, v_procs (kview s) !! i = Some p /\ p_state p = UNUSED /\
        exists pid sp cx, kview s' = mkview (<[i := freed_proc (new_proc pid sp cx 0 p)]> (v_procs (kview s))) (s32 (v_next (kview s) + 1)) (v_init (kview s)) (v_files (kview s))
  | Some i => exists p, v_procs (kview s) !! i = Some p /\ p_state p = UNUSED /\
      (forall k q, (k < i)%nat -> v_procs (kview s) !! k = Some q -> p_state q <> UNUSED) /\
      exists sp cx pt, kview s' = mkview (<[i := new_proc (v_next (kview s)) sp cx pt p]> (v_procs (kview s))) (s32 (v_next (kview s) + 1)) (v_init (kview s)) (v_files (kview s))
  end.
Proof.
  unfold allocproc. intros H. run_inv1. run_inv1. destruct (find_proc _ _ _) as [i|] eqn:Ef.
  2: { run_inv. left. split; [done|]. eapply Forall_impl; [by eapply find_proc_none|]. cbn beta. intros p Hp. by rewrite bool_decide_eq_false in Hp. }
  assert (Hfirst : forall k q, (k < i)%nat -> k_procs s !! k = Some q -> p_state q <> UNUSED).
  { intros k q Hk Hq. assert (Hf := find_proc_first _ _ _ _ Ef k q). rewrite Nat.sub_0_r, bool_decide_eq_false in Hf. auto. }
  apply find_proc_spec in Ef as (p & _ & Hp & Hu). rewrite Nat.sub_0_r in Hp. rewrite bool_decide_eq_true in Hu.
  cbv zeta in H. unfold proc_pagetable in H. run_inv; try congruence; try match goal with H : (0 =? 0) = false |- _ => discriminate H end.
  all: try match goal with H : freeproc _ _ = Ok _ |- _ => apply freeproc_view in H end.
  - right. exists i, p. split; [done|]. split; [done|]. do 3 eexists. views. rewrite !alter_twice, (alter_insert _ i _ p) by done. reflexivity.
  - exists p. split; [done|]. split; [done|]. split; [done|]. do 3 eexists. views. rewrite !alter_twice, (alter_insert _ i _ p) by done. reflexivity.
Qed.

(** The files a list of descriptors refers to, each one more time. *)
Definition dup_files (l : list (option nat)) (t : list file) : list file :=
  foldl (fun t o => match o with Some f => alter dup_file f t | None => t end) t l.

Lemma alter_same {A} (g : A -> A) i (l : list A) : (forall x, g x = x) -> alter g i l = l.
Proof.
  intros Hg. apply list_eq. intros j. destruct (decide (j = i)) as [->|?]; [|by rewrite list_lookup_alter_ne].
  rewrite list_lookup_alter_eq. destruct (l !! i) as [x|]; [|done]. cbn. by rewrite Hg.
Qed.

Lemma fork_files_view : forall l np i s a s', fork_files l np i s = Ok (a, s') ->
  kview s' = mkview (alter (fun q => set_ofile (copy_ofile l i (p_ofile q)) q) np (v_procs (kview s)))
    (v_next (kview s)) (v_init (kview s)) (dup_files l (v_files (kview s))).
Proof.
  induction l as [|[f|] l IH]; intros np i s a s'; cbn [fork_files copy_ofile]; intros H.
  - run_inv. rewrite alter_same by (by intros []). done.
  - run_inv. apply IH in H. rewrite H. views. by rewrite alter_twice.
  - by apply IH in H.
Qed.

(** [fork] fails without effect, fails after it took a process number, or makes a
    child in the first unused slot. *)
Inductive fork_result (me : nat) (v v' : view) (r : Z) : Prop :=
| fr_none : r = -1 -> v' = v -> fork_result me v v' r
| fr_fail i q q' : r = -1 -> v_procs v !! i = Some q -> p_state q = UNUSED ->
    v' = mkview (<[i := q']> (v_procs v)) (s32 (v_next v + 1)) (v_init v) (v_files v) ->
    p_state q' = UNUSED -> p_pid q' = 0 -> p_parent q' = None -> p_ofile q' = p_ofile q -> fork_result me v v' r
| fr_child i q q' : r = v_next v -> v_procs v !! i = Some q -> p_state q = UNUSED ->
    (forall k x, (k < i)%nat -> v_procs v !! k = Some x -> p_state x <> UNUSED) ->
    v' = mkview (<[i := q']> (v_procs v)) (s32 (v_next v + 1)) (v_init v) (dup_files (p_ofile (v_procs v !!! me)) (v_files v)) ->
    p_state q' = RUNNABLE -> p_pid q' = v_next v -> p_parent q' = Some me -> p_killed q' = p_killed q ->
    p_ofile q' = copy_ofile (p_ofile (v_procs v !!! me)) 0 (p_ofile q) -> fork_result me v v' r.

Lemma insert_total {A} `{Inhabited A} (l : list A) i x y : l !! i = Some y -> <[i := x]> l !!! i = x.
Proof. intros Hi. apply list_lookup_total_insert_eq. by eapply lookup_lt_Some. Qed.

Lemma alter_on_insert {A} (g : A -> A) (l : list A) i x y : l !! i = Some y -> alter g i (<[i := x]> l) = <[i := g x]> l.
Proof.
  intros Hi. rewrite (alter_insert _ _ _ x); [apply list_insert_insert_eq|]. apply list_lookup_insert_eq. by eapply lookup_lt_Some.
Qed.

Lemma fork_view trapret forkret me s r s' : fork trapret forkret me s = Ok (r, s') -> fork_result me (kview s) (kview s') r.
Proof.
  unfold fork. intros H. do 3 run_inv1. apply allocproc_view in E0. destruct x0 as [i|].
  2: { run_inv. destruct E0 as [[E0 _]|(i & q & Hq & Hu & pid & sp & cx & E0)]; [by apply fr_none|]. by eapply fr_fail. }
  destruct E0 as (q & Hq & Hu & Hfirst & sp & cx & pt & E0). run_inv.
  - match goal with H : freeproc _ _ = Ok _ |- _ => apply freeproc_view in H end.
    eapply (fr_fail _ _ _ _ i q); [done|done|done|views; by rewrite (alter_on_insert _ _ _ _ _ Hq)|done..].
  - match goal with H : fork_files _ _ _ _ = Ok _ |- _ => apply fork_files_view in H end.
    eapply (fr_child _ _ _ _ i q); [|done|done|done|views; rewrite !(alter_on_insert _ _ _ _ _ Hq); reflexivity|done..].
    views. rewrite !(alter_on_insert _ _ _ _ _ Hq). by rewrite (insert_total _ _ _ _ Hq).
Qed.

(** ** exit *)

(** The files of a list of descriptors closed one after the other. *)
Definition close_files (l : list (option nat)) (t : list file) : list file :=
  foldl (fun t o => match o with Some f => alter close_file f t | None => t end) t l.

Lemma set_ofile_id p : set_ofile (p_ofile p) p = p.
Proof. by destruct p. Qed.

Lemma exit_files_view : forall n me fd s a s' p, exit_files n me fd s = Ok (a, s') -> v_procs (kview s) !! me = Some p -> length (p_ofile p) = (fd + n)%nat ->
  kview s' = mkview (<[me := set_ofile (take fd (p_ofile p) ++ replicate n None) p]> (v_procs (kview s))) (v_next (kview s)) (v_init (kview s))
    (close_files (drop fd (p_ofile p)) (v_files (kview s))).
Proof.
  induction n as [|n IH]; intros me fd s a s' p H Hp Hl; cbn [exit_files] in H.
  - run_inv. rewrite take_ge, drop_ge, app_nil_r by lia. by rewrite set_ofile_id, list_insert_id.
  - do 3 run_inv1. rewrite (list_lookup_total_correct _ _ _ Hp) in E0. destruct (lookup_lt_is_Some_2 (p_ofile p) fd) as [o Ho]; [lia|].
    rewrite (list_lookup_total_correct _ _ _ Ho) in E0. rewrite (drop_S _ _ _ Ho). cbn [close_files foldl].
    assert (Ev : kview s1 = mkview (<[me := set_ofile (<[fd := None]> (p_ofile p)) p]> (v_procs (kview s))) (v_next (kview s)) (v_init (kview s))
      (match o with Some f => alter close_file f (v_files (kview s)) | None => v_files (kview s) end)).
    { destruct o as [f|]; run_inv; views; [by rewrite (alter_insert _ _ _ _ Hp)|]. rewrite (list_insert_id (p_ofile p)) by done.
      by rewrite set_ofile_id, list_insert_id. }
    set (p1 := set_ofile (<[fd := None]> (p_ofile p)) p) in *.
    assert (Hp1 : v_procs (kview s1) !! me = Some p1) by (rewrite Ev; apply list_lookup_insert_eq; by eapply lookup_lt_Some).
    rewrite (IH _ _ _ _ _ _ H Hp1) by (cbn [p1 set_ofile p_ofile]; rewrite length_insert; lia). rewrite Ev. cbn [v_procs v_next v_init v_files].
    rewrite list_insert_insert_eq. unfold p1. cbn [set_ofile p_ofile]. rewrite drop_insert_lt by lia.
    rewrite (take_S_r _ fd None) by (apply list_lookup_insert_eq; by eapply lookup_lt_Some). rewrite take_insert_ge by lia. by rewrite <- app_assoc.
Qed.

Definition wake1 (i : nat) (p : proc) : proc :=
  if bool_decide (p_chan p = ChanProc i) && bool_decide (p_state p = SLEEPING) then set_state RUNNABLE p else p.
Definition give_away (me : nat) (init : option nat) (p : proc) : proc := if decide (p_parent p = Some me) then set_parent init p else p.
Definition zombie (status : Z) (p : proc) : proc := set_state ZOMBIE (set_xstate status p).
Definition closed (p : proc) : proc := set_cwd None (set_ofile (replicate NOFILE None) p).

(** The table after [exit] of process [me] with parent [parent]. *)
Definition exited (me init parent : nat) (status : Z) (p : proc) (l : list proc) : list proc :=
  alter (zombie status) me (alter (wake1 parent) parent (give_away me (Some init) <$> alter (wake1 init) init (<[me := closed p]> l))).

Lemma wakeup1_view i s a s' : wakeup1 i s = Ok (a, s') -> kview s' = on_procs (alter (wake1 i) i) (kview s).
Proof. apply pupd_view. Qed.

(** What [exit] leaves at every index. *)
Lemma exited_lookup me init parent status p l j x : l !! j = Some x -> l !! me = Some p -> init <> me ->
  exists y, exited me init parent status p l !! j = Some y /\ p_pid y = p_pid x /\
    p_parent y = (if decide (p_parent x = Some me) then Some init else p_parent x) /\
    (j = me -> p_state y = ZOMBIE /\ p_xstate y = status) /\
    (j = parent -> j <> me -> ~ (p_state y = SLEEPING /\ p_chan y = ChanProc j)).
Proof.
  intros Hj Hp Hne. unfold exited.
  set (x1 := if decide (j = me) then closed x else x). set (x2 := if decide (j = init) then wake1 init x1 else x1).
  set (x3 := give_away me (Some init) x2). set (x4 := if decide (j = parent) then wake1 parent x3 else x3).
  set (x5 := if decide (j = me) then zombie status x4 else x4).
  assert (L1 : <[me := closed p]> l !! j = Some x1).
  { unfold x1. case_decide as E; [subst; rewrite list_lookup_insert_eq by (by eapply lookup_lt_Some); congruence|by rewrite list_lookup_insert_ne]. }
  assert (L : forall (g : proc -> proc) i (m : list proc) y, m !! j = Some y -> alter g i m !! j = Some (if decide (j = i) then g y else y)).
  { intros g i m y Hy. case_decide as E; [subst; by rewrite list_lookup_alter_eq, Hy|by rewrite list_lookup_alter_ne]. }
  assert (L5 : alter (zombie status) me (alter (wake1 parent) parent (give_away me (Some init) <$> alter (wake1 init) init (<[me := closed p]> l))) !! j = Some x5).
  { apply L, L. rewrite list_lookup_fmap, (L _ _ _ _ L1). unfold x3, x2. by case_decide; subst. }
  exists x5. split; [exact L5|]. clear L5 L L1.
  assert (W : forall i y, p_pid (wake1 i y) = p_pid y /\ p_parent (wake1 i y) = p_parent y) by (intros i y; unfold wake1; by destruct (_ && _)).
  assert (X2 : p_pid x2 = p_pid x /\ p_parent x2 = p_parent x).
  { unfold x2. assert (p_pid x1 = p_pid x /\ p_parent x1 = p_parent x) as [E1 E2] by (unfold x1; by case_decide).
    case_decide; [by rewrite (proj1 (W _ _)), (proj2 (W _ _))|done]. }
  assert (X3 : p_pid x3 = p_pid x /\ p_parent x3 = (if decide (p_parent x = Some me) then Some init else p_parent x)).
  { unfold x3, give_away. rewrite (proj2 X2). case_decide; cbn; by rewrite ?(proj1 X2), ?(proj2 X2). }
  assert (X4 : p_pid x4 = p_pid x3 /\ p_parent x4 = p_parent x3) by (unfold x4; destruct (decide (j = parent)); [apply W|done]).
  split; [|split; [|split]].
  - unfold x5. destruct (decide (j = me)); cbn; by rewrite (proj1 X4), (proj1 X3).
  - unfold x5. destruct (decide (j = me)); cbn [zombie set_state set_xstate p_parent]; by rewrite (proj2 X4), (proj2 X3).
  - intros ->. unfold x5. by rewrite decide_True.
  - intros -> Hjm. unfold x5, x4. rewrite decide_False, decide_True by done. unfold wake1.
    destruct (_ && _) eqn:Eb; [by intros [? _]|]. intros [E1 E2]. by rewrite E1, E2, !bool_decide_eq_true_2 in Eb.
Qed.

Lemma exit_view me status c s a s' p : exit me status c s = Ok (a, s') -> v_procs (kview s) !! me = Some p -> length (p_ofile p) = NOFILE ->
  exists init parent, v_init (kview s) = Some init /\ init <> me /\ p_parent p = Some parent /\
    kview s' = mkview (exited me init parent status p (v_procs (kview s))) (v_next (kview s)) (v_init (kview s)) (close_files (p_ofile p) (v_files (kview s))).
Proof.
  unfold exit. intros H Hp Hl. do 2 run_inv1. destruct (decide (k_init s = Some me)) as [|Hne]; [done|].
  run_inv1. apply (exit_files_view _ _ _ _ _ _ p) in E; [|done|done]. cbn [take drop app] in E. unfold reparent in H. run_inv.
  repeat match goal with H : wakeup1 _ _ = Ok _ |- _ => apply wakeup1_view in H end.
  match goal with H : get _ = Ok _ |- _ => injection H as <- <- end.
  rename x6 into init, x9 into parent.
  assert (Ei : k_init s8 = Some init) by (change (v_init (kview s8) = Some init); views; exact Ed0).
  assert (Hin : init <> me) by congruence.
  assert (E6 : kview s6 = mkview (<[me := closed p]> (v_procs (kview s))) (v_next (kview s)) (v_init (kview s)) (close_files (p_ofile p) (v_files (kview s)))).
  { views. by rewrite (alter_on_insert _ _ _ _ _ Hp). }
  assert (H8 : v_procs (kview s8) !! me = Some (closed p)).
  { rewrite E7, E6. cbn [on_procs v_procs]. rewrite list_lookup_alter_ne by done. apply list_lookup_insert_eq. by eapply lookup_lt_Some. }
  rewrite (list_lookup_total_correct _ _ _ H8) in Ed. exists init, parent. split; [done|]. split; [done|]. split; [done|].
  rewrite Ei in E10. rewrite E12, E11, E10, E7, E6. done.
Qed.

(** ** wait *)

(** [wait] reaps the first zombie child, fails without children or when killed, or sleeps. *)
Inductive wait_result (me : nat) (addr : Z) (v v' : view) : wsection -> Prop :=
| wr_reaped i q : v_procs v !! i = Some q -> p_parent q = Some me -> p_state q = ZOMBIE ->
    v' = on_procs (alter freed_proc i) v -> wait_result me addr v v' (WDone (p_pid q))
| wr_copy i q : v_procs v !! i = Some q -> p_parent q = Some me -> p_state q = ZOMBIE -> addr <> 0 -> v' = v -> wait_result me addr v v' (WDone (-1))
| wr_none : v' = v -> (forall i q, v_procs v !! i = Some q -> p_parent q = Some me -> p_state q <> ZOMBIE) -> no_child (v_procs v) me \/ p_killed (v_procs v !!! me) = true -> wait_result me addr v v' (WDone (-1))
| wr_sleep : (exists i q, v_procs v !! i = Some q /\ p_parent q = Some me) ->
    (forall i q, v_procs v !! i = Some q -> p_parent q = Some me -> p_state q <> ZOMBIE) -> p_killed (v_procs v !!! me) = false ->
    v' = on_procs (alter (fun p => set_state SLEEPING (set_chan (ChanProc me) p)) me) v -> wait_result me addr v v' WSleep.

Lemma wait_scan_view xstate_addr : forall n me i addr c hk s r s', wait_scan xstate_addr n me i addr c hk s = Ok (r, s') -> (i + n)%nat = length (v_procs (kview s)) ->
  (forall k q, (k < i)%nat -> v_procs (kview s) !! k = Some q -> p_parent q = Some me -> p_state q <> ZOMBIE) ->
  (if hk then exists k q, v_procs (kview s) !! k = Some q /\ p_parent q = Some me
   else forall k q, (k < i)%nat -> v_procs (kview s) !! k = Some q -> p_parent q <> Some me) ->
  wait_result me addr (kview s) (kview s') r.
Proof.
  induction n as [|n IH]; intros me i addr c hk s r s' H Hn Hz Hk; cbn [wait_scan] in H.
  - do 2 run_inv1. assert (Hlt : forall k (q : proc), v_procs (kview s) !! k = Some q -> (k < i)%nat) by (intros k q Hq; apply lookup_lt_Some in Hq; lia).
    run_if; run_inv.
    + apply wr_none; [done|intros k q Hq; eauto|]. apply orb_true_iff in Eb as [Eb|Eb]; [left|by right]. destruct hk; [done|]. intros k q Hq. eauto.
    + apply orb_false_iff in Eb as [Eb Ekl]. destruct hk; [|done]. apply wr_sleep; [done| |done|done]. intros k q Hq. eauto.
  - do 2 run_inv1. destruct (lookup_lt_is_Some_2 (v_procs (kview s)) i) as [q Hq]; [lia|]. rewrite (list_lookup_total_correct _ _ _ Hq) in H.
    destruct (decide (p_parent q = Some me)) as [Hpq|Hpq].
    2: { rewrite bool_decide_eq_false_2 in H by done. cbn [negb] in H. apply IH in H; [done|lia| |].
      - intros k q' Hlt Hq' Hp'. destruct (decide (k = i)) as [->|]; [congruence|]. apply (Hz k); [lia|done|done].
      - destruct hk; [done|]. intros k q' Hlt Hq'. destruct (decide (k = i)) as [->|]; [congruence|]. apply (Hk k); [lia|done]. }
    rewrite bool_decide_eq_true_2 in H by done. cbn [negb] in H. destruct (decide (p_state q = ZOMBIE)) as [Hs|Hs].
    + rewrite bool_decide_eq_true_2 in H by done. run_inv; try match goal with H : freeproc _ _ = Ok _ |- _ => apply freeproc_view in H end.
      all: try (match goal with H : negb (?a =? 0) = true |- _ => apply negb_true_iff, Z.eqb_neq in H end; by eapply wr_copy; [..|views]).
      all: try match goal with H : (0 <? 0) = true |- _ => discriminate H end. all: eapply wr_reaped; [done|done|done|by views].
    + rewrite bool_decide_eq_false_2 in H by done. apply IH in H; [done|lia| |by exists i, q].
      intros k q' Hlt Hq' Hp'. destruct (decide (k = i)) as [->|]; [congruence|]. apply (Hz k); [lia|done|done].
Qed.

Lemma wait_view xstate_addr me addr c s r s' : wait xstate_addr me addr c s = Ok (r, s') -> length (v_procs (kview s)) = NPROC -> wait_result me addr (kview s) (kview s') r.
Proof.
  unfold wait. intros H Hl. apply (wait_scan_view xstate_addr NPROC me 0 addr (acquired c) false s r s' H).
  - rewrite Hl. reflexivity.
  - intros k q Hk. lia.
  - intros k q Hk. lia.
Qed.

End runs.
