(* ===== verification/ProcThm.v ===== *)
(** Processes over every interleaving of the routines of kernel/proc.c: the table's
    invariant, what [wait] reports, and a process number that is nobody's. *)

From S2P Require Import Prelude Spinlock Mem Mmu Kalloc Vm Bio Blk Fs FsIo Pipe File Proc ProcInv.

Section table.
Context {B : Type} {ops : BlockOps B} (trapret forkret : Z) (xstate_addr : nat -> Z).

Implicit Types s : kern B.

Definition running (s : kern B) (i : nat) : Prop := exists p, k_procs s !! i = Some p /\ p_state p = RUNNING.

(** One step of the system: a routine called by a running process, or the scheduler. *)
Inductive pstep : kern B -> kern B -> Prop :=
| ps_fork s me r s' : running s me -> k_nextpid s < 2 ^ 31 - 1 -> fork trapret forkret me s = Ok (r, s') -> pstep s s'
| ps_exit s me status c s' : running s me -> exit me status c s = Ok (tt, s') -> pstep s s'
| ps_wait s me addr c r s' : running s me -> wait xstate_addr me addr c s = Ok (r, s') -> pstep s s'
| ps_sleep s me ch c s' : running s me -> sleep me ch c s = Ok (tt, s') -> pstep s s'
| ps_sleep_return s me s' : running s me -> sleep_return me s = Ok (tt, s') -> pstep s s'
| ps_wakeup s c s' : wakeup c s = Ok (tt, s') -> pstep s s'
| ps_kill s pid r s' : kill pid s = Ok (r, s') -> pstep s s'
| ps_yield s me c s' : running s me -> yield me c s = Ok (tt, s') -> pstep s s'
| ps_sched s i r s' : scheduler_try i s = Ok (r, s') -> pstep s s'
| ps_grow s me n r s' : running s me -> growproc me n s = Ok (r, s') -> pstep s s'.

(** The table is in order, and [initproc] is set. *)
Definition sys_ok (s : kern B) : Prop := exists init, k_init s = Some init /\ 0 < k_nextpid s /\ table_inv (k_procs s) (k_nextpid s) init.

Lemma view_inv s s' init : kview s' = on_procs (fun _ => k_procs s') (kview s) -> k_init s = Some init -> 0 < k_nextpid s ->
  table_inv (k_procs s') (k_nextpid s) init -> sys_ok s'.
Proof.
  intros E Hi Hn Ht. assert (Ei : k_init s' = k_init s) by exact (f_equal v_init E). assert (En : k_nextpid s' = k_nextpid s) by exact (f_equal v_next E).
  exists init. rewrite Ei, En. done.
Qed.

(** Steps that only change states and channels. *)
Lemma quiet_step s s' g : kview s' = on_procs g (kview s) -> Forall2 quiet (k_procs s) (g (k_procs s)) -> sys_ok s -> sys_ok s'.
Proof.
  intros E Hq (init & Hi & Hn & Ht). assert (Ep : k_procs s' = g (k_procs s)) by exact (f_equal v_procs E).
  eapply (view_inv s s' init); [rewrite E; unfold on_procs; cbn; by rewrite Ep|done|done|]. rewrite Ep. by eapply quiet_inv.
Qed.

Lemma quiet_set st p : alive p -> st <> UNUSED -> st <> ZOMBIE -> quiet p (set_state st p).
Proof. intros Hp H1 H2. split; try done. by right. Qed.

Lemma quiet_sleep c p : alive p -> quiet p (set_state SLEEPING (set_chan c p)).
Proof. intros Hp. split; try done. by right. Qed.

Lemma quiet_wake (b : bool) p : (b = true -> p_state p = SLEEPING) -> quiet p (if b then set_state RUNNABLE p else p).
Proof. intros Hb. destruct b; [|apply quiet_refl]. apply quiet_set; try done. unfold alive; by rewrite (Hb eq_refl). Qed.

Lemma wake1_quiet i p : quiet p (wake1 i p).
Proof. apply quiet_wake. intros [_ H]%andb_true_iff. by apply bool_decide_eq_true in H. Qed.

Lemma kill_quiet p : quiet p (let p := set_killed true p in if bool_decide (p_state p = SLEEPING) then set_state RUNNABLE p else p).
Proof.
  cbn zeta. case_bool_decide as E; [|by split; try done; left]. split; try done. right. cbn in E. split; [unfold alive; by rewrite E|done].
Qed.

(** A child given to [init]. *)
Lemma give_away_inv l next init me : table_inv l next init -> init <> me ->
  table_inv (give_away me (Some init) <$> l) next init /\ no_child (give_away me (Some init) <$> l) me.
Proof.
  intros [H1 H2 H3 H4] Hne. assert (Hst : forall p, p_state (give_away me (Some init) p) = p_state p /\ p_pid (give_away me (Some init) p) = p_pid p /\
    p_ofile (give_away me (Some init) p) = p_ofile p) by (intros p; unfold give_away; by case_decide).
  assert (Hal : forall j q, l !! j = Some q -> alive q -> exists q', (give_away me (Some init) <$> l) !! j = Some q' /\ alive q').
  { intros j q Hj Ha. exists (give_away me (Some init) q). rewrite list_lookup_fmap, Hj. split; [done|]. unfold alive. by destruct (Hst q) as [-> _]. }
  split.
  - split; [by rewrite length_fmap| | |].
    + intros i q' Hi. rewrite list_lookup_fmap in Hi. destruct (l !! i) as [q|] eqn:Eq; [|done]. injection Hi as <-.
      destruct (H2 i q Eq) as [P1 P2 P3 P4 P5 P6]. destruct (Hst q) as (E1 & E2 & E3). unfold no_files, alive in *.
      split; unfold no_files, alive; rewrite ?E1, ?E2, ?E3; try done.
      * intros Hu. destruct (P1 Hu) as [-> Ep]. split; [done|]. unfold give_away. by rewrite Ep, decide_False.
      * intros j. unfold give_away. case_decide as Ed; [|intros Hj; destruct (P3 j Hj) as (x & ? & ?); by eapply Hal].
        intros [= <-]. destruct H4 as (x & Hx & Hxa). by apply (Hal init x).
      * intros Hu Hi. unfold give_away. case_decide; [by eexists|by apply P4].
    + intros i j p q Hi Hj. rewrite list_lookup_fmap in Hi, Hj. destruct (l !! i) as [p'|] eqn:Ei; [|done]. destruct (l !! j) as [q'|] eqn:Ej; [|done].
      injection Hi as <-. injection Hj as <-. destruct (Hst p') as (-> & -> & _). destruct (Hst q') as (_ & -> & _). intros Hu Hpid. by apply (H3 i j p' q').
    + destruct H4 as (x & Hx & Hxa). by apply (Hal init x).
  - intros j q Hj. rewrite list_lookup_fmap in Hj. destruct (l !! j) as [q'|]; [|done]. injection Hj as <-. unfold give_away.
    case_decide; [|done]. cbn. congruence.
Qed.

Lemma fork_inv s me r s' : fork trapret forkret me s = Ok (r, s') -> running s me -> k_nextpid s < 2 ^ 31 - 1 -> sys_ok s -> sys_ok s'.
Proof.
  intros H (p & Hp & Hrun) Hlt (init & Hi & Hn & Ht). apply fork_view in H.
  assert (En : s32 (k_nextpid s + 1) = k_nextpid s + 1) by (apply s32_small; lia).
  destruct H as [_ Ev|i q q' _ Hq Hu Ev U1 U2 U3 U4|i q q' _ Hq Hu _ Ev U1 U2 U3 _ U4]; [by exists init; injection Ev as -> -> -> _|..];
    injection Ev as Ep En' Ei _; cbn [kview v_procs v_next v_init] in *; rewrite En in En'; exists init; rewrite Ei, En'; (split; [done|]); (split; [lia|]); rewrite Ep;
    destruct (ti_ok _ _ _ Ht i q Hq) as [P1 P2 P3 P4 P5 P6]; (assert (Hqn : no_files q) by (apply P6; intros [? _]; done)).
  - apply (insert_inv _ (k_nextpid s) init i q q'); [done|done|lia|done|done|done|by rewrite U3|by rewrite U4|unfold no_files; by rewrite U4|done|by intros [? _]].
  - pose proof (pk_len _ _ _ _ _ (ti_ok _ _ _ Ht me p Hp)) as Hlp. rewrite (list_lookup_total_correct _ _ _ Hp), copy_ofile_none in U4 by (done || by rewrite Hlp).
    apply (insert_inv _ (k_nextpid s) init i q q').
    + done.
    + done.
    + lia.
    + by rewrite U1.
    + rewrite U2. lia.
    + rewrite U3. by eexists.
    + rewrite U3. intros j [= <-]. exists p. assert (me <> i) by congruence. rewrite list_lookup_insert_ne by done. split; [done|]. unfold alive. by rewrite Hrun.
    + by rewrite U4.
    + intros Hna. destruct Hna. unfold alive. by rewrite U1.
    + intros _ j x Hj Hx. rewrite U2. destruct (ti_ok _ _ _ Ht j x Hx) as [X1 X2 _ _ _ _].
      destruct (decide (p_state x = UNUSED)) as [E|E]; [destruct (X1 E); lia|specialize (X2 E); lia].
    + by intros [? _].
Qed.

(** A process without children and files becomes a zombie. *)
Lemma zombie_inv l next init me q status : table_inv l next init -> no_child l me -> l !! me = Some q -> init <> me ->
  p_state q <> UNUSED -> p_ofile q = replicate NOFILE None -> table_inv (<[me := zombie status q]> l) next init.
Proof.
  intros Ht Hc Hq Hne Hu Ho. destruct (ti_ok _ _ _ Ht me q Hq) as [P1 P2 P3 P4 P5 P6].
  apply (insert_inv _ next init me q); try done.
  - intros _. by apply P2.
  - intros _. by apply P4.
  - intros j Hj. destruct (P3 j Hj) as (x & Hx & Hxa). exists x. rewrite list_lookup_insert_ne; [done|]. intros ->. by apply (Hc j q).
  - intros _. unfold no_files. cbn [zombie set_state set_xstate p_ofile]. rewrite Ho. by apply Forall_replicate.
  - intros _ j x Hj Hx E. apply Hj. symmetry. by apply (ti_uniq _ _ _ Ht me j q x).
Qed.

Lemma exit_inv s me status c s' : exit me status c s = Ok (tt, s') -> running s me -> sys_ok s -> sys_ok s'.
Proof.
  intros H (p & Hp & Hrun) (init & Hi & Hn & Ht). pose proof (ti_ok _ _ _ Ht me p Hp) as Hok.
  destruct (exit_view me status c s tt s' p H Hp (pk_len _ _ _ _ _ Hok)) as (init' & parent & Ei & Hne & Epar & Ev).
  assert (init' = init) as -> by (cbn in Ei; congruence). injection Ev as Ep En Ei' _. cbn [kview v_procs v_next v_init] in *.
  exists init. rewrite Ei', En. split; [done|]. split; [done|]. rewrite Ep. unfold exited.
  assert (Hal : alive p) by (unfold alive; by rewrite Hrun).
  assert (T1 : table_inv (<[me := closed p]> (k_procs s)) (k_nextpid s) init).
  { destruct Hok as [P1 P2 P3 P4 P5 P6]. apply (insert_inv _ (k_nextpid s) init me p); try done.
    - intros j Hj. destruct (P3 j Hj) as (q & Hq & Hqa). destruct (decide (j = me)) as [->|].
      + exists (closed p). rewrite list_lookup_insert_eq by (by eapply lookup_lt_Some). done.
      + exists q. by rewrite list_lookup_insert_ne.
    - intros Hu j q Hj Hq E. apply Hj. symmetry. by apply (ti_uniq _ _ _ Ht me j p q). }
  assert (L1 : <[me := closed p]> (k_procs s) !! me = Some (closed p)) by (apply list_lookup_insert_eq; by eapply lookup_lt_Some).
  set (l1 := <[me := closed p]> (k_procs s)) in *.
  assert (T2 : table_inv (alter (wake1 init) init l1) (k_nextpid s) init) by (eapply quiet_inv; [apply quiet_alter; intros; apply wake1_quiet|done]).
  assert (L2 : alter (wake1 init) init l1 !! me = Some (closed p)) by (by rewrite list_lookup_alter_ne).
  destruct (give_away_inv _ _ _ me T2 Hne) as [T3 Hc]. set (l3 := give_away me (Some init) <$> _) in *.
  assert (L3 : l3 !! me = Some (give_away me (Some init) (closed p))) by (unfold l3; by rewrite list_lookup_fmap, L2).
  assert (Q4 : Forall2 quiet l3 (alter (wake1 parent) parent l3)) by (apply quiet_alter; intros; apply wake1_quiet).
  pose proof (quiet_inv _ _ _ _ Q4 T3) as T4. set (l4 := alter (wake1 parent) parent l3) in *.
  assert (Hc4 : no_child l4 me).
  { intros j q Hj. eapply Forall2_lookup_r in Q4 as (q0 & Hq0 & Hq); [|done]. rewrite (qt_parent _ _ Hq). by eapply Hc. }
  destruct (Forall2_lookup_l _ _ _ _ _ Q4 L3) as (q & Hq & Hqq). rewrite (alter_insert _ _ _ _ Hq).
  assert (Hga : p_state (give_away me (Some init) (closed p)) = RUNNING /\ p_ofile (give_away me (Some init) (closed p)) = replicate NOFILE None)
    by (unfold give_away; by case_decide).
  apply zombie_inv; [done|done|done|done| |by rewrite (qt_ofile _ _ Hqq); apply Hga]. rewrite (quiet_unused _ _ Hqq). by rewrite (proj1 Hga).
Qed.

Lemma wait_inv s me addr c r s' : wait xstate_addr me addr c s = Ok (r, s') -> running s me -> sys_ok s -> sys_ok s'.
Proof.
  intros H (p & Hp & Hrun) (init & Hi & Hn & Ht). assert (Hs : sys_ok s) by (by exists init).
  apply wait_view in H; [|apply Ht]. destruct H as [i q Hq Hpar Hz Ev|i q _ _ _ _ Ev|Ev _ _|_ _ _ Ev].
  - apply (view_inv s s' init); [rewrite Ev; unfold on_procs; cbn; by injection Ev as -> _|done|done|].
    injection Ev as Ep _ _ _. cbn [kview v_procs] in *. rewrite Ep, (alter_insert _ _ _ _ Hq).
    destruct (ti_ok _ _ _ Ht i q Hq) as [P1 P2 P3 P4 P5 P6].
    apply (insert_inv _ (k_nextpid s) init i q); try done.
    + intros _. apply P6. intros [_ ?]. done.
    + intros [_ ?]. done.
  - by exists init; injection Ev as -> -> -> _.
  - by exists init; injection Ev as -> -> -> _.
  - eapply quiet_step; [exact Ev| |done]. apply quiet_alter. intros p' Hp'. apply quiet_sleep. assert (p' = p) as -> by congruence. unfold alive. by rewrite Hrun.
Qed.

Lemma grow_view me n s r s' : growproc me n s = Ok (r, s') -> exists g, (forall p, quiet p (g p)) /\ kview s' = on_procs (alter g me) (kview s).
Proof.
  unfold growproc. intros H. apply bind_ok_inv in H as (x0 & s0 & E0 & H). apply pat_view in E0 as [-> ->]. cbv zeta in H. apply bind_ok_inv in H as (o & s1 & E & H).
  assert (Ev : kview s1 = kview s) by (run_inv; done). clear E.
  destruct o as [sz|]; [|run_inv; exists (fun p => p); split; [apply quiet_refl|]; rewrite Ev; unfold on_procs; by rewrite alter_same].
  apply bind_ok_inv in H as (x & s2 & E2 & H). apply pupd_view in E2. exists (set_sz sz). split; [intros p; by split; try done; left|].
  rewrite <- Ev, <- E2. by run_inv.
Qed.

Lemma pstep_inv s s' : pstep s s' -> sys_ok s -> sys_ok s'.
Proof.
  intros [s0 me r s1 Hr Hn E|s0 me st c s1 Hr E|s0 me addr c r s1 Hr E|s0 me ch c s1 Hr E|s0 me s1 Hr E|s0 c s1 E|s0 pid r s1 E|s0 me c s1 Hr E|s0 i r s1 E|s0 me n r s1 Hr E] Hs.
  - by eapply fork_inv.
  - by eapply exit_inv.
  - by eapply wait_inv.
  - apply sleep_view in E. eapply quiet_step; [exact E| |done]. apply quiet_alter. intros p Hp. apply quiet_sleep.
    destruct Hr as (p' & Hp' & Hrun). assert (p = p') as -> by congruence. unfold alive. by rewrite Hrun.
  - apply pupd_view in E. eapply quiet_step; [exact E| |done]. apply quiet_alter. intros p Hp. by split; try done; left.
  - apply upd_procs_view in E. eapply quiet_step; [exact E| |done]. apply quiet_fmap. intros p. apply quiet_wake. intros [H _]%andb_true_iff. by apply bool_decide_eq_true in H.
  - unfold kill in E. do 2 run_inv1. destruct (find_proc _ _ _) as [i|]; [|by run_inv]. run_inv. eapply quiet_step; [eassumption| |done].
    apply quiet_alter. intros p Hp. apply kill_quiet.
  - unfold yield in E. run_inv. eapply quiet_step; [eassumption| |done]. apply quiet_alter. intros p Hp.
    destruct Hr as (p' & Hp' & Hrun). assert (p = p') as -> by congruence. apply quiet_set; try done. unfold alive. by rewrite Hrun.
  - unfold scheduler_try in E. run_inv; [|done]. eapply (quiet_step s0 _ (alter (set_state RUNNING) i)); [by views|apply quiet_alter|done].
    intros p Hp. apply quiet_set; try done. rewrite bool_decide_eq_true in Eb. change (v_procs (kview s0)) with (k_procs s0) in Eb.
    rewrite (list_lookup_total_correct _ _ _ Hp) in Eb. unfold alive. by rewrite Eb.
  - apply grow_view in E as (g & Hg & E). eapply quiet_step; [exact E| |done]. apply quiet_alter. intros. apply Hg.
Qed.

Lemma preach_inv s s' : rtc pstep s s' -> sys_ok s -> sys_ok s'.
Proof. induction 1; eauto using pstep_inv. Qed.

End table.

(** ** The first process, and process number 0 *)

Section boot.
Context {B : Type} {ops : BlockOps B} (trapret forkret : Z).

Implicit Types s : kern B.

(** The table before the first process. *)
Definition fresh (s : kern B) : Prop :=
  k_nextpid s = 1 /\ length (k_procs s) = NPROC /\
  Forall (fun p => p_state p = UNUSED /\ p_pid p = 0 /\ p_parent p = None /\ length (p_ofile p) = NOFILE /\ no_files p) (k_procs s).

Lemma set_init_view o s a s' :
  modify (fun s => mkkern (k_procs s) (k_nextpid s) o (k_ticks s) (k_ttbr s) (k_io s)) s = Ok (a, s') ->
  kview s' = mkview (v_procs (kview s)) (v_next (kview s)) o (v_files (kview s)).
Proof. unfold modify. by intros [= _ <-]. Qed.

Lemma userinit_view initcode_addr s s' : userinit trapret forkret initcode_addr s = Ok (tt, s') ->
  exists i p q, v_procs (kview s) !! i = Some p /\ v_procs (kview s') = <[i := q]> (v_procs (kview s)) /\ v_next (kview s') = s32 (v_next (kview s) + 1) /\
    v_init (kview s') = Some i /\ p_state q = RUNNABLE /\ p_pid q = v_next (kview s) /\ p_parent q = p_parent p /\ p_ofile q = p_ofile p /\ v_files (kview s') = v_files (kview s).
Proof.
  unfold userinit. intros H. apply bind_ok_inv in H as (o & s1 & E1 & H). apply allocproc_view in E1.
  apply bind_ok_inv in H as (x & s2 & E2 & H). apply set_init_view in E2. apply bind_ok_inv in H as (i & s3 & E3 & H). apply deref_view in E3 as [-> ->].
  destruct E1 as (p & Hp & _ & _ & sp & cx & pt & E1). run_inv. exists i, p. eexists. split; [done|]. views.
  split; [rewrite !(alter_on_insert _ _ _ _ _ Hp); reflexivity|]. by split.
Qed.

Lemma userinit_ok initcode_addr s s' : fresh s -> userinit trapret forkret initcode_addr s = Ok (tt, s') -> sys_ok s'.
Proof.
  intros (Hn & Hl & Hf) (i & p & q & Hp & Ep & En & Ei & Q1 & Q2 & Q3 & Q4 & _)%userinit_view. cbn [kview v_procs v_next v_init] in *.
  rewrite Hn in *. change (s32 (1 + 1)) with 2 in En. exists i. rewrite En. split; [done|]. split; [lia|]. rewrite Ep.
  assert (Hall : forall j x, k_procs s !! j = Some x -> p_state x = UNUSED /\ p_pid x = 0 /\ p_parent x = None /\ length (p_ofile x) = NOFILE /\ no_files x)
    by (intros j x Hx; by eapply Forall_lookup_1 in Hf; [|exact Hx]).
  destruct (Hall i p Hp) as (P1 & P2 & P3 & P4 & P5).
  assert (Hlk : forall j x, <[i := q]> (k_procs s) !! j = Some x -> j = i /\ x = q \/ j <> i /\ k_procs s !! j = Some x).
  { intros j x. destruct (decide (j = i)) as [->|]; [rewrite list_lookup_insert_eq by (by eapply lookup_lt_Some); intros [= <-]; by left|].
    rewrite list_lookup_insert_ne by done. by right. }
  assert (Hi : <[i := q]> (k_procs s) !! i = Some q) by (apply list_lookup_insert_eq; by eapply lookup_lt_Some).
  split.
  - by rewrite length_insert.
  - intros j x [[-> ->]|[Hj Hx]]%Hlk.
    + split; rewrite ?Q1, ?Q2, ?Q3, ?Q4, ?P3; try done. intros Hna. destruct Hna. unfold alive. by rewrite Q1.
    + destruct (Hall j x Hx) as (X1 & X2 & X3 & X4 & X5). split; rewrite ?X1, ?X3; done.
  - intros j k x y [[-> ->]|[Hj Hx]]%Hlk [[-> ->]|[Hk Hy]]%Hlk; try done.
    + destruct (Hall k y Hy) as (Y1 & Y2 & _). rewrite Q2, Y2. done.
    + destruct (Hall j x Hx) as (X1 & _). done.
    + destruct (Hall j x Hx) as (X1 & _). done.
  - exists q. split; [done|]. unfold alive. by rewrite Q1.
Qed.

Lemma find_proc_least f l j : forall i, l !! j = Some i -> f i = true -> exists k, find_proc f l 0 = Some k.
Proof.
  intros p Hj Hf. destruct (find_proc f l 0) as [k|] eqn:E; [by exists k|]. apply find_proc_none in E.
  eapply Forall_lookup_1 in E; [|exact Hj]. congruence.
Qed.

(** C39: [kill(0)] finds an unused slot, whose number is 0, reports success and
    marks it killed; [allocproc] does not reset the mark, so the next child that is
    made starts its life killed. *)
Theorem kill_zero_marks_next_child s : sys_ok s -> (exists i p, k_procs s !! i = Some p /\ p_state p = UNUSED) ->
  exists s1, kill 0 s = Ok (0, s1) /\ forall me r s2, fork trapret forkret me s1 = Ok (r, s2) ->
    r = -1 \/ exists i q, k_procs s2 !! i = Some q /\ p_pid q = r /\ p_state q = RUNNABLE /\ p_killed q = true.
Proof.
  intros (init & Hi & Hn & Ht) (i0 & p0 & Hp0 & Hu0). destruct (pk_unused _ _ _ _ _ (ti_ok _ _ _ Ht i0 p0 Hp0) Hu0) as [E0 _].
  destruct (find_proc_least (fun p => p_pid p =? 0) (k_procs s) i0 p0 Hp0) as [k Hk]; [by rewrite E0|].
  set (g := fun p => let p := set_killed true p in if bool_decide (p_state p = SLEEPING) then set_state RUNNABLE p else p).
  set (s1 := mkkern (alter g k (k_procs s)) (k_nextpid s) (k_init s) (k_ticks s) (k_ttbr s) (k_io s)).
  exists s1. split; [unfold kill, bind, gets; by rewrite Hk|]. intros me r s2 Hf%fork_view.
  pose proof (find_proc_first _ _ _ _ Hk) as Hmin. apply find_proc_spec in Hk as (p & _ & Hp & E). rewrite Nat.sub_0_r in Hp, Hmin. apply Z.eqb_eq in E.
  assert (Hu : p_state p = UNUSED) by (destruct (decide (p_state p = UNUSED)) as [|Hu]; [done|]; pose proof (pk_pid _ _ _ _ _ (ti_ok _ _ _ Ht k p Hp) Hu); lia).
  destruct Hf as [-> _|i q q' -> _ _ _ _ _ _ _|i q q' -> Hq Hqu Hfirst Ev U1 U2 _ U4 _]; [by left|by left|right].
  cbn [kview v_procs v_next v_init v_files s1 k_procs k_nextpid k_init k_io] in *. assert (i = k) as ->.
  { assert (Hg : forall x, p_state x = UNUSED -> g x = set_killed true x) by (intros x Hx; unfold g; cbn; by rewrite Hx).
    destruct (Nat.lt_trichotomy i k) as [Hlt|[->|Hlt]]; [|done|].
    - rewrite list_lookup_alter_ne in Hq by lia. specialize (Hmin i q Hlt Hq). destruct (pk_unused _ _ _ _ _ (ti_ok _ _ _ Ht i q Hq) Hqu) as [Hq0 _].
      by rewrite Hq0 in Hmin.
    - exfalso. apply (Hfirst k (g p) Hlt); [by rewrite list_lookup_alter_eq, Hp|by rewrite Hg]. }
  rewrite list_lookup_alter_eq, Hp in Hq. injection Hq as <-.
  exists k, q'. injection Ev as Ep _ _ _. rewrite Ep. split; [apply list_lookup_insert_eq; rewrite length_alter; by eapply lookup_lt_Some|].
  split; [done|]. split; [done|]. rewrite U4. unfold g. cbn zeta. by destruct (bool_decide _).
Qed.
End boot.

(** ** Reachable tables, and the end of a process *)

Section lifetime.
Context {B : Type} {ops : BlockOps B} (trapret forkret : Z) (xstate_addr : nat -> Z).

Implicit Types s : kern B.

(** From the first process on, under every sequence of forks, exits, waits,
    sleeps, wakeups, kills, yields, size changes and scheduling decisions, the process
    table is in order: live processes have distinct positive numbers below the next
    one, unused slots have none; every process but the first has a parent, and a parent
    is neither unused nor a zombie; only live processes have open files; and the first
    process never ends. *)
Theorem process_table_invariant initcode_addr s0 s1 s : fresh s0 -> userinit trapret forkret initcode_addr s0 = Ok (tt, s1) -> rtc (pstep trapret forkret xstate_addr) s1 s ->
  exists init, k_init s = Some init /\ 0 < k_nextpid s /\ table_inv (k_procs s) (k_nextpid s) init.
Proof. intros Hf H1 Hr. eapply preach_inv; [exact Hr|]. by eapply userinit_ok. Qed.


End lifetime.
