(* ===== verification/ProcExample.v ===== *)
(** A small kernel in which the first process forks a child that exits and is waited
    for: the witnesses of the theorems on processes.  The disk is never read. *)

From S2P Require Import Prelude Spinlock Mem Mmu Kalloc Vm VmExample Sleeplock Bio Blk Fs FsIo Pipe File Proc ProcInv ProcThm.

Definition no_disk : BlockOps unit := {|
  b_read _ _ := ret 0%nat; b_data _ _ := []; b_store _ _ := ret tt; b_log _ := ret tt; b_release _ := ret tt;
  b_init _ _ _ := ret tt; b_begin := ret tt; b_end := ret tt; b_pid _ := 1
|}.

#[local] Existing Instance no_disk.

(** Free pages from frame [k]. *)
Fixpoint link_pages (n : nat) (k : Z) (m : mem) : mem :=
  match n with
  | O => st64 m (kp k) 0
  | S n' => link_pages n' (k + 1) (st64 m (kp k) (kp (k + 1)))
  end.

Definition ex_procs : list proc := (fun i => set_kstack (kp (0x200 + Z.of_nat i)) proc0) <$> seq 0 NPROC.
Definition ex_io : kfs unit kst :=
  mkkfs (mkfs tt (replicate NINODE inode0) (mksb 0 0 0 0 0 0 0 0)) (replicate NFILE file0) ∅ (mkkst (link_pages 12 0x20 ∅) (kp 0x20)).
Definition ex_boot : kern unit := mkkern ex_procs 1 None 0 0 ex_io.

Definition trapret0 : Z := kp 0x300.
Definition forkret0 : Z := kp 0x301.
Definition code0 : Z := kp 0x302.
Definition xaddr0 (i : nat) : Z := kp 0x303 + Z.of_nat i.

(** A CPU with no lock held. *)
Definition cpu_user : cpu := mkcpu 0 true true.

Lemma ex_boot_fresh : fresh ex_boot.
Proof.
  split; [done|]. split; [done|]. unfold ex_boot, ex_procs. cbn [k_procs]. apply Forall_fmap, Forall_forall. intros i _. unfold compose.
  repeat (split; [done|]). unfold no_files. by apply (Forall_replicate _ NOFILE).
Qed.

(** A run checked step by step, each state computed once. *)
Definition then_ {A} (m : M (kern unit) A) (k : kern unit -> bool) (s : kern unit) : bool := match m s with Ok (_, s') => k s' | _ => false end.

Lemma then_true {A} (m : M (kern unit) A) k s : then_ m k s = true -> exists a s', m s = Ok (a, s') /\ k s' = true.
Proof. unfold then_. destruct (m s) as [[a s']| | |]; try discriminate. intros H. by exists a, s'. Qed.

(** The state of process [i]. *)
Definition in_state (st : procstate) (i : nat) (s : kern unit) : bool := bool_decide (i < length (k_procs s))%nat && bool_decide (p_state (k_procs s !!! i) = st).

Lemma in_state_true st i s : in_state st i s = true -> exists p, k_procs s !! i = Some p /\ p_state p = st /\ k_procs s !!! i = p.
Proof. intros [H1%bool_decide_eq_true H2%bool_decide_eq_true]%andb_true_iff. exists (k_procs s !!! i). split; [by apply list_lookup_lookup_total_lt|done]. Qed.

Lemma ex_running s i : in_state RUNNING i s = true -> @running unit s i.
Proof. intros (p & H1 & H2 & _)%in_state_true. by exists p. Qed.

(** The first process is made, runs and forks; the child runs and exits with status 7. *)
Lemma ex_check :
  then_ (userinit trapret0 forkret0 code0) (then_ (scheduler_try 0) (fun s =>
    in_state RUNNING 0 s && (k_nextpid s <? 2 ^ 31 - 1) && then_ (fork trapret0 forkret0 0) (then_ (scheduler_try 1) (fun s =>
      in_state RUNNING 1 s && bool_decide (p_parent (k_procs s !!! 1%nat) = Some 0%nat) && in_state UNUSED 2 s && then_ (exit 1 7 cpu_user) (fun _ => true) s)) s)) ex_boot = true.
Proof. vm_compute. reflexivity. Qed.

Lemma px_run : exists s0 s3 s4 p,
  userinit trapret0 forkret0 code0 ex_boot = Ok (tt, s0) /\ rtc (pstep trapret0 forkret0 xaddr0) s0 s3 /\
  k_procs s3 !! 1%nat = Some p /\ p_state p = RUNNING /\ p_parent p = Some 0%nat /\
  (exists q, k_procs s3 !! 2%nat = Some q /\ p_state q = UNUSED) /\ exit 1 7 cpu_user s3 = Ok (tt, s4).
Proof.
  pose proof ex_check as H. apply then_true in H as ([] & s0 & E0 & H). apply then_true in H as (r1 & s1 & E1 & H).
  apply andb_true_iff in H as [[R1%ex_running N1%Z.ltb_lt]%andb_true_iff H]. apply then_true in H as (r2 & s2 & E2 & H). apply then_true in H as (r3 & s3 & E3 & H).
  apply andb_true_iff in H as [[[(p & P1 & P2 & P3)%in_state_true H2%bool_decide_eq_true]%andb_true_iff (q & Q1 & Q2 & _)%in_state_true]%andb_true_iff H].
  apply then_true in H as ([] & s4 & E4 & _). exists s0, s3, s4, p. rewrite P3 in H2. split; [exact E0|]. split; [|split; [exact P1|split; [exact P2|split; [exact H2|split; [exact (ex_intro _ q (conj Q1 Q2))|exact E4]]]]].
  apply (rtc_l _ s0 s1); [exact (ps_sched _ _ _ _ _ _ _ E1)|]. apply (rtc_l _ s1 s2); [exact (ps_fork _ _ _ _ _ _ _ R1 N1 E2)|].
  apply (rtc_l _ s2 s3); [exact (ps_sched _ _ _ _ _ _ _ E3)|apply rtc_refl].
Qed.

Lemma process_table_invariant_witness : exists (s : kern unit) init, k_init s = Some init /\ 0 < k_nextpid s /\ table_inv (k_procs s) (k_nextpid s) init.
Proof.
  destruct px_run as (s0 & s3 & s4 & p & E0 & H & _). exists s3.
  exact (process_table_invariant trapret0 forkret0 xaddr0 code0 ex_boot s0 s3 ex_boot_fresh E0 H).
Defined.

Lemma ex_ok s0 s3 : userinit trapret0 forkret0 code0 ex_boot = Ok (tt, s0) -> rtc (pstep trapret0 forkret0 xaddr0) s0 s3 -> sys_ok s3.
Proof. intros E0 H. exact (preach_inv _ _ _ _ _ H (userinit_ok _ _ _ _ _ ex_boot_fresh E0)). Qed.


Lemma kill_zero_marks_next_child_witness : exists s s1 : kern unit, kill 0 s = Ok (0, s1).
Proof.
  destruct px_run as (s0 & s3 & s4 & p & E0 & H & _ & _ & _ & (q & Q1 & Q2) & _).
  destruct (kill_zero_marks_next_child trapret0 forkret0 s3 (ex_ok _ _ E0 H) (ex_intro _ 2%nat (ex_intro _ q (conj Q1 Q2)))) as (s1 & K & _).
  exists s3, s1. exact K.
Defined.
