(* ===== verification/Sysproc.v ===== *)
(** kernel/syscall.c's access to arguments, and kernel/sysproc.c.  [me] is the calling
    process, [c] the CPU it runs on. *)

From S2P Require Import Prelude Spinlock Mem KString Mmu Kalloc Vm Bio Blk Fs FsIo Pipe File Proc.

(** How a system call ends: it returns, or its process is switched away, for good in
    [exit], to try again when woken in [wait]. *)
Inductive outcome := Ret (v : Z) | Away.

Section Sysproc.
Context {B : Type} {ops : BlockOps B} (trapret forkret : Z) (xstate_addr : nat -> Z).
Notation K := (kern B).

(** [ip] is the kernel address the word is copied to; the word is returned, [None] for -1. *)
Definition fetchaddr (me : nat) (addr ip : Z) : M K (option Z) :=
  p <- pat me ;;
  if (p_sz p <=? addr) || (p_sz p <? u64 (addr + 8)) then ret None else
  r <- vmop (copyin (p_pagetable p) ip addr 8) ;;
  if negb (r =? 0) then ret None else
  v <- vmop (load64 ip) ;; ret (Some v).

(** [copyinstr] puts a NUL within [max] bytes. *)
Definition fetchstr (me : nat) (addr buf max : Z) : M K Z :=
  p <- pat me ;;
  err <- vmop (copyinstr (p_pagetable p) buf addr max) ;;
  if err <? 0 then ret err else
  n <- vmop (gets (fun k => strlen (Z.to_nat max) (kmem k) buf)) ;;
  match n with Some n => ret n | None => nofuel end.

Definition argraw (me : nat) (n : Z) : M K Z :=
  p <- pat me ;;
  if (0 <=? n) && (n <=? 6) then tf_get p n else panic "argraw".

Definition argint (me : nat) (n : Z) : M K Z := v <- argraw me n ;; ret (s32 v).
Definition argaddr (me : nat) (n : Z) : M K Z := argraw me n.

Definition argstr (me : nat) (n buf max : Z) : M K Z :=
  addr <- argaddr me n ;; fetchstr me addr buf max.

(** [uint64] results *)
Definition sys_exit (me : nat) (c : cpu) : M K outcome := n <- argint me 0 ;; exit me n c ;;; ret Away.
Definition sys_fork (me : nat) : M K outcome := r <- fork trapret forkret me ;; ret (Ret (u64 r)).
Definition sys_getpid (me : nat) : M K outcome := p <- pat me ;; ret (Ret (u64 (p_pid p))).

Definition sys_wait (me : nat) (c : cpu) : M K outcome :=
  a <- argaddr me 0 ;;
  r <- wait xstate_addr me a c ;;
  ret (match r with WDone v => Ret (u64 v) | WSleep => Away end).

Definition sys_kill (me : nat) : M K outcome := pid <- argint me 0 ;; r <- kill pid ;; ret (Ret (u64 r)).

(** [addr] is an [int]. *)
Definition sys_sbrk (me : nat) : M K outcome :=
  n <- argint me 0 ;;
  p <- pat me ;;
  let addr := s32 (p_sz p) in
  r <- growproc me n ;;
  ret (Ret (if r <? 0 then u64 (-1) else u64 addr)).

Definition sys_uptime : M K outcome := t <- gets k_ticks ;; ret (Ret t).
Definition sys_sleep : M K outcome := ret (Ret 0).

(** kernel/timer.c's [isr_timer] on the tick counter; only CPU 0 counts.  [ticks_chan]
    is the address of [ticks]. *)
Definition isr_timer (ticks_chan : Z) (cpuid : Z) : M K unit :=
  if cpuid =? 0 then
    modify (fun s => mkkern (k_procs s) (k_nextpid s) (k_init s) (u32 (k_ticks s + 1)) (k_ttbr s) (k_io s)) ;;;
    wakeup (ChanAt ticks_chan)
  else ret tt.

End Sysproc.
