(* ===== verification/Exec.v ===== *)
(** kernel/exec.c: loading a program.  Reads of the file into kernel variables give
    their bytes; [bad] paths are results of the parts of [exec]. *)

From S2P Require Import Prelude Spinlock Mem KString Mmu Kalloc Vm Bio Bytes Blk Fs FsIo Pipe File Proc Sysproc.

Definition ELF_MAGIC : Z := 0x464C457F.
Definition ELF_PROG_LOAD : Z := 1.
Definition MAXARG : nat := 32.

Definition rd64 (d : list Z) (off : nat) : Z := le_val (sub d off 8).

(** struct elfhdr, 64 bytes, and struct proghdr, 56 bytes: the fields that are used. *)
Record elfhdr := mkelfhdr { elf_magic : Z; elf_entry : Z; elf_phoff : Z; elf_phnum : Z }.
Definition ELFHDR : Z := 64.
Definition read_elfhdr (d : list Z) : elfhdr := mkelfhdr (rd32 d 0) (rd64 d 24) (rd64 d 32) (rd16 d 56).

Record proghdr := mkproghdr { ph_type : Z; ph_off : Z; ph_vaddr : Z; ph_filesz : Z; ph_memsz : Z }.
Definition PROGHDR : Z := 56.
Definition read_proghdr (d : list Z) : proghdr := mkproghdr (rd32 d 0) (rd64 d 8) (rd64 d 16) (rd64 d 32) (rd64 d 40).

(** The last element of a path. *)
Fixpoint last_elem (last s : list Z) : list Z :=
  match s with
  | [] => last
  | c :: s' => last_elem (if c =? slash then s' else last) s'
  end.

Section Exec.
Context {B : Type} {ops : BlockOps B}.
Notation K := (kern B).

(** Each step of the loop loads a page; [i] and [sz] are 32-bit. *)
Fixpoint loadseg_loop (fuel : nat) (pagetable va : Z) (ip : nat) (offset sz i : Z) : M K Z :=
  match fuel with
  | O => nofuel
  | S f =>
      if i <? sz then
        pa <- vmop (walkaddr pagetable (u64 (va + i))) ;;
        if pa =? 0 then panic "loadseg: address should exist" else
        let n := if u32 (sz - i) <? PGSIZE then u32 (sz - i) else PGSIZE in
        r <- ioop (fsop (readi to_kernel ip (u32 (offset + i)) n)) ;;
        vmop (on_mem (fun m => st_bytes m (P2V pa) r.2)) ;;;
        if negb (u32 r.1 =? n) then ret (-1)
        else loadseg_loop f pagetable va ip offset sz (u32 (i + PGSIZE))
      else ret 0
  end.

Definition loadseg (pagetable va : Z) (ip : nat) (offset sz : Z) : M K Z :=
  if negb (va mod PGSIZE =? 0) then panic "loadseg: va must be page aligned"
  else loadseg_loop (S (Z.to_nat (sz / PGSIZE + 1))) pagetable va ip offset sz 0.

(** The loop over the [n] program headers that are left, the next one at [off]; the new
    size, or the size to free and failure. *)
Fixpoint exec_segs (n : nat) (pagetable : Z) (ip : nat) (off sz : Z) : M K (bool * Z) :=
  match n with
  | O => ret (true, sz)
  | S n' =>
      r <- ioop (fsop (readi to_kernel ip (u32 off) PROGHDR)) ;;
      if negb (r.1 =? PROGHDR) then ret (false, sz) else
      let ph := read_proghdr r.2 in
      if negb (ph_type ph =? ELF_PROG_LOAD) then exec_segs n' pagetable ip (s32 (off + PROGHDR)) sz else
      if ph_memsz ph <? ph_filesz ph then ret (false, sz) else
      if u64 (ph_vaddr ph + ph_memsz ph) <? ph_vaddr ph then ret (false, sz) else
      sz1 <- vmop (uvmalloc pagetable sz (u64 (ph_vaddr ph + ph_memsz ph))) ;;
      if sz1 =? 0 then ret (false, sz) else
      if negb (ph_vaddr ph mod PGSIZE =? 0) then ret (false, sz1) else
      l <- loadseg pagetable (ph_vaddr ph) ip (u32 (ph_off ph)) (u32 (ph_filesz ph)) ;;
      if l <? 0 then ret (false, sz1)
      else exec_segs n' pagetable ip (s32 (off + PROGHDR)) sz1
  end.

(** The page table and size to go on with or to free, the entry point. *)
Inductive loaded := Bad (pagetable sz : Z) | Good (pagetable sz entry : Z).

(** From the header to the last segment. *)
Definition exec_load (ip : nat) : M K loaded :=
  r <- ioop (fsop (readi to_kernel ip 0 ELFHDR)) ;;
  if negb (r.1 =? ELFHDR) then ret (Bad 0 0) else
  let elf := read_elfhdr r.2 in
  if negb (elf_magic elf =? ELF_MAGIC) then ret (Bad 0 0) else
  pagetable <- proc_pagetable ;;
  if pagetable =? 0 then ret (Bad 0 0) else
  s <- exec_segs (Z.to_nat (elf_phnum elf)) pagetable ip (s32 (elf_phoff elf)) 0 ;;
  ret (if s.1 then Good pagetable s.2 (elf_entry elf) else Bad pagetable s.2).

(** [sp -= n; sp &= ~7;] *)
Definition push (sp n : Z) : Z := Z.land (u64 (sp - n)) (Z.lnot 7).

(** Pushes the strings at [argv]; the stack pointer and [ustack], [None] for failure. *)
Fixpoint exec_args (argv : list Z) (argc : nat) (pagetable sp stackbase : Z) (ustack : list Z) : M K (option (Z * list Z)) :=
  match argv with
  | [] => ret (Some (sp, ustack))
  | a :: argv' =>
      if (MAXARG <=? argc)%nat then ret None else
      o <- vmop (gets (fun k => strlen (Z.to_nat PGSIZE) (kmem k) a)) ;;
      match o with
      | None => nofuel
      | Some len =>
          let sp := push sp (len + 1) in
          if sp <? stackbase then ret None else
          r <- vmop (copyout pagetable sp a (len + 1)) ;;
          if r <? 0 then ret None
          else exec_args argv' (S argc) pagetable sp stackbase (ustack ++ [sp])
      end
  end.

(** [ustack_addr] is the address of the array [ustack]. *)
Context (ustack_addr : Z).

(** From the stack to the pushed [argv]: the size, the stack pointer, [None] for failure
    with the size to free. *)
Definition exec_stack (pagetable sz : Z) (argv : list Z) : M K (Z * option Z) :=
  let sz := PGROUNDUP sz in
  sz1 <- vmop (uvmalloc pagetable sz (u64 (sz + 2 * PGSIZE))) ;;
  if sz1 =? 0 then ret (sz, None) else
  let sz := sz1 in
  vmop (uvmclear pagetable (u64 (sz - 2 * PGSIZE))) ;;;
  let stackbase := u64 (sz - PGSIZE) in
  o <- exec_args argv 0 pagetable sz stackbase [] ;;
  match o with
  | None => ret (sz, None)
  | Some (sp, ustack) =>
      let argc := Z.of_nat (length argv) in
      let sp := push sp ((argc + 1) * 8) in
      if sp <? stackbase then ret (sz, None) else
      vmop (on_mem (fun m => st_bytes m ustack_addr (concat (le_bytes 8 <$> (ustack ++ [0]))))) ;;;
      r <- vmop (copyout pagetable sp ustack_addr ((argc + 1) * 8)) ;;
      if r <? 0 then ret (sz, None) else ret (sz, Some sp)
  end.

(** [argv] holds the non-null pointers. *)
Definition exec (me : nat) (path : list Z) (argv : list Z) : M K Z :=
  p <- pat me ;;
  ioop (fsop (blkop b_begin)) ;;;
  cwd <- deref (p_cwd p) ;;
  o <- ioop (fsop (namei cwd path)) ;;
  match o with
  | None => ioop (fsop (blkop b_end)) ;;; ret (-1)
  | Some ip =>
      ioop (fsop (ilock ip)) ;;;
      l <- exec_load ip ;;
      match l with
      | Bad pagetable sz =>
          (if negb (pagetable =? 0) then proc_freepagetable pagetable sz else ret tt) ;;;
          ioop (fsop (iunlockput ip)) ;;;
          ioop (fsop (blkop b_end)) ;;;
          ret (-1)
      | Good pagetable sz entry =>
          ioop (fsop (iunlockput ip)) ;;;
          ioop (fsop (blkop b_end)) ;;;
          p <- pat me ;;
          let oldsz := p_sz p in
          s <- exec_stack pagetable sz argv ;;
          match s.2 with
          | None => proc_freepagetable pagetable s.1 ;;; ret (-1)
          | Some sp =>
              let argc := Z.of_nat (length argv) in
              tf_set p 0 argc ;;;
              tf_set p 1 sp ;;;
              pupd me (fun p => set_pname (name_cpy (p_name p) (last_elem path path)) p) ;;;
              let oldpagetable := p_pagetable p in
              pupd me (fun p => set_sz s.1 (set_pagetable pagetable p)) ;;;
              tf_set p TF_SP sp ;;;
              tf_set p TF_ELR entry ;;;
              uvmswitch me ;;;
              proc_freepagetable oldpagetable oldsz ;;;
              ret argc
          end
      end
  end.

End Exec.
