(* ===== verification/ExecThm.v ===== *)
(** [exec] replaces the image of its process or leaves the process as it was, and it
    lays the arguments out within the stack page. *)

From S2P Require Import Prelude Spinlock Mem KString Mmu Kalloc Vm Bio Bytes Blk Fs FsIo Pipe File Proc ProcInv Sysproc Exec.

(** ** Computations that leave the process and file tables alone *)

Create HintDb tables.

Section tables.
Context {B : Type} {ops : BlockOps B}.

Definition keeps_tables {A} (m : M (kern B) A) : Prop := forall s a s', m s = Ok (a, s') -> kview s' = kview s.

Lemma kt_bind {A C} (m : M (kern B) A) (k : A -> M (kern B) C) : keeps_tables m -> (forall a, keeps_tables (k a)) -> keeps_tables (bind m k).
Proof. intros Hm Hk s c s' (a & s1 & E1 & E2)%bind_ok_inv. by rewrite (Hk _ _ _ _ E2), (Hm _ _ _ E1). Qed.

Lemma kt_if {A} (b : bool) (m m' : M (kern B) A) : keeps_tables m -> keeps_tables m' -> keeps_tables (if b then m else m').
Proof. by destruct b. Qed.

Lemma kt_ret {A} (a : A) : keeps_tables (ret a).
Proof. intros s x s' E. by injection E as _ <-. Qed.

Lemma kt_gets {A} (f : kern B -> A) : keeps_tables (gets f).
Proof. intros s x s' E. by injection E as _ <-. Qed.

Lemma kt_panic {A} msg : keeps_tables (@panic _ A msg).
Proof. by intros s x s' E. Qed.

Lemma kt_nofuel {A} : keeps_tables (@nofuel _ A).
Proof. by intros s x s' E. Qed.

Lemma kt_vmop {A} (m : M kst A) : keeps_tables (vmop m).
Proof. intros s a s'. apply vmop_view. Qed.

Lemma kt_fs {A} (m : M (fs B) A) : keeps_tables (ioop (fsop m)).
Proof. intros s a s'. apply fs_view. Qed.

Lemma kt_deref {A} (o : option A) : keeps_tables (deref o).
Proof. intros s a s' E. by apply deref_view in E as [-> _]. Qed.

Lemma kt_uvmswitch i : keeps_tables (uvmswitch i).
Proof. intros s a s'. apply uvmswitch_view. Qed.
End tables.

#[export] Hint Unfold pat tf_get tf_set zero_mem proc_pagetable proc_freepagetable : tables.

(** Reduces [keeps_tables] along the computation. *)
Ltac keeps :=
  repeat first
    [ match goal with |- forall _, _ => intro end
    | simple apply kt_bind | simple apply kt_if | simple apply kt_ret | simple apply kt_gets | simple apply kt_panic | simple apply kt_nofuel
    | simple apply kt_vmop | simple apply kt_fs | simple apply kt_deref | simple apply kt_uvmswitch
    | match goal with |- keeps_tables (match ?o with _ => _ end) => destruct o end
    | progress autounfold with tables ].

Section exec.
Context {B : Type} {ops : BlockOps B} (ustack_addr : Z).

Lemma kt_loadseg_loop : forall fuel pt va ip off sz i, keeps_tables (loadseg_loop (B := B) fuel pt va ip off sz i).
Proof. induction fuel as [|fuel IH]; intros; cbn [loadseg_loop]; keeps. apply IH. Qed.

Lemma kt_loadseg pt va ip off sz : keeps_tables (loadseg (B := B) pt va ip off sz).
Proof. unfold loadseg. keeps. apply kt_loadseg_loop. Qed.

Lemma kt_exec_segs : forall n pt ip off sz, keeps_tables (exec_segs (B := B) n pt ip off sz).
Proof.
  induction n as [|n IH]; intros; cbn [exec_segs]; keeps; try apply IH. apply kt_loadseg.
Qed.

Lemma kt_exec_load ip : keeps_tables (exec_load (B := B) ip).
Proof. unfold exec_load. keeps. apply kt_exec_segs. Qed.

Lemma kt_exec_args : forall argv argc pt sp base us, keeps_tables (exec_args (B := B) argv argc pt sp base us).
Proof. induction argv as [|a argv IH]; intros; cbn [exec_args]; keeps. apply IH. Qed.

Lemma kt_exec_stack pt sz argv : keeps_tables (exec_stack (B := B) ustack_addr pt sz argv).
Proof. unfold exec_stack. keeps. apply kt_exec_args. Qed.

(** The image of process [me] after a successful [exec]. *)
Definition new_image (pagetable sz : Z) (path : list Z) (p : proc) : proc :=
  set_sz sz (set_pagetable pagetable (set_pname (name_cpy (p_name p) (last_elem path path)) p)).

Lemma exec_view me path argv (s : kern B) r s' : exec ustack_addr me path argv s = Ok (r, s') ->
  r = -1 /\ kview s' = kview s \/
  r = Z.of_nat (length argv) /\ exists pagetable sz, kview s' = on_procs (alter (new_image pagetable sz path) me) (kview s).
Proof.
  intros E. unfold exec in E. run_inv. match goal with o : option nat |- _ => destruct o as [ip|] end; [|run_inv; left; by views]. run_inv.
  match goal with H : exec_load _ _ = Ok _ |- _ => apply kt_exec_load in H end. match goal with l : loaded |- _ => destruct l as [pt sz|pt sz entry] end.
  - left. unfold proc_freepagetable in *. run_inv; by views.
  - run_inv. match goal with H : exec_stack _ _ _ _ _ = Ok (?x, _) |- _ => apply kt_exec_stack in H; destruct x as [sz' [sp|]] end; cbn [fst snd] in *;
      unfold proc_freepagetable in *; run_inv; [right|left; by views].
    split; [done|]. exists pt, sz'. views. by rewrite alter_twice.
Qed.


(** ** The argument stack *)

(** Slots for strings of the given lengths and their NULs, from [top] down to [base]. *)
Fixpoint slots (base top : Z) (lens us : list Z) : Prop :=
  match lens, us with
  | [], [] => True
  | n :: lens', u :: us' => u mod 8 = 0 /\ base <= u /\ u + n + 1 <= top /\ slots base u lens' us'
  | _, _ => False
  end.

Lemma push_spec sp n : 0 < n <= sp -> sp < 2 ^ 64 -> push sp n mod 8 = 0 /\ 0 <= push sp n <= sp - n.
Proof.
  intros Hn Hs. unfold push. rewrite u64_small by lia. change (Z.lnot 7) with (Z.lnot (Z.ones 3)). rewrite land_lnot_ones by lia. change (2 ^ 3) with 8. lia.
Qed.

Lemma strlen_bound m a fuel : forall n r, 0 <= n -> strlen_loop fuel m a n = Some r -> n <= r < n + Z.of_nat fuel.
Proof.
  induction fuel as [|fuel IH]; intros n r Hn; cbn [strlen_loop]; [done|]. destruct (_ =? 0); [intros [= <-]; lia|]. intros H%IH; lia.
Qed.

Lemma strlen_page m a r : strlen (Z.to_nat PGSIZE) m a = Some r -> 0 <= r < 4096.
Proof. unfold strlen, PGSIZE. intros H%strlen_bound; lia. Qed.

Lemma vmop_gets {A} (f : kst -> A) (s : kern B) a s' : vmop (gets f) s = Ok (a, s') -> a = f (kf_mem (k_io s)).
Proof. unfold vmop, ioop, memop, zoom, gets. by intros [= <- _]. Qed.

Lemma exec_args_slots : forall argv argc pt sp base us (s : kern B) sp' us' s', 4096 <= base <= sp -> sp < 2 ^ 64 -> (argc <= MAXARG)%nat ->
  exec_args argv argc pt sp base us s = Ok (Some (sp', us'), s') ->
  exists lens l, us' = us ++ l /\ length l = length argv /\ slots base sp lens l /\ Forall (fun n => 0 <= n) lens /\ base <= sp' <= sp /\
    Forall (fun u => sp' <= u) l /\ (argc + length argv <= MAXARG)%nat.
Proof.
  induction argv as [|a argv IH]; intros argc pt sp base us s sp' us' s' Hb Hs Hc E; cbn [exec_args] in E.
  - injection E as <- <- <-. exists [], []. rewrite app_nil_r. cbn. repeat (split; [done || lia|]). lia.
  - destruct (Nat.leb_spec MAXARG argc) as [|Hlt]; [done|]. run_inv1. match goal with H : vmop (gets _) _ = Ok _ |- _ => rename H into Eg end.
    destruct x as [len|]; [|done]. assert (Hlen : 0 <= len < 4096).
    { apply vmop_gets in Eg. symmetry in Eg. by apply strlen_page in Eg. }
    clear Eg. cbv zeta in E. destruct (push_spec sp (len + 1)) as [P1 P2]; [lia|lia|]. destruct (Z.ltb_spec (push sp (len + 1)) base) as [|Hge]; [done|].
    run_inv1. destruct (x <? 0); [done|]. apply IH in E as (lens & l & -> & H2 & H3 & H4 & H5 & H7 & H8); [|lia|lia|lia].
    exists (len :: lens), (push sp (len + 1) :: l). rewrite <- app_assoc. split; [done|]. split; [cbn; lia|]. split; [cbn [slots]; repeat (split; [done || lia|]); done|].
    split; [by constructor; [lia|]|]. split; [lia|]. split; [constructor; [lia|done]|cbn [length]; lia].
Qed.

Lemma uvmalloc_loop_result : forall fuel pt a old new (k : kst) r k', uvmalloc_loop fuel pt a old new k = Ok (r, k') -> r = 0 \/ r = new.
Proof.
  induction fuel as [|fuel IH]; intros pt a old new k r k'; cbn [uvmalloc_loop]; [done|]. destruct (a <? new); [|intros [= <- _]; by right].
  intros (m & k1 & _ & E)%bind_ok_inv. destruct (m =? 0); [apply bind_ok_inv in E as (? & ? & _ & E); injection E as <- _; by left|].
  apply bind_ok_inv in E as (? & ? & _ & E). apply bind_ok_inv in E as (rr & ? & _ & E). destruct (negb (rr =? 0)); [|by eapply IH].
  apply bind_ok_inv in E as (? & ? & _ & E). apply bind_ok_inv in E as (? & ? & _ & E). injection E as <- _. by left.
Qed.

Lemma uvmalloc_result pt old new (s : kern B) r s' : old <= new -> vmop (uvmalloc pt old new) s = Ok (r, s') -> r = 0 \/ r = new.
Proof.
  intros Hle. unfold vmop, ioop, memop, zoom, uvmalloc. rewrite (proj2 (Z.ltb_ge _ _)) by done. cbv zeta.
  destruct (uvmalloc_loop _ _ _ _ _ _) as [[x k]| | |] eqn:E; try done. apply uvmalloc_loop_result in E. by intros [= <- _].
Qed.

End exec.
