(* ===== verification/Sysfile.v ===== *)
(** kernel/sysfile.c: the system calls on files.  [me] is the calling process.  A
    transfer between user memory and a file asks the page table which user addresses
    can be reached; bytes read reach user memory when the read is over. *)

From S2P Require Import Prelude Spinlock Mem KString Mmu Kalloc Vm Bio Bytes Blk Fs FsIo Pipe File Proc Sysproc Exec.

Definition O_RDONLY : Z := 0.
Definition O_WRONLY : Z := 1.
Definition O_RDWR : Z := 2.
Definition O_CREATE : Z := 0x200.
Definition O_TRUNC : Z := 0x400.
Definition MAXPATH : Z := 128.

Definition flag (omode f : Z) : bool := negb (Z.land omode f =? 0).

(** [copyin] on lists: the result and the bytes it copies, fewer than [len] if it fails. *)
Fixpoint user_bytes_loop (fuel : nat) (k : kst) (pagetable srcva len : Z) : Z * list Z :=
  match fuel with
  | O => (-1, [])
  | S f =>
      if 0 <? len then
        let va0 := PGROUNDDOWN srcva in
        match walkaddr pagetable va0 k with
        | Ok (pa0, _) =>
            if pa0 =? 0 then (-1, [])
            else
              let n := Z.min (PGSIZE - (srcva - va0)) len in
              let '(r, l) := user_bytes_loop f k pagetable (u64 (va0 + PGSIZE)) (len - n) in
              (r, ld_bytes (kmem k) (P2V (pa0 + (srcva - va0))) (Z.to_nat n) ++ l)
        | _ => (-1, [])
        end
      else (0, [])
  end.

Definition user_bytes (k : kst) (pagetable srcva len : Z) : Z * list Z := user_bytes_loop (copy_fuel len) k pagetable srcva len.

(** struct stat: 2 bytes of padding after [type] and after [nlink]. *)
Definition stat_bytes (st : stat) : list Z :=
  le_bytes 2 (st_type st) ++ [0; 0] ++ le_bytes 4 (st_dev st) ++ le_bytes 4 (st_ino st) ++ le_bytes 2 (st_nlink st) ++ [0; 0] ++ le_bytes 4 (st_size st).

Section Sysfile.
Context {B : Type} {ops : BlockOps B}.
Notation K := (kern B).

(** Kernel addresses of local variables; [buf2] is for a second path. *)
Context (buf buf2 : Z) (ustack_addr : Z).
Context (dev_read dev_write : Z -> option (M (kfs B kst) Z)).

(** [myproc()->cwd] for a path *)
Definition mycwd (me : nat) : M K nat := p <- pat me ;; deref (p_cwd p).

(** The string a path buffer holds. *)
Definition path_at (a : Z) : M K (list Z) := vmop (gets (fun k => cstr_n (kmem k) a (Z.to_nat MAXPATH))).

(** [argstr(n, buf, MAXPATH)] and the string, [None] for -1. *)
Definition argpath (me : nat) (n a : Z) : M K (option (list Z)) :=
  r <- argstr me n a MAXPATH ;;
  if r <? 0 then ret None else p <- path_at a ;; ret (Some p).

Definition fs_begin : M K unit := ioop (fsop (blkop b_begin)).
Definition fs_end : M K unit := ioop (fsop (blkop b_end)).
Definition fsk {A} (m : M (fs B) A) : M K A := ioop (fsop m).

(** [end_op(); return r;] *)
Definition done_op (r : Z) : M K outcome := fs_end ;;; ret (Ret (u64 r)).

Definition argfd (me : nat) (n : Z) : M K (option (nat * nat)) :=
  fd <- argint me n ;;
  p <- pat me ;;
  if (fd <? 0) || (Z.of_nat NOFILE <=? fd) then ret None else
  ret (pair (Z.to_nat fd) <$> (p_ofile p !!! Z.to_nat fd)).

Fixpoint free_fd (l : list (option nat)) (i : nat) : option nat :=
  match l with
  | [] => None
  | None :: _ => Some i
  | Some _ :: l' => free_fd l' (S i)
  end.

Definition fdalloc (me : nat) (f : nat) : M K (option nat) :=
  p <- pat me ;;
  match free_fd (p_ofile p) 0 with
  | Some fd => pupd me (fun p => set_ofile (<[fd := Some f]> (p_ofile p)) p) ;;; ret (Some fd)
  | None => ret None
  end.

Definition sys_dup (me : nat) : M K outcome :=
  o <- argfd me 0 ;;
  match o with
  | None => ret (Ret (u64 (-1)))
  | Some (_, f) =>
      o <- fdalloc me f ;;
      match o with
      | None => ret (Ret (u64 (-1)))
      | Some fd => ioop (filedup f) ;;; ret (Ret (Z.of_nat fd))
      end
  end.

(** The bytes a pipe has handed out so far. *)
Definition pipe_out (f : nat) : M K (list Z) :=
  gets (fun s => let x := kf_files (k_io s) !!! f in
    if decide (f_type x = FD_PIPE) then pout (kf_pipes (k_io s) !!! f_pipe x) else []).

Definition sys_read (me : nat) : M K outcome :=
  o <- argfd me 0 ;;
  match o with
  | None => ret (Ret (u64 (-1)))
  | Some (_, f) =>
      n <- argint me 2 ;;
      p <- argaddr me 1 ;;
      q <- pat me ;;
      k <- gets (fun s => kf_mem (k_io s)) ;;
      let reach i len := (user_bytes k (p_pagetable q) (u64 (p + i)) len).1 =? 0 in
      old <- pipe_out f ;;
      r <- ioop (fileread dev_read f (fun i _ => reach i 1) (fun tot bytes => ret (if reach tot (Z.of_nat (length bytes)) then 0 else -1)) (p_killed q) n) ;;
      new <- pipe_out f ;;
      let got := r.2 ++ take (Z.to_nat r.1) (drop (length old) new) in
      vmop (on_mem (fun m => st_bytes m buf got)) ;;;
      vmop (copyout (p_pagetable q) p buf (Z.of_nat (length got))) ;;;
      ret (Ret (u64 r.1))
  end.

Definition sys_write (me : nat) : M K outcome :=
  o <- argfd me 0 ;;
  match o with
  | None => ret (Ret (u64 (-1)))
  | Some (_, f) =>
      n <- argint me 2 ;;
      p <- argaddr me 1 ;;
      q <- pat me ;;
      k <- gets (fun s => kf_mem (k_io s)) ;;
      let byte i := match user_bytes k (p_pagetable q) (u64 (p + i)) 1 with (0, [c]) => Some c | _ => None end in
      r <- ioop (filewrite dev_write f byte (fun i tot m => ret (user_bytes k (p_pagetable q) (u64 (p + i + tot)) m)) (p_killed q) n) ;;
      ret (Ret (u64 r))
  end.

Definition sys_close (me : nat) : M K outcome :=
  o <- argfd me 0 ;;
  match o with
  | None => ret (Ret (u64 (-1)))
  | Some (fd, f) =>
      pupd me (fun p => set_ofile (<[fd := None]> (p_ofile p)) p) ;;;
      ioop (fileclose f) ;;;
      ret (Ret 0)
  end.

Definition sys_fstat (me : nat) : M K outcome :=
  o <- argfd me 0 ;;
  match o with
  | None => ret (Ret (u64 (-1)))
  | Some (_, f) =>
      st <- argaddr me 1 ;;
      q <- pat me ;;
      r <- ioop (filestat f (fun x => memop (on_mem (fun m => st_bytes m buf (stat_bytes x)) ;;; copyout (p_pagetable q) st buf 20))) ;;
      ret (Ret (u64 r))
  end.

Definition set_nlink (n : Z) (d : dinode) : dinode := mkdinode (d_type d) (d_major d) (d_minor d) n (d_size d) (d_addrs d).
Definition set_dev_nums (major minor : Z) (d : dinode) : dinode := mkdinode (d_type d) major minor (d_nlink d) (d_size d) (d_addrs d).

(** [ip->nlink += k; iupdate(ip);] *)
Definition add_nlink (ip : nat) (k : Z) : M K unit :=
  fsk (upd_d ip (fun d => set_nlink (s16 (d_nlink d + k)) d)) ;;; fsk (iupdate ip).

Definition inode_at (ip : nat) : M K inode := gets (fun s => icache (kf_fs (k_io s)) !!! ip).

(** The label [bad] of [sys_link]. *)
Definition link_bad (ip : nat) : M K outcome :=
  fsk (ilock ip) ;;;
  add_nlink ip (-1) ;;;
  fsk (iunlockput ip) ;;;
  done_op (-1).

Definition name0 : list Z := replicate (Z.to_nat DIRSIZ) 0.

Definition sys_link (me : nat) : M K outcome :=
  o <- argpath me 0 buf ;;
  match o with
  | None => ret (Ret (u64 (-1)))
  | Some old =>
      o <- argpath me 1 buf2 ;;
      match o with
      | None => ret (Ret (u64 (-1)))
      | Some new =>
          fs_begin ;;;
          cwd <- mycwd me ;;
          o <- fsk (namei cwd old) ;;
          match o with
          | None => done_op (-1)
          | Some ip =>
              fsk (ilock ip) ;;;
              x <- inode_at ip ;;
              if d_type (i_d x) =? T_DIR then fsk (iunlockput ip) ;;; done_op (-1) else
              add_nlink ip 1 ;;;
              fsk (iunlock ip) ;;;
              o <- fsk (nameiparent cwd new name0) ;;
              match o with
              | None => link_bad ip
              | Some (dp, name) =>
                  fsk (ilock dp) ;;;
                  x <- inode_at ip ;;
                  y <- inode_at dp ;;
                  r <- (if negb (i_dev y =? i_dev x) then ret (-1) else fsk (dirlink dp name (i_inum x))) ;;
                  if r <? 0 then fsk (iunlockput dp) ;;; link_bad ip
                  else
                    fsk (iunlockput dp) ;;;
                    fsk (iput ip) ;;;
                    done_op 0
              end
          end
      end
  end.

(** [n] entries are left from [off]. *)
Fixpoint isdirempty_loop (n : nat) (dp : nat) (off : Z) : M K bool :=
  match n with
  | O => ret true
  | S n' =>
      r <- fsk (readi to_kernel dp off DIRENT) ;;
      if negb (r.1 =? DIRENT) then panic "isdirempty: readi" else
      if negb (de_inum r.2 =? 0) then ret false else
      isdirempty_loop n' dp (off + DIRENT)
  end.

Definition isdirempty (dp : nat) : M K bool :=
  x <- inode_at dp ;;
  isdirempty_loop (Z.to_nat ((d_size (i_d x) - 2 * DIRENT + DIRENT - 1) / DIRENT)) dp (2 * DIRENT).

Definition unlink_bad (dp : nat) : M K outcome := fsk (iunlockput dp) ;;; done_op (-1).

Definition sys_unlink (me : nat) : M K outcome :=
  o <- argpath me 0 buf ;;
  match o with
  | None => ret (Ret (u64 (-1)))
  | Some path =>
      fs_begin ;;;
      cwd <- mycwd me ;;
      o <- fsk (nameiparent cwd path name0) ;;
      match o with
      | None => done_op (-1)
      | Some (dp, name) =>
          fsk (ilock dp) ;;;
          if (namecmp name [46] =? 0) || (namecmp name [46; 46] =? 0) then unlink_bad dp else
          o <- fsk (dirlookup dp name) ;;
          match o with
          | None => unlink_bad dp
          | Some (ip, off) =>
              fsk (ilock ip) ;;;
              x <- inode_at ip ;;
              if d_nlink (i_d x) <? 1 then panic "unlink: nlink < 1" else
              full <- (if d_type (i_d x) =? T_DIR then e <- isdirempty ip ;; ret (negb e) else ret false) ;;
              if (full : bool) then fsk (iunlockput ip) ;;; unlink_bad dp
              else
                r <- fsk (writei (from_kernel (replicate (Z.to_nat DIRENT) 0)) dp off DIRENT) ;;
                if negb (r =? DIRENT) then panic "unlink: writei" else
                x <- inode_at ip ;;
                (if d_type (i_d x) =? T_DIR then add_nlink dp (-1) else ret tt) ;;;
                fsk (iunlockput dp) ;;;
                add_nlink ip (-1) ;;;
                fsk (iunlockput ip) ;;;
                done_op 0
          end
      end
  end.

(** [type], [major] and [minor] are shorts. *)
Definition create (me : nat) (path : list Z) (type major minor : Z) : M K (option nat) :=
  cwd <- mycwd me ;;
  o <- fsk (nameiparent cwd path name0) ;;
  match o with
  | None => ret None
  | Some (dp, name) =>
      fsk (ilock dp) ;;;
      o <- fsk (dirlookup dp name) ;;
      match o with
      | Some (ip, _) =>
          fsk (iunlockput dp) ;;;
          fsk (ilock ip) ;;;
          x <- inode_at ip ;;
          if (type =? T_FILE) && ((d_type (i_d x) =? T_FILE) || (d_type (i_d x) =? T_DEV)) then ret (Some ip)
          else fsk (iunlockput ip) ;;; ret None
      | None =>
          y <- inode_at dp ;;
          ip <- fsk (ialloc (i_dev y) type) ;;
          fsk (ilock ip) ;;;
          fsk (upd_d ip (fun d => set_nlink 1 (set_dev_nums (s16 major) (s16 minor) d))) ;;;
          fsk (iupdate ip) ;;;
          (if type =? T_DIR then
             add_nlink dp 1 ;;;
             x <- inode_at ip ;;
             y <- inode_at dp ;;
             r <- fsk (dirlink ip [46] (i_inum x)) ;;
             r <- (if r <? 0 then ret r else fsk (dirlink ip [46; 46] (i_inum y))) ;;
             if r <? 0 then panic "create dots" else ret tt
           else ret tt) ;;;
          x <- inode_at ip ;;
          r <- fsk (dirlink dp name (i_inum x)) ;;
          if r <? 0 then panic "create: dirlink" else
          fsk (iunlockput dp) ;;;
          ret (Some ip)
      end
  end.

(** [f->...] for a file opened on inode [x] *)
Definition open_file (omode : Z) (ip : nat) (x : inode) (f : file) : file :=
  let r := negb (flag omode O_WRONLY) in
  let w := flag omode O_WRONLY || flag omode O_RDWR in
  if d_type (i_d x) =? T_DEV then mkfd FD_DEVICE (f_ref f) r w (f_pipe f) ip (f_off f) (d_major (i_d x))
  else mkfd FD_INODE (f_ref f) r w (f_pipe f) ip 0 (f_major f).

(** From the locked inode to the end. *)
Definition open_inode (me : nat) (omode : Z) (ip : nat) : M K outcome :=
  x <- inode_at ip ;;
  if (d_type (i_d x) =? T_DEV) && ((d_major (i_d x) <? 0) || (NDEV <=? d_major (i_d x))) then fsk (iunlockput ip) ;;; done_op (-1) else
  o <- ioop filealloc ;;
  match o with
  | None => fsk (iunlockput ip) ;;; done_op (-1)
  | Some f =>
      o <- fdalloc me f ;;
      match o with
      | None => ioop (fileclose f) ;;; fsk (iunlockput ip) ;;; done_op (-1)
      | Some fd =>
          ioop (fupd f (open_file omode ip x)) ;;;
          (if flag omode O_TRUNC && (d_type (i_d x) =? T_FILE) then fsk (itrunc ip) else ret tt) ;;;
          fsk (iunlock ip) ;;;
          done_op (Z.of_nat fd)
      end
  end.

Definition sys_open (me : nat) : M K outcome :=
  o <- argpath me 0 buf ;;
  match o with
  | None => ret (Ret (u64 (-1)))
  | Some path =>
      omode <- argint me 1 ;;
      fs_begin ;;;
      if flag omode O_CREATE then
        o <- create me path T_FILE 0 0 ;;
        match o with
        | None => done_op (-1)
        | Some ip => open_inode me omode ip
        end
      else
        cwd <- mycwd me ;;
        o <- fsk (namei cwd path) ;;
        match o with
        | None => done_op (-1)
        | Some ip =>
            fsk (ilock ip) ;;;
            x <- inode_at ip ;;
            if (d_type (i_d x) =? T_DIR) && negb (omode =? O_RDONLY) then fsk (iunlockput ip) ;;; done_op (-1)
            else open_inode me omode ip
        end
  end.

(** The end of [sys_mkdir] and [sys_mknod]. *)
Definition created (o : option nat) : M K outcome :=
  match o with
  | None => done_op (-1)
  | Some ip => fsk (iunlockput ip) ;;; done_op 0
  end.

Definition sys_mkdir (me : nat) : M K outcome :=
  fs_begin ;;;
  o <- argpath me 0 buf ;;
  match o with
  | None => done_op (-1)
  | Some path => ip <- create me path T_DIR 0 0 ;; created ip
  end.

Definition sys_mknod (me : nat) : M K outcome :=
  fs_begin ;;;
  o <- argpath me 0 buf ;;
  match o with
  | None => done_op (-1)
  | Some path =>
      major <- argint me 1 ;;
      minor <- argint me 2 ;;
      ip <- create me path T_DEV major minor ;; created ip
  end.

Definition sys_chdir (me : nat) : M K outcome :=
  fs_begin ;;;
  o <- argpath me 0 buf ;;
  match o with
  | None => done_op (-1)
  | Some path =>
      cwd <- mycwd me ;;
      o <- fsk (namei cwd path) ;;
      match o with
      | None => done_op (-1)
      | Some ip =>
          fsk (ilock ip) ;;;
          x <- inode_at ip ;;
          if negb (d_type (i_d x) =? T_DIR) then fsk (iunlockput ip) ;;; done_op (-1) else
          fsk (iunlock ip) ;;;
          fsk (iput cwd) ;;;
          fs_end ;;;
          pupd me (set_cwd (Some ip)) ;;;
          ret (Ret 0)
      end
  end.

Fixpoint free_args (argv : list Z) : M K unit :=
  match argv with
  | [] => ret tt
  | a :: argv' => vmop (kfree a) ;;; free_args argv'
  end.

(** The loop of [sys_exec] from [argv[i]], [n = NELEM(argv) - i]; the pages in [argv] and
    whether it succeeded. *)
Fixpoint fetch_args (n : nat) (me : nat) (uargv i : Z) (argv : list Z) : M K (bool * list Z) :=
  match n with
  | O => ret (false, argv)
  | S n' =>
      o <- fetchaddr me (u64 (uargv + 8 * i)) buf2 ;;
      match o with
      | None => ret (false, argv)
      | Some uarg =>
          if uarg =? 0 then ret (true, argv) else
          pg <- vmop kalloc ;;
          if pg =? 0 then ret (false, argv) else
          r <- fetchstr me uarg pg PGSIZE ;;
          if r <? 0 then ret (false, argv ++ [pg])
          else fetch_args n' me uargv (i + 1) (argv ++ [pg])
      end
  end.

Definition sys_exec (me : nat) : M K outcome :=
  o <- argpath me 0 buf ;;
  match o with
  | None => ret (Ret (u64 (-1)))
  | Some path =>
      uargv <- argaddr me 1 ;;
      a <- fetch_args MAXARG me uargv 0 [] ;;
      if (a.1 : bool) then
        r <- exec ustack_addr me path a.2 ;;
        free_args a.2 ;;;
        ret (Ret (u64 r))
      else free_args a.2 ;;; ret (Ret (u64 (-1)))
  end.

(** [p->ofile[fd] = 0] *)
Definition drop_fd (me fd : nat) : M K unit := pupd me (fun p => set_ofile (<[fd := None]> (p_ofile p)) p).

(** [fd0] and [fd1] are at [buf] and [buf + 4]. *)
Definition sys_pipe (me : nat) : M K outcome :=
  fdarray <- argaddr me 0 ;;
  o <- ioop pipealloc ;;
  match o with
  | None => ret (Ret (u64 (-1)))
  | Some (rf, wf) =>
      o0 <- fdalloc me rf ;;
      match o0 with
      | None => ioop (fileclose rf) ;;; ioop (fileclose wf) ;;; ret (Ret (u64 (-1)))
      | Some fd0 =>
          o1 <- fdalloc me wf ;;
          match o1 with
          | None => drop_fd me fd0 ;;; ioop (fileclose rf) ;;; ioop (fileclose wf) ;;; ret (Ret (u64 (-1)))
          | Some fd1 =>
              p <- pat me ;;
              vmop (on_mem (fun m => st_bytes m buf (le_bytes 4 (Z.of_nat fd0) ++ le_bytes 4 (Z.of_nat fd1)))) ;;;
              r <- vmop (copyout (p_pagetable p) fdarray buf 4) ;;
              r <- (if r <? 0 then ret r else vmop (copyout (p_pagetable p) (u64 (fdarray + 4)) (buf + 4) 4)) ;;
              if r <? 0 then
                drop_fd me fd0 ;;;
                drop_fd me fd1 ;;;
                ioop (fileclose rf) ;;;
                ioop (fileclose wf) ;;;
                ret (Ret (u64 (-1)))
              else ret (Ret 0)
          end
      end
  end.
End Sysfile.
