(* ===== verification/Syscall.v ===== *)
(** kernel/syscall.c's table and dispatcher, and the handlers of kernel/trap.c. *)

From S2P Require Import Prelude Spinlock Mem KString Mmu Kalloc Vm Bio Bytes Blk Fs FsIo Pipe File Proc Sysproc Exec Sysfile.

(** [NELEM(syscalls)]: the entries 0, which is null, to [SYS_close]. *)
Definition NSYSCALLS : Z := 22.

Section Syscall.
Context {B : Type} {ops : BlockOps B} (trapret forkret : Z) (xstate_addr : nat -> Z) (buf buf2 ustack_addr : Z).
Context (dev_read dev_write : Z -> option (M (kfs B kst) Z)).
Notation K := (kern B).

(** The word that follows the table in memory, as a routine. *)
Context (past_end : option (nat -> cpu -> M K outcome)).

(** [syscalls[num]] for [0 <= num <= NELEM(syscalls)] *)
Definition syscalls (num : Z) : option (nat -> cpu -> M K outcome) :=
  match num with
  | 1 => Some (fun me _ => sys_fork trapret forkret me)
  | 2 => Some (fun me c => sys_exit me c)
  | 3 => Some (fun me c => sys_wait xstate_addr me c)
  | 4 => Some (fun me _ => sys_pipe buf me)
  | 5 => Some (fun me _ => sys_read buf dev_read me)
  | 6 => Some (fun me _ => sys_kill me)
  | 7 => Some (fun me _ => sys_exec buf buf2 ustack_addr me)
  | 8 => Some (fun me _ => sys_fstat buf me)
  | 9 => Some (fun me _ => sys_chdir buf me)
  | 10 => Some (fun me _ => sys_dup me)
  | 11 => Some (fun me _ => sys_getpid me)
  | 12 => Some (fun me _ => sys_sbrk me)
  | 13 => Some (fun _ _ => sys_sleep)
  | 14 => Some (fun _ _ => sys_uptime)
  | 15 => Some (fun me _ => sys_open buf me)
  | 16 => Some (fun me _ => sys_write dev_write me)
  | 17 => Some (fun me _ => sys_mknod buf me)
  | 18 => Some (fun me _ => sys_unlink buf me)
  | 19 => Some (fun me _ => sys_link buf buf2 me)
  | 20 => Some (fun me _ => sys_mkdir buf me)
  | 21 => Some (fun me _ => sys_close me)
  | 22 => past_end
  | _ => None
  end.

(** The number is in x7; [num] and [ret] are [int]. *)
Definition syscall (me : nat) (c : cpu) : M K bool :=
  p <- pat me ;;
  x7 <- tf_get p 7 ;;
  let num := s32 x7 in
  match (if (0 <? num) && (num <=? NSYSCALLS) then syscalls num else None) with
  | Some f =>
      r <- f me c ;;
      match r with
      | Ret v => p <- pat me ;; tf_set p 0 (s32 v) ;;; ret true
      | Away => ret false
      end
  | None => tf_set p 0 (-1) ;;; ret true
  end.

(** [true] when the handler returns to the process.  [tf] is the address of the saved
    registers. *)
Definition swi_handler (me : nat) (tf : Z) (c : cpu) : M K bool :=
  pupd me (set_trapframe tf) ;;;
  p <- pat me ;;
  if p_killed p then exit me (-1) c ;;; ret false
  else syscall me c.

Definition bad_handler (me : nat) : M K unit := pupd me (set_killed true).

Definition dabort_handler (me : nat) (c : cpu) : M K unit := pupd me (set_killed true) ;;; exit me (-1) c.
Definition iabort_handler (me : nat) (c : cpu) : M K unit := pupd me (set_killed true) ;;; exit me (-1) c.

Definition PIC_TIMER : Z := 30.

(** [me] is [None] when the CPU runs the scheduler; [gic_handler] runs the interrupt's
    routine and returns its number. *)
Definition irq_handler (gic_handler : M K Z) (me : option nat) (tf : Z) (c : cpu) : M K bool :=
  (match me with Some i => pupd i (set_trapframe tf) | None => ret tt end) ;;;
  whichdev <- gic_handler ;;
  match me with
  | None => ret true
  | Some i =>
      p <- pat i ;;
      if p_killed p then exit i (-1) c ;;; ret false else
      if (whichdev =? PIC_TIMER) && bool_decide (p_state p = RUNNING) then yield i c ;;; ret false
      else ret true
  end.
End Syscall.
