(* ===== verification/FdRefs.v ===== *)
(** Reference counts of open files: every count is the number of descriptors, over all
    processes, that refer to the file. *)

From S2P Require Import Prelude Spinlock Mem Mmu Kalloc Vm Bio Blk Fs FsIo Pipe File Proc ProcInv.
From S2P Require Import KString Bytes ProcThm Sysproc Exec ExecThm Sysfile.

(** Descriptors of a table that refer to file [f]. *)
Definition one (f : nat) (o : option nat) : nat := if decide (o = Some f) then 1 else 0.
Definition occ (f : nat) (l : list (option nat)) : nat := sum_list_with (one f) l.
Definition fdcount (f : nat) (l : list proc) : nat := sum_list_with (fun p => occ f (p_ofile p)) l.

(** The reference count of file [f]; there are none past the table. *)
Definition fref (t : list file) (f : nat) : Z := default 0 (f_ref <$> t !! f).

Definition fds_ok (v : view) : Prop := forall f, fref (v_files v) f = Z.of_nat (fdcount f (v_procs v)).

(** ** Counting *)

Lemma sum_with_insert {A} (g : A -> nat) l i x y : l !! i = Some y -> (sum_list_with g (<[i := x]> l) + g y = sum_list_with g l + g x)%nat.
Proof.
  revert i. induction l as [|z l IH]; intros [|i] H; [done|done|injection H as ->; cbn; lia|]. specialize (IH i H). change (<[S i := x]> (z :: l)) with (z :: <[i := x]> l). cbn [sum_list_with]. lia.
Qed.

Lemma occ_insert f l i x y : l !! i = Some y -> (occ f (<[i := x]> l) + one f y = occ f l + one f x)%nat.
Proof. apply sum_with_insert. Qed.

Lemma fdcount_insert f l i p q : l !! i = Some p -> (fdcount f (<[i := q]> l) + occ f (p_ofile p) = fdcount f l + occ f (p_ofile q))%nat.
Proof. apply (sum_with_insert (fun p => occ f (p_ofile p))). Qed.

Lemma sum_ge {A} (g : A -> nat) l i y : l !! i = Some y -> (g y <= sum_list_with g l)%nat.
Proof. revert i. induction l as [|z l IH]; intros [|i] H; [done|done|injection H as ->; cbn; lia|]. specialize (IH i H). cbn [sum_list_with]. lia. Qed.

Lemma occ_none f l : Forall (fun o => o = None) l -> occ f l = 0%nat.
Proof. unfold occ. induction 1 as [|o l -> _ IH]; [done|]. cbn. rewrite IH. done. Qed.

Lemma fdcount_ge f l i p : l !! i = Some p -> (occ f (p_ofile p) <= fdcount f l)%nat.
Proof. apply (sum_ge (fun p => occ f (p_ofile p))). Qed.

Lemma occ_ge f l i : l !! i = Some (Some f) -> (1 <= occ f l)%nat.
Proof. intros H%(sum_ge (one f)). unfold one in H at 1. by rewrite decide_True in H. Qed.

Lemma fdcount_same f l l' : Forall2 (fun p q => p_ofile q = p_ofile p) l l' -> fdcount f l' = fdcount f l.
Proof. unfold fdcount. induction 1 as [|p q l l' E _ IH]; [done|]. cbn. by rewrite IH, E. Qed.

(** ** Reference counts *)

Lemma fref_total t f : fref t f = f_ref (t !!! f).
Proof. unfold fref. rewrite list_lookup_total_alt. by destruct (t !! f). Qed.

Lemma fref_alter g f t f' :
  fref (alter g f t) f' = if decide (f' = f) then (if decide (f < length t)%nat then f_ref (g (t !!! f)) else 0) else fref t f'.
Proof.
  unfold fref. case_decide as E; [subst|by rewrite list_lookup_alter_ne]. rewrite list_lookup_alter_eq. case_decide as El.
  - destruct (lookup_lt_is_Some_2 t f El) as [x Hx]. rewrite Hx. cbn. by rewrite (list_lookup_total_correct _ _ _ Hx).
  - rewrite lookup_ge_None_2 by lia. done.
Qed.

Lemma fref_lt t f : fref t f <> 0 -> (f < length t)%nat.
Proof. unfold fref. destruct (t !! f) eqn:E; [intros _; by eapply lookup_lt_Some|done]. Qed.

Lemma fref_dup t f f' : 1 <= fref t f -> fref (alter dup_file f t) f' = fref t f' + Z.of_nat (one f' (Some f)).
Proof.
  intros H. assert (Hl := fref_lt t f). rewrite fref_alter. unfold one. destruct (decide (f' = f)) as [->|Hne].
  - rewrite !decide_True by (done || apply Hl; lia). rewrite fref_total. cbn. lia.
  - rewrite decide_False by congruence. lia.
Qed.

Lemma fref_close t f f' : 1 <= fref t f -> fref (alter close_file f t) f' = fref t f' - Z.of_nat (one f' (Some f)).
Proof.
  intros H. assert (Hl := fref_lt t f). rewrite fref_alter. unfold one. destruct (decide (f' = f)) as [->|Hne].
  - rewrite !decide_True by (done || apply Hl; lia). rewrite fref_total in *. unfold close_file. destruct (Z.ltb_spec 0 (f_ref (t !!! f) - 1)); cbn; lia.
  - rewrite decide_False by congruence. lia.
Qed.

Lemma one_none f : one f None = 0%nat.
Proof. done. Qed.

Lemma occ_cons f o l : occ f (o :: l) = (one f o + occ f l)%nat.
Proof. done. Qed.

Lemma dup_files_fref : forall l t f, (forall g, (1 <= occ g l)%nat -> 1 <= fref t g) -> fref (dup_files l t) f = fref t f + Z.of_nat (occ f l).
Proof.
  induction l as [|[g|] l IH]; intros t f H; [cbn; lia| |].
  - change (dup_files (Some g :: l) t) with (dup_files l (alter dup_file g t)).
    assert (Hg : 1 <= fref t g) by (apply H; rewrite occ_cons; unfold one; rewrite decide_True by done; lia).
    rewrite IH, fref_dup, occ_cons by done || (intros h Hh; rewrite fref_dup by done; specialize (H h); rewrite occ_cons in H; lia). lia.
  - rewrite occ_cons, one_none. change (dup_files (None :: l) t) with (dup_files l t). apply IH. intros g Hg. apply H. rewrite occ_cons. lia.
Qed.

Lemma close_files_fref : forall l t f, (forall g, Z.of_nat (occ g l) <= fref t g) -> fref (close_files l t) f = fref t f - Z.of_nat (occ f l).
Proof.
  induction l as [|[g|] l IH]; intros t f H; [cbn; lia| |].
  - change (close_files (Some g :: l) t) with (close_files l (alter close_file g t)).
    assert (Hg : 1 <= fref t g) by (specialize (H g); rewrite occ_cons in H; unfold one in H; rewrite decide_True in H by done; lia).
    rewrite IH, fref_close, occ_cons by done || (intros h; rewrite fref_close by done; specialize (H h); rewrite occ_cons in H; lia). lia.
  - rewrite occ_cons, one_none. change (close_files (None :: l) t) with (close_files l t). apply IH. intros g. specialize (H g). rewrite occ_cons in H. lia.
Qed.

(** * System calls that leave descriptors and reference counts alone. *)

(** Processes keep their identity, descriptors and liveness; files their counts. *)
Record calm (v v' : view) : Prop := mkcalm {
  ca_procs : Forall2 quiet (v_procs v) (v_procs v');
  ca_next : v_next v' = v_next v; ca_init : v_init v' = v_init v;
  ca_refs : forall f, fref (v_files v') f = fref (v_files v) f
}.

Lemma quiet_trans p q r : quiet p q -> quiet q r -> quiet p r.
Proof.
  intros [A1 A2 A3 A4] [B1 B2 B3 B4]. split; try congruence. destruct A4 as [A4|[? ?]], B4 as [B4|[? ?]]; [left; congruence| | |by right].
  - right. split; [|done]. unfold alive in *. by rewrite <- A4.
  - right. split; [done|]. unfold alive in *. by rewrite B4.
Qed.

Lemma quiet_list_trans l1 l2 l3 : Forall2 quiet l1 l2 -> Forall2 quiet l2 l3 -> Forall2 quiet l1 l3.
Proof. intros H. revert l3. induction H as [|p q l l' Hp _ IH]; intros l3 H3; inversion H3; subst; constructor; eauto using quiet_trans. Qed.

#[export] Instance calm_preorder : PreOrder calm.
Proof.
  split.
  - intros v. split; try done. apply quiet_list_refl.
  - intros u v w [A1 A2 A3 A4] [B1 B2 B3 B4]. split; try congruence.
    by eapply quiet_list_trans.
Qed.

Lemma calm_procs g v : (forall l, Forall2 quiet l (g l)) -> calm v (on_procs g v).
Proof. intros Hg. by split. Qed.

Section calm.
Context {B : Type} {ops : BlockOps B}.
Notation K := (kern B).

(** The process table and the counts are in order. *)
Definition kinv (s : K) : Prop := sys_ok s /\ fds_ok (kview s).

Lemma calm_inv s s' : calm (kview s) (kview s') -> kinv s -> kinv s'.
Proof.
  intros [A1 A2 A3 A4] [(init & Hi & Hn & Ht) Hf]. cbn [kview v_procs v_next v_init v_files] in *. split.
  - exists init. rewrite A2, A3. split; [done|]. split; [done|]. by eapply quiet_inv.
  - intros f. rewrite A4, Hf. f_equal. symmetry. apply fdcount_same. eapply Forall2_impl; [exact A1|]. intros p q. apply qt_ofile.
Qed.

Definition kcalm {A} (m : M K A) : Prop := forall s a s', m s = Ok (a, s') -> calm (kview s) (kview s').

Lemma kc_bind {A C} (m : M K A) (k : A -> M K C) : kcalm m -> (forall a, kcalm (k a)) -> kcalm (bind m k).
Proof. intros Hm Hk s c s' (a & s1 & E1 & E2)%bind_ok_inv. etransitivity; [by eapply Hm|by eapply Hk]. Qed.

Lemma kc_if {A} (b : bool) (m m' : M K A) : kcalm m -> kcalm m' -> kcalm (if b then m else m').
Proof. by destruct b. Qed.

Lemma kc_tables {A} (m : M K A) : keeps_tables m -> kcalm m.
Proof. intros Hm s a s' E. by rewrite (Hm _ _ _ E). Qed.

Lemma kc_pupd i g : (forall p, quiet p (g p)) -> kcalm (pupd i g).
Proof. intros Hg s a s' E. apply pupd_view in E as ->. apply calm_procs. intros l. apply quiet_alter. intros. apply Hg. Qed.

(** ** Routines on files *)

Definition same_refs {A} (m : M (kfs B kst) A) : Prop := forall io a io', m io = Ok (a, io') -> forall f, fref (kf_files io') f = fref (kf_files io) f.

Lemma kc_ioop {A} (m : M (kfs B kst) A) : same_refs m -> kcalm (ioop m).
Proof.
  intros Hm s a s'. unfold ioop, zoom. destruct (m (k_io s)) as [[x io]| | |] eqn:E; try done. intros [= _ <-].
  split; try done; [apply quiet_list_refl|]. intros f. by apply (Hm _ _ _ E).
Qed.

Lemma sr_files {A} (m : M (kfs B kst) A) : same_files m -> same_refs m.
Proof. intros Hm io a io' E f. by rewrite (Hm _ _ _ E). Qed.

Lemma sr_bind {A C} (m : M (kfs B kst) A) (k : A -> M (kfs B kst) C) : same_refs m -> (forall a, same_refs (k a)) -> same_refs (bind m k).
Proof. intros Hm Hk io c io' (a & io1 & E1 & E2)%bind_ok_inv f. by rewrite (Hk _ _ _ _ E2), (Hm _ _ _ E1). Qed.

Lemma sr_if {A} (b : bool) (m m' : M (kfs B kst) A) : same_refs m -> same_refs m' -> same_refs (if b then m else m').
Proof. by destruct b. Qed.

Lemma sr_ret {A} (x : A) : same_refs (ret x).
Proof. intros io a io' E f. by injection E as _ <-. Qed.

Lemma sr_panic {A} msg : same_refs (@panic _ A msg).
Proof. by intros io a io' E. Qed.

Lemma sr_nofuel {A} : same_refs (@nofuel _ A).
Proof. by intros io a io' E. Qed.

Lemma sr_block {A} : same_refs (@Prelude.block _ A).
Proof. by intros io a io' E. Qed.

Lemma sr_fat f : same_refs (fat f).
Proof. intros io a io' E g. by injection E as _ <-. Qed.

Lemma sr_fsop {A} (m : M (fs B) A) : same_refs (fsop m).
Proof. apply sr_files, same_fsop. Qed.

Lemma sr_memop {A} (m : M kst A) : same_refs (memop m).
Proof. apply sr_files, same_memop. Qed.

Lemma sr_on_pipe {A} x (m : M pst A) : same_refs (on_pipe x m).
Proof. apply sr_files, same_on_pipe. Qed.

Lemma sr_fupd f g : (forall x, f_ref (g x) = f_ref x) -> same_refs (fupd f g).
Proof.
  intros Hg io a io' E h. injection E as _ <-. cbn [set_files kf_files]. rewrite fref_alter. destruct (decide (h = f)) as [->|]; [|done].
  case_decide as Hl; [by rewrite Hg, fref_total|]. unfold fref. by rewrite lookup_ge_None_2 by lia.
Qed.
End calm.

Ltac refs :=
  repeat first
    [ match goal with |- forall _, _ => intro end
    | simple apply sr_bind | simple apply sr_if | simple apply sr_ret | simple apply sr_panic | simple apply sr_nofuel | simple apply sr_block
    | simple apply sr_fat | simple apply sr_fsop | simple apply sr_memop | simple apply sr_on_pipe | (simple apply sr_fupd; done)
    | match goal with |- same_refs (match ?o with _ => _ end) => destruct o eqn:? end ].

Section files.
Context {B : Type} {ops : BlockOps B} (dev_read dev_write : Z -> option (M (kfs B kst) Z)).
Context (Hread : forall n m, dev_read n = Some m -> same_files m) (Hwrite : forall n m, dev_write n = Some m -> same_files m).

Lemma sr_fileread f po uo k n : same_refs (fileread dev_read f po uo k n).
Proof.
  unfold fileread, finish. refs. apply sr_files. by eapply Hread.
Qed.

Lemma sr_filewrite_loop ui n : forall fuel f i, same_refs (filewrite_loop (B := B) (K := kst) fuel f ui n i).
Proof. induction fuel as [|fuel IH]; intros f i; cbn [filewrite_loop]; refs. apply IH. Qed.

Lemma sr_filewrite f pi ui k n : same_refs (filewrite dev_write f pi ui k n).
Proof.
  unfold filewrite, finish. refs; [apply sr_filewrite_loop|]. apply sr_files. by eapply Hwrite.
Qed.

Lemma sr_filestat f (co : stat -> M (kfs B kst) Z) : (forall st, same_refs (co st)) -> same_refs (filestat f co).
Proof. intros Hc. unfold filestat. refs; apply Hc. Qed.
End files.

(** * Which system calls leave descriptors and counts alone. *)

#[export] Hint Unfold fetchaddr fetchstr argraw argint argaddr argstr mycwd path_at argpath fs_begin fs_end done_op fsk inode_at add_nlink
  link_bad unlink_bad created pipe_out argfd : tables.

(** Reduces [kcalm]; what is left is about routines with loops or effects of their own. *)
Ltac calms :=
  repeat first
    [ match goal with |- forall _, _ => intro end
    | simple apply kc_bind | simple apply kc_if
    | (simple apply kc_tables; solve [keeps])
    | (simple apply kc_pupd; intros ?; split; solve [done|left; done])
    | match goal with |- kcalm (match ?o with _ => _ end) => destruct o eqn:? end ].

Section sys.
Context {B : Type} {ops : BlockOps B} (buf buf2 ustack_addr : Z).
Context (dev_read dev_write : Z -> option (M (kfs B kst) Z)).
Context (Hread : forall n m, dev_read n = Some m -> same_files m) (Hwrite : forall n m, dev_write n = Some m -> same_files m).

Lemma kc_sys_getpid me : kcalm (sys_getpid (B := B) me).
Proof. unfold sys_getpid. calms. Qed.

Lemma kc_kill pid : kcalm (kill (B := B) pid).
Proof.
  unfold kill. calms. apply kc_pupd. apply kill_quiet.
Qed.

Lemma kc_sys_kill me : kcalm (sys_kill (B := B) me).
Proof. unfold sys_kill. calms. apply kc_kill. Qed.

Lemma kc_growproc me n : kcalm (growproc (B := B) me n).
Proof. intros s a s' (g & Hg & ->)%grow_view. apply calm_procs. intros l. apply quiet_alter. intros. apply Hg. Qed.

Lemma kc_sys_sbrk me : kcalm (sys_sbrk (B := B) me).
Proof. unfold sys_sbrk. calms. apply kc_growproc. Qed.

Lemma kc_sys_uptime : kcalm (sys_uptime (B := B)).
Proof. unfold sys_uptime. calms. Qed.

Lemma kc_sys_sleep : kcalm (sys_sleep (B := B)).
Proof. unfold sys_sleep. calms. Qed.

Lemma kc_sys_read me : kcalm (sys_read buf dev_read me).
Proof. unfold sys_read. calms. apply kc_ioop, sr_fileread, Hread. Qed.

Lemma kc_sys_write me : kcalm (sys_write dev_write me).
Proof. unfold sys_write. calms. apply kc_ioop, sr_filewrite, Hwrite. Qed.

Lemma kc_sys_fstat me : kcalm (sys_fstat (B := B) buf me).
Proof. unfold sys_fstat. calms. apply kc_ioop, sr_filestat. intros st. apply sr_memop. Qed.

Lemma kc_sys_link me : kcalm (sys_link (B := B) buf buf2 me).
Proof. unfold sys_link. calms. Qed.

Lemma kt_isdirempty_loop : forall n dp off, keeps_tables (isdirempty_loop (B := B) n dp off).
Proof. induction n as [|n IH]; intros; cbn [isdirempty_loop]; keeps. apply IH. Qed.

Lemma kt_isdirempty dp : keeps_tables (isdirempty (B := B) dp).
Proof. unfold isdirempty. keeps. apply kt_isdirempty_loop. Qed.

Lemma kc_sys_unlink me : kcalm (sys_unlink (B := B) buf me).
Proof. unfold sys_unlink. calms. apply kc_tables, kt_isdirempty. Qed.

Lemma kt_create me path type major minor : keeps_tables (create (B := B) me path type major minor).
Proof. unfold create. keeps. Qed.

Lemma kc_sys_mkdir me : kcalm (sys_mkdir (B := B) buf me).
Proof. unfold sys_mkdir. calms. apply kc_tables, kt_create. Qed.

Lemma kc_sys_mknod me : kcalm (sys_mknod (B := B) buf me).
Proof. unfold sys_mknod. calms. apply kc_tables, kt_create. Qed.

Lemma kc_sys_chdir me : kcalm (sys_chdir (B := B) buf me).
Proof. unfold sys_chdir. calms. Qed.

Lemma kc_exec me path argv : kcalm (exec (B := B) ustack_addr me path argv).
Proof.
  intros s a s' [[_ ->]|(_ & pt & sz & ->)]%exec_view; [done|]. apply calm_procs. intros l. apply quiet_alter. intros p _. by split; try done; left.
Qed.

Lemma kt_free_args : forall argv, keeps_tables (free_args (B := B) argv).
Proof. induction argv as [|a argv IH]; cbn [free_args]; keeps. apply IH. Qed.

Lemma kt_fetch_args me uargv : forall n i argv, keeps_tables (fetch_args (B := B) buf2 n me uargv i argv).
Proof. induction n as [|n IH]; intros; cbn [fetch_args]; keeps. apply IH. Qed.

Lemma kc_sys_exec me : kcalm (sys_exec (B := B) buf buf2 ustack_addr me).
Proof.
  unfold sys_exec. calms; try apply kc_exec; apply kc_tables; [apply kt_fetch_args|apply kt_free_args..].
Qed.
End sys.
