(* ===== verification/FdMove.v ===== *)
(** System calls that make or drop descriptors keep the counts right. *)

From S2P Require Import Prelude Spinlock Mem KString Mmu Kalloc Vm Bio Bytes Blk Fs FsIo Pipe File Proc ProcInv ProcThm.
From S2P Require Import Sysproc Exec ExecThm Sysfile FdRefs.

(** One reference to [f]. *)
Definition delta (f g : nat) : Z := Z.of_nat (one g (Some f)).

Section move.
Context {B : Type} {ops : BlockOps B}.
Notation K := (kern B).
Implicit Types s : K.

(** The table is in order, process [me] is alive, and the count of a file exceeds the
    number of its descriptors by [d]: the references a routine has in its hands. *)
Record held s (me : nat) (d : nat -> Z) : Prop := mkheld {
  hd_live : exists p, k_procs s !! me = Some p /\ alive p;
  hd_ok : sys_ok s;
  hd_refs : forall f, fref (v_files (kview s)) f = Z.of_nat (fdcount f (k_procs s)) + d f
}.

(** Descriptor [fd] of process [me]. *)
Definition slot s (me fd : nat) (o : option nat) : Prop := exists p, k_procs s !! me = Some p /\ p_ofile p !! fd = Some o.

Lemma held_kinv s me d : held s me d -> (forall f, d f = 0) -> kinv s.
Proof. intros [_ H1 H2] Hd. split; [done|]. intros f. rewrite H2, Hd. cbn [kview v_procs]. lia. Qed.

Lemma kinv_held s me p : kinv s -> k_procs s !! me = Some p -> alive p -> held s me (fun _ => 0).
Proof. intros [H1 H2] Hp Ha. split; [by exists p|done|]. intros f. specialize (H2 f). cbn [kview v_procs v_files] in *. lia. Qed.

Lemma held_ext s me d d' : (forall f, d f = d' f) -> held s me d -> held s me d'.
Proof. intros Hd [H1 H2 H3]. split; [done|done|]. intros f. by rewrite H3, Hd. Qed.

Lemma held_calm s s' me d : calm (kview s) (kview s') -> held s me d -> held s' me d.
Proof.
  intros [A1 A2 A3 A4] [(p & Hp & Ha) (init & Hi & Hn & Ht) Hf]. cbn [kview v_procs v_next v_init v_files] in *. split.
  - destruct (Forall2_lookup_l _ _ _ _ _ A1 Hp) as (q & Hq & Hpq). exists q. split; [done|]. by apply (quiet_alive p q).
  - exists init. rewrite A2, A3. split; [done|]. split; [done|]. by eapply quiet_inv.
  - intros f. cbn [kview v_files]. rewrite A4, Hf. do 2 f_equal. symmetry. apply fdcount_same. eapply Forall2_impl; [exact A1|]. intros x y. apply qt_ofile.
Qed.

Lemma slot_calm s s' me fd o : calm (kview s) (kview s') -> slot s me fd o -> slot s' me fd o.
Proof.
  intros [A1 _ _ _] (p & Hp & Ho). destruct (Forall2_lookup_l _ _ _ _ _ A1 Hp) as (q & Hq & Hpq). exists q. split; [done|]. by rewrite (qt_ofile _ _ Hpq).
Qed.

Lemma held_len s me d p : held s me d -> k_procs s !! me = Some p -> length (p_ofile p) = NOFILE.
Proof. intros [_ (init & _ & _ & Ht) _] Hp. apply (pk_len _ _ _ _ _ (ti_ok _ _ _ Ht me p Hp)). Qed.

(** One descriptor of [me] replaced. *)
Lemma held_slot s s' me d p fd o o' : held s me d -> k_procs s !! me = Some p -> p_ofile p !! fd = Some o ->
  kview s' = on_procs (<[me := set_ofile (<[fd := o']> (p_ofile p)) p]>) (kview s) ->
  held s' me (fun f => d f + Z.of_nat (one f o) - Z.of_nat (one f o')).
Proof.
  intros Hh Hp Hfd E. pose proof (held_len _ _ _ _ Hh Hp) as Hl. destruct Hh as [(p' & Hp' & Ha) (init & Hi & Hn & Ht) Hf]. assert (p' = p) as -> by congruence.
  injection E as Ep En Ei Ef. cbn [kview v_procs v_next v_init v_files] in *. set (q := set_ofile _ p) in *.
  assert (Hme : <[me := q]> (k_procs s) !! me = Some q) by (apply list_lookup_insert_eq; by eapply lookup_lt_Some).
  split; [exists q; by rewrite Ep| |].
  - exists init. rewrite Ei, En. split; [done|]. split; [done|]. rewrite Ep. destruct (ti_ok _ _ _ Ht me p Hp) as [P1 P2 P3 P4 P5 P6].
    apply (insert_inv _ (k_nextpid s) init me p); try done.
    + intros j Hj. destruct (P3 j Hj) as (r & Hr & Hra). destruct (decide (j = me)) as [->|]; [by exists q|]. exists r. by rewrite list_lookup_insert_ne.
    + cbn. by rewrite length_insert.
    + intros Hu j r Hj Hr E. apply Hj. symmetry. by apply (ti_uniq _ _ _ Ht me j p r).
  - intros f. cbn [kview v_files]. rewrite Ef, Hf, Ep. pose proof (fdcount_insert f (k_procs s) me p q Hp) as Hc. cbn [q set_ofile p_ofile] in Hc.
    pose proof (occ_insert f _ fd o' o Hfd). lia.
Qed.

(** ** Descriptors *)

Lemma free_fd_spec l : forall i fd, free_fd l i = Some fd -> (i <= fd)%nat /\ l !! (fd - i)%nat = Some None.
Proof.
  induction l as [|[f|] l IH]; intros i fd; cbn [free_fd]; [done| |intros [= <-]; split; [lia|by rewrite Nat.sub_diag]].
  intros [H1 H2]%IH. split; [lia|]. replace (fd - i)%nat with (S (fd - S i)) by lia. done.
Qed.

Lemma held_argfd me n d s o s' : argfd me n s = Ok (o, s') -> held s me d -> held s' me d /\ forall fd f, o = Some (fd, f) -> slot s' me fd (Some f).
Proof.
  intros E Hh. assert (Ek : kview s' = kview s) by (assert (Ka : keeps_tables (argfd (B := B) me n)) by (unfold argfd; keeps); by apply (Ka _ _ _ E)).
  split; [apply (held_calm s s'); [by rewrite Ek|done]|]. unfold argfd in E. apply bind_ok_inv in E as (i & s1 & E1 & E).
  assert (Ek1 : kview s1 = kview s) by (assert (Ka : keeps_tables (argint (B := B) me n)) by keeps; by apply (Ka _ _ _ E1)).
  apply bind_ok_inv in E as (p & s2 & E2 & E). apply pat_view in E2 as [-> ->]. rewrite Ek1 in E.
  destruct (_ || _) eqn:Eb; [by injection E as <- _|]. apply orb_false_iff in Eb as [H1%Z.ltb_ge H2%Z.leb_gt].
  destruct (hd_live _ _ _ Hh) as (p & Hp & _). pose proof (held_len _ _ _ _ Hh Hp) as Hl. cbn [kview v_procs] in E. rewrite (list_lookup_total_correct _ _ _ Hp) in E.
  injection E as <- _. intros fd f. destruct (p_ofile p !!! Z.to_nat i) as [g|] eqn:Eg; [|done]. intros [= <- <-].
  exists p. injection Ek as ->. split; [done|]. rewrite <- Eg. apply list_lookup_lookup_total_lt. lia.
Qed.

Lemma held_fdalloc me f d s o s' : fdalloc me f s = Ok (o, s') -> held s me d ->
  match o with
  | None => held s' me d /\ s' = s
  | Some fd => held s' me (fun g => d g - delta f g) /\ slot s' me fd (Some f) /\ slot s me fd None /\ forall fd' o', fd' <> fd -> slot s me fd' o' -> slot s' me fd' o'
  end.
Proof.
  unfold fdalloc. intros E Hh. apply bind_ok_inv in E as (q & s1 & E1 & E). apply pat_view in E1 as [-> ->]. cbn [kview v_procs] in E.
  destruct (hd_live _ _ _ Hh) as (p & Hp & _). rewrite (list_lookup_total_correct _ _ _ Hp) in E. destruct (free_fd (p_ofile p) 0) as [fd|] eqn:Ef; [|by injection E as <- <-].
  apply free_fd_spec in Ef as [_ Ef]. rewrite Nat.sub_0_r in Ef. apply bind_ok_inv in E as (x & s2 & E2 & E). apply pupd_view in E2. injection E as <- <-.
  unfold on_procs in E2. cbn [kview v_procs] in E2. rewrite (alter_insert _ _ _ _ Hp) in E2.
  split; [eapply held_ext; [|by eapply (held_slot s s2 me d p fd None (Some f))]; intros g; cbn beta; rewrite one_none; unfold delta; lia|].
  assert (Hs : k_procs s2 !! me = Some (set_ofile (<[fd := Some f]> (p_ofile p)) p)) by (injection E2 as -> _; apply list_lookup_insert_eq; by eapply lookup_lt_Some).
  split; [eexists; split; [exact Hs|]; cbn; apply list_lookup_insert_eq; by eapply lookup_lt_Some|]. split; [by exists p|].
  intros fd' o' Hne (p' & Hp' & Ho'). eexists. split; [exact Hs|]. cbn. rewrite list_lookup_insert_ne by done. congruence.
Qed.

Lemma held_drop me fd f d s a s' : drop_fd me fd s = Ok (a, s') -> held s me d -> slot s me fd (Some f) ->
  held s' me (fun g => d g + delta f g) /\ forall fd' o', fd' <> fd -> slot s me fd' o' -> slot s' me fd' o'.
Proof.
  intros E Hh (p & Hp & Ho). apply pupd_view in E. unfold on_procs in E. cbn [kview v_procs] in E. rewrite (alter_insert _ _ _ _ Hp) in E. split.
  - eapply held_ext; [|by eapply (held_slot s s' me d p fd (Some f) None)]. intros g. cbn beta. rewrite one_none. unfold delta. lia.
  - intros fd' o' Hne (p' & Hp' & Ho'). eexists. split; [injection E as -> _; apply list_lookup_insert_eq; by eapply lookup_lt_Some|].
    cbn. rewrite list_lookup_insert_ne by done. congruence.
Qed.

(** ** Files *)

Lemma held_files me d d' s s' : kview s' = on_files (fun _ => v_files (kview s')) (kview s) ->
  (forall g, fref (v_files (kview s')) g = fref (v_files (kview s)) g + d' g) -> held s me d -> held s' me (fun g => d g + d' g).
Proof.
  intros E Hr [H1 H2 H3]. injection E as Ep En Ei. split.
  - by rewrite Ep.
  - destruct H2 as (init & ?). exists init. by rewrite Ep, En, Ei.
  - intros f. rewrite Hr, H3, Ep. lia.
Qed.

Lemma slot_files me fd o s s' g : kview s' = on_files g (kview s) -> slot s me fd o -> slot s' me fd o.
Proof. intros E (p & Hp & Ho). exists p. injection E as -> _. by split. Qed.

Lemma held_filedup me f d s a s' : ioop (filedup f) s = Ok (a, s') -> held s me d -> held s' me (fun g => d g + delta f g).
Proof.
  intros (_ & Hr & E)%filedup_view. rewrite <- fref_total in Hr. apply held_files; rewrite E; [done|]. intros g. by apply fref_dup.
Qed.

Lemma held_fileclose me f d s a s' : ioop (fileclose f) s = Ok (a, s') -> held s me d -> held s' me (fun g => d g - delta f g).
Proof.
  intros (Hr & E)%fileclose_view Hh. rewrite <- fref_total in Hr. eapply held_ext; [|apply (held_files me d (fun g => - delta f g) s s'); [by rewrite E| |done]].
  - intros g. cbn beta. lia.
  - intros g. rewrite E. cbn [on_files v_files]. rewrite fref_close by done. unfold delta. lia.
Qed.

Lemma slot_fileclose me f fd o s a s' : ioop (fileclose f) s = Ok (a, s') -> slot s me fd o -> slot s' me fd o.
Proof. intros (_ & E)%fileclose_view. by eapply slot_files. Qed.

Lemma free_file_first l : forall i f, free_file l i = Some f -> (i <= f)%nat /\ exists x, l !! (f - i)%nat = Some x /\ f_ref x = 0.
Proof.
  induction l as [|x l IH]; intros i f; cbn [free_file]; [done|]. destruct (Z.eqb_spec (f_ref x) 0); [intros [= <-]; split; [lia|]; exists x; by rewrite Nat.sub_diag|].
  intros [H1 H2]%IH. split; [lia|]. by replace (f - i)%nat with (S (f - S i)) by lia.
Qed.

Lemma filealloc_refs (io : kfs B kst) o io' : filealloc io = Ok (o, io') ->
  match o with
  | None => io' = io
  | Some f => forall g, fref (kf_files io') g = fref (kf_files io) g + delta f g
  end.
Proof.
  unfold filealloc, bind, gets. destruct (free_file _ 0) as [f|] eqn:Ef; [|by intros [= <- <-]]. unfold fupd, modify, ret. intros [= <- <-] g.
  apply free_file_first in Ef as (_ & x & Hx & H0). rewrite Nat.sub_0_r in Hx. cbn [set_files kf_files]. rewrite fref_alter. unfold delta, one. destruct (decide (g = f)) as [->|Hne].
  - rewrite !decide_True by (done || by eapply lookup_lt_Some). cbn. unfold fref. rewrite Hx. cbn. lia.
  - rewrite decide_False by congruence. lia.
Qed.

Lemma ioop_files {A} (m : M (kfs B kst) A) s a s' : ioop m s = Ok (a, s') -> m (k_io s) = Ok (a, k_io s') /\ kview s' = on_files (fun _ => v_files (kview s')) (kview s).
Proof. unfold ioop, zoom. destruct (m (k_io s)) as [[x io]| | |] eqn:E; try done. by intros [= <- <-]. Qed.

Lemma held_filealloc me d s o s' : ioop filealloc s = Ok (o, s') -> held s me d ->
  held s' me (fun g => d g + match o with Some f => delta f g | None => 0 end).
Proof.
  intros [E Ek]%ioop_files. apply filealloc_refs in E. apply held_files; [done|]. intros g. cbn [kview v_files].
  destruct o as [f|]; [done|]. rewrite E. lia.
Qed.
End move.

(** * [dup], [close], [open], [pipe], [fork], [wait] and [exit] keep every count equal to
    the number of descriptors. *)

Section calls.
Context {B : Type} {ops : BlockOps B} (buf : Z).
Notation K := (kern B).
Implicit Types s : K.

(** A routine of process [me] that ends with the references it began with. *)
Definition good {A} (me : nat) (m : M K A) : Prop := forall s a s' d, m s = Ok (a, s') -> held s me d -> held s' me d.

Lemma good_calm {A} me (m : M K A) : kcalm m -> good me m.
Proof. intros Hm s a s' d E. apply held_calm. by eapply Hm. Qed.

Lemma good_tables {A} me (m : M K A) : keeps_tables m -> good me m.
Proof. intros Hm. by apply good_calm, kc_tables. Qed.

Lemma good_bind {A C} me (m : M K A) (k : A -> M K C) : good me m -> (forall a, good me (k a)) -> good me (bind m k).
Proof. intros Hm Hk s c s' d (a & s1 & E1 & E2)%bind_ok_inv Hh. eapply Hk; [done|]. by eapply Hm. Qed.

Lemma good_run {A} me (m : M K A) s a s' d : m s = Ok (a, s') -> held s me d -> good me m -> held s' me d.
Proof. intros E Hh Hm. by eapply Hm. Qed.

Lemma good_if {A} me (b : bool) (m m' : M K A) : good me m -> good me m' -> good me (if b then m else m').
Proof. by destruct b. Qed.

Lemma keep_held {A} me (m : M K A) s a s' d : keeps_tables m -> m s = Ok (a, s') -> held s me d -> held s' me d.
Proof. intros Hm. by apply good_tables. Qed.

Lemma keep_slot {A} me fd o (m : M K A) s a s' : keeps_tables m -> m s = Ok (a, s') -> slot s me fd o -> slot s' me fd o.
Proof. intros Hm E. apply slot_calm. by rewrite (Hm _ _ _ E). Qed.

Lemma good_sys_dup me : good me (sys_dup me).
Proof.
  intros s a s' d E Hh. unfold sys_dup in E. apply bind_ok_inv in E as (o & s1 & E1 & E). apply (held_argfd _ _ d) in E1 as [H1 _]; [|done].
  destruct o as [[fd0 f]|]; [|by injection E as _ <-]. apply bind_ok_inv in E as (o & s2 & E2 & E). apply (held_fdalloc _ _ d) in E2; [|done].
  destruct o as [fd|]; [|injection E as _ <-; apply E2]. destruct E2 as [H2 _]. apply bind_ok_inv in E as (x & s3 & E3 & E). injection E as _ <-.
  eapply held_filedup in E3; [|done]. eapply held_ext; [|done]. intros g. cbn beta. lia.
Qed.

Lemma good_sys_close me : good me (sys_close me).
Proof.
  intros s a s' d E Hh. unfold sys_close in E. apply bind_ok_inv in E as (o & s1 & E1 & E). apply (held_argfd _ _ d) in E1 as [H1 Ho]; [|done].
  destruct o as [[fd f]|]; [|by injection E as _ <-]. apply bind_ok_inv in E as (x & s2 & E2 & E). apply (held_drop me fd f d) in E2 as [H2 _]; [|done|by apply Ho].
  apply bind_ok_inv in E as (y & s3 & E3 & E). injection E as _ <-. eapply held_fileclose in E3; [|done]. eapply held_ext; [|done]. intros g. cbn beta. lia.
Qed.

(** ** open *)

Lemma good_open_inode me omode ip : good me (open_inode me omode ip).
Proof.
  intros s a s' d E Hh. unfold open_inode in E. apply bind_ok_inv in E as (x & s1 & E1 & E). injection E1 as <- <-.
  destruct (_ && _); [apply (good_run _ _ _ _ _ _ E Hh), good_tables; keeps|]. apply bind_ok_inv in E as (o & s2 & E2 & E). eapply held_filealloc in E2; [|done].
  destruct o as [f|]; [|apply (held_ext _ _ _ d) in E2; [apply (good_run _ _ _ _ _ _ E E2), good_tables; keeps|intros g; cbn beta; lia]].
  apply bind_ok_inv in E as (o & s3 & E3 & E). eapply held_fdalloc in E3; [|done]. destruct o as [fd|].
  - destruct E3 as [E3 _]. apply (held_ext _ _ _ d) in E3; [|intros g; cbn beta; lia]. apply (good_run _ _ _ _ _ _ E E3), good_bind; [|intros []; apply good_tables; keeps].
    apply good_calm, kc_ioop, sr_fupd. intros y. unfold open_file. by destruct (d_type _ =? T_DEV).
  - destruct E3 as [E3 _]. apply bind_ok_inv in E as (y & s4 & E4 & E). eapply held_fileclose in E4; [|done]. apply (held_ext _ _ _ d) in E4; [|intros g; cbn beta; lia].
    apply (good_run _ _ _ _ _ _ E E4), good_tables. keeps.
Qed.

Lemma good_sys_open me : good me (sys_open buf me).
Proof.
  unfold sys_open. apply good_bind; [apply good_tables; keeps|]. intros [path|]; [|apply good_tables; keeps].
  apply good_bind; [apply good_tables; keeps|]. intros omode. apply good_bind; [apply good_tables; keeps|]. intros _.
  apply good_if; (apply good_bind; [apply good_tables; first [apply kt_create|keeps]|]).
  - intros [ip|]; [apply good_open_inode|apply good_tables; keeps].
  - intros cwd. apply good_bind; [apply good_tables; keeps|]. intros [ip|]; [|apply good_tables; keeps].
    apply good_bind; [apply good_tables; keeps|]. intros _. apply good_bind; [apply good_tables; keeps|]. intros x.
    apply good_if; [apply good_tables; keeps|apply good_open_inode].
Qed.
(** ** pipe *)

Lemma fileclose_refs f (io : kfs B kst) a io' : fileclose f io = Ok (a, io') -> forall g, fref (kf_files io') g = fref (kf_files io) g - delta f g.
Proof. intros [Hr ->]%fileclose_files g. rewrite <- fref_total in Hr. by rewrite fref_close. Qed.

Definition opt_delta (o : option nat) (g : nat) : Z := match o with Some f => delta f g | None => 0 end.

Lemma pipealloc_bad_refs pg f0 f1 (io : kfs B kst) o io' : pipealloc_bad pg f0 f1 io = Ok (o, io') ->
  o = None /\ forall g, fref (kf_files io') g = fref (kf_files io) g - opt_delta f0 g - opt_delta f1 g.
Proof.
  unfold pipealloc_bad. intros E. apply bind_ok_inv in E as (x1 & io1 & E1 & E). apply bind_ok_inv in E as (x2 & io2 & E2 & E). apply bind_ok_inv in E as (x3 & io3 & E3 & E).
  injection E as <- <-. split; [done|]. intros g. assert (H1 : fref (kf_files io1) g = fref (kf_files io) g).
  { assert (Hs : same_refs (if pg =? 0 then ret tt else memop (B := B) (p_free pg))) by refs. by apply (Hs _ _ _ E1). }
  assert (H2 : fref (kf_files io2) g = fref (kf_files io1) g - opt_delta f0 g) by (destruct f0; [by apply (fileclose_refs _ _ _ _ E2)|injection E2 as _ <-; cbn; lia]).
  assert (H3 : fref (kf_files io3) g = fref (kf_files io2) g - opt_delta f1 g) by (destruct f1; [by apply (fileclose_refs _ _ _ _ E3)|injection E3 as _ <-; cbn; lia]).
  lia.
Qed.

Lemma pipealloc_refs (io : kfs B kst) o io' : pipealloc io = Ok (o, io') -> forall g,
  fref (kf_files io') g = fref (kf_files io) g + match o with Some (r, w) => delta r g + delta w g | None => 0 end.
Proof.
  unfold pipealloc. intros E g. apply bind_ok_inv in E as (o0 & io1 & E1 & E). apply filealloc_refs in E1.
  destruct o0 as [r|]; [|apply pipealloc_bad_refs in E as [-> E]; rewrite E, E1; cbn; lia].
  apply bind_ok_inv in E as (o1 & io2 & E2 & E). apply filealloc_refs in E2.
  destruct o1 as [w|]; [|apply pipealloc_bad_refs in E as [-> E]; rewrite E, E2, E1; cbn; lia].
  apply bind_ok_inv in E as (pg & io3 & E3 & E). apply sr_memop in E3.
  destruct (pg =? 0); [apply pipealloc_bad_refs in E as [-> E]; rewrite E, E3, E2, E1; cbn; lia|].
  apply bind_ok_inv in E as (dd & io4 & E4 & E). injection E4 as _ <-. apply bind_ok_inv in E as (x & io5 & E5 & E). injection E5 as _ <-.
  apply bind_ok_inv in E as (y & io6 & E6 & E). apply (sr_fupd r (set_fpipe true false pg)) in E6; [|done].
  apply bind_ok_inv in E as (z & io7 & E7 & E). apply (sr_fupd w (set_fpipe false true pg)) in E7; [|done].
  injection E as <- <-. rewrite E7, E6. cbn [set_pipes kf_files]. rewrite E3, E2, E1. lia.
Qed.

(** Both ends closed. *)
Lemma held_close2 me r w (v : outcome) d s a s' : (ioop (fileclose r) ;;; ioop (fileclose w) ;;; ret v) s = Ok (a, s') ->
  held s me (fun g => d g + delta r g + delta w g) -> held s' me d.
Proof.
  intros E Hh. apply bind_ok_inv in E as (x1 & s1 & E1 & E). apply bind_ok_inv in E as (x2 & s2 & E2 & E). injection E as _ <-.
  eapply held_fileclose in E1; [|done]. eapply held_fileclose in E2; [|done]. eapply held_ext; [|done]. intros g. cbn beta. lia.
Qed.

Lemma good_sys_pipe me : good me (sys_pipe buf me).
Proof.
  intros s a s' d E Hh. unfold sys_pipe in E. apply bind_ok_inv in E as (va & s1 & E1 & E).
  assert (H1 : held s1 me d) by (apply (good_run _ _ _ _ _ _ E1 Hh), good_tables; keeps). clear E1 Hh.
  apply bind_ok_inv in E as (o & s2 & E2 & E). apply ioop_files in E2 as [E2 Ek]. pose proof (held_files me d _ s1 s2 Ek (pipealloc_refs _ _ _ E2) H1) as H2. clear E2 Ek H1.
  destruct o as [[r w]|]; [|injection E as _ <-; eapply held_ext; [|exact H2]; intros g; cbn beta; lia].
  apply bind_ok_inv in E as (o & s3 & E3 & E). eapply held_fdalloc in E3; [|exact H2]. clear H2.
  destruct o as [fd0|]; [|eapply held_close2; [exact E|]; eapply held_ext; [|apply E3]; intros g; cbn beta; lia]. destruct E3 as (H3 & S3 & _ & _).
  apply bind_ok_inv in E as (o & s4 & E4 & E). eapply held_fdalloc in E4; [|exact H3]. destruct o as [fd1|].
  2: { apply bind_ok_inv in E as (y & s5 & E5 & E). destruct E4 as [_ ->].
       eapply held_drop in E5 as [H5 _]; [|exact H3|exact S3]. eapply held_close2; [exact E|]. eapply held_ext; [|exact H5]. intros g. cbn beta. lia. }
  destruct E4 as (H4 & S4 & N4 & K4). assert (Hne : fd0 <> fd1).
  { intros <-. destruct S3 as (p & Hp & Ho), N4 as (p' & Hp' & Ho'). congruence. }
  apply (K4 fd0) in S3; [|done].
  apply bind_ok_inv in E as (p & s5 & E5 & E). apply pat_view in E5 as [-> _].
  apply bind_ok_inv in E as (x6 & s6 & E6 & E). apply vmop_view in E6. apply bind_ok_inv in E as (r7 & s7 & E7 & E). apply vmop_view in E7.
  apply bind_ok_inv in E as (r8 & s8 & E8 & E).
  assert (E8' : kview s8 = kview s7) by (destruct (r7 <? 0); [by injection E8 as _ <-|by apply vmop_view in E8]).
  assert (Ec : calm (kview s4) (kview s8)) by (rewrite E8', E7, E6; done).
  apply (held_calm _ _ _ _ Ec) in H4. apply (slot_calm _ _ _ _ _ Ec) in S3, S4. clear E6 E7 E8 E8' Ec.
  destruct (r8 <? 0); [|injection E as _ <-; eapply held_ext; [|exact H4]; intros g; cbn beta; lia].
  apply bind_ok_inv in E as (y9 & s9 & E9 & E). eapply held_drop in E9 as [H9 K9]; [|exact H4|exact S3]. apply K9 in S4; [|done].
  apply bind_ok_inv in E as (y10 & s10 & E10 & E). eapply held_drop in E10 as [H10 _]; [|exact H9|exact S4].
  eapply held_close2; [exact E|]. eapply held_ext; [|exact H10]. intros g. cbn beta. lia.
Qed.
End calls.
