(* ===== verification/KernelInv.v ===== *)
(** The kernel entered through its handlers: system calls, interrupts, aborts and the
    scheduler keep the process table in order and every open file's reference count
    equal to the number of descriptors that name it. *)

From S2P Require Import Prelude Spinlock Mem KString Mmu Kalloc Vm Bio Bytes Blk Fs FsIo Pipe File Proc ProcInv ProcThm.
From S2P Require Import Sysproc Exec ExecThm Sysfile Syscall FdRefs FdMove.

Lemma fdcount_alter f g i l : (forall p, p_ofile (g p) = p_ofile p) -> fdcount f (alter g i l) = fdcount f l.
Proof.
  intros Hg. apply fdcount_same. apply Forall2_same_length_lookup_2; [by rewrite length_alter|]. intros j p q Hp Hq.
  destruct (decide (j = i)) as [->|]; [|rewrite list_lookup_alter_ne in Hq by done; congruence].
  rewrite list_lookup_alter_eq, Hp in Hq. by injection Hq as <-.
Qed.

Lemma fdcount_fmap f g l : (forall p, p_ofile (g p) = p_ofile p) -> fdcount f (g <$> l) = fdcount f l.
Proof. intros Hg. apply fdcount_same. apply Forall2_fmap_r, Forall_Forall2_diag, Forall_forall. intros p _. apply Hg. Qed.

Lemma fdcount_exited f me init parent status p l : l !! me = Some p -> (fdcount f (exited me init parent status p l) + occ f (p_ofile p) = fdcount f l)%nat.
Proof.
  intros Hp. unfold exited. rewrite fdcount_alter by done. rewrite fdcount_alter by (intros q; unfold wake1; by destruct (_ && _)).
  rewrite fdcount_fmap by (intros q; unfold give_away; by case_decide). rewrite fdcount_alter by (intros q; unfold wake1; by destruct (_ && _)).
  pose proof (fdcount_insert f l me p (closed p) Hp) as Hc. cbn [closed set_cwd set_ofile p_ofile] in Hc.
  rewrite (occ_none f (replicate NOFILE None)) in Hc by (by apply Forall_replicate). lia.
Qed.

Section kernel.
Context {B : Type} {ops : BlockOps B} (trapret forkret : Z) (xstate_addr : nat -> Z) (buf buf2 ustack_addr : Z).
Context (dev_read dev_write : Z -> option (M (kfs B kst) Z)).
Notation K := (kern B).
Implicit Types s : K.

Lemma fork_fds s me p r s' : fork trapret forkret me s = Ok (r, s') -> k_procs s !! me = Some p -> kinv s -> fds_ok (kview s').
Proof.
  intros H%fork_view Hp [(init & _ & _ & Ht) Hf]. destruct H as [_ Ev|i q q' _ Hq Hu Ev _ _ _ U4|i q q' _ Hq Hu _ Ev _ _ _ _ U4]; rewrite Ev; [done|..];
    intros f; cbn [v_procs v_files kview] in *; pose proof (fdcount_insert f _ i q q' Hq) as Hc; specialize (Hf f) as Hff; cbn [v_procs v_files kview] in Hff.
  - rewrite U4 in Hc. lia.
  - rewrite (list_lookup_total_correct _ _ _ Hp) in *. destruct (ti_ok _ _ _ Ht i q Hq) as [_ _ _ _ P5 P6]. assert (Hqn : no_files q) by (apply P6; intros [? _]; done).
    rewrite copy_ofile_none in U4 by (done || rewrite P5; symmetry; apply (pk_len _ _ _ _ _ (ti_ok _ _ _ Ht me p Hp))).
    rewrite U4, (occ_none f (p_ofile q)) in Hc by done. rewrite dup_files_fref; [lia|].
    intros g Hg. specialize (Hf g). cbn [v_procs v_files kview] in Hf. pose proof (fdcount_ge g _ _ _ Hp). lia.
Qed.

Lemma fork_kinv s me r s' : fork trapret forkret me s = Ok (r, s') -> running s me -> k_nextpid s < 2 ^ 31 - 1 -> kinv s -> kinv s'.
Proof. intros H Hr Hn Hi. split; [apply (fork_inv _ _ xstate_addr _ _ _ _ H); [done|done|apply Hi]|]. destruct Hr as (p & Hp & _). by eapply fork_fds. Qed.

Lemma exit_kinv s me status c s' : exit me status c s = Ok (tt, s') -> running s me -> kinv s -> kinv s'.
Proof.
  intros H Hr [Hs Hf]. split; [by eapply exit_inv|]. destruct Hr as (p & Hp & _), Hs as (init & Hi & _ & Ht).
  destruct (exit_view me status c s tt s' p H Hp (pk_len _ _ _ _ _ (ti_ok _ _ _ Ht me p Hp))) as (i & parent & _ & _ & _ & ->).
  intros f. cbn [v_procs v_files kview]. pose proof (fdcount_exited f me i parent status p (k_procs s) Hp) as Hc.
  rewrite close_files_fref; [specialize (Hf f); cbn [v_procs v_files kview] in Hf; lia|].
  intros g. specialize (Hf g). cbn [v_procs v_files kview] in Hf. pose proof (fdcount_ge g _ _ _ Hp). lia.
Qed.

Lemma wait_kinv s me addr c r s' : wait xstate_addr me addr c s = Ok (r, s') -> running s me -> kinv s -> kinv s'.
Proof.
  intros H Hr [Hs Hf]. split; [by eapply wait_inv|]. destruct Hs as (init & Hi & _ & Ht). apply wait_view in H; [|apply Ht].
  destruct H as [i q Hq _ _ ->|i q _ _ _ _ ->| -> _ _|_ _ _ ->]; [|done|done|]; intros f; cbn [on_procs v_procs v_files]; rewrite Hf; by rewrite fdcount_alter.
Qed.

(** ** Handlers *)

Lemma running_view s s' me : kview s' = kview s -> running s me -> running s' me.
Proof. intros [= Ep _ _ _] (p & Hp & Hr). exists p. by rewrite Ep. Qed.

Lemma kinv_view s s' : kview s' = kview s -> kinv s -> kinv s'.
Proof. intros E. apply calm_inv. by rewrite E. Qed.

Lemma running_tf s me tf s' : pupd me (set_trapframe tf) s = Ok (tt, s') -> running s me -> running s' me.
Proof.
  intros E%pupd_view (p & Hp & Hr). injection E as Ep _ _ _. cbn [kview v_procs] in Ep. exists (set_trapframe tf p). rewrite Ep.
  by rewrite list_lookup_alter_eq, Hp.
Qed.

Lemma good_kinv {A} me (m : M K A) s a s' : good me m -> m s = Ok (a, s') -> running s me -> kinv s -> kinv s'.
Proof.
  intros Hm E (p & Hp & Hr) Hi. eapply (held_kinv s' me (fun _ => 0)); [|done]. eapply Hm; [exact E|]. eapply kinv_held; [done|done|]. unfold alive. by rewrite Hr.
Qed.

Lemma tail_kinv me (r : outcome) s b s' : (match r with Ret v => p <- pat me ;; tf_set p 0 (s32 v) ;;; ret true | Away => ret false end) s = Ok (b, s') -> kinv s -> kinv s'.
Proof.
  intros E. apply kinv_view. destruct r as [v|]; [|by injection E as _ <-]. apply bind_ok_inv in E as (p & s1 & E1 & E). apply pat_view in E1 as [-> _].
  apply bind_ok_inv in E as (x & s2 & E2 & E). apply tf_set_view in E2. injection E as _ <-. done.
Qed.

Lemma sys_wait_kinv me c s r s' : sys_wait xstate_addr me c s = Ok (r, s') -> running s me -> kinv s -> kinv s'.
Proof.
  unfold sys_wait. intros E Hr Hi. apply bind_ok_inv in E as (a & s1 & E1 & E). assert (Ka : keeps_tables (argaddr (B := B) me 0)) by keeps. apply Ka in E1.
  apply bind_ok_inv in E as (w & s2 & E2 & E). injection E as _ <-. eapply wait_kinv; [exact E2|by eapply running_view|by eapply kinv_view].
Qed.

Lemma sys_exit_kinv me c s r s' : sys_exit me c s = Ok (r, s') -> running s me -> kinv s -> kinv s'.
Proof.
  unfold sys_exit. intros E Hr Hi. apply bind_ok_inv in E as (a & s1 & E1 & E). assert (Ka : keeps_tables (argint (B := B) me 0)) by keeps. apply Ka in E1.
  apply bind_ok_inv in E as ([] & s2 & E2 & E). injection E as _ <-. eapply exit_kinv; [exact E2|by eapply running_view|by eapply kinv_view].
Qed.

Lemma sys_fork_kinv me s r s' : sys_fork trapret forkret me s = Ok (r, s') -> running s me -> k_nextpid s < 2 ^ 31 - 1 -> kinv s -> kinv s'.
Proof.
  unfold sys_fork. intros E Hr Hn Hi. apply bind_ok_inv in E as (v & s1 & E1 & E). injection E as _ <-. exact (fork_kinv s me v s1 E1 Hr Hn Hi).
Qed.

Context (Hread : forall n m, dev_read n = Some m -> same_files m) (Hwrite : forall n m, dev_write n = Some m -> same_files m).

Notation the_calls := (syscalls trapret forkret xstate_addr buf buf2 ustack_addr dev_read dev_write None).

Lemma call_kinv n f me c s r s' : the_calls n = Some f -> f me c s = Ok (r, s') -> running s me -> k_nextpid s < 2 ^ 31 - 1 -> kinv s -> kinv s'.
Proof.
  intros Hf E Hr Hn Hi. assert (Hg : forall m, good me m -> m s = Ok (r, s') -> kinv s') by (intros m Hm Em; by eapply good_kinv).
  unfold syscalls in Hf. destruct n as [|n|n]; try discriminate Hf.
  repeat (destruct n as [n|n|]; try discriminate Hf); injection Hf as <-; cbn beta in E;
    lazymatch type of E with
    | sys_dup _ _ = _ => exact (Hg _ (good_sys_dup me) E)
    | sys_close _ _ = _ => exact (Hg _ (good_sys_close me) E)
    | sys_open _ _ _ = _ => exact (Hg _ (good_sys_open buf me) E)
    | sys_pipe _ _ _ = _ => exact (Hg _ (good_sys_pipe buf me) E)
    | sys_getpid _ _ = _ => exact (Hg _ (good_calm me _ (kc_sys_getpid me)) E)
    | sys_kill _ _ = _ => exact (Hg _ (good_calm me _ (kc_sys_kill me)) E)
    | sys_sbrk _ _ = _ => exact (Hg _ (good_calm me _ (kc_sys_sbrk me)) E)
    | sys_uptime _ = _ => exact (Hg _ (good_calm me _ kc_sys_uptime) E)
    | sys_sleep _ = _ => exact (Hg _ (good_calm me _ kc_sys_sleep) E)
    | sys_read _ _ _ _ = _ => exact (Hg _ (good_calm me _ (kc_sys_read buf dev_read Hread me)) E)
    | sys_write _ _ _ = _ => exact (Hg _ (good_calm me _ (kc_sys_write dev_write Hwrite me)) E)
    | sys_fstat _ _ _ = _ => exact (Hg _ (good_calm me _ (kc_sys_fstat buf me)) E)
    | sys_unlink _ _ _ = _ => exact (Hg _ (good_calm me _ (kc_sys_unlink buf me)) E)
    | sys_mkdir _ _ _ = _ => exact (Hg _ (good_calm me _ (kc_sys_mkdir buf me)) E)
    | sys_mknod _ _ _ = _ => exact (Hg _ (good_calm me _ (kc_sys_mknod buf me)) E)
    | sys_chdir _ _ _ = _ => exact (Hg _ (good_calm me _ (kc_sys_chdir buf me)) E)
    | sys_link _ _ _ _ = _ => exact (Hg _ (good_calm me _ (kc_sys_link buf buf2 me)) E)
    | sys_exec _ _ _ _ _ = _ => exact (Hg _ (good_calm me _ (kc_sys_exec buf buf2 ustack_addr me)) E)
    | _ => idtac
    end.
  - exact (sys_wait_kinv me c s r s' E Hr Hi).
  - exact (sys_exit_kinv me c s r s' E Hr Hi).
  - exact (sys_fork_kinv me s r s' E Hr Hn Hi).
Qed.
Lemma syscall_kinv me c s b s' : syscall trapret forkret xstate_addr buf buf2 ustack_addr dev_read dev_write None me c s = Ok (b, s') ->
  running s me -> k_nextpid s < 2 ^ 31 - 1 -> kinv s -> kinv s'.
Proof.
  unfold syscall. intros E Hr Hn Hi. apply bind_ok_inv in E as (p & s1 & E1 & E). apply pat_view in E1 as [-> _].
  apply bind_ok_inv in E as (x7 & s2 & E2 & E). apply vmop_view in E2.
  assert (Hr2 : running s2 me) by (by eapply running_view). assert (Hi2 : kinv s2) by (by eapply kinv_view).
  assert (Hn2 : k_nextpid s2 < 2 ^ 31 - 1) by (change (k_nextpid s2) with (v_next (kview s2)); rewrite E2; exact Hn).
  destruct (if _ && _ then _ else _) as [f|] eqn:Ef.
  - destruct (_ && _); [|discriminate Ef]. apply bind_ok_inv in E as (r & s3 & E3 & E). eapply tail_kinv; [exact E|].
    exact (call_kinv _ f me c s2 r s3 Ef E3 Hr2 Hn2 Hi2).
  - apply bind_ok_inv in E as (x & s3 & E3 & E). apply tf_set_view in E3. injection E as _ <-. by eapply kinv_view.
Qed.

Lemma tf_kinv me tf s s' : pupd me (set_trapframe tf) s = Ok (tt, s') -> kinv s -> kinv s'.
Proof. intros E. apply calm_inv. eapply (kc_pupd me (set_trapframe tf)); [|exact E]. intros p. split; try done. by left. Qed.

Lemma killed_exit_kinv me c s s' : (pupd me (set_killed true) ;;; exit me (-1) c) s = Ok (tt, s') -> running s me -> kinv s -> kinv s'.
Proof.
  intros E (p & Hp & Hr) Hi. apply bind_ok_inv in E as (x & s1 & E1 & E). assert (H1 : kinv s1).
  { eapply calm_inv; [|exact Hi]. eapply (kc_pupd me (set_killed true)); [|exact E1]. intros q. split; try done. by left. }
  eapply exit_kinv; [exact E| |exact H1]. apply pupd_view in E1. injection E1 as Ep _ _ _. cbn [kview v_procs] in Ep. exists (set_killed true p). rewrite Ep.
  by rewrite list_lookup_alter_eq, Hp.
Qed.

(** One entry into the kernel: a handler called for a running process or the idle CPU,
    the scheduler, or a process that goes on inside the kernel after it was switched
    away, in [wait] or between [sleep] and its return. *)
Inductive kstep : K -> K -> Prop :=
| ks_swi s me tf c b s' : running s me -> k_nextpid s < 2 ^ 31 - 1 ->
    swi_handler trapret forkret xstate_addr buf buf2 ustack_addr dev_read dev_write None me tf c s = Ok (b, s') -> kstep s s'
| ks_irq s gic me tf c b s' : kcalm gic -> (forall i, me = Some i -> running s i /\ forall s1 a s2, gic s1 = Ok (a, s2) -> running s1 i -> running s2 i) ->
    irq_handler gic me tf c s = Ok (b, s') -> kstep s s'
| ks_dabort s me c s' : running s me -> dabort_handler me c s = Ok (tt, s') -> kstep s s'
| ks_iabort s me c s' : running s me -> iabort_handler me c s = Ok (tt, s') -> kstep s s'
| ks_bad s me s' : bad_handler me s = Ok (tt, s') -> kstep s s'
| ks_wait s me addr c r s' : running s me -> wait xstate_addr me addr c s = Ok (r, s') -> kstep s s'
| ks_sleep s me ch c s' : running s me -> sleep me ch c s = Ok (tt, s') -> kstep s s'
| ks_sleep_return s me s' : running s me -> sleep_return me s = Ok (tt, s') -> kstep s s'
| ks_sched s i r s' : scheduler_try i s = Ok (r, s') -> kstep s s'.

Lemma alter_calm s s' g i p : kview s' = on_procs (alter g i) (kview s) -> k_procs s !! i = Some p -> quiet p (g p) -> calm (kview s) (kview s').
Proof.
  intros E Hp Hq. rewrite E. split; try done. cbn [on_procs v_procs kview]. apply quiet_alter. intros q Hq'. assert (q = p) as -> by congruence. done.
Qed.

Lemma sleep_kinv s me ch c s' : sleep me ch c s = Ok (tt, s') -> running s me -> kinv s -> kinv s'.
Proof.
  intros E (p & Hp & Hr). apply calm_inv. apply sleep_view in E. eapply alter_calm; [exact E|exact Hp|]. apply quiet_sleep. unfold alive. by rewrite Hr.
Qed.

Lemma yield_kinv s me c s' : yield me c s = Ok (tt, s') -> running s me -> kinv s -> kinv s'.
Proof.
  unfold yield. intros E (p & Hp & Hr). run_inv. apply calm_inv. eapply alter_calm; [eassumption|exact Hp|]. apply quiet_set; try done. unfold alive. by rewrite Hr.
Qed.

Lemma sched_kinv s i r s' : scheduler_try i s = Ok (r, s') -> kinv s -> kinv s'.
Proof.
  unfold scheduler_try. intros E. run_inv; [|by apply calm_inv]. apply calm_inv.
  rewrite bool_decide_eq_true in Eb. change (v_procs (kview s)) with (k_procs s) in Eb.
  destruct (k_procs s !! i) as [p|] eqn:Hp; [|by rewrite list_lookup_total_alt, Hp in Eb]. rewrite (list_lookup_total_correct _ _ _ Hp) in Eb.
  eapply (alter_calm s _ (set_state RUNNING) i p); [by views|exact Hp|]. apply quiet_set; try done. unfold alive. by rewrite Eb.
Qed.

Lemma swi_kinv me tf c s b s' : swi_handler trapret forkret xstate_addr buf buf2 ustack_addr dev_read dev_write None me tf c s = Ok (b, s') ->
  running s me -> k_nextpid s < 2 ^ 31 - 1 -> kinv s -> kinv s'.
Proof.
  unfold swi_handler. intros E Hr Hn Hi. apply bind_ok_inv in E as ([] & s1 & E1 & E). pose proof (tf_kinv _ _ _ _ E1 Hi) as Hi1. pose proof (running_tf _ _ _ _ E1 Hr) as Hr1.
  apply pupd_view in E1. assert (Hn1 : k_nextpid s1 < 2 ^ 31 - 1) by (change (k_nextpid s1) with (v_next (kview s1)); rewrite E1; exact Hn).
  apply bind_ok_inv in E as (p & s2 & E2 & E). apply pat_view in E2 as [-> _]. destruct (p_killed p); [|exact (syscall_kinv _ _ _ _ _ E Hr1 Hn1 Hi1)].
  apply bind_ok_inv in E as ([] & s3 & E3 & E). injection E as _ <-. exact (exit_kinv _ _ _ _ _ E3 Hr1 Hi1).
Qed.

Lemma irq_kinv gic me tf c s b s' : irq_handler gic me tf c s = Ok (b, s') -> kcalm gic ->
  (forall i, me = Some i -> running s i /\ forall s1 a s2, gic s1 = Ok (a, s2) -> running s1 i -> running s2 i) -> kinv s -> kinv s'.
Proof.
  unfold irq_handler. intros E Hg Hme Hi. apply bind_ok_inv in E as ([] & s1 & E1 & E). destruct me as [i|].
  2: { injection E1 as <-. apply bind_ok_inv in E as (d & s2 & E2 & E). injection E as _ <-. eapply calm_inv; [by eapply Hg|done]. }
  destruct (Hme i eq_refl) as [Hr Hgr]. pose proof (tf_kinv _ _ _ _ E1 Hi) as Hi1. pose proof (running_tf _ _ _ _ E1 Hr) as Hr1.
  apply bind_ok_inv in E as (d & s2 & E2 & E). pose proof (calm_inv _ _ (Hg _ _ _ E2) Hi1) as Hi2. pose proof (Hgr _ _ _ E2 Hr1) as Hr2.
  apply bind_ok_inv in E as (p & s3 & E3 & E). apply pat_view in E3 as [-> _].
  destruct (p_killed p); [|destruct (_ && _); [|by injection E as _ <-]]; apply bind_ok_inv in E as ([] & s4 & E4 & E); injection E as _ <-.
  - exact (exit_kinv _ _ _ _ _ E4 Hr2 Hi2).
  - exact (yield_kinv _ _ _ _ E4 Hr2 Hi2).
Qed.

Lemma kernel_step_kinv s s' : kstep s s' -> kinv s -> kinv s'.
Proof.
  intros [s0 me tf c b s1 Hr Hn E|s0 gic me tf c b s1 Hg Hme E|s0 me c s1 Hr E|s0 me c s1 Hr E|s0 me s1 E|s0 me addr c r s1 Hr E|s0 me ch c s1 Hr E|s0 me s1 Hr E|s0 i r s1 E] Hi.
  - exact (swi_kinv _ _ _ _ _ _ E Hr Hn Hi).
  - exact (irq_kinv _ _ _ _ _ _ _ E Hg Hme Hi).
  - exact (killed_exit_kinv _ _ _ _ E Hr Hi).
  - exact (killed_exit_kinv _ _ _ _ E Hr Hi).
  - eapply calm_inv; [|exact Hi]. eapply (kc_pupd me (set_killed true)); [|exact E]. intros p. split; try done. by left.
  - exact (wait_kinv _ _ _ _ _ _ E Hr Hi).
  - exact (sleep_kinv _ _ _ _ _ E Hr Hi).
  - eapply calm_inv; [|exact Hi]. eapply (kc_pupd me); [|exact E]. intros p. split; try done. by left.
  - exact (sched_kinv _ _ _ _ E Hi).
Qed.

Lemma kreach_kinv s s' : rtc kstep s s' -> kinv s -> kinv s'.
Proof. induction 1; eauto using kernel_step_kinv. Qed.

Lemma userinit_kinv initcode_addr s s' : fresh s -> Forall (fun f => f_ref f = 0) (kf_files (k_io s)) -> userinit trapret forkret initcode_addr s = Ok (tt, s') -> kinv s'.
Proof.
  intros Hf Hz E. split; [by eapply userinit_ok|]. destruct Hf as (_ & _ & Hf).
  apply userinit_view in E as (i & p & q & Hp & Ep & _ & _ & _ & _ & _ & Q4 & Q5). intros f. rewrite Q5, Ep. cbn [kview v_procs v_files] in *.
  pose proof (fdcount_insert f _ i p q Hp) as Hc. rewrite Q4 in Hc.
  assert (H0 : fdcount f (k_procs s) = 0%nat).
  { clear -Hf. unfold fdcount. induction Hf as [|x l (_ & _ & _ & _ & Hx) _ IH]; [done|]. cbn [sum_list_with]. rewrite IH, (occ_none f) by done. done. }
  assert (Hr : fref (kf_files (k_io s)) f = 0).
  { unfold fref. destruct (kf_files (k_io s) !! f) as [x|] eqn:Ex; [|done]. cbn. by eapply Forall_lookup_1 in Hz; [|exact Ex]. }
  lia.
Qed.
End kernel.

(** ** The timer, and the bound of the table *)

Section handlers.
Context {B : Type} {ops : BlockOps B}.
Implicit Types s : kern B.

Lemma kc_wakeup c : kcalm (wakeup (B := B) c).
Proof.
  intros s a s' E. apply upd_procs_view in E. rewrite E. apply calm_procs. intros l. apply quiet_fmap. intros p. apply quiet_wake.
  intros [H _]%andb_true_iff. by apply bool_decide_eq_true in H.
Qed.

Lemma wakeup_running c s a s' i : wakeup c s = Ok (a, s') -> running s i -> running s' i.
Proof.
  intros E%upd_procs_view (p & Hp & Hr). injection E as Ep _ _ _. cbn [kview v_procs] in Ep. exists p. split; [|done]. rewrite Ep, list_lookup_fmap, Hp. cbn.
  by rewrite Hr, bool_decide_eq_false_2.
Qed.

Lemma isr_timer_calm ticks_chan cpuid : kcalm (isr_timer (B := B) ticks_chan cpuid).
Proof. apply kc_if; [|by apply kc_tables, kt_ret]. apply kc_bind; [|intros _; apply kc_wakeup]. intros s a s' [= _ <-]. done. Qed.

Lemma isr_timer_running ticks_chan cpuid s a s' i : isr_timer ticks_chan cpuid s = Ok (a, s') -> running s i -> running s' i.
Proof.
  unfold isr_timer. destruct (cpuid =? 0); [|by intros [= _ <-]]. intros E Hr. apply bind_ok_inv in E as (x & s1 & E1 & E). injection E1 as _ <-.
  eapply wakeup_running; [exact E|exact Hr].
Qed.

End handlers.
