(* ===== verification/KernelExample.v ===== *)
(** A run of the kernel through its handlers: the first process makes a pipe and forks;
    after a timer interrupt the child exits. *)

From S2P Require Import Prelude Spinlock Mem KString Mmu Kalloc Vm VmExample Bio Bytes Blk Fs FsIo Pipe File Proc ProcInv ProcThm ProcExample.
From S2P Require Import Sysproc Exec ExecThm Sysfile Syscall FdRefs KernelInv.

#[local] Existing Instance no_disk.

(** Register frames with the numbers of [pipe], [fork] and [exit], and one past the table. *)
Definition tf_of (num : Z) : Z := kp 0x310 + 0x200 * num.
Definition put_tf (num : Z) (m : mem) : mem := st64 (st64 m (tf_of num) 0) (tf_of num + 8 * 7) num.
Definition kx_mem : mem := put_tf 4 (put_tf 1 (put_tf 2 (put_tf 22 (link_pages 24 0x20 ∅)))).
Definition kx_boot : kern unit :=
  mkkern ex_procs 1 None 0 0 (mkkfs (mkfs tt (replicate NINODE inode0) (mksb 0 0 0 0 0 0 0 0)) (replicate NFILE file0) ∅ (mkkst kx_mem (kp 0x20))).

Definition no_dev (n : Z) : option (M (kfs unit kst) Z) := None.
Definition kx_swi (me : nat) (num : Z) : M (kern unit) bool :=
  swi_handler trapret0 forkret0 xaddr0 (kp 0x340) (kp 0x341) (kp 0x342) no_dev no_dev None me (tf_of num) cpu_user.
Definition kx_timer : M (kern unit) Z := isr_timer (kp 0x350) 0 ;;; ret PIC_TIMER.
Definition kx_irq : M (kern unit) bool := irq_handler kx_timer (Some 0%nat) (tf_of 4) cpu_user.

(** The child's end is counted again after its exit: two references to the pipe's read
    end after the fork, one in the end. *)
Lemma kx_check :
  then_ (userinit trapret0 forkret0 code0) (then_ (scheduler_try 0) (fun s =>
    in_state RUNNING 0 s && (k_nextpid s <? 2 ^ 31 - 1) && then_ (kx_swi 0 4) (fun s =>
      in_state RUNNING 0 s && (k_nextpid s <? 2 ^ 31 - 1) && then_ (kx_swi 0 1) (fun s =>
        in_state RUNNING 0 s && (fref (kf_files (k_io s)) 0 =? 2) && then_ kx_irq (then_ (scheduler_try 1) (fun s =>
          in_state RUNNING 1 s && (k_nextpid s <? 2 ^ 31 - 1) && then_ (kx_swi 1 2) (fun s => fref (kf_files (k_io s)) 0 =? 1) s)) s) s) s)) kx_boot = true.
Proof. vm_compute. reflexivity. Qed.

Lemma kx_fresh : fresh kx_boot /\ Forall (fun f => f_ref f = 0) (kf_files (k_io kx_boot)).
Proof. split; [exact ex_boot_fresh|]. by apply (Forall_replicate _ NFILE). Qed.

Lemma kx_timer_calm : kcalm kx_timer.
Proof. apply kc_bind; [apply isr_timer_calm|]. intros _. apply kc_tables, kt_ret. Qed.

Lemma kx_timer_running s1 a s2 i : kx_timer s1 = Ok (a, s2) -> running s1 i -> running s2 i.
Proof. intros (x & s & E & E2)%bind_ok_inv. injection E2 as _ <-. by eapply isr_timer_running. Qed.

Notation kx_kstep := (kstep trapret0 forkret0 xaddr0 (kp 0x340) (kp 0x341) (kp 0x342) no_dev no_dev).

Lemma kx_swi_step me num s b s' : in_state RUNNING me s && (k_nextpid s <? 2 ^ 31 - 1) = true -> kx_swi me num s = Ok (b, s') -> kx_kstep s s'.
Proof. intros [Hr%ex_running Hn%Z.ltb_lt]%andb_true_iff. unfold kx_swi. exact (ks_swi _ _ _ _ _ _ _ _ _ _ _ _ _ _ Hr Hn). Qed.

Lemma kx_irq_step s b s' : in_state RUNNING 0 s = true -> kx_irq s = Ok (b, s') -> kx_kstep s s'.
Proof.
  unfold kx_irq. intros Hr%ex_running. apply ks_irq; [exact kx_timer_calm|]. intros i [= <-]. split; [exact Hr|intros s1 a s2; apply kx_timer_running].
Qed.

Lemma kx_run : exists s0 s6, userinit trapret0 forkret0 code0 kx_boot = Ok (tt, s0) /\ rtc kx_kstep s0 s6 /\ fref (kf_files (k_io s6)) 0 = 1.
Proof.
  pose proof kx_check as H. apply then_true in H as ([] & s0 & E0 & H). apply then_true in H as (r1 & s1 & E1 & H). apply andb_true_iff in H as [R1 H].
  apply then_true in H as (r2 & s2 & E2 & H). apply andb_true_iff in H as [R2 H]. apply then_true in H as (r3 & s3 & E3 & H). apply andb_true_iff in H as [[R3 _]%andb_true_iff H].
  apply then_true in H as (r4 & s4 & E4 & H). apply then_true in H as (r5 & s5 & E5 & H). apply andb_true_iff in H as [R5 H]. apply then_true in H as (r6 & s6 & E6 & H%Z.eqb_eq).
  exists s0, s6. split; [exact E0|]. split; [|exact H].
  apply (rtc_l _ s0 s1); [exact (ks_sched _ _ _ _ _ _ _ _ _ _ _ _ E1)|]. apply (rtc_l _ s1 s2); [exact (kx_swi_step _ _ _ _ _ R1 E2)|].
  apply (rtc_l _ s2 s3); [exact (kx_swi_step _ _ _ _ _ R2 E3)|]. apply (rtc_l _ s3 s4); [exact (kx_irq_step _ _ _ R3 E4)|].
  apply (rtc_l _ s4 s5); [exact (ks_sched _ _ _ _ _ _ _ _ _ _ _ _ E5)|]. apply (rtc_l _ s5 s6); [exact (kx_swi_step _ _ _ _ _ R5 E6)|apply rtc_refl].
Qed.


(** * A disk with one program, and the first process running it: the witnesses of the
    theorems on [exec]; and a call past the end of the table. *)

(** Inode 1 is in block 2; its file is block 50, a header and one loadable segment of
    two pages whose 8 bytes are at offset 120. *)
Definition elf_bytes : list Z :=
  le_bytes 4 ELF_MAGIC ++ replicate 20 0 ++ le_bytes 8 16 ++ le_bytes 8 64 ++ replicate 16 0 ++ le_bytes 2 1 ++ replicate 6 0 ++
  le_bytes 4 ELF_PROG_LOAD ++ replicate 4 0 ++ le_bytes 8 120 ++ le_bytes 8 0 ++ replicate 8 0 ++ le_bytes 8 8 ++ le_bytes 8 0x1800 ++ replicate 8 0 ++
  [1; 2; 3; 4; 5; 6; 7; 8].
Definition elf_block : block := elf_bytes ++ replicate (Z.to_nat BSIZE - length elf_bytes) 0.
Definition elf_inode : dinode := mkdinode T_FILE 0 0 1 128 (50 :: replicate 12 0).
Definition elf_data (n : nat) : block :=
  if (n =? 2)%nat then write_dinode zero_block (dinode_off 1) elf_inode else if (n =? 50)%nat then elf_block else zero_block.

Definition elf_disk : BlockOps unit := {|
  b_read _ n := ret (Z.to_nat n); b_data n _ := elf_data n; b_store _ _ := ret tt; b_log _ := ret tt; b_release _ := ret tt;
  b_init _ _ _ := ret tt; b_begin := ret tt; b_end := ret tt; b_pid _ := 1
|}.

#[local] Existing Instance elf_disk.

Definition ee_boot : kern unit :=
  mkkern ex_procs 1 None 0 0 (mkkfs (mkfs tt (replicate NINODE inode0) (mksb 0 0 0 0 0 0 2 0)) (replicate NFILE file0) ∅ (mkkst kx_mem (kp 0x20))).

(** The argument is the string of one byte 22 in the frame; the stack of a program of
    one page; a process whose frame asks for number 22. *)
Definition ee_exec : M (kern unit) Z := exec (kp 0x342) 0 [slash] [tf_of 22 + 56].
Definition ee_stack (pagetable : Z) : M (kern unit) (Z * option Z) := exec_stack (kp 0x342) pagetable 4096 [tf_of 22 + 56].

(** [m] returns [v], and its state satisfies [k]. *)
Definition gives {A} `{EqDecision A} (m : M (kern unit) A) (v : A) (k : kern unit -> bool) (s : kern unit) : bool :=
  match m s with Ok (a, s') => bool_decide (a = v) && k s' | _ => false end.

Lemma gives_true {A} `{EqDecision A} (m : M (kern unit) A) v k s : gives m v k s = true -> exists s', m s = Ok (v, s') /\ k s' = true.
Proof. unfold gives. destruct (m s) as [[a s']| | |]; try discriminate. intros [->%bool_decide_eq_true H]%andb_true_iff. by exists s'. Qed.

Lemma ee_check :
  then_ (userinit trapret0 forkret0 code0) (then_ (scheduler_try 0) (fun s =>
    gives ee_exec 1 (fun _ => true) s && gives (ee_stack (p_pagetable (k_procs s !!! 0%nat))) (12288, Some 12264) (fun _ => true) s &&
    then_ (pupd 0 (set_trapframe (tf_of 22))) (fun s => bool_decide (0 < length (k_procs s))%nat && gives (tf_get (k_procs s !!! 0%nat) 7) NSYSCALLS (fun _ => true) s) s)) ee_boot = true.
Proof. vm_compute. reflexivity. Qed.

Lemma tf_get_state p r (s : kern unit) v s' : tf_get p r s = Ok (v, s') -> s' = s.
Proof. destruct s as [ps np i t tt [fs fl pi km]]. by intros [= _ <-]. Qed.

Lemma ee_run : exists s s2 s3 s4 : kern unit, ee_exec s = Ok (1, s2) /\ ee_stack (p_pagetable (k_procs s !!! 0%nat)) s = Ok ((12288, Some 12264), s3) /\
  exists p, k_procs s4 !! 0%nat = Some p /\ tf_get p 7 s4 = Ok (NSYSCALLS, s4).
Proof.
  pose proof ee_check as H. apply then_true in H as ([] & s0 & _ & H). apply then_true in H as (r & s & _ & H). apply andb_true_iff in H as [[H1 H2]%andb_true_iff H].
  apply gives_true in H1 as (s2 & E2 & _). apply gives_true in H2 as (s3 & E3 & _). apply then_true in H as (x & s4 & _ & H). apply andb_true_iff in H as [H4%bool_decide_eq_true H].
  apply gives_true in H as (s5 & E5 & _). pose proof (tf_get_state _ _ _ _ _ E5) as ->. exists s, s2, s3, s4. split; [exact E2|]. split; [exact E3|].
  exists (k_procs s4 !!! 0%nat). split; [by apply list_lookup_lookup_total_lt|exact E5].
Qed.

(** Whatever follows the table. *)
Definition stray (me : nat) (c : cpu) : M (kern unit) outcome := ret (Ret 7).



