(* ===== verification/Ulib.v ===== *)
(** user/ulib.c: the C library of the user programs.  Strings are the lists of their
    bytes before the NUL; [char] is unsigned on this machine.  The routines that move
    bytes work on the byte memory of [Mem]. *)

From S2P Require Import Prelude Mem.

(** [*s] of a string: 0 at the end. *)
Definition chr (s : list Z) : Z := hd 0 s.

(** The string that starts in [l], which may go on behind its NUL. *)
Fixpoint c_str (l : list Z) : list Z :=
  match l with
  | [] => []
  | x :: l' => if x =? 0 then [] else x :: c_str l'
  end.

(** The index of the first [c] before the end. *)
Fixpoint strchr (s : list Z) (c : Z) : option nat :=
  match s with
  | [] => None
  | x :: s' => if x =? 0 then None else if x =? c then Some O else S <$> strchr s' c
  end.

Fixpoint strcmp (p q : list Z) : Z :=
  match p with
  | [] => - chr q
  | x :: p' => if x =? chr q then strcmp p' (tl q) else x - chr q
  end.

(** [n] is an [int]. *)
Fixpoint atoi_loop (s : list Z) (n : Z) : Z :=
  match s with
  | [] => n
  | c :: s' => if (48 <=? c) && (c <=? 57) then atoi_loop s' (s32 (n * 10 + c - 48)) else n
  end.
Definition atoi (s : list Z) : Z := atoi_loop s 0.

(** The bytes read by [gets] from the input [inp] one at a time; [n] is [max - 1 - i]. *)
Fixpoint gets_loop (n : nat) (inp : list Z) : list Z * list Z :=
  match n with
  | O => ([], inp)
  | S n' =>
      match inp with
      | [] => ([], [])
      | c :: inp' => if (c =? 10) || (c =? 13) then ([c], inp') else let r := gets_loop n' inp' in (c :: r.1, r.2)
      end
  end.
Definition gets (max : Z) (inp : list Z) : list Z * list Z := gets_loop (Z.to_nat (max - 1)) inp.

(** The copy of one byte and the loops of [memmove]; [n] is an [int]. *)
Fixpoint move_up (n : nat) (m : mem) (dst src : Z) : mem :=
  match n with
  | O => m
  | S n' => move_up n' (stb m dst (ldb m src)) (dst + 1) (src + 1)
  end.
Fixpoint move_down (n : nat) (m : mem) (dst src : Z) : mem :=
  match n with
  | O => m
  | S n' => move_down n' (stb m (dst - 1) (ldb m (src - 1))) (dst - 1) (src - 1)
  end.
Definition memmove (m : mem) (vdst vsrc n : Z) : mem :=
  if vdst <? vsrc then move_up (Z.to_nat n) m vdst vsrc else move_down (Z.to_nat n) m (vdst + n) (vsrc + n).
Definition memcpy (m : mem) (dst src n : Z) : mem := memmove m dst src n.

(** [i < n] compares an [int] with a [uint]; the loop runs [n] times. *)
Fixpoint memset_loop (n : nat) (m : mem) (p c : Z) : mem :=
  match n with
  | O => m
  | S n' => memset_loop n' (stb m p c) (p + 1) c
  end.
Definition memset (m : mem) (dst c n : Z) : mem := memset_loop (Z.to_nat (u32 n)) m dst c.

Fixpoint memcmp_loop (n : nat) (m : mem) (p1 p2 : Z) : Z :=
  match n with
  | O => 0
  | S n' => if ldb m p1 =? ldb m p2 then memcmp_loop n' m (p1 + 1) (p2 + 1) else ldb m p1 - ldb m p2
  end.
Definition memcmp (m : mem) (s1 s2 n : Z) : Z := memcmp_loop (Z.to_nat (u32 n)) m s1 s2.

(** [n] is an [int], the result a [uint]. *)
Fixpoint strlen_loop (s : list Z) (n : Z) : Z :=
  match s with
  | [] => n
  | x :: s' => if x =? 0 then n else strlen_loop s' (s32 (n + 1))
  end.
Definition strlen (s : list Z) : Z := u32 (strlen_loop s 0).

(** [None] when the fuel ends before a NUL was copied. *)
Fixpoint strcpy (fuel : nat) (m : mem) (s t : Z) : option mem :=
  match fuel with
  | O => None
  | S f =>
      let c := ldb m t in
      let m' := stb m s c in
      if c =? 0 then Some m' else strcpy f m' (s + 1) (t + 1)
  end.

(** ** Copying and measuring *)

Lemma strlen_length s : Z.of_nat (length s) < 2 ^ 31 -> strlen s = Z.of_nat (length (c_str s)).
Proof.
  intros Hl. assert (H : forall n, 0 <= n -> n + Z.of_nat (length s) < 2 ^ 31 -> strlen_loop s n = n + Z.of_nat (length (c_str s)) /\ (length (c_str s) <= length s)%nat).
  { clear Hl. induction s as [|x s IH]; intros n Hn Hl; cbn [strlen_loop c_str length]; [cbn; lia|]. cbn [length] in Hl. destruct (Z.eqb_spec x 0); [cbn; lia|].
    destruct (IH (s32 (n + 1))) as [-> Hc]; rewrite ?s32_small by lia; cbn [length]; lia. }
  destruct (H 0) as [E Hc]; [lia..|]. unfold strlen. rewrite E. apply u32_small. lia.
Qed.

(** [strcpy] copies a string and its NUL to a place that does not overlap it, and
    changes nothing else; one turn per byte is enough. *)
Theorem strcpy_copies l : forall m s t, Forall (fun x => x <> 0) l -> (forall i : nat, (i <= length l)%nat -> ldb m (t + Z.of_nat i) = (l ++ [0]) !!! i) ->
  s + Z.of_nat (length l) < t \/ t + Z.of_nat (length l) < s ->
  exists m', strcpy (S (length l)) m s t = Some m' /\
    forall a, ldb m' a = if decide (s <= a <= s + Z.of_nat (length l)) then (l ++ [0]) !!! Z.to_nat (a - s) else ldb m a.
Proof.
  induction l as [|x l IH]; intros m s t Hnz Hm Hd.
  - pose proof (Hm O ltac:(cbn; lia)) as H0. rewrite Z.add_0_r in H0. cbn [strcpy length]. rewrite H0. cbn. eexists. split; [done|]. intros a. rewrite ldb_stb. cbn [length] in *.
    repeat case_decide; try lia. by replace (Z.to_nat (a - s)) with O by lia.
  - apply Forall_cons in Hnz as [Hx Hnz]. cbn [length] in *. assert (H0 : ldb m t = x) by (rewrite <- (Z.add_0_r t); exact (Hm O ltac:(lia))). pose proof (ldb_range m t) as Hr. rewrite H0 in Hr.
    assert (Es : strcpy (S (S (length l))) m s t = strcpy (S (length l)) (stb m s x) (s + 1) (t + 1)) by (change (strcpy (S (S (length l))) m s t) with (if ldb m t =? 0 then Some (stb m s (ldb m t)) else strcpy (S (length l)) (stb m s (ldb m t)) (s + 1) (t + 1)); rewrite H0; by destruct (Z.eqb_spec x 0)).
    rewrite Es. destruct (IH (stb m s x) (s + 1) (t + 1) Hnz) as (m' & E & Hm').
    + intros i Hi. rewrite ldb_stb_ne by lia. etrans; [|exact (Hm (S i) ltac:(lia))]. f_equal. lia.
    + lia.
    + exists m'. split; [exact E|]. intros a. rewrite Hm', ldb_stb. repeat case_decide; try lia; [|replace (Z.to_nat (a - s)) with O by lia; by apply u8_small].
      replace (Z.to_nat (a - s)) with (S (Z.to_nat (a - (s + 1)))) by lia. done.
Qed.

(** ** Searching *)

Lemma chr_cons c s : chr (c :: s) = c.
Proof. done. Qed.

Lemma strchr_none s c : Forall (fun x => x <> 0) s -> c ∉ s -> strchr s c = None.
Proof.
  induction 1 as [|x s Hx _ IH]; intros Hc; [done|]. cbn. apply not_elem_of_cons in Hc as [Hne Hc].
  destruct (Z.eqb_spec x 0); [done|]. destruct (Z.eqb_spec x c); [congruence|]. by rewrite IH.
Qed.

(** The first [c] of a string that has one. *)
Lemma strchr_app a b c : Forall (fun x => x <> 0) a -> c ∉ a -> c <> 0 -> strchr (a ++ c :: b) c = Some (length a).
Proof.
  induction 1 as [|x a Hx _ IH]; intros Hc Hc0; cbn.
  - destruct (Z.eqb_spec c 0); [done|]. by rewrite Z.eqb_refl.
  - apply not_elem_of_cons in Hc as [Hne Hc]. destruct (Z.eqb_spec x 0); [done|]. destruct (Z.eqb_spec x c); [congruence|]. by rewrite IH.
Qed.

Lemma strchr_nul a b c : Forall (fun x => x <> 0) a -> c ∉ a -> strchr (a ++ 0 :: b) c = None.
Proof.
  induction 1 as [|x a Hx _ IH]; intros Hc; [done|]. cbn. apply not_elem_of_cons in Hc as [Hne Hc].
  destruct (Z.eqb_spec x 0); [done|]. destruct (Z.eqb_spec x c); [congruence|]. by rewrite IH.
Qed.

Lemma c_str_nul a b : Forall (fun x => x <> 0) a -> c_str (a ++ 0 :: b) = a.
Proof. induction 1 as [|x a Hx _ IH]; [done|]. cbn. destruct (Z.eqb_spec x 0); [done|]. by rewrite IH. Qed.
