(* ===== verification/Grep.v ===== *)
(** user/grep.c: the regular expression matcher and the loop over the lines of a file. *)

From S2P Require Import Prelude Mem Ulib.

Definition caret : Z := 94.
Definition dollar : Z := 36.
Definition star : Z := 42.
Definition dot : Z := 46.
Definition newline : Z := 10.

(** ** The matcher *)

(** [matchstar] for a character that is tried before the rest of the expression, which
    [here] matches. *)
Fixpoint star_loop (here : list Z -> bool) (c : Z) (text : list Z) : bool :=
  here text ||
  match text with
  | [] => false
  | x :: text' => if (x =? c) || (c =? dot) then star_loop here c text' else false
  end.

Fixpoint matchhere (re text : list Z) : bool :=
  match re with
  | [] => true
  | c :: re1 =>
      match re1 with
      | s :: re2 => if s =? star then star_loop (matchhere re2) c text else
          match text with
          | [] => false
          | x :: text' => if (c =? dot) || (c =? x) then matchhere re1 text' else false
          end
      | [] => if c =? dollar then bool_decide (text = []) else
          match text with
          | [] => false
          | x :: text' => if (c =? dot) || (c =? x) then matchhere re1 text' else false
          end
      end
  end.

Definition matchstar (c : Z) (re text : list Z) : bool := star_loop (matchhere re) c text.

(** The loop of [match] over the ends of the text, the empty one included. *)
Fixpoint match_loop (re text : list Z) : bool :=
  matchhere re text || match text with [] => false | _ :: text' => match_loop re text' end.

Definition match_ (re text : list Z) : bool :=
  match re with
  | c :: re' => if c =? caret then matchhere re' text else match_loop re text
  | [] => match_loop re text
  end.

(** ** The file *)

Definition BUFSZ : nat := 1024.

(** The state: [buf], [m], what the file still holds, how often it was read, the output. *)
Record gst := mkgst { g_buf : list Z; g_m : nat; g_in : list Z; g_reads : nat; g_out : list Z }.

(** [write(i, ..)] of [data] at index [i] *)
Definition put_at (i : nat) (data buf : list Z) : list Z := take i buf ++ data ++ drop (i + length data) buf.

Section grep.
(** How much the [n]-th [read] may return; a read returns a byte at least, unless there
    is none left or no room. *)
Context (chunk : nat -> nat) (pattern : list Z).

Definition read_len (s : gst) (want : nat) : nat := Nat.min (S (chunk (g_reads s))) (Nat.min want (length (g_in s))).

(** The loop over the lines in the buffer from [p]. *)
Fixpoint lines_loop (fuel : nat) (buf : list Z) (p : nat) (out : list Z) : option (list Z * nat * list Z) :=
  match fuel with
  | O => None
  | S f =>
      match strchr (drop p buf) newline with
      | None => Some (buf, p, out)
      | Some k =>
          let q := (p + k)%nat in
          let buf := <[q := 0]> buf in
          if match_ pattern (c_str (drop p buf))
          then let buf := <[q := newline]> buf in lines_loop f buf (S q) (out ++ take (S q - p) (drop p buf))
          else lines_loop f buf (S q) out
      end
  end.

Fixpoint grep_loop (fuel : nat) (s : gst) : option gst :=
  match fuel with
  | O => None
  | S f =>
      let n := read_len s (BUFSZ - g_m s - 1) in
      if (n =? 0)%nat then Some s else
      let buf := put_at (g_m s) (take n (g_in s)) (g_buf s) in
      let m := (g_m s + n)%nat in
      let buf := <[m := 0]> buf in
      match lines_loop (S BUFSZ) buf 0 (g_out s) with
      | None => None
      | Some (buf, p, out) =>
          let m' := (m - p)%nat in
          let buf := put_at 0 (take m' (drop p buf)) buf in
          grep_loop f (mkgst buf m' (drop n (g_in s)) (S (g_reads s)) out)
      end
  end.

(** [buf] holds what a run before left in it. *)
Definition grep (buf file : list Z) : option gst := grep_loop (S (length file)) (mkgst buf 0 file 0 []).
End grep.
