(* ===== verification/GrepThm.v ===== *)
(** The matcher of user/grep.c decides the language of its expression, and [grep]
    prints the lines that match, however the file is read. *)

From S2P Require Import Prelude Mem Ulib Grep.

(** ** Expressions as languages *)

(** A character, or any number of them; [dot] stands for every character. *)
Inductive item := One (c : Z) | Many (c : Z).

Definition accepts (c x : Z) : Prop := c = dot \/ c = x.

(** The items of an expression, and whether it ends in [dollar]. *)
Fixpoint items (re : list Z) : list item * bool :=
  match re with
  | [] => ([], false)
  | c :: re1 =>
      match re1 with
      | s :: re2 => if s =? star then let r := items re2 in (Many c :: r.1, r.2) else let r := items re1 in (One c :: r.1, r.2)
      | [] => if c =? dollar then ([], true) else ([One c], false)
      end
  end.

Fixpoint lang (l : list item) (w : list Z) : Prop :=
  match l with
  | [] => w = []
  | One c :: l' => exists x w', w = x :: w' /\ accepts c x /\ lang l' w'
  | Many c :: l' => exists u v, w = u ++ v /\ Forall (accepts c) u /\ lang l' v
  end.

(** [text] begins with a word of the items, and is that word if [whole]. *)
Definition prefix_in (r : list item * bool) (text : list Z) : Prop :=
  exists mid post, text = mid ++ post /\ lang r.1 mid /\ (r.2 = true -> post = []).

Definition anchored (re : list Z) : bool := match re with c :: _ => c =? caret | [] => false end.
Definition body (re : list Z) : list Z := if anchored re then tl re else re.

Lemma prefix_one c l b text : prefix_in (One c :: l, b) text <-> exists x t, text = x :: t /\ accepts c x /\ prefix_in (l, b) t.
Proof.
  split.
  - intros (mid & post & -> & (x & w & -> & Hx & Hw) & Hb). exists x, (w ++ post). split; [done|]. split; [done|]. by exists w, post.
  - intros (x & t & -> & Hx & mid & post & -> & Hl & Hb). exists (x :: mid), post. split; [done|]. split; [by exists x, mid|done].
Qed.

Lemma prefix_many c l b text : prefix_in (Many c :: l, b) text <-> exists u t, text = u ++ t /\ Forall (accepts c) u /\ prefix_in (l, b) t.
Proof.
  split.
  - intros (mid & post & -> & (u & v & -> & Hu & Hv) & Hb). exists u, (v ++ post). rewrite (assoc_L (++)). split; [done|]. split; [done|]. by exists v, post.
  - intros (u & t & -> & Hu & mid & post & -> & Hl & Hb). exists (u ++ mid), post. rewrite (assoc_L (++)). split; [done|]. split; [by exists u, mid|done].
Qed.

Lemma star_loop_spec here c P : (forall t, here t = true <-> P t) -> forall text,
  star_loop here c text = true <-> exists u t, text = u ++ t /\ Forall (accepts c) u /\ P t.
Proof.
  intros HP. induction text as [|x text IH]; cbn [star_loop].
  - rewrite orb_false_r, HP. split; [intros H; by exists [], []|]. intros (u & t & E & _ & Ht). symmetry in E. apply app_nil in E as [-> ->]. done.
  - rewrite orb_true_iff, HP. split.
    + intros [H|H]; [by exists [], (x :: text)|]. destruct (_ || _) eqn:E; [|done]. apply IH in H as (u & t & -> & Hu & Ht).
      exists (x :: u), t. split; [done|]. split; [|done]. constructor; [|done]. unfold accepts. apply orb_true_iff in E as [E%Z.eqb_eq|E%Z.eqb_eq]; auto.
    + intros ([|y u] & t & E & Hu & Ht); cbn in E; [left; by subst|]. injection E as <- ->. apply Forall_cons in Hu as [Hx Hu]. right.
      assert ((x =? c) || (c =? dot) = true) as -> by (unfold accepts in Hx; apply orb_true_iff; rewrite !Z.eqb_eq; naive_solver). apply IH. by exists u, t.
Qed.

Lemma one_spec c re l b text : (forall t, matchhere re t = true <-> prefix_in (l, b) t) ->
  match text with [] => false | x :: text' => if (c =? dot) || (c =? x) then matchhere re text' else false end = true <-> prefix_in (One c :: l, b) text.
Proof.
  intros IH. rewrite prefix_one. destruct text as [|x t]; [split; [done|by intros (? & ? & ? & _)]|]. unfold accepts. split.
  - destruct (_ || _) eqn:E; [|done]. intros H%IH. exists x, t. split; [done|]. split; [|done]. apply orb_true_iff in E. by rewrite !Z.eqb_eq in E.
  - intros (y & t' & [= <- <-] & Hx & Ht). assert ((c =? dot) || (c =? x) = true) as -> by (apply orb_true_iff; by rewrite !Z.eqb_eq). by apply IH.
Qed.

Lemma prefix_end text : text = [] <-> prefix_in ([], true) text.
Proof. split; [intros ->; by exists [], []|]. intros (mid & post & -> & Hm & Hp). cbn in Hm. by rewrite Hm, Hp. Qed.

Lemma prefix_nil text : prefix_in ([], false) text.
Proof. by exists [], text. Qed.

Lemma matchhere_spec : forall n re, (length re <= n)%nat -> forall text, matchhere re text = true <-> prefix_in (items re) text.
Proof.
  induction n as [|n IH]; intros [|c [|s re2]] Hn text; cbn in Hn; try lia; try (cbn; split; [intros _; apply prefix_nil|done]).
  - cbn [matchhere items]. destruct (c =? dollar); [rewrite bool_decide_eq_true; apply prefix_end|].
    apply (one_spec c []). intros t. split; [intros _; apply prefix_nil|done].
  - cbn [matchhere]. change (items (c :: s :: re2)) with
      (if s =? star then let r := items re2 in (Many c :: r.1, r.2) else let r := items (s :: re2) in (One c :: r.1, r.2)). destruct (s =? star).
    + rewrite (star_loop_spec _ _ (prefix_in (items re2))) by (intros; apply IH; lia). cbv zeta. rewrite prefix_many. by destruct (items re2).
    + cbv zeta. apply (one_spec c (s :: re2)). intros t. rewrite IH by (cbn; lia). by destruct (items (s :: re2)).
Qed.

Lemma match_loop_spec re : forall text, match_loop re text = true <-> exists pre t, text = pre ++ t /\ matchhere re t = true.
Proof.
  induction text as [|x text IH]; cbn [match_loop]; rewrite orb_true_iff.
  - split; [intros [H|?]; [by exists [], []|done]|]. intros (pre & t & E & H). symmetry in E. apply app_nil in E as [-> ->]. by left.
  - rewrite IH. split.
    + intros [H|(pre & t & -> & H)]; [by exists [], (x :: text)|by exists (x :: pre), t].
    + intros ([|y pre] & t & E & H); cbn in E; [left; by subst|]. injection E as <- ->. right. by exists pre, t.
Qed.

Lemma match_unfold re text : match_ re text = if anchored re then matchhere (body re) text else match_loop re text.
Proof. unfold match_, body, anchored. destruct re as [|c re]; [done|]. by destruct (c =? caret). Qed.

(** C20: [match] accepts a text exactly when it contains a word of the language that
    the expression denotes - characters, dots and starred ones in sequence - at the
    beginning if the expression starts with [caret], and at the end if it ends with
    [dollar]. *)
Theorem match_decides_language re text : match_ re text = true <->
  exists pre mid post, text = pre ++ mid ++ post /\ lang (items (body re)).1 mid /\
    (anchored re = true -> pre = []) /\ ((items (body re)).2 = true -> post = []).
Proof.
  rewrite match_unfold. unfold body. destruct (anchored re).
  - rewrite (matchhere_spec _ _ (Nat.le_refl _)). split.
    + intros (mid & post & -> & H1 & H2). by exists [], mid, post.
    + intros (pre & mid & post & -> & H1 & H0 & H2). rewrite H0 by done. by exists mid, post.
  - rewrite match_loop_spec. split.
    + intros (pre & t & -> & (mid & post & -> & H1 & H2)%(matchhere_spec _ _ (Nat.le_refl _))). by exists pre, mid, post.
    + intros (pre & mid & post & -> & H1 & _ & H2). exists pre, (mid ++ post). split; [done|]. apply (matchhere_spec _ _ (Nat.le_refl _)). by exists mid, post.
Qed.

(** * [grep] over a file: whatever the sizes of the reads, the output is the complete
    lines that match, in order. *)

(** The complete lines of a text, and what follows the last newline. *)
Fixpoint lines (s : list Z) : list (list Z) * list Z :=
  match s with
  | [] => ([], [])
  | c :: s' =>
      let r := lines s' in
      if c =? newline then ([] :: r.1, r.2)
      else match r.1 with [] => ([], c :: r.2) | l :: ls => ((c :: l) :: ls, r.2) end
  end.

(** The lines of [ls] that match, as they are printed. *)
Definition printed (pattern : list Z) (ls : list (list Z)) : list Z :=
  concat ((fun l => l ++ [newline]) <$> filter (fun l => match_ pattern l = true) ls).

(** No line is longer than the buffer allows. *)
Definition short (s : list Z) : Prop := Forall (fun l => (length l <= BUFSZ - 2)%nat) ((lines s).2 :: (lines s).1).

Notation nonul := (Forall (fun x : Z => x <> 0)).

Lemma lines_plain a : newline ∉ a -> lines a = ([], a).
Proof.
  induction a as [|c a IH]; [done|]. intros [Hc Ha]%not_elem_of_cons. cbn. destruct (Z.eqb_spec c newline); [congruence|]. by rewrite IH.
Qed.

Lemma lines_nl a b : newline ∉ a -> lines (a ++ newline :: b) = (a :: (lines b).1, (lines b).2).
Proof.
  induction a as [|c a IH]; [done|]. intros [Hc Ha]%not_elem_of_cons. cbn [app lines]. destruct (Z.eqb_spec c newline); [congruence|].
  by rewrite (IH Ha).
Qed.

(** A text has no newline, or a first one. *)
Lemma first_nl t : newline ∉ t \/ exists a b, t = a ++ newline :: b /\ newline ∉ a.
Proof.
  induction t as [|c t IH]; [left; apply not_elem_of_nil|]. destruct (decide (c = newline)) as [->|Hc]; [right; exists [], t; split; [done|apply not_elem_of_nil]|].
  destruct IH as [H|(a & b & -> & H)]; [left; by apply not_elem_of_cons|right]. exists (c :: a), b. split; [done|]. by apply not_elem_of_cons.
Qed.

Lemma lines_rest : forall n t, (length t <= n)%nat -> newline ∉ (lines t).2.
Proof.
  induction n as [|n IH]; intros t Hn; (destruct (first_nl t) as [H|(a & b & -> & H)]; [by rewrite lines_plain|]); rewrite length_app in Hn; cbn in Hn; [lia|].
  rewrite lines_nl by done. cbn. apply IH. lia.
Qed.

Lemma lines_app : forall n x y, (length x <= n)%nat ->
  lines (x ++ y) = ((lines x).1 ++ (lines ((lines x).2 ++ y)).1, (lines ((lines x).2 ++ y)).2).
Proof.
  induction n as [|n IH]; intros x y Hn; (destruct (first_nl x) as [H|(a & b & -> & H)];
    [rewrite (lines_plain x) by done; cbn [fst snd app]; by destruct (lines (x ++ y))|]); rewrite length_app in Hn; cbn in Hn; [lia|].
  rewrite <- (assoc_L (++)). cbn [app]. rewrite !lines_nl by done. cbn [fst snd app]. rewrite IH by lia. done.
Qed.

Lemma lines_count : forall n t, (length t <= n)%nat -> (length (lines t).1 <= length t)%nat.
Proof.
  induction n as [|n IH]; intros t Hn; (destruct (first_nl t) as [H|(a & b & -> & H)]; [rewrite lines_plain by done; cbn; lia|]); rewrite length_app in *; cbn in Hn; [lia|].
  rewrite lines_nl by done. cbn. specialize (IH b ltac:(lia)). lia.
Qed.

Lemma lines_nonul : forall n t, (length t <= n)%nat -> nonul t -> nonul (lines t).2.
Proof.
  induction n as [|n IH]; intros t Hn Ht; (destruct (first_nl t) as [H|(a & b & -> & H)]; [by rewrite lines_plain|]); rewrite length_app in Hn; cbn in Hn; [lia|].
  rewrite lines_nl by done. apply Forall_app in Ht as [_ [_ Ht]%Forall_cons]. apply IH; [lia|done].
Qed.

Lemma lines_rest_length : forall n t, (length t <= n)%nat -> (length (lines t).2 <= length t)%nat.
Proof.
  induction n as [|n IH]; intros t Hn; (destruct (first_nl t) as [H|(a & b & -> & H)]; [by rewrite lines_plain|]); rewrite length_app in *; cbn in Hn; [lia|].
  rewrite lines_nl by done. cbn. specialize (IH b ltac:(lia)). lia.
Qed.

(** What is carried over fits in the buffer. *)
Lemma short_rest r y : newline ∉ r -> short (r ++ y) -> (length r <= BUFSZ - 2)%nat.
Proof.
  intros Hr Hs. destruct (first_nl y) as [H|(a & b & -> & H)]; unfold short in Hs.
  - rewrite lines_plain in Hs by (by apply not_elem_of_app). apply Forall_cons in Hs as [Hs _]. cbn [snd] in Hs. rewrite length_app in Hs. lia.
  - rewrite (assoc_L (++)), lines_nl in Hs by (by apply not_elem_of_app). apply Forall_cons in Hs as [_ [Hs _]%Forall_cons]. rewrite length_app in Hs. lia.
Qed.

Lemma printed_app pat a b : printed pat (a ++ b) = printed pat a ++ printed pat b.
Proof. unfold printed. by rewrite filter_app, fmap_app, concat_app. Qed.

Lemma printed_cons pat l ls : printed pat (l :: ls) = (if match_ pat l then l ++ [newline] else []) ++ printed pat ls.
Proof. unfold printed. rewrite filter_cons. by destruct (match_ pat l). Qed.

(** ** One buffer *)

Lemma drop_put (buf : list Z) p v w a b : drop p buf = a ++ w :: b -> drop p (<[(p + length a)%nat := v]> buf) = a ++ v :: b.
Proof.
  intros E. assert (Hl : length (take p buf) = p) by (rewrite length_take; apply (f_equal length) in E; rewrite length_drop, length_app in E; cbn in E; lia).
  rewrite <- (take_drop p buf) at 1. rewrite E, insert_app_r_alt, Hl by lia. rewrite drop_app_length' by done.
  replace (p + length a - p)%nat with (length a + 0)%nat by lia. by rewrite insert_app_r.
Qed.

Lemma drop_past (buf a b : list Z) p w : drop p buf = a ++ w :: b -> drop (S (p + length a)) buf = b.
Proof.
  intros E. replace (S (p + length a)) with (p + (length a + 1))%nat by lia. rewrite <- drop_drop, E, drop_app_ge by lia.
  replace (length a + 1 - length a)%nat with 1%nat by lia. done.
Qed.

Lemma lines_loop_spec pat junk : forall f buf p t out, drop p buf = t ++ 0 :: junk -> nonul t -> (length (lines t).1 < f)%nat ->
  exists buf', lines_loop pat f buf p out = Some (buf', (p + (length t - length (lines t).2))%nat, out ++ printed pat (lines t).1) /\
    drop (p + (length t - length (lines t).2)) buf' = (lines t).2 ++ 0 :: junk /\ length buf' = length buf.
Proof.
  induction f as [|f IH]; intros buf p t out E Hn Hf; [lia|]. cbn [lines_loop]. rewrite E. destruct (first_nl t) as [H|(a & b & -> & H)].
  - rewrite strchr_nul by done. rewrite lines_plain by done. cbn [fst snd]. rewrite Nat.sub_diag, Nat.add_0_r. exists buf. by rewrite app_nil_r.
  - rewrite <- (assoc_L (++)) in *. cbn [app] in *. apply Forall_app in Hn as [Ha [_ Hb]%Forall_cons].
    rewrite strchr_app by done. rewrite lines_nl in Hf |- * by done. cbn [fst snd length] in *.
    pose proof (drop_put buf p 0 _ _ _ E) as E1. rewrite E1, c_str_nul by done. rewrite printed_cons.
    pose proof (lines_rest_length _ b (Nat.le_refl _)) as Hlen.
    assert (Hgo : forall buf1 w out1, drop p buf1 = a ++ w :: b ++ 0 :: junk -> exists buf',
      lines_loop pat f buf1 (S (p + length a)) out1 = Some (buf', (p + (length (a ++ newline :: b) - length (lines b).2))%nat, out1 ++ printed pat (lines b).1) /\
      drop (p + (length (a ++ newline :: b) - length (lines b).2)) buf' = (lines b).2 ++ 0 :: junk /\ length buf' = length buf1).
    { intros buf1 w out1 Ew. destruct (IH buf1 (S (p + length a)) b out1 (drop_past _ _ _ _ _ Ew) Hb ltac:(lia)) as (buf' & R1 & R2 & R3).
      replace (p + (length (a ++ newline :: b) - length (lines b).2))%nat with (S (p + length a) + (length b - length (lines b).2))%nat by (rewrite length_app; cbn; lia). by exists buf'. }
    destruct (match_ pat a).
    + pose proof (drop_put _ p newline _ _ _ E1) as E2. rewrite E2. replace (S (p + length a) - p)%nat with (length a + 1)%nat by lia. rewrite take_app_add.
      change (take 1 (newline :: b ++ 0 :: junk)) with [newline]. destruct (Hgo _ _ (out ++ a ++ [newline]) E2) as (buf' & R1 & R2 & R3).
      exists buf'. rewrite R1. rewrite !length_insert in R3. by rewrite <- (assoc_L (++) out).
    + destruct (Hgo _ _ out E1) as (buf' & R1 & R2 & R3). exists buf'. rewrite R1. by rewrite length_insert in R3.
Qed.

(** ** The whole file *)

Lemma put_at_length i data buf : (i + length data <= length buf)%nat -> length (put_at i data buf) = length buf.
Proof. intros H. unfold put_at. rewrite !length_app, length_take, length_drop. lia. Qed.

Lemma put_at_take data buf : take (length data) (put_at 0 data buf) = data.
Proof. exact (take_app_length data _). Qed.

Lemma printed_rest pat r : newline ∉ r -> printed pat (lines r).1 = [].
Proof. intros H. by rewrite lines_plain. Qed.

Lemma grep_loop_spec chunk pat : forall f s, (length (g_in s) < f)%nat -> length (g_buf s) = BUFSZ ->
  newline ∉ take (g_m s) (g_buf s) -> (g_m s < BUFSZ)%nat -> nonul (take (g_m s) (g_buf s) ++ g_in s) -> short (take (g_m s) (g_buf s) ++ g_in s) ->
  exists s', grep_loop chunk pat f s = Some s' /\ g_out s' = g_out s ++ printed pat (lines (take (g_m s) (g_buf s) ++ g_in s)).1.
Proof.
  induction f as [|f IH]; intros [buf m inp k out] Hf Hl Hr Hm Hn Hs; cbn [g_buf g_m g_in g_reads g_out] in *; [lia|]. cbn [grep_loop g_buf g_m g_in g_reads g_out].
  assert (HB : (2 <= BUFSZ)%nat) by (unfold BUFSZ; lia). pose proof (short_rest _ _ Hr Hs) as Hm'. rewrite length_take, Nat.min_l in Hm' by lia. set (r := take m buf) in *.
  assert (Hrl : length r = m) by (unfold r; rewrite length_take; lia).
  unfold read_len. cbn [g_reads g_in]. set (n := Nat.min _ _). destruct (Nat.eqb_spec n 0) as [Hn0|Hn0].
  { assert (inp = []) as -> by (destruct inp; [done|]; unfold n in Hn0; cbn [length] in Hn0; lia). exists (mkgst buf m [] k out). rewrite app_nil_r in *.
    rewrite printed_rest by done. by rewrite app_nil_r. }
  assert (Hni : (n <= length inp)%nat) by (unfold n; lia). assert (Hnb : (m + n < BUFSZ)%nat) by (unfold n; lia).
  assert (Htl : length (take n inp) = n) by (rewrite length_take; lia).
  set (junk := drop (S (m + n)) buf).
  assert (E0 : <[(m + n)%nat := 0]> (put_at m (take n inp) buf) = (r ++ take n inp) ++ 0 :: junk).
  { unfold put_at. fold r. rewrite (assoc_L (++)), insert_app_r_alt by (rewrite length_app; lia). f_equal. rewrite length_app, Hrl, Htl, Nat.sub_diag.
    rewrite (drop_S _ (buf !!! (m + n)%nat)) by (apply list_lookup_lookup_total_lt; lia). done. }
  rewrite E0. set (t := r ++ take n inp) in *.
  assert (Et : r ++ inp = t ++ drop n inp) by (unfold t; by rewrite <- (assoc_L (++)), take_drop).
  rewrite Et in Hn, Hs |- *. apply Forall_app in Hn as [Hnt Hnd]. pose proof (lines_count _ t (Nat.le_refl _)) as Hc.
  assert (Htn : length t = (m + n)%nat) by (unfold t; rewrite length_app; lia).
  destruct (lines_loop_spec pat junk (S BUFSZ) (t ++ 0 :: junk) 0 t out) as (buf' & R1 & R2 & R3); [done|done|lia|]. rewrite R1. cbn [Nat.add] in *.
  set (p := (length t - length (lines t).2)%nat) in *.
  pose proof (lines_rest_length _ t (Nat.le_refl _)) as Hrest.
  assert (Hp : (m + n - p)%nat = length (lines t).2) by (unfold p; lia). rewrite Hp. rewrite R2, take_app_length.
  assert (Hb' : length buf' = BUFSZ) by (rewrite R3, <- E0, length_insert, put_at_length by lia; done).
  destruct (IH (mkgst (put_at 0 (lines t).2 buf') (length (lines t).2) (drop n inp) (S k) (out ++ printed pat (lines t).1))) as (s' & S1 & S2);
    cbn [g_buf g_m g_in g_reads g_out] in *; rewrite ?put_at_take in *.
  - rewrite length_drop. lia.
  - by rewrite put_at_length by (cbn; lia).
  - by apply (lines_rest (length t)).
  - lia.
  - apply Forall_app. split; [|done]. apply (lines_nonul (length t)); [done|done].
  - unfold short in *. rewrite (lines_app (length t)) in Hs by done. cbn [fst snd] in Hs. apply Forall_cons in Hs as [H1 H2]. apply Forall_app in H2 as [_ H2]. by constructor.
  - exists s'. split; [exact S1|]. rewrite S2. rewrite (lines_app (length t) t (drop n inp)) by done. cbn [fst]. rewrite printed_app. symmetry. apply (assoc_L (++) out).
Qed.


