(* ===== verification/Sh.v ===== *)
(** user/sh.c: the parser of the shell.  The command line is the list of its bytes; a
    pointer into it is an index, the state of the parser is [*ps], and [es] is the
    length.  Memory for the nodes is taken to be there. *)

From S2P Require Import Prelude Mem Ulib.

(** struct cmd and its variants, over what stands for a string. *)
Inductive cmdof (W : Type) :=
| EXEC (argv : list W)
| REDIR (c : cmdof W) (file : W) (mode fd : Z)
| PIPE (left right : cmdof W)
| LIST (left right : cmdof W)
| BACK (c : cmdof W).
Arguments EXEC {W} argv.
Arguments REDIR {W} c file mode fd.
Arguments PIPE {W} left right.
Arguments LIST {W} left right.
Arguments BACK {W} c.

(** The strings of [argv] and [file] in the line: where they begin and end. *)
Definition word : Type := nat * nat.
Definition cmd : Type := cmdof word.

Definition MAXARGS : nat := 10.
Definition whitespace : list Z := [32; 9; 13; 10; 11].
Definition symbols : list Z := [60; 124; 62; 38; 59; 40; 41].

Definition isin (set : list Z) (c : Z) : bool := bool_decide (is_Some (strchr set c)).

(** kernel/fcntl.h *)
Definition O_RDONLY : Z := 0.
Definition O_WRONLY : Z := 1.
Definition O_CREATE : Z := 0x200.
Definition O_TRUNC : Z := 0x400.

(** How far a loop [while(s < es && f( *s)) s++] goes. *)
Fixpoint span_len (f : Z -> bool) (l : list Z) : nat :=
  match l with
  | c :: l' => if f c then S (span_len f l') else O
  | [] => O
  end.

Section Sh.
Context (buf : list Z).
Notation P := (M nat).

Definition at_ (i : nat) : Z := chr (drop i buf).
Definition skip (f : Z -> bool) (i : nat) : nat := (i + span_len f (drop i buf))%nat.

(** The token, and where it begins and ends.  43 stands for the token that appends and
    97 for a word. *)
Definition gettoken : P (Z * word) := fun ps =>
  let s := skip (isin whitespace) ps in
  let q := s in
  let c := at_ s in
  let '(r, s) :=
    if c =? 0 then (c, s)
    else if isin [124; 40; 41; 59; 38; 60] c then (c, S s)
    else if c =? 62 then (if at_ (S s) =? 62 then (43, S (S s)) else (c, S s))
    else (97, skip (fun c => negb (isin whitespace c) && negb (isin symbols c)) s) in
  Ok ((r, (q, s)), skip (isin whitespace) s).

Definition peek (toks : list Z) : P bool := fun ps =>
  let s := skip (isin whitespace) ps in
  Ok (negb (at_ s =? 0) && isin toks (at_ s), s).

(** The loop of [parseredirs]: the redirections in order. *)
Fixpoint redirs_loop (fuel : nat) : P (list (word * Z * Z)) :=
  match fuel with
  | O => nofuel
  | S f =>
      b <- peek [60; 62] ;;
      if (b : bool) then
        t <- gettoken ;;
        w <- gettoken ;;
        if negb (w.1 =? 97) then panic "missing file for redirection" else
        let r := if t.1 =? 60 then [(w.2, O_RDONLY, 0)]
          else if t.1 =? 62 then [(w.2, Z.lor (Z.lor O_WRONLY O_CREATE) O_TRUNC, 1)]
          else if t.1 =? 43 then [(w.2, Z.lor O_WRONLY O_CREATE, 1)] else [] in
        rs <- redirs_loop f ;; ret (r ++ rs)
      else ret []
  end.

(** [cmd = redircmd(cmd, ...)] for each *)
Definition redirect {W} (c : cmdof W) (rs : list (W * Z * Z)) : cmdof W := foldl (fun c r => REDIR c r.1.1 r.1.2 r.2) c rs.

(** The loop of [parseexec]: the arguments, which are stored in the node that [ret]
    wraps, and the redirections of [ret]. *)
Fixpoint args_loop (fuel : nat) (argv : list word) (rs : list (word * Z * Z)) : P (list word * list (word * Z * Z)) :=
  match fuel with
  | O => nofuel
  | S f =>
      b <- peek [124; 41; 38; 59] ;;
      if (b : bool) then ret (argv, rs) else
      t <- gettoken ;;
      if t.1 =? 0 then ret (argv, rs) else
      if negb (t.1 =? 97) then panic "syntax" else
      let argv := argv ++ [t.2] in
      if (MAXARGS <=? length argv)%nat then panic "too many args" else
      rs' <- redirs_loop f ;;
      args_loop f argv (rs ++ rs')
  end.

(** The loop of [parseline] over [&]. *)
Fixpoint back_loop (fuel : nat) (c : cmd) : P cmd :=
  match fuel with
  | O => nofuel
  | S f =>
      b <- peek [38] ;;
      if (b : bool) then gettoken ;;; back_loop f (BACK c) else ret c
  end.

Fixpoint parseline (fuel : nat) : P cmd :=
  match fuel with
  | O => nofuel
  | S f =>
      c <- parsepipe f ;;
      c <- back_loop f c ;;
      b <- peek [59] ;;
      if (b : bool) then gettoken ;;; r <- parseline f ;; ret (LIST c r) else ret c
  end
with parsepipe (fuel : nat) : P cmd :=
  match fuel with
  | O => nofuel
  | S f =>
      c <- parseexec f ;;
      b <- peek [124] ;;
      if (b : bool) then gettoken ;;; r <- parsepipe f ;; ret (PIPE c r) else ret c
  end
with parseexec (fuel : nat) : P cmd :=
  match fuel with
  | O => nofuel
  | S f =>
      b <- peek [40] ;;
      if (b : bool) then parseblock f else
      rs <- redirs_loop f ;;
      a <- args_loop f [] rs ;;
      ret (redirect (EXEC a.1) a.2)
  end
with parseblock (fuel : nat) : P cmd :=
  match fuel with
  | O => nofuel
  | S f =>
      b <- peek [40] ;;
      if negb b then panic "parseblock" else
      gettoken ;;;
      c <- parseline f ;;
      b <- peek [41] ;;
      if negb b then panic "syntax - missing )" else
      gettoken ;;;
      rs <- redirs_loop f ;;
      ret (redirect c rs)
  end.

(** The buffer after [nulterminate]. *)
Definition nul_word (b : list Z) (w : word) : list Z := <[w.2 := 0]> b.
Fixpoint nulterminate (c : cmd) (b : list Z) : list Z :=
  match c with
  | EXEC argv => foldl nul_word b argv
  | REDIR c file _ _ => nul_word (nulterminate c b) file
  | PIPE l r => nulterminate r (nulterminate l b)
  | LIST l r => nulterminate r (nulterminate l b)
  | BACK c => nulterminate c b
  end.

(** [buf] is a line without its NUL, which [nulterminate] may overwrite; the tree and
    the buffer. *)
Definition parsecmd (fuel : nat) : P (cmd * list Z) :=
  c <- parseline fuel ;;
  peek [] ;;;
  s <- get ;;
  if negb (s =? length buf)%nat then panic "syntax" else
  ret (c, nulterminate c (buf ++ [0])).
End Sh.
