(* ===== verification/ShThm.v ===== *)
(** The parser of user/sh.c ends on every line, and its trees are well-formed: their
    words are the maximal runs of word characters, read back from the terminated line. *)

From S2P Require Import Prelude Mem Ulib Sh.

(** Characters of words. *)
Definition wordch (c : Z) : bool := negb (c =? 0) && (negb (isin whitespace c) && negb (isin symbols c)).

(** A result or a panic, not a lack of fuel. *)
Definition runs {A} (m : M nat A) (ps : nat) (Q : A -> nat -> Prop) : Prop :=
  match m ps with
  | Ok (a, ps') => Q a ps'
  | Panic _ => True
  | _ => False
  end.

Lemma runs_bind {A C} (m : M nat A) (k : A -> M nat C) ps Q1 Q : runs m ps Q1 -> (forall a ps', Q1 a ps' -> runs (k a) ps' Q) -> runs (bind m k) ps Q.
Proof. unfold runs, bind. destruct (m ps) as [[a ps']| | |]; try done. intros H1 H2. by apply H2. Qed.

Lemma runs_ret {A} (a : A) ps (Q : A -> nat -> Prop) : Q a ps -> runs (ret a) ps Q.
Proof. done. Qed.

Lemma runs_panic {A} msg ps (Q : A -> nat -> Prop) : runs (panic msg) ps Q.
Proof. done. Qed.

Lemma runs_weaken {A} (m : M nat A) ps (Q Q' : A -> nat -> Prop) : runs m ps Q -> (forall a ps', Q a ps' -> Q' a ps') -> runs m ps Q'.
Proof. unfold runs. destruct (m ps) as [[a ps']| | |]; try done. auto. Qed.

Lemma isin_elem set c : isin set c = true -> c ∈ set.
Proof.
  unfold isin. rewrite bool_decide_eq_true. induction set as [|x set IH]; cbn; [by intros [? ?]|]. destruct (x =? 0); [by intros [? ?]|].
  destruct (Z.eqb_spec x c); [intros _; subst; apply list_elem_of_here|]. intros H. apply list_elem_of_further, IH. by destruct (strchr set c).
Qed.

Lemma span_len_le f l : (span_len f l <= length l)%nat.
Proof. induction l as [|c l IH]; [done|]. cbn. destruct (f c); cbn; lia. Qed.

Lemma span_len_all f l i c : (i < span_len f l)%nat -> l !! i = Some c -> f c = true.
Proof.
  revert i. induction l as [|x l IH]; intros i; cbn; [lia|]. destruct (f x) eqn:E; [|lia]. destruct i as [|i]; cbn; [by intros _ [= ->]|]. intros H. apply IH. lia.
Qed.

Lemma span_len_stop f l c : l !! span_len f l = Some c -> f c = false.
Proof. induction l as [|x l IH]; cbn; [done|]. destruct (f x) eqn:E; [done|]. cbn. by intros [= ->]. Qed.

Section parse.
Context (buf : list Z).
Context (Hnul : Forall (fun c => c <> 0) buf).

Notation rest ps := (length buf - ps)%nat.

Lemma at_lookup i c : buf !! i = Some c -> at_ buf i = c.
Proof. intros H. unfold at_. by rewrite (drop_S _ c). Qed.

Lemma at_end i : (length buf <= i)%nat -> at_ buf i = 0.
Proof. intros H. unfold at_. by rewrite drop_ge. Qed.

Lemma at_nonzero i : at_ buf i <> 0 <-> (i < length buf)%nat.
Proof.
  split; [intros H; destruct (decide (length buf <= i)%nat); [by rewrite at_end in H|lia]|]. intros H. destruct (lookup_lt_is_Some_2 buf i H) as [c Hc].
  rewrite (at_lookup _ _ Hc). by eapply Forall_lookup_1 in Hnul; [|exact Hc].
Qed.

Lemma skip_ge f i : (i <= skip buf f i)%nat.
Proof. unfold skip. lia. Qed.

Lemma skip_le f i : (i <= length buf)%nat -> (skip buf f i <= length buf)%nat.
Proof. intros H. unfold skip. pose proof (span_len_le f (drop i buf)) as Hl. rewrite length_drop in Hl. lia. Qed.

Lemma skip_all f i j : (i <= j < skip buf f i)%nat -> f (at_ buf j) = true.
Proof.
  unfold skip. intros Hj. assert (Hs : (j - i < span_len f (drop i buf))%nat) by lia. pose proof (span_len_le f (drop i buf)) as Hl. rewrite length_drop in Hl.
  destruct (lookup_lt_is_Some_2 buf j) as [c Hc]; [lia|]. rewrite (at_lookup _ _ Hc). eapply span_len_all; [exact Hs|]. rewrite lookup_drop. by replace (i + (j - i))%nat with j by lia.
Qed.

Lemma skip_stop f i : (skip buf f i < length buf)%nat -> f (at_ buf (skip buf f i)) = false.
Proof.
  intros H. destruct (lookup_lt_is_Some_2 buf _ H) as [c Hc]. rewrite (at_lookup _ _ Hc). unfold skip in Hc. apply (span_len_stop f (drop i buf)). by rewrite lookup_drop.
Qed.

(** A maximal run of word characters. *)
Record word_ok (w : word) : Prop := mkword {
  wo_lt : (w.1 < w.2 <= length buf)%nat;
  wo_chars : forall i, (w.1 <= i < w.2)%nat -> wordch (at_ buf i) = true;
  wo_end : wordch (at_ buf w.2) = false
}.

Lemma wordch_end i : (length buf <= i)%nat -> wordch (at_ buf i) = false.
Proof. intros H. by rewrite at_end. Qed.

Lemma gettoken_runs ps Q : (forall t w ps', (ps <= ps')%nat -> (t <> 0 -> (ps < ps')%nat /\ (ps < length buf)%nat) -> (at_ buf (skip buf (isin whitespace) ps) <> 0 -> t <> 0) ->
  (t = 97 -> word_ok w) -> Q (t, w) ps') -> runs (gettoken buf) ps Q.
Proof.
  intros HQ. unfold runs, gettoken. set (s := skip buf (isin whitespace) ps). assert (Hs : (ps <= s)%nat) by apply skip_ge.
  assert (Hge : forall i, (i <= skip buf (isin whitespace) i)%nat) by apply skip_ge.
  destruct (Z.eqb_spec (at_ buf s) 0) as [E0|E0]; [apply HQ; [specialize (Hge s); lia|done|done|by rewrite E0]|]. assert (Hlt : (s < length buf)%nat) by (by apply at_nonzero).
  destruct (isin [124; 40; 41; 59; 38; 60] (at_ buf s)) eqn:E1.
  { apply isin_elem in E1. apply HQ; [specialize (Hge (S s)); lia|specialize (Hge (S s)); lia|done|]. intros E. rewrite E in E1. set_solver. }
  destruct (Z.eqb_spec (at_ buf s) 62) as [E2|E2].
  { destruct (Z.eqb_spec (at_ buf (S s)) 62); [apply HQ; [specialize (Hge (S (S s))); lia|specialize (Hge (S (S s))); lia|done|done]|].
    apply HQ; [specialize (Hge (S s)); lia|specialize (Hge (S s)); lia|done|by rewrite E2]. }
  set (f := fun c => negb (isin whitespace c) && negb (isin symbols c)).
  assert (Hf : f (at_ buf s) = true).
  { unfold f. assert (isin whitespace (at_ buf s) = false) as -> by (by apply skip_stop). destruct (isin symbols (at_ buf s)) eqn:E3; [|done].
    apply isin_elem in E3. assert (Hin : forall c, c ∈ symbols -> c = 62 \/ isin [124; 40; 41; 59; 38; 60] c = true).
    { intros c Hc. unfold symbols in Hc. rewrite !elem_of_cons in Hc. destruct Hc as [->|[->|[->|[->|[->|[->|[->|Hc]]]]]]]; [by right|by right|by left|by right|by right|by right|by right|by apply not_elem_of_nil in Hc]. }
    destruct (Hin _ E3); congruence. }
  assert (Hgt : (s < skip buf f s)%nat).
  { unfold skip. destruct (lookup_lt_is_Some_2 buf s Hlt) as [c Hc]. rewrite (drop_S _ _ _ Hc). cbn [span_len]. rewrite (at_lookup _ _ Hc) in Hf. rewrite Hf. lia. }
  pose proof (skip_le f s ltac:(lia)) as Hle. apply HQ; [specialize (Hge (skip buf f s)); lia|specialize (Hge (skip buf f s)); lia|done|]. intros _. split; cbn.
  - lia.
  - intros i Hi. unfold wordch. assert (f (at_ buf i) = true) as Hfi by (apply (skip_all f s); lia). unfold f in Hfi. rewrite Hfi.
    destruct (Z.eqb_spec (at_ buf i) 0) as [E|]; [|done]. exfalso. by apply (proj2 (at_nonzero i)); [lia|].
  - unfold wordch. destruct (Z.eqb_spec (at_ buf (skip buf f s)) 0) as [|Hne]; [done|]. apply at_nonzero in Hne. pose proof (skip_stop f s Hne) as Hst. unfold f at 1 in Hst. by rewrite Hst.
Qed.

(** After [peek] the parser is at the character that it looked at. *)
Lemma peek_runs toks ps Q : (forall b ps', (ps <= ps')%nat -> (b = true -> at_ buf (skip buf (isin whitespace) ps') <> 0) -> Q b ps') -> runs (peek buf toks) ps Q.
Proof.
  intros HQ. unfold runs, peek. set (s := skip buf (isin whitespace) ps). assert (Hs : (ps <= s)%nat) by apply skip_ge. apply HQ; [done|].
  intros [Hz _]%andb_true_iff. apply negb_true_iff, Z.eqb_neq in Hz. assert (Hlt : (s < length buf)%nat) by (by apply at_nonzero).
  assert (Es : skip buf (isin whitespace) s = s); [|by rewrite Es].
  unfold skip at 1. destruct (lookup_lt_is_Some_2 buf s Hlt) as [c Hc]. rewrite (drop_S _ _ _ Hc). cbn [span_len]. rewrite <- (at_lookup _ _ Hc).
  pose proof (skip_stop (isin whitespace) ps Hlt) as Hst. fold s in Hst. rewrite Hst. lia.
Qed.
(** ** Trees *)

Definition redir_ok (mode fd : Z) : Prop :=
  mode = O_RDONLY /\ fd = 0 \/ mode = Z.lor (Z.lor O_WRONLY O_CREATE) O_TRUNC /\ fd = 1 \/ mode = Z.lor O_WRONLY O_CREATE /\ fd = 1.

Fixpoint wf_cmd (c : cmd) : Prop :=
  match c with
  | EXEC argv => Forall word_ok argv /\ (length argv < MAXARGS)%nat
  | REDIR c file mode fd => wf_cmd c /\ word_ok file /\ redir_ok mode fd
  | PIPE l r | LIST l r => wf_cmd l /\ wf_cmd r
  | BACK c => wf_cmd c
  end.

Definition wf_redirs (rs : list (word * Z * Z)) : Prop := Forall (fun r => word_ok r.1.1 /\ redir_ok r.1.2 r.2) rs.

Lemma redirect_wf rs : forall c, wf_cmd c -> wf_redirs rs -> wf_cmd (redirect c rs).
Proof. induction rs as [|r rs IH]; intros c Hc Hr; [done|]. apply Forall_cons in Hr as [[H1 H2] Hr]. cbn. by apply IH. Qed.

Lemma redirs_runs : forall f ps, (rest ps < f)%nat -> runs (redirs_loop buf f) ps (fun rs ps' => (ps <= ps')%nat /\ wf_redirs rs).
Proof.
  induction f as [|f IH]; intros ps Hf; [lia|]. cbn [redirs_loop]. eapply runs_bind; [by apply (peek_runs _ _ (fun b p => (ps <= p)%nat /\ (b = true -> at_ buf (skip buf (isin whitespace) p) <> 0)))|].
  intros [] p1 [H1 Hp]; [|by apply runs_ret; split; [|constructor]].
  eapply runs_bind; [apply (gettoken_runs _ (fun t p => (p1 < p)%nat /\ (p1 < length buf)%nat)); intros; naive_solver|]. intros [t w] p2 [H2 H2'].
  eapply runs_bind; [apply (gettoken_runs _ (fun t p => (p2 <= p)%nat /\ (t.1 = 97 -> word_ok t.2))); intros; naive_solver|]. intros [t' w'] p3 [H3 Hw]. cbn [fst snd] in *.
  destruct (Z.eqb_spec t' 97) as [E|]; [|apply runs_panic]. cbn [negb]. eapply runs_bind; [apply IH; lia|]. intros rs p4 [H4 Hrs]. apply runs_ret. split; [lia|].
  apply Forall_app. split; [|done]. specialize (Hw E). unfold redir_ok.
  destruct (t =? 60); [|destruct (t =? 62); [|destruct (t =? 43); [|constructor]]]; apply Forall_singleton; cbn; split; auto.
Qed.

Lemma args_runs : forall f argv rs ps, (rest ps < f)%nat -> Forall word_ok argv -> (length argv < MAXARGS)%nat -> wf_redirs rs ->
  runs (args_loop buf f argv rs) ps (fun a ps' => (ps <= ps')%nat /\ Forall word_ok a.1 /\ (length a.1 < MAXARGS)%nat /\ wf_redirs a.2).
Proof.
  induction f as [|f IH]; intros argv rs ps Hf Ha Hl Hr; [lia|]. cbn [args_loop]. eapply runs_bind; [by apply (peek_runs _ _ (fun b p => (ps <= p)%nat))|].
  intros [] p1 H1; [by apply runs_ret|].
  eapply runs_bind; [apply (gettoken_runs _ (fun t p => (p1 <= p)%nat /\ (t.1 <> 0 -> (p1 < p)%nat /\ (p1 < length buf)%nat) /\ (t.1 = 97 -> word_ok t.2))); intros; naive_solver|].
  intros [t w] p2 (H2 & Hlt & Hw). cbn [fst snd] in *. destruct (Z.eqb_spec t 0) as [|Hne]; [apply runs_ret; split; [lia|done]|]. specialize (Hlt Hne).
  destruct (Z.eqb_spec t 97) as [E|]; [|apply runs_panic]. cbn [negb]. destruct (Nat.leb_spec MAXARGS (length (argv ++ [w]))); [apply runs_panic|].
  eapply runs_bind; [apply redirs_runs; lia|]. intros rs' p3 [H3 Hrs]. eapply runs_weaken; [apply IH|].
  - lia.
  - apply Forall_app. split; [done|]. by apply Forall_singleton, Hw.
  - done.
  - by apply Forall_app.
  - intros a p4 (H4 & H5). split; [lia|done].
Qed.

Lemma back_runs : forall f c ps, (rest ps < f)%nat -> wf_cmd c -> runs (back_loop buf f c) ps (fun c ps' => (ps <= ps')%nat /\ wf_cmd c).
Proof.
  induction f as [|f IH]; intros c ps Hf Hc; [lia|]. cbn [back_loop].
  eapply runs_bind; [by apply (peek_runs _ _ (fun b p => (ps <= p)%nat /\ (b = true -> at_ buf (skip buf (isin whitespace) p) <> 0)))|].
  intros [] p1 [H1 Hp]; [|by apply runs_ret].
  eapply runs_bind; [apply (gettoken_runs _ (fun t p => (p1 < p)%nat /\ (p1 < length buf)%nat)); intros; naive_solver|]. intros [t w] p2 [H2 H2'].
  eapply runs_weaken; [apply IH; [lia|done]|]. intros c' p3 [H3 Hw]. split; [lia|done].
Qed.

(** The four mutually recursive routines. *)
Definition parses (m : M nat cmd) (ps : nat) : Prop := runs m ps (fun c ps' => (ps <= ps')%nat /\ wf_cmd c).

Lemma step_runs {A} ps toks (k1 k2 : M nat A) Q : (forall p1, (ps <= p1)%nat -> (forall p2, (p1 < p2)%nat -> (p1 < length buf)%nat -> runs k1 p2 Q) /\ runs k2 p1 Q) ->
  runs (b <- peek buf toks ;; if (b : bool) then gettoken buf ;;; k1 else k2) ps Q.
Proof.
  intros H. eapply runs_bind; [by apply (peek_runs _ _ (fun b p => (ps <= p)%nat /\ (b = true -> at_ buf (skip buf (isin whitespace) p) <> 0)))|].
  intros [] p1 [H1 Hp]; [|by apply H]. eapply runs_bind; [apply (gettoken_runs _ (fun t p => (p1 < p)%nat /\ (p1 < length buf)%nat)); intros; naive_solver|].
  intros t p2 [H2 H3]. by apply (H p1).
Qed.

Lemma parse_runs : forall f ps,
  ((4 * rest ps + 5 <= f)%nat -> parses (parseline buf f) ps) /\ ((4 * rest ps + 4 <= f)%nat -> parses (parsepipe buf f) ps) /\
  ((4 * rest ps + 3 <= f)%nat -> parses (parseexec buf f) ps) /\ ((4 * rest ps + 2 <= f)%nat -> parses (parseblock buf f) ps).
Proof.
  induction f as [|f IH]; intros ps; [lia|]. assert (IHl := fun ps => proj1 (IH ps)). assert (IHp := fun ps => proj1 (proj2 (IH ps))).
  assert (IHe := fun ps => proj1 (proj2 (proj2 (IH ps)))). assert (IHb := fun ps => proj2 (proj2 (proj2 (IH ps)))). clear IH. split; [|split; [|split]]; intros Hf.
  - unfold parses. cbn [parseline]. eapply runs_bind; [apply IHp; lia|]. intros c p1 [H1 Hc]. eapply runs_bind; [apply back_runs; [lia|done]|]. intros c2 p2 [H2 Hc2].
    apply step_runs. intros p3 H3. split; [|apply runs_ret; split; [lia|done]]. intros p4 H4 H5. eapply runs_bind; [apply IHl; lia|]. intros r p5 [H6 Hr]. apply runs_ret. split; [lia|done].
  - unfold parses. cbn [parsepipe]. eapply runs_bind; [apply IHe; lia|]. intros c p1 [H1 Hc].
    apply step_runs. intros p3 H3. split; [|apply runs_ret; split; [lia|done]]. intros p4 H4 H5. eapply runs_bind; [apply IHp; lia|]. intros r p5 [H6 Hr]. apply runs_ret. split; [lia|done].
  - unfold parses. cbn [parseexec]. eapply runs_bind; [by apply (peek_runs _ _ (fun b p => (ps <= p)%nat))|]. intros [] p1 H1.
    { eapply runs_weaken; [apply IHb; lia|]. intros c p2 [H2 Hc]. split; [lia|done]. }
    eapply runs_bind; [apply redirs_runs; lia|]. intros rs p2 [H2 Hrs]. eapply runs_bind; [apply args_runs; [lia|done|unfold MAXARGS; cbn; lia|done]|].
    intros a p3 (H3 & Ha & Hl & Hr). apply runs_ret. split; [lia|]. by apply redirect_wf.
  - unfold parses. cbn [parseblock]. eapply runs_bind; [by apply (peek_runs _ _ (fun b p => (ps <= p)%nat /\ (b = true -> at_ buf (skip buf (isin whitespace) p) <> 0)))|].
    intros [] p1 [H1 Hp]; [|apply runs_panic]. cbn [negb]. eapply runs_bind; [apply (gettoken_runs _ (fun t p => (p1 < p)%nat /\ (p1 < length buf)%nat)); intros; naive_solver|].
    intros t p2 [H2 H3]. eapply runs_bind; [apply IHl; lia|]. intros c p3 [H4 Hc]. eapply runs_bind; [by apply (peek_runs _ _ (fun b p => (p3 <= p)%nat))|].
    intros [] p4 H5; [|apply runs_panic]. cbn [negb]. eapply runs_bind; [apply (gettoken_runs _ (fun t p => (p4 <= p)%nat)); intros; naive_solver|]. intros t' p5 H6. cbn beta in H6.
    eapply runs_bind; [apply redirs_runs; lia|]. intros rs p6 [H7 Hrs]. apply runs_ret. split; [lia|]. by apply redirect_wf.
Qed.
(** ** Terminated strings *)

Fixpoint words (c : cmd) : list word :=
  match c with
  | EXEC argv => argv
  | REDIR c file _ _ => words c ++ [file]
  | PIPE l r | LIST l r => words l ++ words r
  | BACK c => words c
  end.

Lemma wf_words c : wf_cmd c -> Forall word_ok (words c).
Proof. induction c; cbn; intros H; rewrite ?Forall_app; naive_solver. Qed.

Lemma nulterminate_words c : forall b, nulterminate c b = foldl nul_word b (words c).
Proof. induction c as [argv|c IH w m fd|l IHl r IHr|l IHl r IHr|c IH]; intros b; cbn; rewrite ?foldl_app, ?IH, ?IHl, ?IHr; done. Qed.

(** The string at the beginning of a word. *)
Definition str_at (b : list Z) (w : word) : list Z := c_str (drop w.1 b).
Definition chars (w : word) : list Z := take (w.2 - w.1) (drop w.1 buf).

Lemma nul_words_lookup ws : forall b i, foldl nul_word b ws !! i = if decide (i ∈ ws.*2 /\ (i < length b)%nat) then Some 0 else b !! i.
Proof.
  induction ws as [|w ws IH]; intros b i; cbn [foldl fmap list_fmap]; [rewrite decide_False; [done|]; by intros [?%not_elem_of_nil _]|].
  assert (Hl : length (nul_word b w) = length b) by apply length_insert. rewrite IH. case_decide as H; rewrite Hl in H.
  - rewrite decide_True; [done|]. split; [apply list_elem_of_further, H|apply H].
  - destruct (decide (i = w.2)) as [->|Hne].
    + destruct (decide (w.2 < length b)%nat) as [Hlt|Hlt]; [rewrite decide_True by (split; [apply list_elem_of_here|done]); by apply list_lookup_insert_eq|].
      rewrite decide_False by (intros [_ ?]; done). unfold nul_word. rewrite list_insert_ge by lia. done.
    + unfold nul_word. rewrite list_lookup_insert_ne by done. rewrite decide_False; [done|]. intros [[?|?]%elem_of_cons ?]; [done|]. by apply H.
Qed.

Lemma word_lookup w i : word_ok w -> (w.1 <= i < w.2)%nat -> exists c, buf !! i = Some c /\ wordch c = true /\ c <> 0.
Proof.
  intros [H1 H2 _] Hi. destruct (lookup_lt_is_Some_2 buf i) as [c Hc]; [lia|]. exists c. split; [done|]. split; [rewrite <- (at_lookup _ _ Hc); by apply H2|].
  by eapply Forall_lookup_1 in Hnul; [|exact Hc].
Qed.

Lemma str_at_word ws w : Forall word_ok ws -> w ∈ ws -> str_at (foldl nul_word (buf ++ [0]) ws) w = chars w.
Proof.
  intros Hws Hw. assert (Hok : word_ok w) by (by eapply Forall_forall in Hws; [|exact Hw]). pose proof (wo_lt _ Hok) as Hlt. set (b := foldl _ _ _).
  assert (Hend : b !! w.2 = Some 0).
  { unfold b. rewrite nul_words_lookup. rewrite decide_True; [done|]. split; [by apply list_elem_of_fmap_2|]. rewrite length_app. cbn. lia. }
  assert (Hin : forall i, (w.1 <= i < w.2)%nat -> b !! i = buf !! i).
  { intros i Hi. unfold b. rewrite nul_words_lookup, decide_False; [apply lookup_app_l; lia|]. intros [(w' & -> & Hw')%list_elem_of_fmap _].
    eapply Forall_forall in Hws; [|exact Hw']. destruct (word_lookup w w'.2 Hok Hi) as (c & Hc & Hch & _). pose proof (wo_end _ Hws) as He. rewrite (at_lookup _ _ Hc) in He. congruence. }
  assert (Hd : drop w.1 b = chars w ++ 0 :: drop (S w.2) b).
  { rewrite <- (take_drop (w.2 - w.1) (drop w.1 b)), drop_drop. replace (w.1 + (w.2 - w.1))%nat with w.2 by lia. rewrite (drop_S _ _ _ Hend). f_equal.
    unfold chars. apply list_eq. intros i. destruct (decide (i < w.2 - w.1)%nat); [rewrite !lookup_take_lt, !lookup_drop by done; apply Hin; lia|].
    rewrite !lookup_take_ge by lia. done. }
  unfold str_at. rewrite Hd. apply c_str_nul. apply Forall_lookup_2. intros i c Hc. unfold chars in Hc. apply lookup_take_Some in Hc as [Hc Hi]. rewrite lookup_drop in Hc.
  destruct (word_lookup w (w.1 + i) Hok) as (c' & Hc' & _ & Hne); [lia|]. congruence.
Qed.
End parse.

(** The parser ends on every line: with fuel for four calls per character it
    returns a tree or stops with a syntax error. *)
Theorem parsecmd_terminates buf fuel : Forall (fun c => c <> 0) buf -> (4 * length buf + 5 <= fuel)%nat ->
  (exists c b ps, parsecmd buf fuel 0%nat = Ok ((c, b), ps)) \/ exists msg, parsecmd buf fuel 0%nat = Panic msg.
Proof.
  intros Hn Hf. assert (H : runs (parsecmd buf fuel) 0 (fun _ _ => True)).
  { unfold parsecmd. eapply runs_bind; [apply (proj1 (parse_runs buf Hn fuel 0)); lia|]. intros c p1 _. eapply runs_bind; [by apply (peek_runs buf Hn _ _ (fun _ _ => True))|].
    intros _ p2 _. unfold runs, bind, get. by destruct (negb _). }
  unfold runs in H. destruct (parsecmd buf fuel 0%nat) as [[[c b] ps]|msg| |]; try done; [left|right]; eauto.
Qed.

