(* ===== verification/ShPrint.v ===== *)
(** Command trees written as command lines, and the parser of user/sh.c on what is
    written: tokens and redirections. *)

From S2P Require Import Prelude Mem Ulib Sh ShThm.

(** ** The printer: a blank after each token *)

Definition pr_sym (c : Z) : list Z := [c; 32].
Definition pr_word (w : list Z) : list Z := w ++ [32].

Definition pr_redir (r : list Z * Z * Z) : list Z :=
  (if r.1.2 =? O_RDONLY then pr_sym 60 else if r.1.2 =? Z.lor O_WRONLY O_CREATE then [62; 62; 32] else pr_sym 62) ++ pr_word r.1.1.
Definition pr_redirs (rs : list (list Z * Z * Z)) : list Z := concat (pr_redir <$> rs).

(** 0 for a line, 1 with [&], 2 for a pipeline, 3 for a command; a tree in a place for
    tighter ones is put in parentheses. *)
Definition level {W} (c : cmdof W) : nat := match c with LIST _ _ => 0 | BACK _ => 1 | PIPE _ _ => 2 | _ => 3 end.
Definition paren (b : bool) (s : list Z) : list Z := if b then pr_sym 40 ++ s ++ pr_sym 41 else s.

Fixpoint pr (n : nat) (c : cmdof (list Z)) : list Z :=
  paren (level c <? n)%nat
    match c with
    | EXEC argv => concat (pr_word <$> argv)
    | REDIR c file mode fd => pr 3 c ++ pr_redir (file, mode, fd)
    | PIPE l r => pr 3 l ++ pr_sym 124 ++ pr 2 r
    | LIST l r => pr 1 l ++ pr_sym 59 ++ pr 0 r
    | BACK c => pr 1 c ++ pr_sym 38
    end.

(** Trees that can be written. *)
Definition good_word (w : list Z) : Prop := w <> [] /\ Forall (fun c => wordch c = true) w.
Fixpoint wf_tree (c : cmdof (list Z)) : Prop :=
  match c with
  | EXEC argv => Forall good_word argv /\ (length argv < MAXARGS)%nat
  | REDIR c file mode fd => wf_tree c /\ good_word file /\ redir_ok mode fd
  | PIPE l r | LIST l r => wf_tree l /\ wf_tree r
  | BACK c => wf_tree c
  end.

(** The tree with the strings of its words. *)
Fixpoint tree {W V} (g : W -> V) (c : cmdof W) : cmdof V :=
  match c with
  | EXEC argv => EXEC (g <$> argv)
  | REDIR c file mode fd => REDIR (tree g c) (g file) mode fd
  | PIPE l r => PIPE (tree g l) (tree g r)
  | LIST l r => LIST (tree g l) (tree g r)
  | BACK c => BACK (tree g c)
  end.

Definition on_redirs {W V} (g : W -> V) (rs : list (W * Z * Z)) : list (V * Z * Z) := (fun r => (g r.1.1, r.1.2, r.2)) <$> rs.

Lemma tree_redirect {W V} (g : W -> V) rs : forall c, tree g (redirect c rs) = redirect (tree g c) (on_redirs g rs).
Proof. induction rs as [|r rs IH]; intros c; [done|]. cbn. apply IH. Qed.

(** What the parser stops before: nothing, or one of these characters. *)
Definition follows (set : list Z) (s : list Z) : Prop := s = [] \/ exists c s', s = c :: s' /\ c ∈ set.

Lemma follows_sub set set' s : set ⊆ set' -> follows set s -> follows set' s.
Proof. intros H [->|(c & s' & -> & Hc)]; [by left|right]. exists c, s'. split; [done|]. by apply H. Qed.

Lemma follows_cons set c s : c ∈ set -> follows set (c :: s).
Proof. intros H. right. by exists c, s. Qed.

Definition stops : list Z := [41; 59; 38; 124].

Lemma isin_false set c : c ∉ set -> isin set c = false.
Proof. intros H. destruct (isin set c) eqn:E; [|done]. by apply isin_elem in E. Qed.

Lemma isin_true set c : Forall (fun x => x <> 0) set -> c ∈ set -> isin set c = true.
Proof.
  intros Hs Hc. unfold isin. apply bool_decide_eq_true. induction Hs as [|x s Hx _ IH]; [by apply not_elem_of_nil in Hc|]. cbn.
  destruct (Z.eqb_spec x 0); [done|]. destruct (Z.eqb_spec x c); [by eexists|]. apply elem_of_cons in Hc as [?|Hc]; [congruence|]. destruct (IH Hc) as [k ->]. by eexists.
Qed.

(** The text does not begin with a blank. *)
Definition tight (s : list Z) : Prop := s = [] \/ isin whitespace (chr s) = false.

Lemma wordch_facts c : wordch c = true -> c <> 0 /\ isin whitespace c = false /\ isin symbols c = false.
Proof. unfold wordch. rewrite !andb_true_iff, !negb_true_iff, Z.eqb_neq. naive_solver. Qed.

Section tokens.
Context (buf : list Z).

Lemma at_drop i s : drop i buf = s -> at_ buf i = chr s.
Proof. unfold at_. by intros ->. Qed.

Lemma skip_tight i s : drop i buf = s -> tight s -> skip buf (isin whitespace) i = i.
Proof. intros E H. unfold skip. rewrite E. destruct s as [|c s]; [cbn; lia|]. destruct H as [?|H]; [done|]. cbn in *. rewrite H. lia. Qed.

(** A blank, then the next token. *)
Lemma skip_blank i s : drop i buf = 32 :: s -> tight s -> skip buf (isin whitespace) i = S i.
Proof.
  intros E H. unfold skip. rewrite E. cbn [span_len]. change (isin whitespace 32) with true. cbn iota. destruct s as [|c s]; [cbn; lia|].
  destruct H as [?|H]; [done|]. cbn in *. rewrite H. lia.
Qed.

Lemma drop_next i c s : drop i buf = c :: s -> drop (S i) buf = s.
Proof. intros E. replace (S i) with (i + 1)%nat by lia. by rewrite <- drop_drop, E. Qed.

Lemma drop_word i w s : drop i buf = w ++ s -> drop (i + length w) buf = s.
Proof. intros E. by rewrite <- drop_drop, E, drop_app_length. Qed.

Lemma peek_at toks i s : drop i buf = s -> tight s -> peek buf toks i = Ok (negb (chr s =? 0) && isin toks (chr s), i).
Proof. intros E H. unfold peek. by rewrite (skip_tight _ _ E H), (at_drop _ _ E). Qed.

Lemma sym_token i c s : drop i buf = pr_sym c ++ s -> c ∈ [124; 40; 41; 59; 38; 60] -> tight s -> exists w, gettoken buf i = Ok ((c, w), S (S i)) /\ drop (S (S i)) buf = s.
Proof.
  intros E Hc Hs. pose proof (drop_next _ _ _ E) as E1. pose proof (drop_next _ _ _ E1) as E2.
  assert (Ht : tight (pr_sym c ++ s)) by (right; rewrite !elem_of_cons in Hc; cbn; destruct Hc as [->|[->|[->|[->|[->|[->|Hc]]]]]]; try done; by apply not_elem_of_nil in Hc).
  unfold gettoken. rewrite (skip_tight _ _ E Ht), (at_drop _ _ E). cbn [pr_sym app chr hd]. assert (Hc0 : c <> 0) by (intros ->; set_solver).
  rewrite (proj2 (Z.eqb_neq c 0)) by done. rewrite (isin_true [124; 40; 41; 59; 38; 60] c (ltac:(by repeat constructor)) Hc). rewrite (skip_blank _ _ E1 Hs). eauto.
Qed.

Lemma end_token i : drop i buf = [] -> exists w, gettoken buf i = Ok ((0, w), i).
Proof.
  intros E. unfold gettoken. assert (Ht : tight []) by by left. rewrite (skip_tight _ _ E Ht), (at_drop _ _ E). cbn. rewrite (skip_tight _ _ E Ht). eauto.
Qed.

Lemma gt_token i s : drop i buf = pr_sym 62 ++ s -> tight s -> exists w, gettoken buf i = Ok ((62, w), S (S i)) /\ drop (S (S i)) buf = s.
Proof.
  intros E Hs. pose proof (drop_next _ _ _ E) as E1. pose proof (drop_next _ _ _ E1) as E2. assert (Ht : tight (pr_sym 62 ++ s)) by by right.
  unfold gettoken. rewrite (skip_tight _ _ E Ht), (at_drop _ _ E). cbn [pr_sym app chr hd]. change (62 =? 0) with false. change (isin _ 62) with false. cbn iota.
  change (62 =? 62) with true. cbn iota. rewrite (at_drop _ _ E1). cbn [chr hd]. change (32 =? 62) with false. cbn iota. rewrite (skip_blank _ _ E1 Hs). eauto.
Qed.

Lemma append_token i s : drop i buf = [62; 62; 32] ++ s -> tight s -> exists w, gettoken buf i = Ok ((43, w), S (S (S i))) /\ drop (S (S (S i))) buf = s.
Proof.
  intros E Hs. pose proof (drop_next _ _ _ E) as E1. pose proof (drop_next _ _ _ E1) as E2. pose proof (drop_next _ _ _ E2) as E3. assert (Ht : tight ([62; 62; 32] ++ s)) by by right.
  unfold gettoken. rewrite (skip_tight _ _ E Ht), (at_drop _ _ E). cbn [app chr hd]. change (62 =? 0) with false. change (isin _ 62) with false. cbn iota.
  change (62 =? 62) with true. cbn iota. rewrite (at_drop _ _ E1). cbn [chr hd app]. change (62 =? 62) with true. cbn iota. rewrite (skip_blank _ _ E2 Hs). eauto.
Qed.

Lemma span_word w s : Forall (fun c => wordch c = true) w -> span_len (fun c => negb (isin whitespace c) && negb (isin symbols c)) (w ++ 32 :: s) = length w.
Proof.
  induction 1 as [|c w Hc _ IH]; [done|]. apply wordch_facts in Hc as (_ & H1 & H2). cbn [app span_len]. rewrite H1, H2. cbn. by rewrite IH.
Qed.

Lemma word_token i w s : drop i buf = pr_word w ++ s -> good_word w -> tight s ->
  gettoken buf i = Ok ((97, (i, (i + length w)%nat)), S (i + length w)) /\ drop (S (i + length w)) buf = s /\ chars buf (i, (i + length w)%nat) = w.
Proof.
  intros E [Hne Hw] Hs. unfold pr_word in E. rewrite <- (assoc_L (++)) in E. cbn [app] in E. pose proof (drop_word _ _ _ E) as E1. pose proof (drop_next _ _ _ E1) as E2.
  destruct w as [|c w]; [done|]. pose proof (proj1 (proj1 (Forall_cons _ _ _) Hw)) as Hc. apply wordch_facts in Hc as (Hc0 & Hc1 & Hc2). assert (Ht : tight ((c :: w) ++ 32 :: s)) by by right.
  assert (Hsk : skip buf (fun c => negb (isin whitespace c) && negb (isin symbols c)) i = (i + length (c :: w))%nat) by (unfold skip; by rewrite E, span_word).
  split; [|split; [done|]].
  - unfold gettoken. rewrite (skip_tight _ _ E Ht), (at_drop _ _ E). cbn [app chr hd]. rewrite (proj2 (Z.eqb_neq c 0)) by done.
    assert (Hs1 : isin [124; 40; 41; 59; 38; 60] c = false).
    { apply isin_false. intros Hin. assert (c ∈ symbols) as Hin' by (unfold symbols; set_solver). by rewrite (isin_true symbols c (ltac:(by repeat constructor)) Hin') in Hc2. }
    rewrite Hs1. assert (Hs2 : c <> 62) by (intros ->; done). rewrite (proj2 (Z.eqb_neq c 62)) by done. cbn iota. by rewrite Hsk, (skip_blank _ _ E1 Hs).
  - unfold chars. cbn [fst snd]. replace (i + length (c :: w) - i)%nat with (length (c :: w)) by lia. by rewrite E, take_app_length.
Qed.
End tokens.

(** * The parser of user/sh.c reads back every command tree that is written as a line. *)

Lemma pr_eq n c : pr n c = paren (level c <? n)%nat (pr 0 c).
Proof. by destruct c. Qed.

(** A tree without its outer redirections, and these. *)
Fixpoint strip {W} (c : cmdof W) : cmdof W * list (W * Z * Z) :=
  match c with
  | REDIR c file mode fd => let r := strip c in (r.1, r.2 ++ [(file, mode, fd)])
  | _ => (c, [])
  end.

Lemma strip_redirect {W} (c : cmdof W) : redirect (strip c).1 (strip c).2 = c.
Proof. induction c as [argv|c IH w m fd|l _ r _|l _ r _|c _]; try done. cbn. unfold redirect in *. rewrite foldl_app, IH. done. Qed.

Lemma pr_redirs_app a b : pr_redirs (a ++ b) = pr_redirs a ++ pr_redirs b.
Proof. unfold pr_redirs. by rewrite fmap_app, concat_app. Qed.

Lemma strip_pr c : pr 3 c = pr 3 (strip c).1 ++ pr_redirs (strip c).2.
Proof.
  induction c as [argv|c IH w m fd|l _ r _|l _ r _|c _]; try (cbn [strip fst snd]; change (pr_redirs []) with (@nil Z); by rewrite app_nil_r).
  cbn [strip fst snd]. rewrite pr_redirs_app, (assoc_L (++)), <- IH. unfold pr_redirs. cbn [fmap list_fmap concat]. by rewrite app_nil_r.
Qed.

Definition good_redir (r : list Z * Z * Z) : Prop := good_word r.1.1 /\ redir_ok r.1.2 r.2.

Lemma strip_wf c : wf_tree c -> wf_tree (strip c).1 /\ Forall good_redir (strip c).2.
Proof.
  induction c as [argv|c IH w m fd|l _ r _|l _ r _|c _]; try (intros H; split; [exact H|constructor]). intros (H1 & H2 & H3). destruct (IH H1) as [H4 H5].
  split; [done|]. cbn. apply Forall_app. split; [done|]. by apply Forall_singleton.
Qed.

Lemma good_word_cons w : good_word w -> exists c w', w = c :: w' /\ wordch c = true.
Proof. intros [Hne Hw]. destruct w as [|c w]; [done|]. exists c, w. split; [done|]. by apply Forall_cons in Hw as [? _]. Qed.

(** What may follow the redirections of a command. *)
Definition plain (s : list Z) : Prop := tight s /\ chr s <> 60 /\ chr s <> 62.

Lemma wordch_plain c s : wordch c = true -> plain (c :: s).
Proof. intros (H0 & H1 & H2)%wordch_facts. split; [by right|]. split; cbn; intros ->; done. Qed.

Lemma follows_tight s : follows stops s -> plain s /\ chr s <> 40.
Proof.
  intros [->|(c & s' & -> & Hc)]; [split; [split; [by left|done]|done]|]. unfold stops in Hc. rewrite !elem_of_cons in Hc.
  destruct Hc as [->|[->|[->|[->|Hc]]]]; try (split; [split; [by right|done]|done]). by apply not_elem_of_nil in Hc.
Qed.

Lemma words_plain ws s : Forall good_word ws -> plain s -> plain (concat (pr_word <$> ws) ++ s).
Proof.
  intros [|w ws' Hw _] Hs; [done|]. destruct (good_word_cons w Hw) as (c & w' & -> & Hc). by apply wordch_plain.
Qed.

Section reads.
Context (buf : list Z).
Notation rest ps := (length buf - ps)%nat.

Lemma drop_room i c s : drop i buf = c :: s -> (i < length buf)%nat.
Proof. intros E. apply (f_equal length) in E. rewrite length_drop in E. cbn in E. lia. Qed.

Lemma redirs_read : forall rs f i s, drop i buf = pr_redirs rs ++ s -> Forall good_redir rs -> plain s -> (rest i < f)%nat ->
  exists rs' i', redirs_loop buf f i = Ok (rs', i') /\ on_redirs (chars buf) rs' = rs /\ drop i' buf = s /\ (i <= i')%nat.
Proof.
  induction rs as [|[[w mode] fd] rs IH]; intros f i s E Hg Hs Hf; (destruct f as [|f]; [lia|]); cbn [redirs_loop].
  - destruct Hs as (Ht & H1 & H2). rewrite (bind_ok _ _ _ _ _ (peek_at buf _ _ _ E Ht)). rewrite isin_false by (cbn [app]; set_solver). rewrite andb_false_r. by exists [], i.
  - apply Forall_cons in Hg as [[Hw Hr] Hg]. cbn [fst snd] in *. change (pr_redirs ((w, mode, fd) :: rs)) with (pr_redir (w, mode, fd) ++ pr_redirs rs) in E. rewrite <- (assoc_L (++)) in E.
    unfold pr_redir in E. cbn [fst snd] in E. rewrite <- (assoc_L (++)) in E. set (s1 := pr_redirs rs ++ s) in *.
    assert (Ht1 : tight s1).
    { unfold s1. destruct rs as [|[[w1 m1] d1] rs]; [apply Hs|]. right. change (pr_redirs ((w1, m1, d1) :: rs)) with (pr_redir (w1, m1, d1) ++ pr_redirs rs). unfold pr_redir. cbn [fst snd].
      destruct (m1 =? _); [done|]. by destruct (m1 =? _). }
    assert (Htw : tight (pr_word w ++ s1)) by (destruct (good_word_cons w Hw) as (c & w' & -> & Hc); by apply wordch_plain).
    assert (Hstep : exists t tw i1, gettoken buf i = Ok ((t, tw), i1) /\ drop i1 buf = pr_word w ++ s1 /\ (i < i1)%nat /\ peek buf [60; 62] i = Ok (true, i) /\ (i < length buf)%nat /\
      forall v, (if t =? 60 then [(v, O_RDONLY, 0)] else if t =? 62 then [(v, Z.lor (Z.lor O_WRONLY O_CREATE) O_TRUNC, 1)] else if t =? 43 then [(v, Z.lor O_WRONLY O_CREATE, 1)] else []) = [(v : word, mode, fd)]).
    { destruct Hr as [[-> ->]|[[-> ->]|[-> ->]]]; cbn [Z.eqb] in E.
      - destruct (sym_token buf i 60 _ E ltac:(set_solver) Htw) as (tw & G1 & G2). exists 60, tw, (S (S i)). split; [done|]. split; [done|]. split; [lia|].
        rewrite (peek_at buf _ _ _ E) by (by right). split; [done|]. split; [exact (drop_room _ _ _ E)|done].
      - destruct (gt_token buf i _ E Htw) as (tw & G1 & G2). exists 62, tw, (S (S i)). split; [done|]. split; [done|]. split; [lia|].
        rewrite (peek_at buf _ _ _ E) by (by right). split; [done|]. split; [exact (drop_room _ _ _ E)|done].
      - destruct (append_token buf i _ E Htw) as (tw & G1 & G2). exists 43, tw, (S (S (S i))). split; [done|]. split; [done|]. split; [lia|].
        rewrite (peek_at buf _ _ _ E) by (by right). split; [done|]. split; [exact (drop_room _ _ _ E)|done]. }
    destruct Hstep as (t & tw & i1 & G1 & G2 & G3 & G4 & G5 & G6). destruct (word_token buf i1 w s1 G2 Hw Ht1) as (W1 & W2 & W3).
    rewrite (bind_ok _ _ _ _ _ G4), (bind_ok _ _ _ _ _ G1), (bind_ok _ _ _ _ _ W1). cbn [fst snd]. change (negb (97 =? 97)) with false. cbn iota.
    rewrite G6. destruct (IH f (S (i1 + length w)) s W2 Hg Hs) as (rs' & i' & R1 & R2 & R3 & R4); [lia|]. rewrite (bind_ok _ _ _ _ _ R1).
    eexists _, i'. split; [reflexivity|]. unfold on_redirs in *. cbn [app fmap list_fmap fst snd]. rewrite R2, W3. split; [done|]. split; [done|lia].
Qed.

Lemma args_stop f argv rs i s : drop i buf = s -> follows stops s -> args_loop buf (S f) argv rs i = Ok ((argv, rs), i).
Proof.
  intros E Hs. cbn [args_loop]. pose proof (proj1 (proj1 (follows_tight _ Hs))) as Ht. rewrite (bind_ok _ _ _ _ _ (peek_at buf _ _ _ E Ht)). destruct Hs as [->|(c & s' & -> & Hc)].
  - cbn. destruct (end_token buf i E) as [w Hw]. by rewrite (bind_ok _ _ _ _ _ Hw).
  - cbn [chr hd]. rewrite (isin_true [124; 41; 38; 59] c (ltac:(by repeat constructor))) by (unfold stops in Hc; set_solver).
    assert (Hc0 : c <> 0) by (intros ->; unfold stops in Hc; set_solver). rewrite (proj2 (Z.eqb_neq c 0)) by done. done.
Qed.

Lemma args_read : forall ws f argv rs0 rs i s, drop i buf = concat (pr_word <$> ws) ++ pr_redirs rs ++ s -> Forall good_word ws -> Forall good_redir rs -> (ws = [] -> rs = []) ->
  follows stops s -> (length argv + length ws < MAXARGS)%nat -> (rest i < f)%nat ->
  exists a i', args_loop buf f argv rs0 i = Ok (a, i') /\ chars buf <$> a.1 = (chars buf <$> argv) ++ ws /\ on_redirs (chars buf) a.2 = on_redirs (chars buf) rs0 ++ rs /\ drop i' buf = s.
Proof.
  induction ws as [|w ws IH]; intros f argv rs0 rs i s E Hw Hr H0 Hs Hl Hf; (destruct f as [|f]; [lia|]).
  - rewrite H0 in * by done. rewrite (args_stop f argv rs0 i s) by done. exists (argv, rs0), i. by rewrite !app_nil_r.
  - apply Forall_cons in Hw as [Hw Hws]. cbn [fmap list_fmap concat] in E. rewrite <- (assoc_L (++)) in E. set (s1 := concat (pr_word <$> ws) ++ pr_redirs rs ++ s) in *.
    destruct (follows_tight _ Hs) as [Hpl _]. destruct (good_word_cons w Hw) as (c & w' & Ew & Hc).
    assert (Htr : tight (pr_redirs rs ++ s)).
    { destruct rs as [|[[w1 m1] d1] rs]; [apply Hpl|]. right. change (pr_redirs ((w1, m1, d1) :: rs)) with (pr_redir (w1, m1, d1) ++ pr_redirs rs). unfold pr_redir. cbn [fst snd].
      destruct (m1 =? _); [done|]. by destruct (m1 =? _). }
    assert (Ht1 : tight s1).
    { unfold s1. destruct ws as [|w1 ws]; [done|]. apply Forall_cons in Hws as [Hw1 _]. destruct (good_word_cons w1 Hw1) as (c1 & w1' & -> & Hc1). by apply wordch_plain. }
    destruct (word_token buf i w s1 E Hw Ht1) as (W1 & W2 & W3). cbn [args_loop]. pose proof E as E'. rewrite Ew in E'. assert (Hi : (i < length buf)%nat) by exact (drop_room _ _ _ E').
    rewrite (bind_ok _ _ _ _ _ (peek_at buf _ _ _ E' (proj1 (wordch_plain _ _ Hc)))). cbn [pr_word app chr hd].
    assert (isin [124; 41; 38; 59] c = false) as ->.
    { apply wordch_facts in Hc as (_ & _ & Hc). apply isin_false. intros Hin. by rewrite (isin_true symbols c (ltac:(by repeat constructor))) in Hc by (unfold symbols; set_solver). }
    rewrite andb_false_r, (bind_ok _ _ _ _ _ W1). cbn [fst snd]. change (97 =? 0) with false. change (negb (97 =? 97)) with false. cbn iota. cbn [length] in Hl.
    match goal with |- context [(MAXARGS <=? ?x)%nat] => destruct (Nat.leb_spec MAXARGS x) as [Hbad|_] end; [rewrite length_app in Hbad; cbn in Hbad; lia|].
    assert (Hred : exists rs' rs1 i', redirs_loop buf f (S (i + length w)) = Ok (rs', i') /\ on_redirs (chars buf) rs' ++ rs1 = rs /\ drop i' buf = concat (pr_word <$> ws) ++ pr_redirs rs1 ++ s /\
      (S (i + length w) <= i')%nat /\ (ws = [] -> rs1 = []) /\ Forall good_redir rs1).
    { destruct ws as [|w1 ws].
      - destruct (redirs_read rs f (S (i + length w)) s) as (rs' & i' & R1 & R2 & R3 & R4); [done|done|done|lia|]. exists rs', [], i'. rewrite R2, app_nil_r. done.
      - destruct (redirs_read [] f (S (i + length w)) s1) as (rs' & i' & R1 & R2 & R3 & R4); [done|done| |lia|]; [unfold s1; apply Forall_cons in Hws as [Hw1 _]; destruct (good_word_cons w1 Hw1) as (c1 & w1' & -> & Hc1); by apply wordch_plain|].
        exists rs', rs, i'. rewrite R2. done. }
    destruct Hred as (rs' & rs1 & i' & R1 & R2 & R3 & R4 & R5 & R6). rewrite (bind_ok _ _ _ _ _ R1).
    destruct (IH f (argv ++ [(i, (i + length w)%nat)]) (rs0 ++ rs') rs1 i' s) as (a & i2 & A1 & A2 & A3 & A4); [done|done|done|done|done|rewrite length_app; cbn; lia|lia|].
    exists a, i2. split; [done|]. rewrite A2, A3. unfold on_redirs. rewrite !fmap_app. cbn [fmap list_fmap]. rewrite W3. rewrite <- !(assoc_L (++)). split; [done|]. split; [|done]. by rewrite <- R2.
Qed.
(** ** Trees *)

(** Routine [m] reads [text] at [i] as the tree [c] and stops at [s]. *)
Definition reads (m : M nat cmd) (i : nat) (c : cmdof (list Z)) (s : list Z) : Prop :=
  exists c' i', m i = Ok (c', i') /\ tree (chars buf) c' = c /\ drop i' buf = s.

Definition exec_reads (c : cmdof (list Z)) : Prop := forall f i s, drop i buf = pr 3 c ++ s -> follows stops s -> (4 * rest i + 3 <= f)%nat -> reads (parseexec buf f) i c s.
Definition pipe_reads (c : cmdof (list Z)) : Prop := forall f i s, drop i buf = pr 2 c ++ s -> follows [41; 59; 38] s -> (4 * rest i + 4 <= f)%nat -> reads (parsepipe buf f) i c s.
Definition back_reads (c : cmdof (list Z)) : Prop := forall f i s, drop i buf = pr 1 c ++ s -> follows [41; 59; 38] s -> (4 * rest i + 4 <= f)%nat ->
  exists g c' i', (c <- parsepipe buf f ;; back_loop buf f c) i = back_loop buf g c' i' /\ tree (chars buf) c' = c /\ drop i' buf = s /\ (rest i' < g)%nat.
Definition line_reads (c : cmdof (list Z)) : Prop := forall f i s, drop i buf = pr 0 c ++ s -> follows [41] s -> (4 * rest i + 5 <= f)%nat -> reads (parseline buf f) i c s.

Lemma drop_sub i j s t : drop i buf = s ++ t -> drop j buf = t -> (rest j <= rest i)%nat.
Proof. intros E1 E2. apply (f_equal length) in E1, E2. rewrite length_drop, length_app in *. lia. Qed.

Lemma follows_plain set s : set ⊆ stops -> follows set s -> tight s.
Proof. intros Hs H. apply (follows_sub _ stops) in H; [|done]. by apply follows_tight in H as [[? _] _]. Qed.

Lemma peek_false toks set i s : drop i buf = s -> set ⊆ stops -> follows set s -> (forall c, c ∈ set -> c ∉ toks) -> peek buf toks i = Ok (false, i).
Proof.
  intros E Hs H Hd. rewrite (peek_at buf _ _ _ E (follows_plain _ _ Hs H)). destruct H as [->|(c & s' & -> & Hc)]; [done|]. cbn. rewrite isin_false by auto. by rewrite andb_false_r.
Qed.

Lemma peek_true c i s : drop i buf = pr_sym c ++ s -> c ∈ [124; 40; 41; 59; 38; 60] -> forall toks, Forall (fun x => x <> 0) toks -> c ∈ toks -> peek buf toks i = Ok (true, i).
Proof.
  intros E Hc toks Hn Hin. assert (Ht : tight (pr_sym c ++ s)) by (right; rewrite !elem_of_cons in Hc; cbn; destruct Hc as [->|[->|[->|[->|[->|[->|Hc]]]]]]; try done; by apply not_elem_of_nil in Hc).
  rewrite (peek_at buf _ _ _ E Ht). cbn. rewrite isin_true by done. assert (Hc0 : c <> 0) by (eapply Forall_forall in Hn; [|exact Hin]; done). by rewrite (proj2 (Z.eqb_neq c 0)).
Qed.

(** The text of a tree begins with a token or what follows it. *)
Lemma pr_tight n c s : wf_tree c -> tight s -> tight (pr n c ++ s).
Proof.
  revert n s. induction c as [argv|c IH w m fd|l IHl r IHr|l IHl r IHr|c IH]; intros n s Hw Hs; cbn [pr]; unfold paren; (destruct (_ <? n)%nat; [by right|]); rewrite <- ?(assoc_L (++)).
  - destruct Hw as [Hw _]. destruct Hw as [|w ws Hw _]; [done|]. destruct (good_word_cons w Hw) as (c & w' & -> & Hc). by apply wordch_plain.
  - apply IH; [apply Hw|]. right. unfold pr_redir. cbn [fst snd]. destruct (m =? _); [done|]. by destruct (m =? _).
  - apply IHl; [apply Hw|]. by right.
  - apply IHl; [apply Hw|]. by right.
  - apply IH; [apply Hw|]. by right.
Qed.

Lemma exec_of_words c ws : (strip c).1 = EXEC ws -> wf_tree c -> exec_reads c.
Proof.
  intros Eb Hw f i s E Hs Hf. destruct f as [|f]; [lia|]. rewrite strip_pr, Eb in E. destruct (strip_wf c Hw) as [Hb Hr]. rewrite Eb in Hb. destruct Hb as [Hws Hl].
  change (pr 3 (EXEC ws)) with (concat (pr_word <$> ws)) in E. rewrite <- (assoc_L (++)) in E. unfold reads. cbn [parseexec]. destruct (follows_tight _ Hs) as [Hpl H40].
  assert (Ht : tight (concat (pr_word <$> ws) ++ pr_redirs (strip c).2 ++ s) /\ chr (concat (pr_word <$> ws) ++ pr_redirs (strip c).2 ++ s) <> 40).
  { destruct Hws as [|w ws Hw1 _]; [|destruct (good_word_cons w Hw1) as (x & w' & -> & Hx); split; [by apply wordch_plain|]; cbn; intros ->; done].
    cbn [fmap list_fmap concat app]. destruct (strip c).2 as [|[[w1 m1] d1] rs]; [by split; [apply Hpl|]|]. change (pr_redirs ((w1, m1, d1) :: rs)) with (pr_redir (w1, m1, d1) ++ pr_redirs rs). unfold pr_redir. cbn [fst snd].
    destruct (m1 =? _); [by split; [right|]|]. by destruct (m1 =? _); split; try right. }
  destruct Ht as [Ht Hc40]. rewrite (bind_ok _ _ _ _ _ (peek_at buf _ _ _ E Ht)). rewrite (isin_false [40]) by (set_solver). rewrite andb_false_r.
  assert (Hfin : forall a, chars buf <$> a.1 = ws -> on_redirs (chars buf) a.2 = (strip c).2 -> tree (chars buf) (redirect (EXEC a.1) a.2) = c).
  { intros a A1 A2. rewrite tree_redirect, A2. cbn [tree]. rewrite A1, <- Eb. apply strip_redirect. }
  destruct ws as [|w ws].
  - destruct (redirs_read (strip c).2 f i s) as (rs' & i' & R1 & R2 & R3 & R4); [done|done|done|lia|]. rewrite (bind_ok _ _ _ _ _ R1). destruct f as [|f]; [lia|].
    rewrite (bind_ok _ _ _ _ _ (args_stop f [] rs' i' s R3 Hs)). exists (redirect (EXEC []) rs'), i'. split; [done|]. split; [|done]. by apply (Hfin ([], rs')).
  - assert (Hpw : plain (concat (pr_word <$> w :: ws) ++ pr_redirs (strip c).2 ++ s)).
    { pose proof Hws as [Hw1 _]%Forall_cons. destruct (good_word_cons w Hw1) as (x & w' & -> & Hx). by apply wordch_plain. }
    destruct (redirs_read [] f i _ E) as (rs' & i' & R1 & R2 & R3 & R4); [apply Forall_nil_2|exact Hpw|lia|].
    rewrite (bind_ok _ _ _ _ _ R1). destruct (args_read (w :: ws) f [] rs' (strip c).2 i' s) as (a & i2 & A1 & A2 & A3 & A4); [done|done|done|done|done|done|lia|].
    rewrite (bind_ok _ _ _ _ _ A1). exists (redirect (EXEC a.1) a.2), i2. split; [done|]. split; [|done]. apply Hfin; [by rewrite A2|]. by rewrite A3, R2.
Qed.

Lemma exec_of_block c : (level (strip c).1 < 3)%nat -> wf_tree c -> line_reads (strip c).1 -> exec_reads c.
Proof.
  intros Hlv Hw Hline f i s E Hs Hf. destruct f as [|f]; [lia|]. rewrite strip_pr, pr_eq in E. rewrite (proj2 (Nat.ltb_lt _ 3)) in E by done. unfold paren in E. rewrite <- !(assoc_L (++)) in E.
  destruct (strip_wf c Hw) as [Hb Hr]. destruct (follows_tight _ Hs) as [Hpl _]. set (s1 := pr_redirs (strip c).2 ++ s) in *.
  assert (Ht1 : tight s1).
  { unfold s1. destruct (strip c).2 as [|[[w1 m1] d1] rs]; [apply Hpl|]. right. change (pr_redirs ((w1, m1, d1) :: rs)) with (pr_redir (w1, m1, d1) ++ pr_redirs rs). unfold pr_redir. cbn [fst snd].
    destruct (m1 =? _); [done|]. by destruct (m1 =? _). }
  assert (Ht2 : tight (pr 0 (strip c).1 ++ pr_sym 41 ++ s1)) by (apply pr_tight; [done|by right]).
  unfold reads. cbn [parseexec]. pose proof (peek_true 40 i _ E ltac:(set_solver) [40] ltac:(by repeat constructor) ltac:(set_solver)) as Hpk. rewrite (bind_ok _ _ _ _ _ Hpk). cbn iota.
  destruct f as [|f]; [lia|]. cbn [parseblock]. rewrite (bind_ok _ _ _ _ _ Hpk). cbn [negb]. pose proof (drop_room _ _ _ E) as Hroom.
  destruct (sym_token buf i 40 _ E ltac:(set_solver) Ht2) as (t & G1 & G2). rewrite (bind_ok _ _ _ _ _ G1).
  destruct (Hline f (S (S i)) _ G2) as (c' & i1 & L1 & L2 & L3); [by apply follows_cons, list_elem_of_here|lia|]. rewrite (bind_ok _ _ _ _ _ L1).
  rewrite (bind_ok _ _ _ _ _ (peek_true 41 i1 _ L3 ltac:(set_solver) [41] ltac:(by repeat constructor) ltac:(set_solver))). cbn [negb].
  destruct (sym_token buf i1 41 _ L3 ltac:(set_solver) Ht1) as (t' & G3 & G4). rewrite (bind_ok _ _ _ _ _ G3). pose proof (drop_sub _ _ _ _ G2 L3) as Hle.
  destruct (redirs_read (strip c).2 f (S (S i1)) s) as (rs' & i' & R1 & R2 & R3 & R4); [done|done|done|lia|]. rewrite (bind_ok _ _ _ _ _ R1).
  exists (redirect c' rs'), i'. split; [done|]. split; [|done]. rewrite tree_redirect, L2, R2. apply strip_redirect.
Qed.

Lemma pipe_of_exec c : pr 2 c = pr 3 c -> exec_reads c -> pipe_reads c.
Proof.
  intros Ep He f i s E Hs Hf. destruct f as [|f]; [lia|]. rewrite Ep in E. destruct (He f i s E) as (c' & i' & R1 & R2 & R3); [by eapply follows_sub; [|exact Hs]; unfold stops; set_solver|lia|].
  cbn [parsepipe]. unfold reads. rewrite (bind_ok _ _ _ _ _ R1). rewrite (bind_ok _ _ _ _ _ (peek_false [124] [41; 59; 38] i' s R3 ltac:(unfold stops; set_solver) Hs ltac:(set_solver))). by exists c', i'.
Qed.

Lemma back_of_pipe c : pr 1 c = pr 2 c -> pipe_reads c -> back_reads c.
Proof.
  intros Ep Hp f i s E Hs Hf. rewrite Ep in E. destruct (Hp f i s E Hs Hf) as (c' & i' & R1 & R2 & R3). exists f, c', i'. rewrite (bind_ok _ _ _ _ _ R1).
  pose proof (drop_sub _ _ _ _ E R3). split; [done|]. split; [done|]. split; [done|lia].
Qed.

Lemma line_of_back c : pr 0 c = pr 1 c -> back_reads c -> line_reads c.
Proof.
  intros Ep Hb f i s E Hs Hf. destruct f as [|f]; [lia|]. rewrite Ep in E. assert (Hs3 : follows [41; 59; 38] s) by (eapply follows_sub; [|exact Hs]; set_solver).
  destruct (Hb f i s E Hs3 ltac:(lia)) as (g & c' & i' & R1 & R2 & R3 & R4). destruct g as [|g]; [lia|]. cbn [back_loop] in R1.
  rewrite (bind_ok _ _ _ _ _ (peek_false [38] [41] i' s R3 ltac:(unfold stops; set_solver) Hs ltac:(set_solver))) in R1. cbn iota in R1. unfold reads. cbn [parseline].
  rewrite <- bind_assoc. rewrite (bind_ok _ _ _ _ _ R1). rewrite (bind_ok _ _ _ _ _ (peek_false [59] [41] i' s R3 ltac:(unfold stops; set_solver) Hs ltac:(set_solver))). by exists c', i'.
Qed.
Lemma pipe_natural l r : wf_tree r -> exec_reads l -> pipe_reads r -> pipe_reads (PIPE l r).
Proof.
  intros Hw Hl Hr f i s E Hs Hf. destruct f as [|f]; [lia|]. change (pr 2 (PIPE l r)) with (pr 3 l ++ pr_sym 124 ++ pr 2 r) in E. rewrite <- !(assoc_L (++)) in E.
  destruct (Hl f i _ E) as (c1 & i1 & R1 & R2 & R3); [by apply follows_cons; unfold stops; set_solver|lia|]. unfold reads. cbn [parsepipe]. rewrite (bind_ok _ _ _ _ _ R1).
  rewrite (bind_ok _ _ _ _ _ (peek_true 124 i1 _ R3 ltac:(set_solver) [124] ltac:(by repeat constructor) ltac:(set_solver))). cbn iota.
  assert (Ht : tight (pr 2 r ++ s)) by (apply pr_tight; [done|]; apply (follows_plain [41; 59; 38]); [unfold stops; set_solver|done]).
  destruct (sym_token buf i1 124 _ R3 ltac:(set_solver) Ht) as (t & G1 & G2). rewrite (bind_ok _ _ _ _ _ G1). pose proof (drop_sub _ _ _ _ E R3). pose proof (drop_room _ _ _ R3).
  destruct (Hr f (S (S i1)) s G2 Hs ltac:(lia)) as (c2 & i2 & S1 & S2 & S3). rewrite (bind_ok _ _ _ _ _ S1). exists (PIPE c1 c2), i2. cbn. by rewrite R2, S2.
Qed.

Lemma back_natural c : back_reads c -> back_reads (BACK c).
Proof.
  intros Hc f i s E Hs Hf. change (pr 1 (BACK c)) with (pr 1 c ++ pr_sym 38) in E. rewrite <- (assoc_L (++)) in E.
  destruct (Hc f i _ E) as (g & c1 & i1 & R1 & R2 & R3 & R4); [by apply follows_cons; set_solver|lia|]. destruct g as [|g]; [lia|]. cbn [back_loop] in R1.
  rewrite (bind_ok _ _ _ _ _ (peek_true 38 i1 _ R3 ltac:(set_solver) [38] ltac:(by repeat constructor) ltac:(set_solver))) in R1. cbn iota in R1.
  assert (Ht : tight s) by (apply (follows_plain [41; 59; 38]); [unfold stops; set_solver|done]).
  destruct (sym_token buf i1 38 _ R3 ltac:(set_solver) Ht) as (t & G1 & G2). rewrite (bind_ok _ _ _ _ _ G1) in R1. pose proof (drop_room _ _ _ R3).
  exists g, (BACK c1), (S (S i1)). cbn [tree]. rewrite R2. split; [done|]. split; [done|]. split; [done|lia].
Qed.

Lemma line_natural l r : wf_tree r -> back_reads l -> line_reads r -> line_reads (LIST l r).
Proof.
  intros Hw Hl Hr f i s E Hs Hf. destruct f as [|f]; [lia|]. change (pr 0 (LIST l r)) with (pr 1 l ++ pr_sym 59 ++ pr 0 r) in E. rewrite <- !(assoc_L (++)) in E.
  destruct (Hl f i _ E) as (g & c1 & i1 & R1 & R2 & R3 & R4); [by apply follows_cons; set_solver|lia|]. destruct g as [|g]; [lia|]. cbn [back_loop] in R1.
  assert (Hs1 : follows [59] (pr_sym 59 ++ pr 0 r ++ s)) by (apply follows_cons; set_solver).
  rewrite (bind_ok _ _ _ _ _ (peek_false [38] [59] i1 _ R3 ltac:(unfold stops; set_solver) Hs1 ltac:(set_solver))) in R1. cbn iota in R1.
  unfold reads. cbn [parseline]. rewrite <- bind_assoc. rewrite (bind_ok _ _ _ _ _ R1).
  rewrite (bind_ok _ _ _ _ _ (peek_true 59 i1 _ R3 ltac:(set_solver) [59] ltac:(by repeat constructor) ltac:(set_solver))). cbn iota.
  assert (Ht : tight (pr 0 r ++ s)) by (apply pr_tight; [done|]; apply (follows_plain [41]); [unfold stops; set_solver|done]).
  destruct (sym_token buf i1 59 _ R3 ltac:(set_solver) Ht) as (t & G1 & G2). rewrite (bind_ok _ _ _ _ _ G1). pose proof (drop_sub _ _ _ _ E R3). pose proof (drop_room _ _ _ R3).
  destruct (Hr f (S (S i1)) s G2 Hs ltac:(lia)) as (c2 & i2 & S1 & S2 & S3). rewrite (bind_ok _ _ _ _ _ S1). exists (LIST c1 c2), i2. cbn. by rewrite R2, S2.
Qed.

Lemma strip_id {W} (c : cmdof W) : (level c < 3)%nat -> strip c = (c, []).
Proof. destruct c; cbn; lia || done. Qed.

Lemma exec_of_line c : (level c < 3)%nat -> wf_tree c -> line_reads c -> exec_reads c.
Proof. intros Hl Hw H. apply exec_of_block; [by rewrite strip_id|done|by rewrite strip_id]. Qed.

(** What a redirected command begins with is a command or in parentheses. *)
Lemma redir_exec c : wf_tree c -> (forall ws, (strip c).1 = EXEC ws -> exec_reads c) /\ ((level (strip c).1 < 3)%nat -> line_reads (strip c).1 -> exec_reads c).
Proof. intros Hw. split; [intros ws E; by eapply exec_of_words|intros; by apply exec_of_block]. Qed.

Lemma strip_level {W} (c : cmdof W) : (exists ws, (strip c).1 = EXEC ws) \/ (level (strip c).1 < 3)%nat.
Proof. induction c as [argv|c IH w m fd|l _ r _|l _ r _|c _]; [left; by exists argv|exact IH|right; cbn; lia..]. Qed.

Lemma trees_read c : wf_tree c -> exec_reads c /\ pipe_reads c /\ back_reads c /\ line_reads c /\ line_reads (strip c).1.
Proof.
  induction c as [argv|c IH w m fd|l IHl r IHr|l IHl r IHr|c IH]; intros Hw.
  - assert (He : exec_reads (EXEC argv)) by (by eapply exec_of_words). assert (Hp : pipe_reads (EXEC argv)) by by apply pipe_of_exec.
    assert (Hb : back_reads (EXEC argv)) by by apply back_of_pipe. assert (Hl : line_reads (EXEC argv)) by by apply line_of_back. done.
  - destruct (IH (proj1 Hw)) as (_ & _ & _ & _ & Hs). set (c' := REDIR c w m fd) in *. assert (He : exec_reads c').
    { destruct (strip_level c') as [[ws E]|Hl]; [by eapply exec_of_words|]. apply exec_of_block; [done|done|exact Hs]. }
    assert (Hp : pipe_reads c') by by apply pipe_of_exec. assert (Hb : back_reads c') by by apply back_of_pipe. assert (Hl : line_reads c') by by apply line_of_back. done.
  - destruct Hw as [Hwl Hwr]. destruct (IHl Hwl) as (El & _). destruct (IHr Hwr) as (_ & Pr & _). assert (Hp : pipe_reads (PIPE l r)) by by apply pipe_natural.
    assert (Hb : back_reads (PIPE l r)) by by apply back_of_pipe. assert (Hl : line_reads (PIPE l r)) by by apply line_of_back.
    assert (He : exec_reads (PIPE l r)) by (apply exec_of_line; [cbn; lia|done|done]). done.
  - destruct Hw as [Hwl Hwr]. destruct (IHl Hwl) as (_ & _ & Bl & _). destruct (IHr Hwr) as (_ & _ & _ & Lr & _). assert (Hl : line_reads (LIST l r)) by by apply line_natural.
    assert (He : exec_reads (LIST l r)) by (apply exec_of_line; [cbn; lia|done|done]). assert (Hp : pipe_reads (LIST l r)) by by apply pipe_of_exec.
    assert (Hb : back_reads (LIST l r)) by by apply back_of_pipe. done.
  - destruct (IH Hw) as (_ & _ & Bc & _). assert (Hb : back_reads (BACK c)) by by apply back_natural. assert (Hl : line_reads (BACK c)) by by apply line_of_back.
    assert (He : exec_reads (BACK c)) by (apply exec_of_line; [cbn; lia|done|done]). assert (Hp : pipe_reads (BACK c)) by by apply pipe_of_exec. done.
Qed.
End reads.

(** ** Positions stay within the line *)

Definition stays (buf : list Z) {A} (m : M nat A) : Prop := forall i a i', m i = Ok (a, i') -> (i <= length buf)%nat -> (i' <= length buf)%nat.

Section stays.
Context (buf : list Z).

Lemma stays_bind {A C} (m : M nat A) (k : A -> M nat C) : stays buf m -> (forall a, stays buf (k a)) -> stays buf (bind m k).
Proof. intros Hm Hk i c i' (a & i1 & E1 & E2)%bind_ok_inv Hi. eapply Hk; [exact E2|]. by eapply Hm. Qed.

Lemma stays_ret {A} (x : A) : stays buf (ret x).
Proof. intros i a i' [= _ <-]. done. Qed.

Lemma stays_if {A} (b : bool) (m m' : M nat A) : stays buf m -> stays buf m' -> stays buf (if b then m else m').
Proof. by destruct b. Qed.

Lemma stays_fail {A} (r : res (A * nat)) : (forall x, r <> Ok x) -> stays buf (fun _ => r).
Proof. intros H i a i' E. by destruct (H (a, i')). Qed.

Lemma at_room i : at_ buf i <> 0 -> (i < length buf)%nat.
Proof. intros H. destruct (decide (length buf <= i)%nat); [by rewrite at_end in H|lia]. Qed.

Lemma gettoken_stays : stays buf (gettoken buf).
Proof.
  intros i a i' E Hi. unfold gettoken in E. pose proof (skip_le buf (isin whitespace) i Hi) as Hs. set (s := skip buf (isin whitespace) i) in *.
  assert (Hfin : forall j, (j <= length buf)%nat -> (skip buf (isin whitespace) j <= length buf)%nat) by (intros; by apply skip_le).
  destruct (Z.eqb_spec (at_ buf s) 0) as [|Hz]; [injection E as _ <-; auto|]. apply at_room in Hz.
  destruct (isin [124; 40; 41; 59; 38; 60] _); [injection E as _ <-; apply Hfin; lia|]. destruct (_ =? 62).
  - destruct (Z.eqb_spec (at_ buf (S s)) 62) as [E2|]; injection E as _ <-; apply Hfin; [|lia]. assert (at_ buf (S s) <> 0) as Hz2%at_room by (by rewrite E2). lia.
  - injection E as _ <-. apply Hfin. by apply skip_le.
Qed.

Lemma peek_stays toks : stays buf (peek buf toks).
Proof. intros i a i' [= _ <-] Hi. by apply skip_le. Qed.
End stays.

Ltac stay :=
  repeat first
    [ match goal with |- forall _, _ => intro end
    | apply stays_bind | apply stays_if | apply stays_ret | apply gettoken_stays | apply peek_stays | (apply stays_fail; done) | done ].

Lemma redirs_stays buf : forall f, stays buf (redirs_loop buf f).
Proof. induction f as [|f IH]; cbn [redirs_loop]; stay. Qed.

Lemma args_stays buf : forall f argv rs, stays buf (args_loop buf f argv rs).
Proof. induction f as [|f IH]; intros argv rs; cbn [args_loop]; stay; apply redirs_stays. Qed.

Lemma back_stays buf : forall f c, stays buf (back_loop buf f c).
Proof. induction f as [|f IH]; intros c; cbn [back_loop]; stay. Qed.

Lemma parse_stays buf : forall f, stays buf (parseline buf f) /\ stays buf (parsepipe buf f) /\ stays buf (parseexec buf f) /\ stays buf (parseblock buf f).
Proof.
  induction f as [|f (IHl & IHp & IHe & IHb)]; cbn [parseline parsepipe parseexec parseblock]; (split; [|split; [|split]]); stay; try apply redirs_stays; try apply back_stays. apply args_stays.
Qed.

Lemma tree_ext {V} (g h : word -> V) (c : cmd) : (forall w, w ∈ words c -> g w = h w) -> tree g c = tree h c.
Proof.
  induction c as [argv|c IH w m fd|l IHl r IHr|l IHl r IHr|c IH]; cbn [words tree]; intros H.
  - f_equal. apply list_fmap_ext. intros i w Hw. apply H. by eapply list_elem_of_lookup_2.
  - rewrite IH by (intros; apply H; set_solver). by rewrite H by set_solver.
  - by rewrite IHl, IHr by (intros; apply H; set_solver).
  - by rewrite IHl, IHr by (intros; apply H; set_solver).
  - by rewrite IH.
Qed.

Lemma pr_nonul n c : wf_tree c -> Forall (fun x => x <> 0) (pr n c).
Proof.
  assert (Hword : forall w, good_word w -> Forall (fun x => x <> 0) (pr_word w)).
  { intros w [_ Hw]. apply Forall_app. split; [|by repeat constructor]. eapply Forall_impl; [exact Hw|]. cbn beta. intros x Hx. by apply wordch_facts in Hx as [? _]. }
  revert n. induction c as [argv|c IH w m fd|l IHl r IHr|l IHl r IHr|c IH]; intros n Hw; rewrite pr_eq; unfold paren;
    match goal with |- Forall _ (if _ then pr_sym 40 ++ ?t ++ pr_sym 41 else _) => assert (Hx : Forall (fun z => z <> 0) t); [|destruct (_ <? n)%nat; [|done]; rewrite !Forall_app; split; [by repeat constructor|split; [done|by repeat constructor]]] end.
  - destruct Hw as [Hw _]. cbn. induction Hw as [|w ws Hw _ IHw]; [constructor|]. cbn. apply Forall_app. auto.
  - destruct Hw as (Hw & Hf & _). change (pr 0 (REDIR c w m fd)) with (pr 3 c ++ pr_redir (w, m, fd)). apply Forall_app. split; [by apply IH|]. unfold pr_redir. cbn [fst snd].
    apply Forall_app. split; [|by apply Hword]. destruct (m =? _); [by repeat constructor|]. by destruct (m =? _); repeat constructor.
  - change (pr 0 (PIPE l r)) with (pr 3 l ++ pr_sym 124 ++ pr 2 r). rewrite !Forall_app. split; [apply IHl, Hw|]. split; [by repeat constructor|apply IHr, Hw].
  - change (pr 0 (LIST l r)) with (pr 1 l ++ pr_sym 59 ++ pr 0 r). rewrite !Forall_app. split; [apply IHl, Hw|]. split; [by repeat constructor|apply IHr, Hw].
  - change (pr 0 (BACK c)) with (pr 1 c ++ pr_sym 38). rewrite !Forall_app. split; [by apply IH|by repeat constructor].
Qed.

(** The line of a tree is parsed to that tree. *)
Lemma parsecmd_read c fuel : wf_tree c -> (4 * length (pr 0 c) + 5 <= fuel)%nat ->
  exists c' b, parsecmd (pr 0 c) fuel 0%nat = Ok ((c', b), length (pr 0 c)) /\ tree (str_at b) c' = c.
Proof.
  intros Hw Hf. set (buf := pr 0 c) in *. assert (Hn : Forall (fun x => x <> 0) buf) by by apply pr_nonul.
  destruct (trees_read buf c Hw) as (_ & _ & _ & Hl & _). destruct (Hl fuel 0%nat [] (eq_sym (app_nil_r _)) ltac:(by left) ltac:(lia)) as (c' & i & R1 & R2 & R3).
  assert (Hi : i = length buf).
  { pose proof (proj1 (parse_stays buf fuel) _ _ _ R1 ltac:(lia)). apply (f_equal length) in R3. rewrite length_drop in R3. cbn in R3. lia. }
  exists c', (nulterminate c' (buf ++ [0])). unfold parsecmd. rewrite (bind_ok _ _ _ _ _ R1). rewrite (bind_ok _ _ _ _ _ (peek_at buf _ _ _ R3 ltac:(by left))). cbn [chr hd].
  rewrite (bind_ok _ _ _ _ _ (eq_refl : get i = Ok (i, i))). rewrite Hi, Nat.eqb_refl. cbn [negb]. split; [done|].
  pose proof (proj1 (parse_runs buf Hn fuel 0) ltac:(lia)) as H. unfold parses, runs in H. rewrite R1 in H. destruct H as [_ Hwf].
  rewrite <- R2. apply tree_ext. intros w Hw'. rewrite nulterminate_words. apply str_at_word; [done|by apply wf_words|done].
Qed.


(** A list in parentheses, redirected, in a pipeline. *)
Definition ex_tree : cmdof (list Z) :=
  PIPE (REDIR (LIST (BACK (EXEC [[97]; [98; 99]])) (EXEC [[100]])) [102] O_RDONLY 0) (REDIR (EXEC [[103]]) [104] (Z.lor O_WRONLY O_CREATE) 1).

Lemma ex_tree_wf : wf_tree ex_tree.
Proof.
  assert (Hm : forall k, (k < 4)%nat -> (k < MAXARGS)%nat) by (unfold MAXARGS; lia). cbn [ex_tree wf_tree]. split_and!.
  all: try (apply Hm; cbn; lia). all: try (by left). all: try (by right; right). all: repeat apply Forall_cons_2; try apply Forall_nil_2. all: split; [done|by repeat constructor].
Qed.


Lemma ex_line_nonul : Forall (fun x => x <> 0) (pr 0 ex_tree).
Proof. apply pr_nonul, ex_tree_wf. Qed.

Lemma parsecmd_terminates_witness : (exists c b ps, parsecmd (pr 0 ex_tree) 200 0%nat = Ok ((c, b), ps)) \/ exists msg, parsecmd (pr 0 ex_tree) 200 0%nat = Panic msg.
Proof. apply (parsecmd_terminates (pr 0 ex_tree) 200 ex_line_nonul). apply Nat.leb_le. vm_compute. reflexivity. Defined.

Definition ex_line : list Z := [97; 32; 62; 98].

