(* ===== verification/ShRun.v ===== *)
(** user/sh.c: running commands.  A process is its table of descriptors; the system
    calls of the shell work on it as the kernel's do: [open], [dup] and [pipe] take the
    lowest free descriptors, [fork] copies the table.  Which of [fork], [pipe] and [open]
    succeed is a parameter.  [runcmd] never returns, so it denotes what happens in its
    process and in the children it creates: the programs they try to [exec], each with
    its arguments and descriptors, and the messages. *)

From S2P Require Import Prelude Mem Ulib Sh ShThm ShPrint.

(** What a descriptor refers to: what the shell was started with, a file that was
    opened, or an end of the [n]-th pipe. *)
Inductive obj := Given (n : nat) | Opened (file : list Z) (mode : Z) | Rend (n : nat) | Wend (n : nat).
Definition fdtab : Type := list (option obj).

#[export] Instance obj_eq_dec : EqDecision obj.
Proof. solve_decision. Defined.

Inductive event :=
| Exec (argv : list (list Z)) (fds : fdtab)
| OpenFailed (file : list Z)
| ShPanic (msg : string).

(** Numbers of forks and pipes so far, and the events. *)
Record rst := mkrst { r_forks : nat; r_pipes : nat; r_log : list event }.

(** ** The system calls on descriptors *)

Fixpoint lowest (fds : fdtab) : option nat :=
  match fds with
  | [] => None
  | None :: _ => Some O
  | Some _ :: fds' => S <$> lowest fds'
  end.
(** [None] is -1. *)
Definition fd_put (fds : fdtab) (o : obj) : option (nat * fdtab) := (fun i => (i, <[i := Some o]> fds)) <$> lowest fds.
Definition fd_close (fds : fdtab) (fd : nat) : fdtab := <[fd := None]> fds.
Definition fd_dup (fds : fdtab) (fd : nat) : fdtab :=
  match fds !! fd with
  | Some (Some o) => default fds (snd <$> fd_put fds o)
  | _ => fds
  end.

Section Run.
Context (can_fork can_pipe : nat -> bool) (can_open : list Z -> Z -> bool).
Notation R := (M rst).

Definition say (e : event) : R unit := modify (fun s => mkrst (r_forks s) (r_pipes s) (r_log s ++ [e])).

(** [if(fork1() == 0) child; parent]; [fork1] panics when there is no process. *)
Definition fork1 (child parent : R unit) : R unit :=
  n <- Prelude.gets r_forks ;;
  modify (fun s => mkrst (S (r_forks s)) (r_pipes s) (r_log s)) ;;;
  if can_fork n then child ;;; parent else say (ShPanic "fork").

(** The two descriptors, the table, and the number of the pipe *)
Definition sys_pipe (fds : fdtab) : R (option (nat * nat * fdtab)) :=
  n <- Prelude.gets r_pipes ;;
  modify (fun s => mkrst (r_forks s) (S (r_pipes s)) (r_log s)) ;;;
  ret (if can_pipe n then
         match fd_put fds (Rend n) with
         | Some (p0, fds) => match fd_put fds (Wend n) with Some (p1, fds) => Some (p0, p1, fds) | None => None end
         | None => None
         end
       else None).

(** Execute cmd.  Never returns. *)
Fixpoint runcmd (c : cmdof (list Z)) (fds : fdtab) : R unit :=
  match c with
  | EXEC [] => ret tt
  | EXEC argv => say (Exec argv fds)
  | REDIR c file mode fd =>
      let fds := fd_close fds (Z.to_nat fd) in
      if can_open file mode then
        match fd_put fds (Opened file mode) with
        | Some (_, fds) => runcmd c fds
        | None => say (OpenFailed file)
        end
      else say (OpenFailed file)
  | LIST l r => fork1 (runcmd l fds) (runcmd r fds)
  | PIPE l r =>
      p <- sys_pipe fds ;;
      match p with
      | None => say (ShPanic "pipe")
      | Some (p0, p1, fds) =>
          fork1 (runcmd l (fd_close (fd_close (fd_dup (fd_close fds 1) p1) p0) p1))
            (fork1 (runcmd r (fd_close (fd_close (fd_dup (fd_close fds 0) p0) p0) p1))
               (ret tt))
      end
  | BACK c => fork1 (runcmd c fds) (ret tt)
  end.

(** ** [main] *)

Definition NBUF : Z := 100.

(** [getcmd]: the line in [buf], [None] at the end of the input, and the rest of it. *)
Definition getcmd (inp : list Z) : option (list Z) * list Z :=
  let r := Ulib.gets NBUF inp in
  let buf := c_str r.1 in
  if chr buf =? 0 then (None, r.2) else (Some buf, r.2).

Inductive action := Chdir (path : list Z) | Command (line : list Z).

(** What [main] does with a line. *)
Definition on_line (buf : list Z) : action :=
  match buf with
  | 99 :: 100 :: 32 :: _ => Chdir (drop 3 (take (length buf - 1) buf))
  | _ => Command buf
  end.

(** The child of [main]: [runcmd(parsecmd(buf))]; the parser panics by printing. *)
Definition run_line (buf : list Z) (fds : fdtab) : R unit := fun s =>
  match parsecmd buf (4 * length buf + 5) 0%nat with
  | Ok ((c, b), _) => runcmd (tree (str_at b) c) fds s
  | Panic msg => say (ShPanic msg) s
  | Blocked => Blocked
  | OutOfFuel => OutOfFuel
  end.

(** The loop over the lines; the directories [cd] went to are kept apart. *)
Fixpoint main_loop (fuel : nat) (inp : list Z) (fds : fdtab) (dirs : list (list Z)) : R (list (list Z)) :=
  match fuel with
  | O => nofuel
  | S f =>
      match getcmd inp with
      | (None, _) => ret dirs
      | (Some buf, inp) =>
          match on_line buf with
          | Chdir path => main_loop f inp fds (dirs ++ [path])
          | Command buf =>
              n <- Prelude.gets r_forks ;;
              modify (fun s => mkrst (S (r_forks s)) (r_pipes s) (r_log s)) ;;;
              if can_fork n then run_line buf fds ;;; main_loop f inp fds dirs
              else say (ShPanic "fork") ;;; ret dirs
          end
      end
  end.

(** Three descriptors at least are open. *)
Fixpoint open_three (fuel : nat) (fds : fdtab) : fdtab :=
  match fuel with
  | O => fds
  | S f =>
      if can_open [99; 111; 110; 115; 111; 108; 101] 2 then
        match fd_put fds (Opened [99; 111; 110; 115; 111; 108; 101] 2) with
        | Some (fd, fds) => if (3 <=? fd)%nat then fd_close fds fd else open_three f fds
        | None => fds
        end
      else fds
  end.
Definition main (inp : list Z) (fds : fdtab) : R (list (list Z)) :=
  main_loop (S (length inp)) inp (open_three (S (length fds)) fds) [].

(** ** What a command means *)

(** The three streams a program starts with. *)
Record wires := mkwires { w_in : option obj; w_out : option obj; w_err : option obj }.
Definition table (w : wires) : fdtab := w_in w :: w_out w :: w_err w :: replicate 13 None.

(** The programs a command starts, with the next number for a pipe: a redirection
    replaces a stream, a pipe connects the output of its left with the input of its right
    side, a file that cannot be opened stops its command. *)
Fixpoint meaning (c : cmdof (list Z)) (w : wires) (n : nat) : list event * nat :=
  match c with
  | EXEC [] => ([], n)
  | EXEC argv => ([Exec argv (table w)], n)
  | REDIR c file mode fd =>
      if can_open file mode then
        meaning c (if fd =? 0 then mkwires (Some (Opened file mode)) (w_out w) (w_err w) else mkwires (w_in w) (Some (Opened file mode)) (w_err w)) n
      else ([OpenFailed file], n)
  | LIST l r => let '(e1, n1) := meaning l w n in let '(e2, n2) := meaning r w n1 in (e1 ++ e2, n2)
  | PIPE l r =>
      let '(e1, n1) := meaning l (mkwires (w_in w) (Some (Wend n)) (w_err w)) (S n) in
      let '(e2, n2) := meaning r (mkwires (Some (Rend n)) (w_out w) (w_err w)) n1 in (e1 ++ e2, n2)
  | BACK c => meaning c w n
  end.

(** ** [runcmd] does what a command means *)

Definition logs (s s' : rst) (es : list event) (n : nat) : Prop := r_log s' = r_log s ++ es /\ r_pipes s' = n.

Context (Hfork : forall n, can_fork n = true) (Hpipe : forall n, can_pipe n = true).

Lemma fork1_run child parent s es1 es2 n1 n2 : 
  (exists s1, child (mkrst (S (r_forks s)) (r_pipes s) (r_log s)) = Ok (tt, s1) /\ logs s s1 es1 n1) ->
  (forall s1, logs s s1 es1 n1 -> exists s2, parent s1 = Ok (tt, s2) /\ logs s1 s2 es2 n2) ->
  exists s', fork1 child parent s = Ok (tt, s') /\ logs s s' (es1 ++ es2) n2.
Proof.
  intros (s1 & E1 & L1) Hp. destruct (Hp s1 L1) as (s2 & E2 & L2). exists s2. unfold fork1. rewrite (bind_ok _ _ _ (r_forks s) s) by done.
  rewrite (bind_ok _ _ _ tt (mkrst (S (r_forks s)) (r_pipes s) (r_log s))) by done. rewrite Hfork, (bind_ok _ _ _ _ _ E1). split; [done|]. destruct L1 as [L11 L12]. destruct L2 as [L21 L22].
  split; [by rewrite L21, L11, (assoc_L (++))|done].
Qed.

Lemma logs_nil s : logs s s [] (r_pipes s).
Proof. split; [by rewrite app_nil_r|done]. Qed.

(** The streams are open. *)
Definition wired (w : wires) : Prop := is_Some (w_in w) /\ is_Some (w_out w) /\ is_Some (w_err w).

Lemma put_in o w : is_Some (w_out w) -> is_Some (w_err w) -> fd_put (fd_close (table w) 0) o = Some (0%nat, table (mkwires (Some o) (w_out w) (w_err w))).
Proof. done. Qed.

Lemma put_out o w : is_Some (w_in w) -> is_Some (w_err w) -> fd_put (fd_close (table w) 1) o = Some (1%nat, table (mkwires (w_in w) (Some o) (w_err w))).
Proof. destruct w as [i o' e]. cbn. by intros [x ->] [y ->]. Qed.

Fixpoint redirs_std {W} (c : cmdof W) : Prop :=
  match c with
  | EXEC _ => True
  | REDIR c _ _ fd => redirs_std c /\ (fd = 0 \/ fd = 1)
  | PIPE l r | LIST l r => redirs_std l /\ redirs_std r
  | BACK c => redirs_std c
  end.

Lemma runcmd_run c : forall w s, redirs_std c -> wired w ->
  exists s', runcmd c (table w) s = Ok (tt, s') /\ logs s s' (meaning c w (r_pipes s)).1 (meaning c w (r_pipes s)).2.
Proof.
  induction c as [argv|c IH file mode fd|l IHl r IHr|l IHl r IHr|c IH]; intros w s Hc Hw; cbn [runcmd meaning redirs_std] in *.
  - destruct argv as [|a argv]; [exists s; split; [done|apply logs_nil]|]. eexists. split; [reflexivity|]. done.
  - destruct Hc as [Hc Hfd]. destruct Hw as ([i Hi] & [o Ho] & [e He]). destruct (can_open file mode); [|eexists; split; [reflexivity|done]].
    destruct Hfd as [->| ->]; cbn [Z.eqb Z.to_nat Pos.to_nat].
    + rewrite put_in by eauto. apply IH; [done|]. repeat split; cbn; eauto.
    + change (Pos.to_nat 1) with 1%nat. rewrite put_out by eauto. apply IH; [done|]. repeat split; cbn; eauto.
  - destruct Hw as ([i Hi] & [o Ho] & [e He]). destruct w as [wi wo we]. cbn in Hi, Ho, He. subst. set (n := r_pipes s). unfold sys_pipe.
    rewrite bind_assoc, (bind_ok _ _ _ n s) by done. rewrite bind_assoc, (bind_ok _ _ _ tt (mkrst (r_forks s) (S n) (r_log s))) by done. rewrite Hpipe. set (s1 := mkrst _ _ _).
    rewrite (bind_ok _ _ _ (Some (3%nat, 4%nat, <[4%nat := Some (Wend n)]> (<[3%nat := Some (Rend n)]> (table (mkwires (Some i) (Some o) (Some e)))))) s1) by done.
    destruct (meaning l _ (S n)) as [e1 n1] eqn:E1. destruct (meaning r _ n1) as [e2 n2] eqn:E2. cbn [w_in w_out w_err fst snd] in *. rewrite <- (app_nil_r e2).
    apply (fork1_run _ _ s1 e1 (e2 ++ []) n1 n2).
    + destruct (IHl (mkwires (Some i) (Some (Wend n)) (Some e)) (mkrst (S (r_forks s1)) (r_pipes s1) (r_log s1)) (proj1 Hc)) as (s2 & R & L); [by repeat split; eexists|]. cbn [r_pipes s1] in L. rewrite E1 in L. exists s2. split; [exact R|exact L].
    + intros s2 L2. apply (fork1_run _ _ s2 e2 [] n2 n2).
      * destruct (IHr (mkwires (Some (Rend n)) (Some o) (Some e)) (mkrst (S (r_forks s2)) (r_pipes s2) (r_log s2)) (proj2 Hc)) as (s3 & R & L); [by repeat split; eexists|]. cbn [r_pipes] in L. rewrite (proj2 L2), E2 in L. exists s3. split; [exact R|exact L].
      * intros s3 [_ <-]. exists s3. split; [done|apply logs_nil].
  - destruct (meaning l w (r_pipes s)) as [e1 n1] eqn:E1. destruct (meaning r w n1) as [e2 n2] eqn:E2. cbn [fst snd]. apply (fork1_run _ _ s e1 e2 n1 n2).
    + destruct (IHl w (mkrst (S (r_forks s)) (r_pipes s) (r_log s)) (proj1 Hc) Hw) as (s2 & R & L). cbn [r_pipes] in L. rewrite E1 in L. by exists s2.
    + intros s2 [_ L2]. destruct (IHr w s2 (proj2 Hc) Hw) as (s3 & R & L). rewrite L2, E2 in L. by exists s3.
  - destruct (meaning c w (r_pipes s)) as [e1 n1] eqn:E1. cbn [fst snd]. rewrite <- (app_nil_r e1). apply (fork1_run _ _ s e1 [] n1 n1).
    + destruct (IH w (mkrst (S (r_forks s)) (r_pipes s) (r_log s)) Hc Hw) as (s2 & R & L). cbn [r_pipes] in L. rewrite E1 in L. by exists s2.
    + intros s2 [_ <-]. exists s2. split; [done|apply logs_nil].
Qed.

(** Every program starts with exactly its three streams. *)
Lemma meaning_tables c : forall w n, wired w -> Forall (fun e => match e with Exec _ fds => exists w', wired w' /\ fds = table w' | _ => True end) (meaning c w n).1.
Proof.
  induction c as [argv|c IH file mode fd|l IHl r IHr|l IHl r IHr|c IH]; intros w n Hw; cbn [meaning].
  - destruct argv; [constructor|]. apply Forall_singleton. by exists w.
  - destruct Hw as (H1 & H2 & H3). destruct (can_open file mode); [|by apply Forall_singleton]. apply IH. destruct (fd =? 0); repeat split; cbn; eauto.
  - destruct Hw as (H1 & H2 & H3). pose proof (IHl (mkwires (w_in w) (Some (Wend n)) (w_err w)) (S n) ltac:(repeat split; cbn; eauto)) as Hl. destruct (meaning l _ (S n)) as [e1 n1].
    pose proof (IHr (mkwires (Some (Rend n)) (w_out w) (w_err w)) n1 ltac:(repeat split; cbn; eauto)) as Hr. destruct (meaning r _ n1) as [e2 n2]. cbn in *. by apply Forall_app.
  - pose proof (IHl w n Hw) as Hl. destruct (meaning l w n) as [e1 n1]. pose proof (IHr w n1 Hw) as Hr. destruct (meaning r w n1) as [e2 n2]. cbn in *. by apply Forall_app.
  - by apply IH.
Qed.
End Run.

(** ** [main] comes to an end *)

Section Main.
Context (can_fork can_pipe : nat -> bool) (can_open : list Z -> Z -> bool).

Lemma fork1_total child parent s : (forall s, exists s', child s = Ok (tt, s')) -> (forall s, exists s', parent s = Ok (tt, s')) -> exists s', fork1 can_fork child parent s = Ok (tt, s').
Proof.
  intros Hc Hp. unfold fork1. rewrite (bind_ok _ _ _ (r_forks s) s) by done. rewrite (bind_ok _ _ _ tt (mkrst (S (r_forks s)) (r_pipes s) (r_log s))) by done.
  destruct (can_fork (r_forks s)); [|by eexists]. destruct (Hc (mkrst (S (r_forks s)) (r_pipes s) (r_log s))) as [s1 E1]. rewrite (bind_ok _ _ _ _ _ E1). apply Hp.
Qed.

Lemma runcmd_total c : forall fds s, exists s', runcmd can_fork can_pipe can_open c fds s = Ok (tt, s').
Proof.
  induction c as [argv|c IH file mode fd|l IHl r IHr|l IHl r IHr|c IH]; intros fds s; cbn [runcmd].
  - destruct argv; by eexists.
  - destruct (can_open file mode); [|by eexists]. destruct (fd_put _ _) as [[k fds']|]; [apply IH|by eexists].
  - unfold bind at 1. unfold sys_pipe at 1. unfold bind, Prelude.gets, modify, ret. case_match; [|by eexists]. destruct p as [[p0 p1] fds'].
    apply fork1_total; [intros s1; apply IHl|]. intros s1. apply fork1_total; [intros s2; apply IHr|]. intros s2. by exists s2.
  - apply fork1_total; [intros s1; apply IHl|intros s1; apply IHr].
  - apply fork1_total; [intros s1; apply IH|]. intros s1. by exists s1.
Qed.

Lemma c_str_nonul l : Forall (fun c => c <> 0) (c_str l).
Proof. induction l as [|c l IH]; cbn; [constructor|]. destruct (Z.eqb_spec c 0); [constructor|by constructor]. Qed.

Lemma run_line_total l fds s : exists s', run_line can_fork can_pipe can_open (c_str l) fds s = Ok (tt, s').
Proof.
  unfold run_line. destruct (parsecmd_terminates (c_str l) (4 * length (c_str l) + 5) (c_str_nonul l) ltac:(lia)) as [(c & b & ps & ->)|(msg & ->)]; [apply runcmd_total|by eexists].
Qed.

Lemma gets_loop_rest n : forall inp, (length (gets_loop n inp).2 + length (gets_loop n inp).1 = length inp)%nat.
Proof. induction n as [|n IH]; intros inp; cbn; [lia|]. destruct inp as [|c inp]; [done|]. case_match; cbn; [lia|]. specialize (IH inp). lia. Qed.

Lemma getcmd_shorter inp buf inp' : getcmd inp = (Some buf, inp') -> (length inp' < length inp)%nat /\ exists l, buf = c_str l.
Proof.
  unfold getcmd, Ulib.gets. set (n := Z.to_nat (NBUF - 1)). pose proof (gets_loop_rest n inp) as Hl. destruct (gets_loop n inp) as [l r]. cbn [fst snd] in *. destruct (Z.eqb_spec (chr (c_str l)) 0) as [E|E]; [done|].
  intros [= <- <-]. split; [|by exists l]. destruct l; cbn in *; [done|lia].
Qed.

Lemma main_loop_total fuel : forall inp fds dirs s, (length inp < fuel)%nat -> exists dirs' s', main_loop can_fork can_pipe can_open fuel inp fds dirs s = Ok (dirs', s').
Proof.
  induction fuel as [|fuel IH]; intros inp fds dirs s Hf; [lia|]. cbn [main_loop]. destruct (getcmd inp) as [[buf|] inp'] eqn:E; [|by eexists _, _]. destruct (getcmd_shorter inp buf inp' E) as [Hlt [l ->]].
  assert (Hon : (exists path, on_line (c_str l) = Chdir path) \/ on_line (c_str l) = Command (c_str l)) by (unfold on_line; repeat case_match; eauto).
  destruct Hon as [[path ->]| ->]; [apply IH; lia|]. unfold bind, Prelude.gets, modify. destruct (can_fork (r_forks s)); [|by eexists _, _].
  destruct (run_line_total l fds (mkrst (S (r_forks s)) (r_pipes s) (r_log s))) as [s1 ->]. apply IH. lia.
Qed.

End Main.

Lemma wf_tree_std c : wf_tree c -> redirs_std c.
Proof.
  induction c as [argv|c IH file mode fd|l IHl r IHr|l IHl r IHr|c IH]; cbn; try tauto. intros (Hc & _ & Hr). split; [by apply IH|]. unfold redir_ok in Hr. tauto.
Qed.


Definition ex_wires : wires := mkwires (Some (Given 0)) (Some (Given 1)) (Some (Given 2)).

