(* ===== verification/Uprog.v ===== *)
(** User programs: user/printf.c, formatted output as the list of the characters
    written; user/wc.c, counting the lines, words and bytes of a file; user/cat.c; and
    the names that user/ls.c prints. *)

From Stdlib Require Import Ascii String.
From S2P Require Import Prelude Mem Ulib.

(** ** user/printf.c *)

(** [static char digits[] = "0123456789ABCDEF"] *)
Definition udigits : list Z := [48; 49; 50; 51; 52; 53; 54; 55; 56; 57; 65; 66; 67; 68; 69; 70].

(** The do-while loop: the characters in the order they are put in [buf]. *)
Fixpoint udigit_loop (fuel : nat) (x base : Z) : list Z :=
  match fuel with
  | O => []
  | S f =>
      let x' := x / base in
      (udigits !!! Z.to_nat (x mod base)) :: if x' =? 0 then [] else udigit_loop f x' base
  end.

(** [xx] is an [int]; 32 turns are enough in any base. *)
Definition printint (xx base : Z) (sgn : bool) : list Z :=
  let neg := sgn && (xx <? 0) in
  let x := if neg then u32 (- xx) else u32 xx in
  rev (udigit_loop 32 x base ++ if neg then [45] else []).

Fixpoint uptr_loop (k : nat) (x : Z) : list Z :=
  match k with
  | O => []
  | S k' => (udigits !!! Z.to_nat (Z.shiftr x 60)) :: uptr_loop k' (u64 (Z.shiftl x 4))
  end.
Definition uprintptr (x : Z) : list Z := 48 :: 120 :: uptr_loop 16 x.

(** The variable arguments: an [int] or [uint], a [uint64], a string or a null pointer. *)
Inductive varg := Vint (v : Z) | Vlong (v : Z) | Vstr (s : option (list Z)).

Definition unull : list Z := [40; 110; 117; 108; 108; 41].

(** The loop over the format; [percent] is [state == '%'].  [None] when an argument is
    missing or of another type, which C leaves undefined. *)
Fixpoint vprintf (fmt : list Z) (percent : bool) (ap : list varg) : option (list Z) :=
  match fmt with
  | [] => Some []
  | c :: fmt' =>
      if c =? 0 then Some [] else
      if negb percent then
        if c =? 37 then vprintf fmt' true ap else cons c <$> vprintf fmt' false ap
      else if c =? 100 then
        match ap with Vint v :: ap' => app (printint v 10 true) <$> vprintf fmt' false ap' | _ => None end
      else if c =? 108 then
        match ap with Vlong v :: ap' => app (printint (s32 v) 10 false) <$> vprintf fmt' false ap' | _ => None end
      else if c =? 120 then
        match ap with Vint v :: ap' => app (printint v 16 false) <$> vprintf fmt' false ap' | _ => None end
      else if c =? 112 then
        match ap with Vlong v :: ap' => app (uprintptr v) <$> vprintf fmt' false ap' | _ => None end
      else if c =? 115 then
        match ap with Vstr s :: ap' => app (c_str (default unull s)) <$> vprintf fmt' false ap' | _ => None end
      else if c =? 99 then
        match ap with Vint v :: ap' => cons (u8 v) <$> vprintf fmt' false ap' | _ => None end
      else if c =? 37 then cons c <$> vprintf fmt' false ap
      else (fun o => 37 :: c :: o) <$> vprintf fmt' false ap
  end.
Definition uprintf (fmt : list Z) (ap : list varg) : option (list Z) := vprintf fmt false ap.

(** *** Numerals *)

(** The value of a digit, and of digits, most significant first. *)
Definition digit_val (c : Z) : Z := if c <=? 57 then c - 48 else c - 55.
Definition num_val (base : Z) (s : list Z) : Z := foldl (fun n c => n * base + digit_val c) 0 s.
(** Reading a number with an optional minus sign. *)
Definition read_num (base : Z) (s : list Z) : Z :=
  match s with
  | c :: s' => if c =? 45 then - num_val base s' else num_val base s
  | [] => 0
  end.

Lemma udigit_val k : 0 <= k < 16 -> digit_val (udigits !!! Z.to_nat k) = k /\ 48 <= udigits !!! Z.to_nat k <= 70.
Proof.
  intros Hk. assert (Hf : Forall (fun k => digit_val (udigits !!! Z.to_nat k) = k /\ 48 <= udigits !!! Z.to_nat k <= 70) (seqZ 0 16)) by (apply (bool_decide_eq_true_1 _); by vm_compute).
  rewrite Forall_forall in Hf. apply Hf, elem_of_seqZ. lia.
Qed.

Lemma udigit_loop_val base : 2 <= base <= 16 -> forall fuel x, 0 <= x < 2 ^ Z.of_nat fuel ->
  (0 < fuel)%nat -> num_val base (rev (udigit_loop fuel x base)) = x /\ Forall (fun c => 48 <= c <= 70) (udigit_loop fuel x base).
Proof.
  intros Hb. induction fuel as [|fuel IH]; intros x Hx Hf; [lia|]. cbn [udigit_loop]. pose proof (Z.mod_pos_bound x base ltac:(lia)) as Hm. destruct (udigit_val (x mod base) ltac:(lia)) as [Hv Hr].
  assert (Hq : 0 <= x / base /\ base * (x / base) <= x) by (split; [apply Z.div_pos; lia|apply Z.mul_div_le; lia]). pose proof (Z.div_mod x base ltac:(lia)) as Hdm. destruct (Z.eqb_spec (x / base) 0) as [E|E].
  - split; [|by apply Forall_singleton]. cbn. rewrite Hv. rewrite E in Hdm. lia.
  - rewrite Nat2Z.inj_succ, Z.pow_succ_r in Hx by lia. assert (Hlt : x / base < 2 ^ Z.of_nat fuel) by nia. destruct fuel as [|fuel]; [cbn in Hlt; lia|].
    destruct (IH (x / base) ltac:(lia) ltac:(lia)) as [IH1 IH2]. split; [|by constructor]. cbn [rev]. unfold num_val in *. rewrite foldl_app, IH1. cbn. rewrite Hv. lia.
Qed.

(** From base 10 on there are at most as many digits as in base 10. *)
Lemma udigit_loop_length base : 10 <= base -> forall fuel x (n : nat), 0 <= x < 10 ^ Z.of_nat n -> (0 < n)%nat -> (length (udigit_loop fuel x base) <= n)%nat.
Proof.
  intros Hb. induction fuel as [|fuel IH]; intros x n Hx Hn; cbn [udigit_loop length]; [lia|]. destruct (Z.eqb_spec (x / base) 0) as [E|E]; [cbn; lia|].
  assert (Hq : 0 <= x / base /\ base * (x / base) <= x) by (split; [apply Z.div_pos; lia|apply Z.mul_div_le; lia]). destruct n as [|n]; [lia|]. rewrite Nat2Z.inj_succ, Z.pow_succ_r in Hx by lia.
  assert (Hlt : x / base < 10 ^ Z.of_nat n) by nia. destruct n as [|n]; [cbn in Hlt; lia|]. apply le_n_S, IH; lia.
Qed.

(** A number that the user [printf] prints reads back as that number: [%d]
    as the [int] with its sign, the least one included, [%x] and [%l] as its low 32
    bits; the digits and the sign fit the 16 bytes of [buf]. *)
Theorem printint_reads_back xx base sgn : - 2 ^ 31 <= xx < 2 ^ 31 -> 10 <= base <= 16 ->
  read_num base (printint xx base sgn) = (if sgn then xx else u32 xx) /\ (length (printint xx base sgn) <= 16)%nat.
Proof.
  intros Hx Hb. unfold printint. set (neg := sgn && (xx <? 0)). set (x := if neg then u32 (- xx) else u32 xx). pose proof (u32_range (- xx)). pose proof (u32_range xx).
  assert (Hr : 0 <= x < 2 ^ 32) by (unfold x; by destruct neg). destruct (udigit_loop_val base ltac:(lia) 32 x Hr ltac:(lia)) as [Hv Hf].
  pose proof (udigit_loop_length base ltac:(lia) 32 x 10 ltac:(cbn; lia) ltac:(lia)) as Hlen. split; [|rewrite length_rev, length_app; destruct neg; cbn [length]; lia]. set (l := udigit_loop 32 x base) in *. rewrite rev_app_distr.
  assert (Hpos : read_num base (rev l) = num_val base (rev l)).
  { apply Forall_rev in Hf. destruct (rev l) as [|c s]; [done|]. apply Forall_cons in Hf as [Hc _]. cbn [read_num]. destruct (Z.eqb_spec c 45); [lia|done]. }
  destruct neg eqn:En; cbn [rev app].
  - cbn [read_num]. rewrite Z.eqb_refl, Hv. unfold x. apply andb_true_iff in En as [-> En%Z.ltb_lt]. rewrite u32_small by lia. lia.
  - rewrite Hpos, Hv. unfold x. destruct sgn; [|done]. cbn in En. apply Z.ltb_ge in En. apply u32_small. lia.
Qed.

Lemma printint_reads_back_witness : read_num 10 (printint (-2147483648) 10 true) = -2147483648 /\ (length (printint (-2147483648) 10 true) <= 16)%nat.
Proof. apply (printint_reads_back (-2147483648) 10 true); lia. Defined.

(** ** user/wc.c *)

(** " \r\t\n\v" *)
Definition wc_space : list Z := [32; 13; 9; 10; 11].
Definition is_space (c : Z) : bool := bool_decide (is_Some (strchr wc_space c)).

Record wcst := mkwc { wc_l : Z; wc_w : Z; wc_c : Z; wc_inword : bool }.

(** One turn of the loop over the bytes read; the counters are [int]s. *)
Definition wc_byte (s : wcst) (x : Z) : wcst :=
  let c := s32 (wc_c s + 1) in
  let l := if x =? 10 then s32 (wc_l s + 1) else wc_l s in
  if is_space x then mkwc l (wc_w s) c false
  else if wc_inword s then mkwc l (wc_w s) c true
  else mkwc l (s32 (wc_w s + 1)) c true.

Definition str (s : string) : list Z := (fun a => Z.of_nat (Ascii.nat_of_ascii a)) <$> String.list_ascii_of_string s.

(** [char buf[512]] *)
Definition UBUF : nat := 512.

Section Files.
(** What limits the [k]-th [read] of the file: [Some r] lets it return up to [r + 1]
    bytes, [None] makes it fail. *)
Context (reads : nat -> option nat).

(** [n = read(fd, buf, sizeof(buf))], [None] for a negative [n]. *)
Definition read_len (k : nat) (file : list Z) : option nat :=
  (fun r => Nat.min (S r) (Nat.min UBUF (length file))) <$> reads k.

(** The counters and whether the last [read] failed; [None] without fuel. *)
Fixpoint wc_loop (fuel k : nat) (file : list Z) (s : wcst) : option (wcst * bool) :=
  match fuel with
  | O => None
  | S f =>
      match read_len k file with
      | None => Some (s, true)
      | Some n => if (n =? 0)%nat then Some (s, false) else wc_loop f (S k) (drop n file) (foldl wc_byte s (take n file))
      end
  end.

(** The text printed and whether [wc] called [exit(1)]. *)
Definition wc (file name : list Z) : option (list Z * bool) :=
  '(s, failed) ← wc_loop (S (length file)) 0 file (mkwc 0 0 0 false);
  if failed : bool then (fun o => (o, true)) <$> uprintf (str "wc: read error" ++ [10]) []
  else (fun o => (o, false)) <$> uprintf (str "%d %d %d %s" ++ [10]) [Vint (wc_l s); Vint (wc_w s); Vint (wc_c s); Vstr (Some name)].

(** How many bytes the [k]-th [write] takes, [None] for a failure. *)
Context (writes : nat -> option nat).

(** user/cat.c: what was written to the output, the message and whether [exit(1)] was
    called.  The test [n < 0] inside the loop is never true. *)
Fixpoint cat_loop (fuel k : nat) (file out : list Z) : option (list Z * list Z * bool) :=
  match fuel with
  | O => None
  | S f =>
      match read_len k file with
      | None => Some (out, [], false)
      | Some n =>
          if (n =? 0)%nat then Some (out, [], false) else
          let w := Nat.min n <$> writes k in
          let out' := out ++ take (default O w) file in
          if bool_decide (w = Some n) then cat_loop f (S k) (drop n file) out'
          else Some (out', str "cat: write error" ++ [10], true)
      end
  end.
Definition cat (file : list Z) : option (list Z * list Z * bool) := cat_loop (S (length file)) 0 file [].

End Files.

(** What [wc] counts: newlines, and the bytes that begin a word. *)
Fixpoint newlines (file : list Z) : Z := match file with [] => 0 | x :: f => (if x =? 10 then 1 else 0) + newlines f end.
Fixpoint word_starts (inword : bool) (file : list Z) : Z :=
  match file with
  | [] => 0
  | x :: f => (if negb (is_space x) && negb inword then 1 else 0) + word_starts (negb (is_space x)) f
  end.

Lemma wc_counts_range file : forall b, 0 <= newlines file <= Z.of_nat (length file) /\ 0 <= word_starts b file <= Z.of_nat (length file).
Proof. induction file as [|x f IH]; intros b; cbn [newlines word_starts length]; [lia|]. specialize (IH (negb (is_space x))). destruct (x =? 10), (negb (is_space x) && negb b); lia. Qed.

Lemma wc_foldl file : forall s, 0 <= wc_l s <= wc_c s -> 0 <= wc_w s <= wc_c s -> wc_c s + Z.of_nat (length file) < 2 ^ 31 ->
  let s' := foldl wc_byte s file in
  wc_l s' = wc_l s + newlines file /\ wc_w s' = wc_w s + word_starts (wc_inword s) file /\ wc_c s' = wc_c s + Z.of_nat (length file).
Proof.
  induction file as [|x f IH]; intros s Hl Hw Hc; cbn [foldl newlines word_starts length]; [cbn; lia|]. cbn [length] in Hc.
  assert (E : wc_l (wc_byte s x) = wc_l s + (if x =? 10 then 1 else 0) /\ wc_w (wc_byte s x) = wc_w s + (if negb (is_space x) && negb (wc_inword s) then 1 else 0) /\ wc_c (wc_byte s x) = wc_c s + 1 /\ wc_inword (wc_byte s x) = negb (is_space x)).
  { unfold wc_byte. destruct (is_space x), (wc_inword s); cbn [wc_l wc_w wc_c wc_inword negb andb]; rewrite ?(s32_small (wc_c s + 1)), ?(s32_small (wc_w s + 1)) by lia; (split; [destruct (x =? 10); [apply s32_small|]; lia|lia || (split; [lia|split; [lia|done]])]). }
  destruct E as (E1 & E2 & E3 & E4). destruct (IH (wc_byte s x)) as (I1 & I2 & I3); [rewrite E1, E3; destruct (x =? 10); lia|rewrite E2, E3; destruct (_ && _); lia|rewrite E3; lia|].
  cbn zeta in *. rewrite I1, I2, I3, E1, E2, E3, E4. lia.
Qed.

Lemma read_len_some reads k file : is_Some (reads k) -> exists n, read_len reads k file = Some n /\ (n <= length file)%nat /\ (n <= UBUF)%nat /\ (n = O -> file = []).
Proof.
  intros [r E]. unfold read_len, UBUF. rewrite E. eexists. split; [done|]. split; [lia|]. split; [lia|]. destruct file; [done|]. cbn [length]. lia.
Qed.

Lemma wc_loop_foldl reads fuel : (forall k, is_Some (reads k)) -> forall k file s, (length file < fuel)%nat -> wc_loop reads fuel k file s = Some (foldl wc_byte s file, false).
Proof.
  intros Hr. induction fuel as [|fuel IH]; intros k file s Hf; [lia|]. cbn [wc_loop]. destruct (read_len_some reads k file (Hr k)) as (n & -> & Hn & _ & H0). destruct (Nat.eqb_spec n 0) as [E|E].
  - by rewrite (H0 E).
  - rewrite IH by (rewrite length_drop; lia). by rewrite <- foldl_app, take_drop.
Qed.

(** However the reads split a file of less than 2^31 bytes, if none fails, [wc]
    prints the number of its newlines, of its words, the maximal runs of bytes that are
    not white space, each counted at its first byte, and of its bytes, in decimal, and
    its name. *)
Theorem wc_counts reads file name : (forall k, is_Some (reads k)) -> Z.of_nat (length file) < 2 ^ 31 ->
  wc reads file name = Some (printint (newlines file) 10 true ++ [32] ++ printint (word_starts false file) 10 true ++ [32] ++
                             printint (Z.of_nat (length file)) 10 true ++ [32] ++ c_str name ++ [10], false).
Proof.
  intros Hr Hl. unfold wc. rewrite wc_loop_foldl by (done || lia). cbn [mbind option_bind]. destruct (wc_foldl file (mkwc 0 0 0 false)) as (E1 & E2 & E3); [cbn; lia..|].
  cbn zeta in E1, E2, E3. rewrite E1, E2, E3. cbn [wc_l wc_w wc_c wc_inword]. rewrite !Z.add_0_l. reflexivity.
Qed.

Lemma wc_counts_witness : exists out, wc (fun k => Some k) [97; 32; 98; 99; 10] [102] = Some (out, false) /\ out = [49; 32; 50; 32; 53; 32; 102; 10].
Proof. eexists. split; [apply (wc_counts (fun k => Some k) [97; 32; 98; 99; 10] [102]); [by eexists|cbn; lia]|]. vm_compute. reflexivity. Defined.

(** ** user/cat.c *)

Lemma cat_loop_copies reads writes fuel : (forall k, is_Some (reads k)) -> (forall k, exists w, writes k = Some w /\ (UBUF <= w)%nat) ->
  forall k file out, (length file < fuel)%nat -> cat_loop reads writes fuel k file out = Some (out ++ file, [], false).
Proof.
  intros Hr Hw. induction fuel as [|fuel IH]; intros k file out Hf; [lia|]. cbn [cat_loop]. destruct (read_len_some reads k file (Hr k)) as (n & -> & Hn & Hu & H0). destruct (Nat.eqb_spec n 0) as [E|E].
  - rewrite (H0 E). by rewrite app_nil_r.
  - destruct (Hw k) as (w & -> & Hle).
    cbn. rewrite Nat.min_l by lia. rewrite bool_decide_true by done. rewrite IH by (rewrite length_drop; lia). by rewrite <- app_assoc, take_drop.
Qed.

(** When every read succeeds and every write takes all the bytes, [cat] copies the file,
    however the reads split it. *)
Theorem cat_copies reads writes file : (forall k, is_Some (reads k)) -> (forall k, exists w, writes k = Some w /\ (UBUF <= w)%nat) ->
  cat reads writes file = Some (file, [], false).
Proof. intros Hr Hw. unfold cat. by rewrite cat_loop_copies by (done || lia). Qed.

(** A failed read ends [cat] as the end of the file does: no message, no exit status. *)
Theorem cat_read_error_silent reads writes file : reads O = None -> cat reads writes file = cat (fun _ => Some O) writes [].
Proof. intros E. unfold cat. cbn [cat_loop length]. unfold read_len at 1. by rewrite E. Qed.

(** ** The names printed by user/ls.c *)

(** The loop that looks for the last slash; [k] is [p + 1 - path]. *)
Fixpoint slash_loop (path : list Z) (k : nat) : nat :=
  match k with
  | O => O
  | S i => if default 0 (path !! i) =? 47 then k else slash_loop path i
  end.

(** [DIRSIZ] is 14; the padding is blanks. *)
Definition fmtname (path : list Z) : list Z :=
  let p := drop (slash_loop path (S (length path))) path in
  if (14 <=? length p)%nat then p else p ++ replicate (14 - length p) 32.

Lemma slash_loop_spec path k : let r := slash_loop path k in
  (r <= k)%nat /\ (r = O \/ path !! pred r = Some 47) /\ forall i, (r <= i < k)%nat -> path !! i <> Some 47.
Proof.
  cbn zeta. induction k as [|k (IH1 & IH2 & IH3)]; cbn [slash_loop]; [split; [lia|split; [by left|lia]]|].
  destruct (path !! k) as [c|] eqn:E; cbn [from_option]; unfold id; [destruct (Z.eqb_spec c 47) as [->|Hc]|].
  - split; [lia|]. split; [by right|]. intros i Hi. lia.
  - split; [lia|]. split; [done|]. intros i Hi. destruct (decide (i = k)) as [->|]; [rewrite E; congruence|apply IH3; lia].
  - cbn. split; [lia|]. split; [done|]. intros i Hi. destruct (decide (i = k)) as [->|]; [by rewrite E|apply IH3; lia].
Qed.

(** [fmtname] gives the last element of the path, what follows its last slash, padded
    with blanks to [DIRSIZ] bytes. *)
Theorem fmtname_last_element path : exists pre p, path = pre ++ p /\ 47 ∉ p /\ (pre = [] \/ last pre = Some 47) /\
  exists pad, fmtname path = p ++ replicate pad 32 /\ length (fmtname path) = Nat.max 14 (length p).
Proof.
  destruct (slash_loop_spec path (S (length path))) as (H1 & H2 & H3). unfold fmtname. set (r := slash_loop path (S (length path))) in *. exists (take r path), (drop r path).
  split; [by rewrite take_drop|]. split; [|split].
  - intros (i & Hi)%list_elem_of_lookup. rewrite lookup_drop in Hi. apply (H3 (r + i)%nat); [apply lookup_lt_Some in Hi; lia|done].
  - destruct (decide (r = O)) as [E0|E0]; [left; by rewrite E0|]. destruct H2 as [H2|H2]; [done|]. right. assert (Hlt := lookup_lt_Some _ _ _ H2).
    rewrite last_lookup, length_take, Nat.min_l by lia. rewrite lookup_take_lt by lia. done.
  - destruct (Nat.leb_spec 14 (length (drop r path))).
    + exists O. rewrite app_nil_r. split; [done|lia].
    + eexists. split; [done|]. rewrite length_app, length_replicate. lia.
Qed.
