(* ===== verification/Umalloc.v ===== *)
(** user/umalloc.c: the allocator of Kernighan and Ritchie.  Addresses are bytes, a
    header takes 16 of them, and sizes count headers. *)

From S2P Require Import Prelude.

Definition HEADER : Z := 16.

(** union header *)
Record header := mkheader { h_ptr : Z; h_size : Z }.
#[export] Instance header_inhabited : Inhabited header := populate (mkheader 0 0).

(** The headers in memory, [freep], and the end of the process's memory. *)
Record ust := mkust { u_mem : gmap Z header; u_freep : Z; u_brk : Z }.

Section Umalloc.
(** The address of [base]; whether [sbrk] can extend memory that ends at the first
    argument by the second. *)
Context (base : Z) (can_grow : Z -> Z -> bool).
Notation U := (M ust).

Definition hdr (s : ust) (p : Z) : header := u_mem s !!! p.
Definition ptr (p : Z) : U Z := gets (fun s => h_ptr (hdr s p)).
Definition size (p : Z) : U Z := gets (fun s => h_size (hdr s p)).
Definition set_hdr (p : Z) (h : header) : U unit := modify (fun s => mkust (<[p := h]> (u_mem s)) (u_freep s) (u_brk s)).
Definition set_ptr (p v : Z) : U unit := h <- gets (fun s => hdr s p) ;; set_hdr p (mkheader v (h_size h)).
Definition set_size (p v : Z) : U unit := h <- gets (fun s => hdr s p) ;; set_hdr p (mkheader (h_ptr h) v).
Definition set_freep (p : Z) : U unit := modify (fun s => mkust (u_mem s) p (u_brk s)).

(** [p + n] for a pointer to a header *)
Definition plus (p n : Z) : Z := p + HEADER * n.

(** The loop of [free] that finds the free block before [bp]. *)
Fixpoint find_place (fuel : nat) (bp p : Z) : U Z :=
  match fuel with
  | O => nofuel
  | S f =>
      n <- ptr p ;;
      if (p <? bp) && (bp <? n) then ret p else
      if (n <=? p) && ((p <? bp) || (bp <? n)) then ret p else
      find_place f bp n
  end.

Definition free (fuel : nat) (ap : Z) : U unit :=
  let bp := ap - HEADER in
  fp <- gets u_freep ;;
  p <- find_place fuel bp fp ;;
  n <- ptr p ;;
  bs <- size bp ;;
  (if plus bp bs =? n then
     ns <- size n ;;
     set_size bp (u32 (bs + ns)) ;;;
     nn <- ptr n ;;
     set_ptr bp nn
   else set_ptr bp n) ;;;
  ps <- size p ;;
  (if plus p ps =? bp then
     bs <- size bp ;;
     set_size p (u32 (ps + bs)) ;;;
     bn <- ptr bp ;;
     set_ptr p bn
   else set_ptr p bp) ;;;
  set_freep p.

(** -1 when there is no memory; [n] is an [int]. *)
Definition sbrk (n : Z) : U Z :=
  b <- gets u_brk ;;
  if can_grow b n then modify (fun s => mkust (u_mem s) (u_freep s) (b + n)) ;;; ret b else ret (-1).

Definition morecore (fuel : nat) (nu : Z) : U Z :=
  let nu := if nu <? 4096 then 4096 else nu in
  p <- sbrk (s32 (nu * HEADER)) ;;
  if p =? -1 then ret 0 else
  set_size p nu ;;;
  free fuel (plus p 1) ;;;
  gets u_freep.

(** The loop of [malloc] at [p], which [prevp] points to. *)
Fixpoint malloc_loop (fuel : nat) (nunits prevp p : Z) : U Z :=
  match fuel with
  | O => nofuel
  | S f =>
      sz <- size p ;;
      if nunits <=? sz then
        p <- (if sz =? nunits then n <- ptr p ;; set_ptr prevp n ;;; ret p
              else
                set_size p (u32 (sz - nunits)) ;;;
                sz <- size p ;;
                let p := plus p sz in
                set_size p nunits ;;; ret p) ;;
        set_freep prevp ;;;
        ret (plus p 1)
      else
        fp <- gets u_freep ;;
        if p =? fp then
          p <- morecore f nunits ;;
          if p =? 0 then ret 0 else
          n <- ptr p ;; malloc_loop f nunits p n
        else n <- ptr p ;; malloc_loop f nunits p n
  end.

Definition malloc (fuel : nat) (nbytes : Z) : U Z :=
  let nunits := u32 ((nbytes + HEADER - 1) / HEADER + 1) in
  fp <- gets u_freep ;;
  (if fp =? 0 then set_freep base ;;; set_ptr base base ;;; set_size base 0 else ret tt) ;;;
  prevp <- gets u_freep ;;
  p <- ptr prevp ;;
  malloc_loop fuel nunits prevp p.
End Umalloc.
