(* ===== verification/UmallocFree.v ===== *)
(** The free list of user/umalloc.c as a sorted list of blocks, and what [free] does to
    it. *)

From Stdlib Require Import Sorting.Sorted.
From S2P Require Import Prelude Umalloc.

Lemma plus_eq p n : plus p n = p + 16 * n.
Proof. done. Qed.

(** The blocks of [L] in a row, the last one pointing to [e]. *)
Fixpoint seg (m : gmap Z header) (L : list Z) (e : Z) : Prop :=
  match L with
  | [] => True
  | a :: L' => h_ptr (m !!! a) = hd e L' /\ seg m L' e
  end.

Lemma row_app m L1 L2 e : seg m (L1 ++ L2) e <-> seg m L1 (hd e L2) /\ seg m L2 e.
Proof. induction L1 as [|a L1 IH]; cbn; [naive_solver|]. rewrite IH. destruct L1 as [|b L1]; cbn; naive_solver. Qed.

Lemma seg_other m L e a h : a ∉ L -> seg m L e -> seg (<[a := h]> m) L e.
Proof.
  induction L as [|b L IH]; cbn; [done|]. intros [Hne Ha]%not_elem_of_cons [H1 H2]. split; [by rewrite lookup_total_insert_ne|by apply IH].
Qed.

(** Disjoint blocks. *)
Definition apart (a n b k : Z) : Prop := plus a n <= b \/ plus b k <= a.

Section heap.
Context (base : Z).

Definition sz (m : gmap Z header) (a : Z) : Z := h_size (m !!! a).

(** Free blocks in order of addresses, none adjacent to the next. *)
Definition sorted (m : gmap Z header) (L : list Z) : Prop := StronglySorted (fun a b => plus a (sz m a) < b) L.

(** The free list [L] and the blocks in use [A], with their sizes, apart from the links. *)
Record shape (m : gmap Z header) (brk : Z) (L : list Z) (A : gmap Z Z) : Prop := mkshape {
  hp_base : 0 < base /\ hd 0 L = base /\ sz m base = 0;
  hp_sorted : sorted m L;
  hp_size : forall a, a ∈ L -> a <> base -> 1 <= sz m a;
  hp_brk : brk < 2 ^ 31 /\ forall a, a ∈ L -> plus a (sz m a) <= brk;
  hp_used : forall a n, A !! a = Some n -> base < a /\ 1 <= n /\ plus a n <= brk /\ sz m a = n /\ forall b, b ∈ L -> apart a n b (sz m b);
  hp_apart : forall a n b k, A !! a = Some n -> A !! b = Some k -> a <> b -> apart a n b k
}.

Definition heap (m : gmap Z header) (brk : Z) (L : list Z) (A : gmap Z Z) : Prop := shape m brk L A /\ seg m L base.

Lemma sorted_lt m L i j a b : sorted m L -> L !! i = Some a -> L !! j = Some b -> (i < j)%nat -> plus a (sz m a) < b.
Proof.
  intros Hs. revert i j. induction Hs as [|x L Hs IH Hx]; intros i j Hi Hj Hlt; [done|]. destruct i as [|i], j as [|j]; try lia.
  - injection Hi as <-. cbn in Hj. by eapply Forall_lookup_1 in Hx; [|exact Hj].
  - apply (IH i j); [done|done|lia].
Qed.

(** Sizes that are not negative keep the addresses in order. *)
Lemma shape_lt m brk L A i j a b : shape m brk L A -> L !! i = Some a -> L !! j = Some b -> (i < j)%nat -> a < b.
Proof.
  intros H Hi Hj Hlt. pose proof (sorted_lt _ _ _ _ _ _ (hp_sorted _ _ _ _ H) Hi Hj Hlt) as Hs. rewrite plus_eq in Hs.
  assert (0 <= sz m a); [|lia]. destruct (decide (a = base)) as [->|Hne]; [destruct (hp_base _ _ _ _ H) as (_ & _ & ->); lia|].
  pose proof (hp_size _ _ _ _ H a (list_elem_of_lookup_2 _ _ _ Hi) Hne). lia.
Qed.

Lemma shape_sz m brk L A a : shape m brk L A -> a ∈ L -> 0 <= sz m a < 2 ^ 27.
Proof.
  intros H Ha. pose proof (hp_base _ _ _ _ H) as (B1 & B2 & B3). destruct (decide (a = base)) as [->|Hne]; [lia|]. pose proof (hp_size _ _ _ _ H a Ha Hne).
  destruct (hp_brk _ _ _ _ H) as [K1 K2]. specialize (K2 a Ha). rewrite plus_eq in K2. assert (0 < a); [|lia].
  destruct L as [|x L]; [by apply not_elem_of_nil in Ha|]. cbn in B2. subst x. apply list_elem_of_lookup_1 in Ha as [i Hi]. destruct i as [|i]; [injection Hi as ->; lia|].
  pose proof (shape_lt _ _ _ _ 0 (S i) base a H eq_refl Hi ltac:(lia)). lia.
Qed.

(** A block in use lies after some free block and before the next one. *)
Lemma shape_split m brk L A bp n : shape m brk L A -> A !! bp = Some n -> exists L1 p L2, L = L1 ++ p :: L2 /\ p < bp /\ Forall (fun b => bp < b) L2 /\ plus p (sz m p) <= bp /\ Forall (fun b => plus bp n <= b) L2.
Proof.
  intros H Hin. destruct (hp_used _ _ _ _ H bp n Hin) as (U1 & U2 & U3 & U4 & U5). pose proof (hp_base _ _ _ _ H) as (B1 & B2 & B3).
  assert (Hgen : forall K, sorted m K -> (forall a, a ∈ K -> a ∈ L) -> (exists a K', K = a :: K' /\ a < bp) ->
    exists L1 p L2, K = L1 ++ p :: L2 /\ p < bp /\ Forall (fun b => bp < b) L2).
  { induction 1 as [|a K Hs IH Ha]; intros Hsub (a' & K' & E & Hlt); [done|]. injection E as -> ->. destruct K' as [|b K].
    - exists [], a', []. done.
    - destruct (decide (b < bp)) as [Hb|Hb].
      + destruct (IH ltac:(set_solver)) as (L1 & p & L2 & -> & Hp & HL); [by eexists b, K|]. exists (a' :: L1), p, L2. done.
      + exists [], a', (b :: K). split; [done|]. split; [done|]. assert (Hbne : b <> bp).
        { intros ->. destruct (U5 bp) as [Hx|Hx]; [apply Hsub; set_solver|rewrite plus_eq in Hx; lia|]. rewrite plus_eq in Hx.
          destruct (decide (bp = base)); [lia|]. pose proof (hp_size _ _ _ _ H bp (Hsub bp ltac:(set_solver)) ltac:(done)). lia. }
        constructor; [lia|]. apply StronglySorted_inv in Hs as [Hs' Hb']. eapply Forall_impl; [exact Hb'|]. cbn beta. intros x Hx. rewrite plus_eq in Hx.
        pose proof (shape_sz _ _ _ _ b H (Hsub b ltac:(set_solver))). lia. }
  destruct (Hgen L) as (L1 & p & L2 & E & Hp & HL); [apply H|done| |].
  { destruct L as [|x L]; [cbn in B2; lia|]. cbn in B2. subst x. by exists base, L. }
  exists L1, p, L2. split; [done|]. split; [done|]. split; [done|]. split.
  - destruct (U5 p) as [Hx|Hx]; [rewrite E; set_solver|rewrite plus_eq in Hx; lia|done].
  - apply Forall_forall. intros b Hb. destruct (U5 b) as [Hx|Hx]; [rewrite E; set_solver|done|]. eapply Forall_forall in HL; [|exact Hb]. rewrite plus_eq in Hx.
    pose proof (shape_sz _ _ _ _ b H ltac:(rewrite E; set_solver)). lia.
Qed.

(** ** The search of [free] *)

Lemma find_step bp p f s : find_place (S f) bp p s =
  (if (p <? bp) && (bp <? h_ptr (hdr s p)) then ret p else
   if (h_ptr (hdr s p) <=? p) && ((p <? bp) || (bp <? h_ptr (hdr s p))) then ret p else find_place f bp (h_ptr (hdr s p))) s.
Proof. done. Qed.

(** Forward to the block before [bp]. *)
Lemma find_walk s bp p L2 : p < bp -> Forall (fun b => bp < b) L2 -> base <= p -> forall W f, seg (u_mem s) (W ++ p :: L2) base -> StronglySorted Z.lt (W ++ [p]) -> (length W < f)%nat ->
  find_place f bp (hd p W) s = Ok (p, s).
Proof.
  intros Hp H2 Hb. induction W as [|x W IH]; intros f Hs Hso Hf; (destruct f as [|f]; [cbn in Hf; lia|]); rewrite find_step; unfold hdr.
  - cbn [hd app seg] in *. destruct Hs as [-> _]. destruct L2 as [|b L2]; cbn [hd].
    + destruct (Z.ltb_spec p bp); [|lia]. destruct (Z.ltb_spec bp base); [lia|]. destruct (Z.leb_spec base p); [|lia]. done.
    + apply Forall_cons in H2 as [H2 _]. destruct (Z.ltb_spec p bp); [|lia]. destruct (Z.ltb_spec bp b); [|lia]. done.
  - cbn [hd app seg] in *. destruct Hs as [E Hs]. rewrite E. apply StronglySorted_inv in Hso as [Hso' Hx]. assert (Hnx : x < hd base (W ++ p :: L2) /\ hd base (W ++ p :: L2) <= p /\ hd base (W ++ p :: L2) = hd p W).
    { destruct W as [|y W]; cbn in *; [apply Forall_cons in Hx as [Hx _]; lia|]. apply Forall_cons in Hx as [Hx _]. apply StronglySorted_inv in Hso' as [_ Hy].
      assert (y < p); [|lia]. eapply Forall_forall in Hy; [exact Hy|]. set_solver. }
    destruct Hnx as (N1 & N2 & N3). rewrite N3 in *. destruct (Z.ltb_spec bp (hd p W)); [lia|]. rewrite andb_false_r. destruct (Z.leb_spec (hd p W) x); [lia|]. cbn [andb].
    apply IH; [done|done|cbn in Hf; lia].
Qed.

(** Past the end and round to the first block. *)
Lemma find_wrap s bp : base < bp -> forall V f, seg (u_mem s) V base -> StronglySorted Z.lt V -> Forall (fun b => bp < b) V ->
  find_place (length V + f) bp (hd base V) s = find_place f bp base s.
Proof.
  intros Hb. induction V as [|x V IH]; intros f Hs Hso HV; [done|]. cbn [length Nat.add hd]. rewrite find_step. unfold hdr. destruct Hs as [E Hs]. rewrite E.
  apply Forall_cons in HV as [Hx HV]. apply StronglySorted_inv in Hso as [Hso' Hx']. destruct (Z.ltb_spec x bp); [lia|]. cbn [andb orb].
  assert (Hc : (hd base V <=? x) && (bp <? hd base V) = false).
  { destruct V as [|y V]; cbn; [apply andb_false_iff; right; lia|]. apply Forall_cons in Hx' as [Hx' _]. apply andb_false_iff. left. lia. }
  rewrite Hc. by apply IH.
Qed.
(** ** Moving blocks *)

Lemma shape_ext m m' brk L A : shape m brk L A -> (forall a, a ∈ L -> sz m' a = sz m a) -> (forall a n, A !! a = Some n -> sz m' a = sz m a) -> shape m' brk L A.
Proof.
  intros H HL HA. pose proof (hp_base _ _ _ _ H) as (B1 & B2 & B3). assert (HbL : base ∈ L) by (destruct L as [|x L]; cbn in B2; [lia|]; subst x; set_solver). split.
  - rewrite HL by done. done.
  - pose proof (hp_sorted _ _ _ _ H) as Hs. revert Hs HL. clear. unfold sorted. induction 1 as [|a L Hs IH Ha]; intros HL; constructor; [apply IH; set_solver|].
    eapply Forall_impl; [exact Ha|]. cbn beta. intros b Hb. by rewrite HL by set_solver.
  - intros a Ha Hne. rewrite HL by done. by apply (hp_size _ _ _ _ H).
  - split; [apply H|]. intros a Ha. rewrite HL by done. by apply (hp_brk _ _ _ _ H).
  - intros a n Hn. rewrite (HA a n Hn). destruct (hp_used _ _ _ _ H a n Hn) as (U1 & U2 & U3 & U4 & U5). split; [done|]. split; [done|]. split; [done|]. split; [done|].
    intros b Hb. rewrite HL by done. by apply U5.
  - apply H.
Qed.

Lemma sorted_app m L1 L2 : sorted m (L1 ++ L2) <-> sorted m L1 /\ sorted m L2 /\ forall a b, a ∈ L1 -> b ∈ L2 -> plus a (sz m a) < b.
Proof.
  unfold sorted. induction L1 as [|x L1 IH]; cbn; [split; [intros H; split; [constructor|split; [done|set_solver]]|naive_solver]|]. split.
  - intros [H1 H2]%StronglySorted_inv. apply IH in H1 as (H3 & H4 & H5). apply Forall_app in H2 as [H6 H7]. split; [by constructor|]. split; [done|].
    intros a b [->|Ha]%elem_of_cons Hb; [|by apply H5]. by eapply Forall_forall in H7; [|exact Hb].
  - intros ([H1 H2]%StronglySorted_inv & H3 & H4). constructor; [apply IH; split; [done|]; split; [done|]; intros; apply H4; set_solver|].
    apply Forall_app. split; [done|]. apply Forall_forall. intros b Hb. apply H4; set_solver.
Qed.

Lemma sorted_cons m a L : sorted m (a :: L) <-> sorted m L /\ forall b, b ∈ L -> plus a (sz m a) < b.
Proof.
  split; [intros [H1 H2]%StronglySorted_inv; split; [done|]; by apply Forall_forall|]. intros [H1 H2]. constructor; [done|]. by apply Forall_forall.
Qed.

(** A free block is taken off the list. *)
Lemma shape_remove m brk L1 x L2 A : shape m brk (L1 ++ x :: L2) A -> L1 <> [] -> shape m brk (L1 ++ L2) (<[x := sz m x]> A).
Proof.
  intros H H1. pose proof (hp_base _ _ _ _ H) as (B1 & B2 & B3). destruct L1 as [|b0 L1]; [done|]. cbn in B2. subst b0.
  assert (Hx : base < x) by (apply (shape_lt _ _ _ _ 0 (S (length L1)) base x H); [done|by apply list_lookup_middle|lia]).
  assert (Hxs : 1 <= sz m x) by (apply (hp_size _ _ _ _ H); [set_solver|lia]).
  assert (Hsub : forall a, a ∈ (base :: L1) ++ L2 -> a ∈ (base :: L1) ++ x :: L2) by set_solver.
  pose proof (hp_sorted _ _ _ _ H) as (S1 & (S2 & S3)%sorted_cons & S4)%sorted_app.
  assert (Hap : forall b, b ∈ (base :: L1) ++ L2 -> apart x (sz m x) b (sz m b)).
  { intros b [Hb|Hb]%elem_of_app; [right; specialize (S4 b x Hb ltac:(set_solver)); lia|left; specialize (S3 b Hb); lia]. }
  assert (Hsep : forall a n, A !! a = Some n -> apart a n x (sz m x)) by (intros a n Hn; apply (hp_used _ _ _ _ H a n Hn); set_solver).
  split.
  - done.
  - apply sorted_app. split; [done|]. split; [done|]. intros a b Ha Hb. apply S4; set_solver.
  - intros a Ha. apply (hp_size _ _ _ _ H). by apply Hsub.
  - split; [apply H|]. intros a Ha. apply (hp_brk _ _ _ _ H). by apply Hsub.
  - intros a n Hn. destruct (decide (a = x)) as [->|Hne].
    + rewrite lookup_insert_eq in Hn. injection Hn as <-. split; [done|]. split; [done|]. split; [apply (hp_brk _ _ _ _ H); set_solver|]. done.
    + rewrite lookup_insert_ne in Hn by done. destruct (hp_used _ _ _ _ H a n Hn) as (U1 & U2 & U3 & U4 & U5). split; [done|]. split; [done|]. split; [done|]. split; [done|].
      intros b Hb. by apply U5, Hsub.
  - intros a n b k Ha Hb Hne. destruct (decide (a = x)) as [->|Hax], (decide (b = x)) as [->|Hbx]; try done.
    + rewrite lookup_insert_eq in Ha. rewrite lookup_insert_ne in Hb by done. injection Ha as <-. destruct (Hsep b k Hb); [by right|by left].
    + rewrite lookup_insert_ne in Ha by done. rewrite lookup_insert_eq in Hb. injection Hb as <-. by apply Hsep.
    + rewrite lookup_insert_ne in Ha, Hb by done. by apply (hp_apart _ _ _ _ H a n b k).
Qed.

(** Two adjacent blocks in use become one. *)
Lemma shape_join m brk L A bp n x k h : shape m brk L A -> A !! bp = Some n -> A !! x = Some k -> plus bp n = x -> h_size h = n + k ->
  shape (<[bp := h]> m) brk L (<[bp := n + k]> (delete x A)).
Proof.
  intros H Hb Hx E Eh. destruct (hp_used _ _ _ _ H bp n Hb) as (U1 & U2 & U3 & U4 & U5). destruct (hp_used _ _ _ _ H x k Hx) as (X1 & X2 & X3 & X4 & X5).
  rewrite plus_eq in *. assert (HbL : bp ∉ L).
  { intros Hin. destruct (U5 bp Hin) as [Hy|Hy]; rewrite plus_eq in Hy; [lia|]. pose proof (shape_sz _ _ _ _ bp H Hin). lia. }
  assert (Hsz : forall a, a <> bp -> sz (<[bp := h]> m) a = sz m a) by (intros a Ha; unfold sz; by rewrite lookup_total_insert_ne).
  assert (Hun : forall a t, 1 <= t -> apart bp n a t -> apart x k a t -> apart bp (n + k) a t) by (intros a t; unfold apart; rewrite !plus_eq; lia).
  assert (HA : forall a t, delete x A !! a = Some t -> a <> x /\ A !! a = Some t) by (intros a t Ha; by apply lookup_delete_Some in Ha as [? ?]).
  assert (Hpair : forall a t, delete x A !! a = Some t -> a <> bp -> apart bp (n + k) a t).
  { intros a t Ha Hne. apply HA in Ha as [Hax Ha]. destruct (hp_used _ _ _ _ H a t Ha) as (_ & T & _). apply Hun; [done|by apply (hp_apart _ _ _ _ H)|apply (hp_apart _ _ _ _ H x k a t); done || by symmetry]. }
  assert (HL : forall b, b ∈ L -> b <> bp) by (intros b Hin ->; done). pose proof (hp_base _ _ _ _ H) as (B1 & B2 & B3).
  assert (HbaseL : base ∈ L) by (destruct L as [|y L]; cbn in B2; [lia|]; subst y; set_solver).
  split.
  - rewrite Hsz by auto. done.
  - apply (hp_sorted (<[bp := h]> m) brk L ∅). apply (shape_ext m); [|intros; by apply Hsz, HL|done]. split; try apply H; [intros a t Ha|intros a t b t' Ha]; by rewrite lookup_empty in Ha.
  - intros a Ha Hne. rewrite Hsz by auto. by apply (hp_size _ _ _ _ H).
  - split; [apply H|]. intros a Ha. rewrite Hsz by auto. by apply (hp_brk _ _ _ _ H).
  - intros a t Ha. destruct (decide (a = bp)) as [->|Hne].
    + rewrite lookup_insert_eq in Ha. injection Ha as <-. split; [done|]. split; [lia|]. split; [rewrite plus_eq; lia|]. split; [unfold sz; by rewrite lookup_total_insert_eq|].
      intros b Hin. rewrite Hsz by auto. destruct (decide (b = base)) as [->|Hbb]; [right; rewrite B3, plus_eq; lia|]. apply Hun; [by apply (hp_size _ _ _ _ H)|by apply U5|by apply X5].
    + rewrite lookup_insert_ne in Ha by done. apply HA in Ha as [Hax Ha]. destruct (hp_used _ _ _ _ H a t Ha) as (T1 & T2 & T3 & T4 & T5). rewrite Hsz by done.
      split; [done|]. split; [done|]. split; [done|]. split; [done|]. intros b Hin. rewrite Hsz by auto. by apply T5.
  - intros a t b t' Ha Hb' Hne. destruct (decide (a = bp)) as [->|Hab], (decide (b = bp)) as [->|Hbb]; try done.
    + rewrite lookup_insert_eq in Ha. rewrite lookup_insert_ne in Hb' by done. injection Ha as <-. by apply Hpair.
    + rewrite lookup_insert_ne in Ha by done. rewrite lookup_insert_eq in Hb'. injection Hb' as <-. destruct (Hpair a t Ha Hab); [by right|by left].
    + rewrite lookup_insert_ne in Ha, Hb' by done. apply HA in Ha as [_ Ha], Hb' as [_ Hb']. by apply (hp_apart _ _ _ _ H a t b t').
Qed.
(** Fewer blocks in use. *)
Lemma shape_sub m brk L A A' : shape m brk L A -> (forall a n, A' !! a = Some n -> A !! a = Some n) -> shape m brk L A'.
Proof.
  intros H Hs. split; try apply H; [intros a n Ha; apply (hp_used _ _ _ _ H a n); auto|intros a n b k Ha Hb; apply (hp_apart _ _ _ _ H a n b k); auto].
Qed.

Lemma delete_sub {A : gmap Z Z} x a n : delete x A !! a = Some n -> A !! a = Some n.
Proof. by intros [_ ?]%lookup_delete_Some. Qed.

Lemma used_free m brk L A bp n : shape m brk L A -> A !! bp = Some n -> bp ∉ L.
Proof.
  intros H Hb Hin. destruct (hp_used _ _ _ _ H bp n Hb) as (U1 & U2 & U3 & U4 & U5). destruct (U5 bp Hin) as [Hy|Hy]; rewrite plus_eq in Hy; [lia|].
  destruct (decide (bp = base)); [lia|]. pose proof (hp_size _ _ _ _ H bp Hin ltac:(done)). lia.
Qed.

(** A block goes on the free list by itself. *)
Lemma shape_insert m brk L1 K A bp n : shape m brk (L1 ++ K) A -> L1 <> [] -> A !! bp = Some n -> (forall a, a ∈ L1 -> plus a (sz m a) < bp) -> (forall k, k ∈ K -> plus bp n < k) ->
  shape m brk (L1 ++ bp :: K) (delete bp A).
Proof.
  intros H H1 Hb HL HK. destruct (hp_used _ _ _ _ H bp n Hb) as (U1 & U2 & U3 & U4 & U5). pose proof (hp_sorted _ _ _ _ H) as (S1 & S2 & S3)%sorted_app. split.
  - destruct L1; [done|]. apply H.
  - apply sorted_app. split; [done|]. split; [apply sorted_cons; split; [done|by rewrite U4]|]. intros a b Ha [->|Hin]%elem_of_cons; [by apply HL|by apply S3].
  - intros a [Ha|[->|Ha]%elem_of_cons]%elem_of_app Hne; [apply (hp_size _ _ _ _ H); set_solver|lia|apply (hp_size _ _ _ _ H); set_solver].
  - split; [apply H|]. intros a [Ha|[->|Ha]%elem_of_cons]%elem_of_app; [apply (hp_brk _ _ _ _ H); set_solver|by rewrite U4|apply (hp_brk _ _ _ _ H); set_solver].
  - intros a k [Hne Ha]%lookup_delete_Some. destruct (hp_used _ _ _ _ H a k Ha) as (T1 & T2 & T3 & T4 & T5). split; [done|]. split; [done|]. split; [done|]. split; [done|].
    intros b [Hin|[->|Hin]%elem_of_cons]%elem_of_app; [apply T5; set_solver|rewrite U4; apply (hp_apart _ _ _ _ H a k bp n); done || by symmetry|apply T5; set_solver].
  - intros a k b k' Ha Hb'. apply (hp_apart _ _ _ _ H); by eapply delete_sub.
Qed.

(** A block is added to the free block that ends where it begins. *)
Lemma shape_grow m brk L1 p K A bp n h : shape m brk (L1 ++ p :: K) A -> A !! bp = Some n -> plus p (sz m p) = bp -> (forall k, k ∈ K -> plus bp n < k) -> h_size h = sz m p + n ->
  shape (<[p := h]> m) brk (L1 ++ p :: K) (delete bp A).
Proof.
  intros H Hb Ep HK Eh. destruct (hp_used _ _ _ _ H bp n Hb) as (U1 & U2 & U3 & U4 & U5). pose proof (hp_base _ _ _ _ H) as (B1 & B2 & B3). rewrite plus_eq in Ep, U3.
  assert (Hpb : p <> base) by (intros ->; lia). assert (Hps : 1 <= sz m p) by (apply (hp_size _ _ _ _ H); [set_solver|done]).
  pose proof (hp_sorted _ _ _ _ H) as (S1 & (S2 & S2')%sorted_cons & S3)%sorted_app.
  assert (Hpl : forall a, a ∈ L1 \/ a ∈ K -> a <> p).
  { intros a [Ha|Ha] ->; [specialize (S3 p p Ha ltac:(set_solver)); rewrite plus_eq in S3; lia|]. specialize (S2' p Ha). rewrite plus_eq in S2'. lia. }
  assert (Hsz : forall a, a <> p -> sz (<[p := h]> m) a = sz m a) by (intros a Ha; unfold sz; by rewrite lookup_total_insert_ne).
  assert (Hszp : sz (<[p := h]> m) p = sz m p + n) by (unfold sz; by rewrite lookup_total_insert_eq).
  assert (Hso : forall K', (forall a, a ∈ K' -> a <> p) -> sorted m K' -> sorted (<[p := h]> m) K').
  { intros K' HK'. unfold sorted. induction 1 as [|a K' Hs IH Ha]; constructor; [apply IH; set_solver|]. eapply Forall_impl; [exact Ha|]. cbn beta. intros b. by rewrite Hsz by set_solver. }
  assert (Hup : forall a, A !! a <> None -> a <> p) by (intros a Ha ->; destruct (A !! p) as [k|] eqn:Ek; [|done]; apply (used_free _ _ _ _ _ _ H Ek); set_solver).
  split.
  - rewrite Hsz by (by symmetry). done.
  - apply sorted_app. split; [apply Hso; [auto|done]|]. split; [apply sorted_cons; split; [apply Hso; [auto|done]|]|].
    + intros k Hk. specialize (HK k Hk). rewrite Hszp. rewrite !plus_eq in *. lia.
    + intros a b Ha Hin. rewrite Hsz by auto. by apply S3.
  - intros a Ha Hne. destruct (decide (a = p)) as [->|]; [lia|]. rewrite Hsz by done. by apply (hp_size _ _ _ _ H).
  - split; [apply H|]. intros a Ha. destruct (decide (a = p)) as [->|]; [rewrite Hszp, plus_eq; lia|]. rewrite Hsz by done. by apply (hp_brk _ _ _ _ H).
  - intros a k [Hne Ha]%lookup_delete_Some. destruct (hp_used _ _ _ _ H a k Ha) as (T1 & T2 & T3 & T4 & T5). rewrite Hsz by (apply Hup; by rewrite Ha).
    split; [done|]. split; [done|]. split; [done|]. split; [done|]. intros b Hin. destruct (decide (b = p)) as [->|]; [|rewrite Hsz by done; by apply T5].
    pose proof (T5 p ltac:(set_solver)) as A1. pose proof (hp_apart _ _ _ _ H a k bp n Ha Hb (not_eq_sym Hne)) as A2. rewrite Hszp. unfold apart in *. rewrite !plus_eq in *. lia.
  - intros a k b k' Ha Hb'. apply (hp_apart _ _ _ _ H); by eapply delete_sub.
Qed.

(** The end of a free block is taken. *)
Lemma shape_cut m brk L1 p K A n q h hq : shape m brk (L1 ++ p :: K) A -> 1 <= n < sz m p -> p <> base -> q = plus p (sz m p - n) -> h_size h = sz m p - n -> h_size hq = n ->
  shape (<[q := hq]> (<[p := h]> m)) brk (L1 ++ p :: K) (<[q := n]> A) /\ q ∉ L1 ++ p :: K.
Proof.
  intros H Hn Hpb Eq Eh Ehq. pose proof (hp_base _ _ _ _ H) as (B1 & B2 & B3). rewrite plus_eq in Eq.
  pose proof (hp_sorted _ _ _ _ H) as (S1 & (S2 & S2')%sorted_cons & S3)%sorted_app. destruct (hp_brk _ _ _ _ H) as [K1 K2]. pose proof (K2 p ltac:(set_solver)) as Kp. rewrite plus_eq in Kp.
  assert (Hsizes : forall a, a ∈ L1 ++ p :: K -> 0 <= sz m a) by (intros a Ha; apply (shape_sz _ _ _ _ a H Ha)).
  assert (Hpl : forall a, a ∈ L1 -> plus a (sz m a) < p) by (intros a Ha; apply S3; set_solver).
  assert (HqL : q ∉ L1 ++ p :: K).
  { intros [Hq|[Hq|Hq]%elem_of_cons]%elem_of_app; [specialize (Hpl q Hq); specialize (Hsizes q ltac:(set_solver)); rewrite plus_eq in Hpl; lia|lia|specialize (S2' q Hq); rewrite plus_eq in S2'; lia]. }
  split; [|done]. assert (Hbp : base < p).
  { assert (Hin : base ∈ L1); [|specialize (Hpl base Hin); rewrite B3, plus_eq in Hpl; lia]. destruct L1 as [|y L1]; cbn in B2; [congruence|]. subst y. set_solver. }
  assert (Hsz : forall a, a <> p -> a <> q -> sz (<[q := hq]> (<[p := h]> m)) a = sz m a) by (intros a H1 H2; unfold sz; by rewrite !lookup_total_insert_ne).
  assert (Hszp : sz (<[q := hq]> (<[p := h]> m)) p = sz m p - n) by (unfold sz; rewrite lookup_total_insert_ne by lia; by rewrite lookup_total_insert_eq).
  assert (Hszq : sz (<[q := hq]> (<[p := h]> m)) q = n) by (unfold sz; by rewrite lookup_total_insert_eq).
  assert (Hne : forall a, a ∈ L1 ++ p :: K -> a <> q) by (intros a Ha ->; done).
  assert (Hother : forall a, a ∈ L1 \/ a ∈ K -> a <> p).
  { intros a [Ha|Ha] ->; [specialize (Hpl p Ha); rewrite plus_eq in Hpl; specialize (Hsizes p ltac:(set_solver)); lia|specialize (S2' p Ha); rewrite plus_eq in S2'; lia]. }
  assert (Hso : forall K', (forall a, a ∈ K' -> a <> p /\ a <> q) -> sorted m K' -> sorted (<[q := hq]> (<[p := h]> m)) K').
  { intros K' HK'. unfold sorted. induction 1 as [|a K' Hs IH Ha]; constructor; [apply IH; set_solver|]. eapply Forall_impl; [exact Ha|]. cbn beta. intros b. destruct (HK' a ltac:(set_solver)). by rewrite Hsz. }
  assert (Hap : forall b, b ∈ L1 ++ p :: K -> apart q n b (sz (<[q := hq]> (<[p := h]> m)) b)).
  { intros b Hin. destruct (decide (b = p)) as [->|Hbp']; [right; rewrite Hszp, plus_eq; lia|]. rewrite Hsz by auto. unfold apart. rewrite !plus_eq.
    apply elem_of_app in Hin as [Hin|[Hin|Hin]%elem_of_cons]; [specialize (Hpl b Hin); rewrite plus_eq in Hpl; lia|done|specialize (S2' b Hin); rewrite plus_eq in S2'; lia]. }
  assert (Huq : forall a k, A !! a = Some k -> a <> p /\ a <> q /\ apart a k q n /\ apart a k p (sz m p - n)).
  { intros a k Ha. destruct (hp_used _ _ _ _ H a k Ha) as (T1 & T2 & T3 & T4 & T5). pose proof (T5 p ltac:(set_solver)) as A1. unfold apart in *. rewrite !plus_eq in *. lia. }
  split.
  - rewrite Hsz by (auto || (apply Hne; destruct L1; cbn in B2; subst; set_solver)). done.
  - apply sorted_app. split; [apply Hso; [|done]; intros a Ha; split; [auto|apply Hne; set_solver]|]. split; [apply sorted_cons; split; [apply Hso; [|done]; intros a Ha; split; [auto|apply Hne; set_solver]|]|].
    + intros k Hk. specialize (S2' k Hk). rewrite Hszp. rewrite !plus_eq in *. lia.
    + intros a b Ha Hin. rewrite Hsz by (auto || (apply Hne; set_solver)). by apply S3.
  - intros a Ha Hab. destruct (decide (a = p)) as [->|]; [lia|]. rewrite Hsz by auto. by apply (hp_size _ _ _ _ H).
  - split; [done|]. intros a Ha. destruct (decide (a = p)) as [->|]; [rewrite Hszp, plus_eq; lia|]. rewrite Hsz by auto. by apply K2.
  - intros a k Ha. destruct (decide (a = q)) as [->|Haq].
    + rewrite lookup_insert_eq in Ha. injection Ha as <-. split; [lia|]. split; [lia|]. split; [rewrite plus_eq; lia|]. done.
    + rewrite lookup_insert_ne in Ha by done. destruct (hp_used _ _ _ _ H a k Ha) as (T1 & T2 & T3 & T4 & T5). destruct (Huq a k Ha) as (Q1 & Q2 & Q3 & Q4).
      rewrite Hsz by done. split; [done|]. split; [done|]. split; [done|]. split; [done|]. intros b Hin. destruct (decide (b = p)) as [->|]; [by rewrite Hszp|]. rewrite Hsz by auto. by apply T5.
  - intros a k b k' Ha Hb Hab. destruct (decide (a = q)) as [->|Haq], (decide (b = q)) as [->|Hbq]; try done.
    + rewrite lookup_insert_eq in Ha. rewrite lookup_insert_ne in Hb by done. injection Ha as <-. destruct (Huq b k' Hb) as (_ & _ & [?|?] & _); [by right|by left].
    + rewrite lookup_insert_ne in Ha by done. rewrite lookup_insert_eq in Hb. injection Hb as <-. by apply (Huq a k Ha).
    + rewrite lookup_insert_ne in Ha, Hb by done. by apply (hp_apart _ _ _ _ H a k b k').
Qed.

(** Memory from [sbrk]. *)
Lemma shape_new m brk L A n h : shape m brk L A -> base < brk -> 1 <= n -> plus brk n < 2 ^ 31 -> h_size h = n -> shape (<[brk := h]> m) (plus brk n) L (<[brk := n]> A) /\ brk ∉ L /\ A !! brk = None.
Proof.
  intros H Hb Hn Hlt Eh. destruct (hp_brk _ _ _ _ H) as [K1 K2]. rewrite plus_eq in *. pose proof (hp_base _ _ _ _ H) as (B1 & B2 & B3).
  assert (HL : forall a, a ∈ L -> a <> brk).
  { intros a Ha ->. specialize (K2 brk Ha). rewrite plus_eq in K2. destruct (decide (brk = base)); [lia|]. pose proof (hp_size _ _ _ _ H brk Ha ltac:(done)). lia. }
  assert (HA : forall a k, A !! a = Some k -> a <> brk /\ a + 16 * k <= brk) by (intros a k Ha; destruct (hp_used _ _ _ _ H a k Ha) as (T1 & T2 & T3 & _); rewrite plus_eq in T3; lia).
  assert (Hbase : base ∈ L) by (destruct L as [|y L]; cbn in B2; [lia|]; subst y; set_solver).
  assert (Hsz : forall a, a <> brk -> sz (<[brk := h]> m) a = sz m a) by (intros a Ha; unfold sz; by rewrite lookup_total_insert_ne).
  split; [|split; [intros Hin; by apply (HL brk)|destruct (A !! brk) as [k|] eqn:Ek; [by destruct (HA brk k Ek)|done]]].
  assert (H' : shape (<[brk := h]> m) brk L A) by (apply (shape_ext m); [done|intros; apply Hsz; auto|intros a k Ha; apply Hsz; by destruct (HA a k Ha)]).
  split; try apply H'.
  - split; [lia|]. intros a Ha. pose proof (proj2 (hp_brk _ _ _ _ H') a Ha). lia.
  - intros a k Ha. destruct (decide (a = brk)) as [->|Hne].
    + rewrite lookup_insert_eq in Ha. injection Ha as <-. split; [done|]. split; [done|]. split; [rewrite plus_eq; lia|]. split; [unfold sz; by rewrite lookup_total_insert_eq|].
      intros b Hin. right. by apply (proj2 (hp_brk _ _ _ _ H')).
    + rewrite lookup_insert_ne in Ha by done. destruct (hp_used _ _ _ _ H' a k Ha) as (T1 & T2 & T3 & T4 & T5). split; [done|]. split; [done|]. split; [lia|]. done.
  - intros a k b k' Ha Hb' Hab. unfold apart. rewrite !plus_eq. destruct (decide (a = brk)) as [->|Haq], (decide (b = brk)) as [->|Hbq]; try done.
    + rewrite lookup_insert_ne in Hb' by done. destruct (HA b k' Hb'). lia.
    + rewrite lookup_insert_ne in Ha by done. destruct (HA a k Ha). lia.
    + rewrite lookup_insert_ne in Ha, Hb' by done. by apply (hp_apart _ _ _ _ H a k b k').
Qed.
End heap.

(** * [free] and [malloc] of user/umalloc.c on a heap in order: they end, blocks handed
    out are disjoint, and freed ones are merged with their neighbours. *)

Lemma sorted_sub {L1 L2 : list Z} : StronglySorted Z.lt (L1 ++ L2) -> StronglySorted Z.lt L1 /\ StronglySorted Z.lt L2.
Proof.
  induction L1 as [|x L1 IH]; cbn; [intros H; split; [constructor|done]|]. intros [H1 H2]%StronglySorted_inv. destruct (IH H1) as [H3 H4]. split; [|done].
  constructor; [done|]. by apply Forall_app in H2 as [? _].
Qed.

Section heap.
Context (base : Z) (can_grow : Z -> Z -> bool).
Notation heap := (heap base).
Notation shape := (shape base).

Lemma shape_lt_sorted m brk L A : shape m brk L A -> StronglySorted Z.lt L.
Proof.
  intros H. assert (Hsz : forall a, a ∈ L -> 0 <= sz m a) by (intros a Ha; apply (shape_sz _ _ _ _ _ a H Ha)). pose proof (hp_sorted _ _ _ _ _ H) as Hs. revert Hs Hsz. clear.
  unfold sorted. induction 1 as [|a L Hs IH Ha]; intros Hsz; constructor; [apply IH; set_solver|]. eapply Forall_impl; [exact Ha|]. cbn beta. intros b Hb. rewrite plus_eq in Hb.
  specialize (Hsz a ltac:(set_solver)). lia.
Qed.

(** ** free *)

Lemma find_ok s L1 p L2 A bp f : heap (u_mem s) (u_brk s) (L1 ++ p :: L2) A -> p < bp -> Forall (fun b => bp < b) L2 -> u_freep s ∈ L1 ++ p :: L2 ->
  (length (L1 ++ p :: L2) <= f)%nat -> find_place f bp (u_freep s) s = Ok (p, s).
Proof.
  intros [Hs Hg] Hp H2 Hf Hfuel. pose proof (shape_lt_sorted _ _ _ _ Hs) as Hlt. pose proof (hp_base _ _ _ _ _ Hs) as (B1 & B2 & B3).
  assert (Hbp : base <= p).
  { destruct L1 as [|y L1]; cbn in B2; [lia|]. subst y. apply StronglySorted_inv in Hlt as [_ Hy]. pose proof (proj1 (Forall_forall _ _) Hy p ltac:(set_solver)). cbn beta in *. lia. }
  assert (Hwalk : forall W0 W f, L1 = W0 ++ W -> (length W < f)%nat -> find_place f bp (hd p W) s = Ok (p, s)).
  { intros W0 W f' -> Hf'. apply (find_walk base s bp p L2); [done|done|done| | |done].
    - rewrite <- (assoc_L (++)) in Hg. by apply row_app in Hg as [_ Hg].
    - rewrite <- (assoc_L (++)) in Hlt. apply sorted_sub in Hlt as [_ Hlt]. change (p :: L2) with ([p] ++ L2) in Hlt. rewrite (assoc_L (++)) in Hlt. by apply sorted_sub in Hlt as [Hlt _]. }
  rewrite length_app in Hfuel. cbn in Hfuel. apply elem_of_app in Hf as [Hf|[->|Hf]%elem_of_cons].
  - apply list_elem_of_split in Hf as (W0 & W & E). specialize (Hwalk W0 (u_freep s :: W) f E). apply Hwalk. rewrite E, length_app in Hfuel. cbn in *. lia.
  - apply (Hwalk L1 [] f); [by rewrite app_nil_r|cbn; lia].
  - apply list_elem_of_split in Hf as (V0 & V & ->). set (q := u_freep s) in *. rewrite length_app in Hfuel. cbn in Hfuel.
    replace f with (length (q :: V) + (f - length (q :: V)))%nat by (cbn; lia). change q with (hd base (q :: V)) at 3.
    rewrite (find_wrap base s bp).
    + assert (Eb : base = hd p L1) by (destruct L1; cbn in B2 |- *; congruence). rewrite Eb. apply (Hwalk [] L1); [done|cbn; lia].
    + lia.
    + apply row_app in Hg as [_ [_ Hg]]. by apply row_app in Hg as [_ Hg].
    + apply sorted_sub in Hlt as [_ Hlt]. apply StronglySorted_inv in Hlt as [Hlt _]. by apply sorted_sub in Hlt as [_ Hlt].
    + by apply Forall_app in H2 as [_ H2].
Qed.

(** The headers after [free]. *)
Definition freed_right (m : gmap Z header) (bp n2 : Z) : gmap Z header :=
  if plus bp (sz m bp) =? n2 then <[bp := mkheader (h_ptr (m !!! n2)) (u32 (sz m bp + sz m n2))]> m else <[bp := mkheader n2 (sz m bp)]> m.
Definition freed_left (m : gmap Z header) (bp p : Z) : gmap Z header :=
  if plus p (sz m p) =? bp then <[p := mkheader (h_ptr (m !!! bp)) (u32 (sz m p + sz m bp))]> m else <[p := mkheader bp (sz m p)]> m.

Lemma freed_run f bp p s : find_place f bp (u_freep s) s = Ok (p, s) -> h_ptr (u_mem s !!! p) <> bp -> p <> bp ->
  free f (bp + 16) s = Ok (tt, mkust (freed_left (freed_right (u_mem s) bp (h_ptr (u_mem s !!! p))) bp p) p (u_brk s)).
Proof.
  intros Hf Hn Hp. unfold free. replace (bp + 16 - HEADER) with bp by (unfold HEADER; lia). unfold bind at 1, gets. rewrite (bind_ok _ _ _ _ _ Hf).
  unfold ptr, size, bind at 1 2, gets. unfold hdr at 2 3. set (m := u_mem s) in *. set (n2 := h_ptr (m !!! p)) in *.
  assert (E1 : exists s1, ((if plus bp (h_size (hdr s bp)) =? n2 then
     ns <- gets (fun s => h_size (hdr s n2)) ;; set_size bp (u32 (h_size (hdr s bp) + ns)) ;;; nn <- gets (fun s => h_ptr (hdr s n2)) ;; set_ptr bp nn
   else set_ptr bp n2) : M ust unit) s = Ok (tt, s1) /\ s1 = mkust (freed_right m bp n2) (u_freep s) (u_brk s)).
  { unfold freed_right. change (h_size (hdr s bp)) with (sz m bp). destruct (_ =? _); eexists; (split; [|reflexivity]);
      unfold set_size, set_ptr, set_hdr, bind, gets, modify, hdr; cbn [u_mem u_freep u_brk]; fold m; rewrite ?lookup_total_insert_eq, ?(lookup_total_insert_ne _ bp n2) by done; rewrite ?insert_insert_eq; reflexivity. }
  destruct E1 as (s1 & E1 & ->). unfold ptr, size in E1. unfold gets in E1. rewrite (bind_ok _ _ _ _ _ E1). unfold bind, gets, hdr. cbn [u_mem u_freep u_brk]. set (m1 := freed_right m bp n2).
  unfold freed_left. change (h_size (m1 !!! p)) with (sz m1 p). clear E1. destruct (plus p (sz m1 p) =? bp);
    unfold set_size, set_ptr, set_hdr, set_freep, bind, gets, modify, hdr; cbn [u_mem u_freep u_brk]; rewrite ?lookup_total_insert_eq, ?(lookup_total_insert_ne _ p bp) by done; rewrite ?insert_insert_eq; reflexivity.
Qed.
(** After the first half of [free]: block [bp] has taken in the free block behind it, if
    that is adjacent, and points to the next one. *)
Record half (m : gmap Z header) (brk : Z) (L1 : list Z) (p : Z) (K : list Z) (A : gmap Z Z) (bp n : Z) : Prop := mkhalf {
  hf_map : gmap Z Z;
  hf_shape : shape m brk (L1 ++ p :: K) hf_map;
  hf_used : hf_map !! bp = Some n;
  hf_sub : forall a k, delete bp A !! a = Some k -> hf_map !! a = Some k;
  hf_seg : seg m L1 p /\ seg m K base;
  hf_ptr : h_ptr (m !!! bp) = hd base K;
  hf_gap : forall k, k ∈ K -> plus bp n < k
}.

Lemma right_ok m brk L1 p L2 A bp n : heap m brk (L1 ++ p :: L2) A -> A !! bp = Some n -> p < bp -> Forall (fun b => bp < b) L2 -> Forall (fun b => plus bp n <= b) L2 ->
  exists K ns, half (freed_right m bp (hd base L2)) brk L1 p K A bp ns /\ n <= ns /\ (length K <= length L2)%nat /\ sz (freed_right m bp (hd base L2)) p = sz m p.
Proof.
  intros [Hs Hg] Hb Hp H2 H3. pose proof (used_free _ _ _ _ _ _ _ Hs Hb) as HbL. destruct (hp_used _ _ _ _ _ Hs bp n Hb) as (U1 & U2 & U3 & U4 & U5).
  apply row_app in Hg as [G1 [G2 G3]]. cbn [hd] in G1. unfold freed_right. rewrite U4. pose proof (shape_lt_sorted _ _ _ _ Hs) as Hlt. apply sorted_sub in Hlt as [_ [Hlt _]%StronglySorted_inv].
  assert (Hszp : forall h, sz (<[bp := h]> m) p = sz m p) by (intros h; unfold sz; rewrite lookup_total_insert_ne by lia; done).
  destruct (Z.eqb_spec (plus bp n) (hd base L2)) as [E|E].
  - destruct L2 as [|x K]; cbn [hd] in *; [rewrite plus_eq in E; lia|]. assert (Hx : A !! x = None).
    { destruct (A !! x) as [k|] eqn:Ex; [|done]. exfalso. apply (used_free _ _ _ _ _ _ _ Hs Ex). set_solver. }
    pose proof (hp_sorted _ _ _ _ _ Hs) as (_ & (S2 & _)%sorted_cons & _)%sorted_app. apply sorted_cons in S2 as [_ S2]. pose proof (shape_sz _ _ _ _ _ x Hs ltac:(set_solver)) as Hxs.
    assert (Hn27 : n < 2 ^ 27) by (rewrite plus_eq in U3; pose proof (hp_brk _ _ _ _ _ Hs) as [? _]; pose proof (hp_base _ _ _ _ _ Hs) as [? _]; lia).
    assert (Eu : u32 (n + sz m x) = n + sz m x) by (apply u32_small; lia). rewrite Eu. set (h := mkheader _ _). exists K, (n + sz m x). split; [|split; [lia|split; [cbn; lia|apply Hszp]]].
    assert (Hs1 : shape m brk ((L1 ++ [p]) ++ K) (<[x := sz m x]> A)) by (apply shape_remove; [by rewrite <- (assoc_L (++))|by destruct L1]).
    rewrite <- (assoc_L (++)) in Hs1. cbn [app] in Hs1. assert (Hbx : bp <> x) by (apply Forall_cons in H2 as [? _]; lia).
    assert (Hs2 : shape (<[bp := h]> m) brk (L1 ++ p :: K) (<[bp := n + sz m x]> (delete x (<[x := sz m x]> A)))) by
      (apply (shape_join _ _ _ _ _ _ _ x); [done|by rewrite lookup_insert_ne|by rewrite lookup_insert_eq|done|done]).
    eapply mkhalf; [exact Hs2|by rewrite lookup_insert_eq| |split| |].
    + intros a k [Hne Ha]%lookup_delete_Some. assert (a <> x) by congruence. by rewrite lookup_insert_ne, lookup_delete_ne, lookup_insert_ne.
    + apply seg_other; [set_solver|done].
    + apply seg_other; [set_solver|]. by destruct G3.
    + rewrite lookup_total_insert_eq. cbn. apply G3.
    + intros k Hk. specialize (S2 k Hk). rewrite !plus_eq in *. lia.
  - exists L2, n. split; [|split; [lia|split; [lia|apply Hszp]]]. eapply (mkhalf _ _ _ _ _ _ _ _ A); [|done| |split| |].
    + apply (shape_ext base m); [done|intros a Ha; unfold sz; rewrite lookup_total_insert_ne; [done|intros ->; done]|].
      intros a k Ha. unfold sz. destruct (decide (a = bp)) as [->|]; [by rewrite lookup_total_insert_eq|by rewrite lookup_total_insert_ne].
    + intros a k [_ Ha]%lookup_delete_Some. done.
    + apply seg_other; [set_solver|done].
    + apply seg_other; [set_solver|done].
    + by rewrite lookup_total_insert_eq.
    + intros k Hk. destruct L2 as [|x L2]; [set_solver|]. cbn [hd] in E. apply Forall_cons in H3 as [H3 _]. apply elem_of_cons in Hk as [->|Hk]; [lia|].
      apply StronglySorted_inv in Hlt as [_ Hlt]. pose proof (proj1 (Forall_forall _ _) Hlt k Hk). cbn beta in *. lia.
Qed.

Lemma left_ok m brk L1 p K A bp n : half m brk L1 p K A bp n -> p < bp -> plus p (sz m p) <= bp -> exists L', heap (freed_left m bp p) brk L' (delete bp A) /\ p ∈ L' /\
  (length L' <= S (length (L1 ++ p :: K)))%nat /\ exists b, b ∈ L' /\ n <= sz (freed_left m bp p) b.
Proof.
  intros [A1 Hs Hb Hsub [G1 G2] Gp Hgap] Hlt Hle. pose proof (used_free _ _ _ _ _ _ _ Hs Hb) as HbL. destruct (hp_used _ _ _ _ _ Hs bp n Hb) as (U1 & U2 & U3 & U4 & U5).
  pose proof (shape_lt_sorted _ _ _ _ Hs) as Hso. pose proof (shape_sz _ _ _ _ _ p Hs ltac:(set_solver)) as Hps.
  assert (Hp1 : p ∉ L1 /\ p ∉ K).
  { pose proof (hp_sorted _ _ _ _ _ Hs) as (_ & (_ & S2)%sorted_cons & S3)%sorted_app. split; intros Hin; [specialize (S3 p p Hin ltac:(set_solver))|specialize (S2 p Hin)]; rewrite plus_eq in *; lia. }
  destruct Hp1 as [Hp1 Hp2]. assert (Hn27 : n < 2 ^ 27) by (rewrite plus_eq in U3; pose proof (hp_brk _ _ _ _ _ Hs) as [? _]; pose proof (hp_base _ _ _ _ _ Hs) as [? _]; lia).
  assert (Hsub' : forall a k, delete bp A !! a = Some k -> delete bp A1 !! a = Some k).
  { intros a k Ha. pose proof (Hsub a k Ha). apply lookup_delete_Some in Ha as [Hne _]. by rewrite lookup_delete_ne. }
  unfold freed_left. destruct (Z.eqb_spec (plus p (sz m p)) bp) as [E|E].
  - rewrite U4, Gp. rewrite u32_small by lia. exists (L1 ++ p :: K). split; [split|].
    + eapply shape_sub; [|exact Hsub']. by apply (shape_grow base m brk L1 p K A1 bp n).
    + apply row_app. cbn [hd]. split; [by apply seg_other|]. cbn [seg]. rewrite lookup_total_insert_eq. split; [done|by apply seg_other].
    + split; [set_solver|]. split; [lia|]. exists p. split; [set_solver|]. unfold sz at 1. rewrite lookup_total_insert_eq. cbn. lia.
  - exists (L1 ++ p :: bp :: K). split; [split|].
    + eapply shape_sub; [|exact Hsub']. apply (shape_ext base m).
      * change (p :: bp :: K) with ([p] ++ bp :: K). rewrite (assoc_L (++)). apply (shape_insert _ _ _ _ _ _ _ n); [by rewrite <- (assoc_L (++))|by destruct L1|done| |done].
        intros a [Ha|Ha%list_elem_of_singleton]%elem_of_app; [|subst; lia]. pose proof (hp_sorted _ _ _ _ _ Hs) as (_ & _ & S3)%sorted_app. specialize (S3 a p Ha ltac:(set_solver)). lia.
      * intros a Ha. unfold sz. destruct (decide (a = p)) as [->|]; [by rewrite lookup_total_insert_eq|by rewrite lookup_total_insert_ne].
      * intros a k _. unfold sz. destruct (decide (a = p)) as [->|]; [by rewrite lookup_total_insert_eq|by rewrite lookup_total_insert_ne].
    + apply row_app. cbn [hd]. split; [by apply seg_other|]. cbn [seg hd]. rewrite lookup_total_insert_eq, lookup_total_insert_ne by lia. split; [done|]. split; [done|by apply seg_other].
    + split; [set_solver|]. split; [rewrite !length_app; cbn; lia|]. exists bp. split; [set_solver|]. unfold sz. rewrite lookup_total_insert_ne by lia. change (n <= sz m bp). lia.
Qed.

(** [free] ends and puts the block back. *)
Lemma free_ok f s L A bp n : heap (u_mem s) (u_brk s) L A -> u_freep s ∈ L -> A !! bp = Some n -> (length L <= f)%nat ->
  exists s' L', free f (bp + 16) s = Ok (tt, s') /\ heap (u_mem s') (u_brk s') L' (delete bp A) /\ u_freep s' ∈ L' /\ u_brk s' = u_brk s /\
    (length L' <= S (length L))%nat /\ exists b, b ∈ L' /\ n <= sz (u_mem s') b.
Proof.
  intros H Hfp Hb Hf. destruct (shape_split _ _ _ _ _ _ _ (proj1 H) Hb) as (L1 & p & L2 & -> & Hp & H2 & Hpl & H3).
  assert (Ep : h_ptr (u_mem s !!! p) = hd base L2) by (destruct H as [_ [_ [Ep _]]%row_app]; exact Ep).
  assert (Hne : h_ptr (u_mem s !!! p) <> bp).
  { rewrite Ep. destruct (hp_used _ _ _ _ _ (proj1 H) bp n Hb) as (U1 & _). destruct L2 as [|x L2]; cbn; [lia|]. apply Forall_cons in H2 as [? _]. lia. }
  pose proof (freed_run f bp p s (find_ok s L1 p L2 A bp f H Hp H2 Hfp Hf) Hne ltac:(lia)) as E. rewrite Ep in E.
  destruct (right_ok _ _ _ _ _ _ _ _ H Hb Hp H2 H3) as (K & ns & Hh & Hns & Hlen & Hsz).
  destruct (left_ok _ _ _ _ _ _ _ _ Hh Hp ltac:(by rewrite Hsz)) as (L' & HL' & Hin & Hlen' & b & Hb1 & Hb2).
  eexists _, L'. split; [exact E|]. cbn [u_mem u_brk u_freep]. split; [done|]. split; [done|]. split; [done|]. split; [rewrite length_app in *; cbn in *; lia|]. exists b. split; [done|lia].
Qed.
End heap.
