(* ===== verification/UmallocRun.v ===== *)
(** [malloc] of user/umalloc.c: the search of the free list, new memory, and every
    sequence of calls. *)

From Stdlib Require Import Sorting.Sorted.
From S2P Require Import Prelude Umalloc UmallocFree.

(** The last element of a list, or [d]. *)
Definition lst (d : Z) (W : list Z) : Z := default d (last W).

Lemma lst_app d W1 W2 : lst d (W1 ++ W2) = lst (lst d W1) W2.
Proof. unfold lst. rewrite last_app. by destruct (last W2). Qed.

Lemma lst_cons d x W : lst d (x :: W) = lst x W.
Proof. change (x :: W) with ([x] ++ W). by rewrite lst_app. Qed.

Lemma lst_split d x W : exists X, x :: W = X ++ [lst d (x :: W)].
Proof.
  revert d x. induction W as [|y W IH]; intros d x; [by exists []|]. destruct (IH d y) as [X E]. exists (x :: X). rewrite lst_cons. rewrite (lst_cons x y W), <- (lst_cons d y W). cbn [app]. by rewrite <- E.
Qed.

Section malloc.
Context (base : Z) (can_grow : Z -> Z -> bool).
Notation heap := (heap base).
Notation shape := (shape base).
Implicit Types s : ust.

(** ** Taking a block *)

Definition take_block (nunits prevp p sz : Z) : M ust Z :=
  p <- (if sz =? nunits then n <- ptr p ;; set_ptr prevp n ;;; ret p
        else set_size p (u32 (sz - nunits)) ;;; sz <- size p ;; let p := plus p sz in set_size p nunits ;;; ret p) ;;
  set_freep prevp ;;;
  ret (plus p 1).

Lemma take_ok s X prevp p Y A n : heap (u_mem s) (u_brk s) (X ++ prevp :: p :: Y) A -> 1 <= n <= sz (u_mem s) p ->
  exists s' L' q, take_block n prevp p (sz (u_mem s) p) s = Ok (plus q 1, s') /\ heap (u_mem s') (u_brk s') L' (<[q := n]> A) /\ A !! q = None /\ prevp ∈ L' /\ u_freep s' = prevp /\ u_brk s' = u_brk s.
Proof.
  intros [Hs Hg] Hn. set (m := u_mem s) in *. pose proof (hp_base _ _ _ _ _ Hs) as (B1 & B2 & B3). pose proof (shape_lt_sorted _ _ _ _ _ Hs) as Hlt.
  assert (Hpb : p <> base) by (intros ->; lia). pose proof (shape_sz _ _ _ _ _ p Hs ltac:(set_solver)) as Hps.
  assert (Hnone : A !! p = None) by (destruct (A !! p) as [k|] eqn:Ek; [|done]; exfalso; apply (used_free _ _ _ _ _ _ _ Hs Ek); set_solver).
  assert (Hd : prevp < p /\ prevp ∉ X /\ prevp ∉ Y).
  { apply sorted_sub in Hlt as [_ Hlt] || idtac. pose proof (shape_lt_sorted _ _ _ _ _ Hs) as Hlt'. apply StronglySorted_inv in Hlt as [_ H1]. apply Forall_cons in H1 as [H1 H2]. split; [done|]. split.
    - intros Hin. apply list_elem_of_lookup_1 in Hin as [i Hi]. pose proof (lookup_lt_Some _ _ _ Hi). pose proof (shape_lt _ _ _ _ _ i (length X) prevp prevp Hs) as Hx.
      rewrite lookup_app_l in Hx by done. specialize (Hx Hi ltac:(by apply list_lookup_middle) ltac:(done)). lia.
    - intros Hin. pose proof (proj1 (Forall_forall _ _) H2 prevp Hin). cbn beta in *. lia. }
  destruct Hd as (D1 & D2 & D3). apply row_app in Hg as [G1 [G2 [G3 G4]]]. cbn [hd] in *. unfold take_block. destruct (Z.eqb_spec (sz m p) n) as [E|E].
  - unfold bind, ptr, set_ptr, set_hdr, set_freep, gets, modify, ret, hdr. fold m. rewrite G3. eexists _, (X ++ prevp :: Y), p. split; [reflexivity|]. cbn [u_mem u_freep u_brk]. split; [split|].
    + rewrite <- E. apply (shape_ext base m).
      * change (prevp :: Y) with ([prevp] ++ Y). rewrite (assoc_L (++)). apply shape_remove; [by rewrite <- (assoc_L (++))|by destruct X].
      * intros a Ha. unfold sz. destruct (decide (a = prevp)) as [->|]; [by rewrite lookup_total_insert_eq|by rewrite lookup_total_insert_ne].
      * intros a k Ha. unfold sz. destruct (decide (a = prevp)) as [->|]; [by rewrite lookup_total_insert_eq|by rewrite lookup_total_insert_ne].
    + apply row_app. cbn [hd seg]. rewrite lookup_total_insert_eq. cbn. split; [by apply seg_other|]. split; [done|by apply seg_other].
    + split; [done|]. split; [set_solver|done].
  - assert (Hlt1 : 1 <= n < sz m p) by lia. set (q := plus p (sz m p - n)).
    set (h := mkheader (h_ptr (m !!! p)) (sz m p - n)). set (m1 := <[p := h]> m). set (hq := mkheader (h_ptr (m1 !!! q)) n).
    assert (E1 : set_size p (u32 (sz m p - n)) s = Ok (tt, mkust m1 (u_freep s) (u_brk s))) by (rewrite u32_small by lia; done).
    assert (E2 : set_size q n (mkust m1 (u_freep s) (u_brk s)) = Ok (tt, mkust (<[q := hq]> m1) (u_freep s) (u_brk s))) by done.
    assert (E3 : size p (mkust m1 (u_freep s) (u_brk s)) = Ok (sz m p - n, mkust m1 (u_freep s) (u_brk s))) by (unfold size, gets, hdr, m1; cbn [u_mem]; by rewrite lookup_total_insert_eq).
    rewrite bind_assoc, (bind_ok _ _ _ _ _ E1). cbv zeta. rewrite bind_assoc, (bind_ok _ _ _ _ _ E3). fold q. rewrite bind_assoc, (bind_ok _ _ _ _ _ E2). unfold bind, ret, set_freep, modify. cbn [u_mem u_freep u_brk].
    destruct (shape_cut base m (u_brk s) (X ++ [prevp]) p Y A n q h hq) as [Hs' Hq]; [by rewrite <- (assoc_L (++))|done|done|done|done|done|]. rewrite <- (assoc_L (++)) in Hs', Hq. cbn [app] in Hs', Hq.
    eexists _, (X ++ prevp :: p :: Y), q. split; [reflexivity|]. cbn [u_mem u_freep u_brk]. split; [split; [done|]|].
    + apply seg_other; [done|]. unfold m1. apply row_app. cbn [hd seg]. rewrite lookup_total_insert_ne, lookup_total_insert_eq by lia.
      assert (p ∉ X /\ p ∉ Y) as [P1 P2].
      { pose proof (hp_sorted _ _ _ _ _ Hs) as (_ & ((_ & S2)%sorted_cons & _)%sorted_cons & S3)%sorted_app.
        split; intros Hin; [specialize (S3 p p Hin ltac:(set_solver)); rewrite plus_eq in S3; lia|specialize (S2 p Hin); rewrite plus_eq in S2; lia]. }
      split; [by apply seg_other|]. split; [done|]. split; [done|by apply seg_other].
    + split; [|split; [set_solver|done]]. destruct (A !! q) as [k|] eqn:Ek; [|done]. exfalso. destruct (hp_used _ _ _ _ _ Hs q k Ek) as (T1 & T2 & T3 & T4 & T5).
      destruct (T5 p ltac:(set_solver)) as [T|T]; unfold q in *; rewrite !plus_eq in *; lia.
Qed.

(** ** The search *)

Lemma loop_step f n prevp p s : malloc_loop can_grow (S f) n prevp p s =
  if n <=? sz (u_mem s) p then take_block n prevp p (sz (u_mem s) p) s
  else if p =? u_freep s then (p <- morecore can_grow f n ;; if p =? 0 then ret 0 else nx <- ptr p ;; malloc_loop can_grow f n p nx) s
  else malloc_loop can_grow f n p (h_ptr (u_mem s !!! p)) s.
Proof.
  cbn [malloc_loop]. unfold size, bind at 1, gets. change (h_size (hdr s p)) with (sz (u_mem s) p). destruct (n <=? _); [done|]. unfold bind at 1. by destruct (p =? u_freep s).
Qed.

Lemma loop_walk n s t : forall W f prevp, seg (u_mem s) W t -> Forall (fun a => sz (u_mem s) a < n /\ a <> u_freep s) W ->
  malloc_loop can_grow (length W + f) n prevp (hd t W) s = malloc_loop can_grow f n (lst prevp W) t s.
Proof.
  induction W as [|a W IH]; intros f prevp Hg HW; [done|]. destruct Hg as [G1 G2]. apply Forall_cons in HW as [[H1 H2] HW]. cbn [length Nat.add hd]. rewrite loop_step.
  destruct (Z.leb_spec n (sz (u_mem s) a)); [lia|]. destruct (Z.eqb_spec a (u_freep s)); [done|]. rewrite G1, lst_cons. by apply IH.
Qed.

(** The ring from [freep]. *)
Lemma ring s X fp Y A : heap (u_mem s) (u_brk s) (X ++ fp :: Y) A -> seg (u_mem s) (Y ++ X) fp /\ h_ptr (u_mem s !!! fp) = hd fp (Y ++ X).
Proof.
  intros [Hs Hg]. pose proof (hp_base _ _ _ _ _ Hs) as (B1 & B2 & B3). apply row_app in Hg as [G1 [G2 G3]]. cbn [hd] in G1.
  assert (Eb : base = hd fp X) by (destruct X; cbn in *; congruence). split.
  - apply row_app. by rewrite <- Eb.
  - rewrite G2, Eb. by destruct Y.
Qed.

Lemma first_fit n m W : (exists b, b ∈ W /\ n <= sz m b) -> exists W1 p W2, W = W1 ++ p :: W2 /\ n <= sz m p /\ Forall (fun a => sz m a < n) W1.
Proof.
  induction W as [|a W IH]; intros (b & Hb & Hn); [set_solver|]. destruct (decide (n <= sz m a)) as [Ha|Ha]; [by exists [], a, W|].
  destruct IH as (W1 & p & W2 & -> & Hp & HW); [apply elem_of_cons in Hb as [->|Hb]; [lia|by exists b]|]. exists (a :: W1), p, W2. split; [done|]. split; [done|]. constructor; [lia|done].
Qed.

(** Before a block that fits is its predecessor in the list. *)
Lemma pred_fit X fp Y W1 p W2 : hd 0 (X ++ fp :: Y) = base -> p <> base -> Y ++ X ++ [fp] = W1 ++ p :: W2 -> exists X1 Y1, X ++ fp :: Y = X1 ++ lst fp W1 :: p :: Y1.
Proof.
  intros Hb Hp E. apply app_eq_inv in E as [(k & EY & E)|(k & -> & E)].
  - destruct k as [|x k].
    + cbn in E. rewrite app_nil_r in EY. subst W1. destruct X as [|b X]; cbn in *; [injection E as -> ->; congruence|]. injection E as -> _. congruence.
    + injection E as <- E. subst Y. exists (X ++ removelast (fp :: W1)), k. destruct (lst_split fp fp W1) as [X2 E2]. rewrite lst_cons in E2.
      assert (removelast (fp :: W1) = X2) as -> by (rewrite E2; apply removelast_last). rewrite <- (assoc_L (++)). f_equal. change (fp :: W1 ++ p :: k) with ((fp :: W1) ++ p :: k). rewrite E2. by rewrite <- (assoc_L (++)).
  - apply app_eq_inv in E as [(k2 & EX & E)|(k2 & -> & E)].
    + destruct k2 as [|x k2].
      * cbn in E. rewrite app_nil_r in EX. subst k. injection E as -> ->. destruct X as [|b X]; [cbn in *; congruence|]. exists (removelast (b :: X)), Y. destruct (lst_split fp b X) as [X2 E2].
        rewrite lst_app, (lst_cons _ b X). rewrite lst_cons in E2. rewrite E2 at 1 2. rewrite removelast_last. by rewrite <- (assoc_L (++)).
      * injection E as <- E. subst X. destruct k as [|b k]; [cbn in *; congruence|]. exists (removelast (b :: k)), (k2 ++ fp :: Y). destruct (lst_split fp b k) as [X2 E2].
        rewrite lst_app, (lst_cons _ b k). rewrite lst_cons in E2. rewrite <- (assoc_L (++)). cbn [app]. change (b :: k ++ p :: k2 ++ fp :: Y) with ((b :: k) ++ p :: k2 ++ fp :: Y). rewrite E2 at 1 2. rewrite removelast_last. by rewrite <- (assoc_L (++)).
    + destruct k2 as [|x k2]; cbn in E; [injection E as <- <-|by destruct k2]. rewrite app_nil_r in *. destruct X as [|b X]; [cbn in *; congruence|]. exists (removelast (b :: X)), Y. destruct (lst_split fp b X) as [X2 E2].
      rewrite lst_app, (lst_cons _ b X). rewrite lst_cons in E2. rewrite E2 at 1 2. rewrite removelast_last. by rewrite <- (assoc_L (++)).
Qed.
(** A call of [malloc] that hands out block [q] of [n] units. *)
Definition got (s s' : ust) (A : gmap Z Z) (q n : Z) : Prop :=
  exists L', heap (u_mem s') (u_brk s') L' (<[q := n]> A) /\ A !! q = None /\ u_freep s' ∈ L' /\ u_brk s <= u_brk s'.

Lemma search_found s L A n f : heap (u_mem s) (u_brk s) L A -> u_freep s ∈ L -> 1 <= n -> (exists b, b ∈ L /\ n <= sz (u_mem s) b) -> (length L <= f)%nat ->
  exists s' q, malloc_loop can_grow f n (u_freep s) (h_ptr (u_mem s !!! u_freep s)) s = Ok (plus q 1, s') /\ got s s' A q n.
Proof.
  intros H Hfp Hn Hfit Hf. apply list_elem_of_split in Hfp as (X & Y & ->). set (fp := u_freep s) in *. destruct (ring _ _ _ _ _ H) as [Hring Hnx].
  destruct (first_fit n (u_mem s) (Y ++ X ++ [fp])) as (W1 & p & W2 & E & Hp & HW).
  { destruct Hfit as (b & Hb & Hbn). exists b. split; [|done]. rewrite !elem_of_app in *. rewrite elem_of_cons in Hb. set_solver. }
  pose proof (hp_base _ _ _ _ _ (proj1 H)) as (B1 & B2 & B3). assert (Hpb : p <> base) by (intros ->; lia).
  destruct (pred_fit X fp Y W1 p W2 B2 Hpb E) as (X1 & Y1 & EL).
  assert (HW1 : seg (u_mem s) W1 p /\ hd fp (Y ++ X) = hd p W1 /\ Forall (fun a => a <> fp) W1 /\ (length W1 < length (X ++ fp :: Y))%nat).
  { rewrite (assoc_L (++)) in E. assert (Hnd : NoDup (Y ++ X ++ [fp])).
    { assert (Hnd : NoDup (X ++ fp :: Y)).
      { apply NoDup_alt. intros i j a Hi Hj. destruct (Nat.lt_trichotomy i j) as [Hlt|[->|Hlt]]; [|done|]; [pose proof (shape_lt _ _ _ _ _ i j a a (proj1 H) Hi Hj Hlt)|pose proof (shape_lt _ _ _ _ _ j i a a (proj1 H) Hj Hi Hlt)]; lia. }
      assert (Hperm : Y ++ X ++ [fp] ≡ₚ X ++ fp :: Y) by (rewrite (Permutation_app_comm X (fp :: Y)), (Permutation_app_comm X [fp]); cbn; by rewrite Permutation_middle). by rewrite Hperm. }
    rewrite (assoc_L (++)), E in Hnd. assert (Hlen : length (X ++ fp :: Y) = length (W1 ++ p :: W2)) by (rewrite <- E, !length_app; cbn; lia).
    rewrite Hlen, length_app. cbn. split; [|split; [|split; [|lia]]].
    - assert (Hall : seg (u_mem s) ((Y ++ X) ++ [fp]) (h_ptr (u_mem s !!! fp))) by (apply row_app; cbn; done). rewrite E in Hall. by apply row_app in Hall as [Hall _].
    - destruct (Y ++ X) as [|y V]; cbn in *; [destruct W1 as [|w W1]; cbn in E; [by injection E|by destruct W1]|]. destruct W1; cbn in *; by injection E.
    - apply Forall_forall. intros a Ha ->. assert (Hl : last (W1 ++ p :: W2) = Some fp) by (rewrite <- E; apply last_snoc).
      apply NoDup_app in Hnd as (_ & Hdis & _). apply (Hdis fp Ha). rewrite last_app_Some in Hl. destruct Hl as [Hl|[Hl _]]; [by apply last_Some_elem_of|by apply last_None in Hl]. }
  destruct HW1 as (S1 & S2 & S3 & S4). rewrite Hnx, S2. replace f with (length W1 + S (f - length W1 - 1))%nat by lia. rewrite (loop_walk n s p).
  - rewrite loop_step. destruct (Z.leb_spec n (sz (u_mem s) p)); [|lia]. rewrite EL in H. destruct (take_ok s X1 (lst fp W1) p Y1 A n H ltac:(lia)) as (s' & L' & q & R1 & R2 & R3 & R4 & R5 & R6).
    exists s', q. split; [done|]. exists L'. rewrite R5, R6. split; [by rewrite <- R6|]. split; [done|]. split; [done|lia].
  - done.
  - apply Forall_forall. intros a Ha. split; [by apply (proj1 (Forall_forall _ _) HW)|by apply (proj1 (Forall_forall _ _) S3)].
Qed.

Lemma search_none s L A n g : heap (u_mem s) (u_brk s) L A -> u_freep s ∈ L -> (forall b, b ∈ L -> sz (u_mem s) b < n) ->
  malloc_loop can_grow (length L + g) n (u_freep s) (h_ptr (u_mem s !!! u_freep s)) s =
    (p <- morecore can_grow g n ;; if p =? 0 then ret 0 else nx <- ptr p ;; malloc_loop can_grow g n p nx) s.
Proof.
  intros H Hfp Hno. apply list_elem_of_split in Hfp as (X & Y & ->). set (fp := u_freep s) in *. destruct (ring _ _ _ _ _ H) as [Hring Hnx]. rewrite Hnx.
  replace (length (X ++ fp :: Y) + g)%nat with (length (Y ++ X) + S g)%nat by (rewrite !length_app; cbn; lia). rewrite (loop_walk n s fp).
  - rewrite loop_step. destruct (Z.leb_spec n (sz (u_mem s) fp)) as [Hc|_]; [specialize (Hno fp ltac:(set_solver)); lia|]. by rewrite Z.eqb_refl.
  - done.
  - apply Forall_forall. intros a Ha. split; [apply Hno; set_solver|]. intros ->. apply elem_of_app in Ha as [Ha|Ha]; apply list_elem_of_lookup_1 in Ha as [i Hi]; pose proof (lookup_lt_Some _ _ _ Hi).
    + pose proof (shape_lt _ _ _ _ _ (length X) (length X + S i) fp fp (proj1 H)) as Hx. rewrite list_lookup_middle, lookup_app_r in Hx by lia.
      replace (length X + S i - length X)%nat with (S i) in Hx by lia. specialize (Hx eq_refl Hi ltac:(lia)). lia.
    + pose proof (shape_lt _ _ _ _ _ i (length X) fp fp (proj1 H) (lookup_app_l_Some _ _ _ _ Hi) (list_lookup_middle _ _ _ _ eq_refl) ltac:(lia)). lia.
Qed.
End malloc.

(** ** More fuel changes nothing *)

(** [m'] does what [m] does wherever [m] returns. *)
Definition extends {A} (m m' : M ust A) : Prop := forall s r, m s = Ok r -> m' s = Ok r.

Lemma extends_refl {A} (m : M ust A) : extends m m.
Proof. by intros s r. Qed.

Lemma extends_bind {A B} (m m' : M ust A) (k k' : A -> M ust B) : extends m m' -> (forall a, extends (k a) (k' a)) -> extends (bind m k) (bind m' k').
Proof. intros Hm Hk s r (a & s1 & E & Er)%bind_ok_inv. apply Hm in E. rewrite (bind_ok _ _ _ _ _ E). by apply Hk. Qed.

Lemma find_place_fuel f g bp p : (f <= g)%nat -> extends (find_place f bp p) (find_place g bp p).
Proof.
  revert g p. induction f as [|f IH]; intros g p Hg; [by intros s r|]. destruct g as [|g]; [lia|]. cbn [find_place].
  apply extends_bind; [apply extends_refl|intros n]. case_match; [apply extends_refl|]. case_match; [apply extends_refl|]. apply IH. lia.
Qed.

Lemma free_fuel f g p : (f <= g)%nat -> extends (free f p) (free g p).
Proof. intros Hg. unfold free. apply extends_bind; [apply extends_refl|intros fp]. apply extends_bind; [by apply find_place_fuel|intros q; apply extends_refl]. Qed.

Lemma morecore_fuel can_grow f g nu : (f <= g)%nat -> extends (morecore can_grow f nu) (morecore can_grow g nu).
Proof.
  intros Hg. unfold morecore. apply extends_bind; [apply extends_refl|intros p]. case_match; [apply extends_refl|]. apply extends_bind; [apply extends_refl|intros ?].
  apply extends_bind; [by apply free_fuel|intros ?; apply extends_refl].
Qed.

Lemma malloc_loop_fuel can_grow f g n prevp p : (f <= g)%nat -> extends (malloc_loop can_grow f n prevp p) (malloc_loop can_grow g n prevp p).
Proof.
  revert g prevp p. induction f as [|f IH]; intros g prevp p Hg; [by intros s r|]. destruct g as [|g]; [lia|]. cbn [malloc_loop].
  apply extends_bind; [apply extends_refl|intros sz]. case_match; [apply extends_refl|]. apply extends_bind; [apply extends_refl|intros fp]. case_match.
  - apply extends_bind; [apply morecore_fuel; lia|intros q]. case_match; [apply extends_refl|]. apply extends_bind; [apply extends_refl|intros nx]. apply IH. lia.
  - apply extends_bind; [apply extends_refl|intros nx]. apply IH. lia.
Qed.

Lemma malloc_fuel base can_grow f g n : (f <= g)%nat -> extends (malloc base can_grow f n) (malloc base can_grow g n).
Proof.
  intros Hg. unfold malloc. repeat (apply extends_bind; [apply extends_refl|intros ?]). by apply malloc_loop_fuel.
Qed.

(** ** Every sequence of calls *)

(** Units of a block of [nbytes] bytes, with its header *)
Definition units (nbytes : Z) : Z := u32 ((nbytes + HEADER - 1) / HEADER + 1).

Lemma units_bound k : 0 <= k < 2 ^ 30 -> 1 <= units k < 2 ^ 27 /\ k + 16 <= 16 * units k.
Proof. intros Hk. unfold units, HEADER. rewrite u32_small; lia. Qed.

Section reach.
Context (base : Z) (can_grow : Z -> Z -> bool).
Notation heap := (heap base).
Implicit Types s : ust.

Context (Hgrow : forall b n, can_grow b n = true -> b + n < 2 ^ 31).

Lemma sbrk_none s n : can_grow (u_brk s) n = false -> sbrk can_grow n s = Ok (-1, s).
Proof. unfold sbrk, bind, gets. by intros ->. Qed.

Lemma sbrk_grows s n : can_grow (u_brk s) n = true -> sbrk can_grow n s = Ok (u_brk s, mkust (u_mem s) (u_freep s) (u_brk s + n)).
Proof. unfold sbrk, bind, gets. by intros ->. Qed.

Lemma shape_above m brk L A a : shape base m brk L A -> a ∈ L -> base <= a.
Proof.
  intros H Ha. pose proof (hp_base _ _ _ _ _ H) as (B1 & B2 & _). apply list_elem_of_lookup_1 in Ha as [i Hi]. destruct L as [|b L]; [done|]. cbn in B2. subst b.
  destruct i as [|i]; [injection Hi as <-; lia|]. pose proof (shape_lt _ _ _ _ _ 0 (S i) base a H eq_refl Hi ltac:(lia)). lia.
Qed.

Lemma morecore_ok s L A n f : heap (u_mem s) (u_brk s) L A -> u_freep s ∈ L -> base < u_brk s -> 1 <= n < 2 ^ 27 -> (length L <= f)%nat ->
  morecore can_grow f n s = Ok (0, s) \/
  exists s' L', morecore can_grow f n s = Ok (u_freep s', s') /\ heap (u_mem s') (u_brk s') L' A /\ u_freep s' ∈ L' /\ u_freep s' <> 0 /\ u_brk s <= u_brk s' /\ (length L' <= S (length L))%nat /\
    exists b, b ∈ L' /\ n <= sz (u_mem s') b.
Proof.
  intros [Hs Hg] Hfp Hb Hn Hf. unfold morecore. set (nu := if n <? 4096 then 4096 else n).
  assert (Hnu : n <= nu < 2 ^ 27 /\ 1 <= nu) by (unfold nu; destruct (Z.ltb_spec n 4096); lia). clearbody nu.
  assert (E32 : s32 (nu * HEADER) = nu * 16) by (unfold HEADER; apply s32_small; lia). rewrite E32.
  destruct (can_grow (u_brk s) (nu * 16)) eqn:Eg; [right|left; by rewrite (bind_ok _ _ _ _ _ (sbrk_none _ _ Eg))].
  rewrite (bind_ok _ _ _ _ _ (sbrk_grows _ _ Eg)). apply Hgrow in Eg. pose proof (hp_base _ _ _ _ _ Hs) as (B1 & _). destruct (Z.eqb_spec (u_brk s) (-1)) as [Hm|_]; [lia|].
  destruct (shape_new base (u_mem s) (u_brk s) L A nu (mkheader (h_ptr (u_mem s !!! u_brk s)) nu) Hs Hb ltac:(lia) ltac:(rewrite plus_eq; lia) eq_refl) as (Hs' & HnL & HnA).
  set (s1 := mkust (<[u_brk s := mkheader (h_ptr (u_mem s !!! u_brk s)) nu]> (u_mem s)) (u_freep s) (u_brk s + nu * 16)). rewrite (bind_ok _ _ _ tt s1) by done. assert (Hh : heap (u_mem s1) (u_brk s1) L (<[u_brk s := nu]> A)).
  { split; [|by apply seg_other]. subst s1. cbn. replace (u_brk s + nu * 16) with (plus (u_brk s) nu) by (rewrite plus_eq; lia). exact Hs'. }
  destruct (free_ok base can_grow f s1 L (<[u_brk s := nu]> A) (u_brk s) nu Hh Hfp (lookup_insert_eq _ _ _) Hf) as (s' & L' & R1 & R2 & R3 & R4 & R5 & b & R6 & R7).
  rewrite delete_insert_id in R2 by done. exists s', L'. replace (plus (u_brk s) 1) with (u_brk s + 16) by (rewrite plus_eq; lia).
  erewrite bind_ok by exact R1. split; [done|]. split; [done|]. split; [done|].
  pose proof (hp_base _ _ _ _ _ (proj1 R2)) as (_ & C2 & _). split; [|split; [rewrite R4; cbn; lia|split; [done|exists b; split; [done|lia]]]].
  pose proof (shape_above _ _ _ _ _ (proj1 R2) R3). lia.
Qed.

Lemma malloc_step s f nbytes : u_freep s <> 0 -> malloc base can_grow f nbytes s = malloc_loop can_grow f (units nbytes) (u_freep s) (h_ptr (u_mem s !!! u_freep s)) s.
Proof. intros H. unfold malloc, bind, gets, ret. by destruct (Z.eqb_spec (u_freep s) 0). Qed.

Lemma malloc_ok s L A nbytes f : heap (u_mem s) (u_brk s) L A -> u_freep s ∈ L -> base < u_brk s -> 0 <= nbytes < 2 ^ 30 -> (2 * length L + 1 <= f)%nat ->
  malloc base can_grow f nbytes s = Ok (0, s) \/
  exists s' q, malloc base can_grow f nbytes s = Ok (plus q 1, s') /\ got base s s' A q (units nbytes).
Proof.
  intros H Hfp Hb Hk Hf. destruct (units_bound nbytes Hk) as [Hn _]. set (n := units nbytes) in *.
  pose proof (hp_base _ _ _ _ _ (proj1 H)) as (B1 & _). pose proof (shape_above _ _ _ _ _ (proj1 H) Hfp) as Hfp0. rewrite malloc_step by lia. fold n.
  destruct (decide (Exists (fun b => n <= sz (u_mem s) b) L)) as [Hex|Hno].
  - right. apply Exists_exists in Hex. apply search_found with (L := L); [done|done|lia|done|lia].
  - assert (Hlt : forall b, b ∈ L -> sz (u_mem s) b < n) by (intros b Hbl; apply Z.nle_gt; intros Hc; apply Hno, Exists_exists; by exists b).
    replace f with (length L + (f - length L))%nat by lia. set (g := (f - length L)%nat). rewrite (search_none base can_grow s L A n g H Hfp Hlt).
    destruct (morecore_ok s L A n g H Hfp Hb Hn ltac:(lia)) as [E|(s1 & L1 & E & H1 & H2 & H3 & H4 & H5 & H6)]; rewrite (bind_ok _ _ _ _ _ E); [by left|right].
    destruct (Z.eqb_spec (u_freep s1) 0); [done|]. rewrite (bind_ok _ _ _ (h_ptr (u_mem s1 !!! u_freep s1)) s1) by done.
    destruct (search_found base can_grow s1 L1 A n g H1 H2 ltac:(lia) H6 ltac:(lia)) as (s' & q & E' & L' & R1 & R2 & R3 & R4). exists s', q. split; [done|]. exists L'. split; [done|]. split; [done|]. split; [done|lia].
Qed.

(** The state the first call of [malloc] sets up. *)
Definition started (s : ust) : ust := mkust (<[base := mkheader base 0]> (u_mem s)) base (u_brk s).

Lemma malloc_starts s f nbytes : u_freep s = 0 -> 0 < base -> malloc base can_grow f nbytes s = malloc base can_grow f nbytes (started s).
Proof.
  intros H Hb. rewrite (malloc_step (started s)) by (cbn; lia). unfold malloc, bind, gets. rewrite H. cbn. unfold hdr. cbn. rewrite !insert_insert_eq, !lookup_total_insert_eq. done.
Qed.

Lemma started_heap s : 0 < base -> base < u_brk s < 2 ^ 31 -> heap (u_mem (started s)) (u_brk s) [base] ∅.
Proof.
  intros Hb Hk. split; [|split; [cbn; by rewrite lookup_total_insert_eq|done]]. unfold started, sz. cbn. split.
  - unfold sz. cbn. rewrite lookup_total_insert_eq. done.
  - by repeat constructor.
  - intros a ->%list_elem_of_singleton. done.
  - split; [lia|]. intros a ->%list_elem_of_singleton. unfold sz. rewrite lookup_total_insert_eq, plus_eq. cbn. lia.
  - intros a n E. by rewrite lookup_empty in E.
  - intros a n b k E. by rewrite lookup_empty in E.
Qed.

(** The states a program reaches by calls of [malloc] and [free]; [A] maps the pointers it
    holds to the sizes it asked for.  The program frees only what it holds. *)
Inductive ureach : ust -> gmap Z Z -> Prop :=
| ur_init m brk : base < brk < 2 ^ 31 -> ureach (mkust m 0 brk) ∅
| ur_malloc s A f nbytes p s' : ureach s A -> 0 <= nbytes < 2 ^ 30 -> malloc base can_grow f nbytes s = Ok (p, s') -> ureach s' (if decide (p = 0) then A else <[p := nbytes]> A)
| ur_free s A f p nbytes s' : ureach s A -> A !! p = Some nbytes -> free f p s = Ok (tt, s') -> ureach s' (delete p A).

Definition uinv (s : ust) (A : gmap Z Z) : Prop :=
  base < u_brk s < 2 ^ 31 /\ (u_freep s = 0 /\ A = ∅ \/
  exists L B, heap (u_mem s) (u_brk s) L B /\ u_freep s ∈ L /\ forall p k, A !! p = Some k -> 0 <= k < 2 ^ 30 /\ B !! (p - 16) = Some (units k)).

Context (Hbase : 0 < base).

Lemma uinv_heap s A : uinv s A -> exists s1 L B, (forall f k, malloc base can_grow f k s = malloc base can_grow f k s1) /\ u_brk s1 = u_brk s /\ base < u_brk s < 2 ^ 31 /\
  heap (u_mem s1) (u_brk s1) L B /\ u_freep s1 ∈ L /\ forall p k, A !! p = Some k -> 0 <= k < 2 ^ 30 /\ B !! (p - 16) = Some (units k).
Proof.
  intros [Hb [[Hf ->]|(L & B & H1 & H2 & H3)]].
  - exists (started s), [base], ∅. split; [intros f k; exact (malloc_starts s f k Hf Hbase)|]. split; [done|]. split; [done|]. split; [exact (started_heap s Hbase Hb)|]. split; [cbn; set_solver|]. intros p k E. by rewrite lookup_empty in E.
  - exists s, L, B. naive_solver.
Qed.

Lemma uinv_malloc s A nbytes : uinv s A -> 0 <= nbytes < 2 ^ 30 -> exists f0 p s', (forall f, (f0 <= f)%nat -> malloc base can_grow f nbytes s = Ok (p, s')) /\ uinv s' (if decide (p = 0) then A else <[p := nbytes]> A).
Proof.
  intros H Hk. destruct (uinv_heap s A H) as (s1 & L & B & E & Eb & Hb & Hh & Hfp & HB). set (f0 := (2 * length L + 1)%nat). exists f0.
  assert (Hmono : forall r, malloc base can_grow f0 nbytes s1 = Ok r -> forall f, (f0 <= f)%nat -> malloc base can_grow f nbytes s = Ok r).
  { intros r Er f Hf. rewrite E. by apply (malloc_fuel base can_grow f0 f). }
  destruct (malloc_ok s1 L B nbytes f0 Hh Hfp ltac:(lia) Hk ltac:(lia)) as [E1|(s' & q & E1 & L' & R1 & R2 & R3 & R4)].
  - exists 0, s1. split; [by apply Hmono|]. destruct (decide (0 = 0)); [|done]. split; [by rewrite Eb|]. right. by exists L, B.
  - exists (plus q 1), s'. split; [by apply Hmono|]. pose proof (hp_used _ _ _ _ _ (proj1 R1) q (units nbytes) (lookup_insert_eq _ _ _)) as (Q1 & _).
    pose proof (hp_brk _ _ _ _ _ (proj1 R1)) as [Q2 _]. destruct (decide (plus q 1 = 0)) as [Ez|_]; [rewrite plus_eq in Ez; lia|]. split; [lia|]. right.
    exists L', (<[q := units nbytes]> B). split; [done|]. split; [done|]. intros p k Ep. rewrite plus_eq in Ep. destruct (decide (p = q + 16 * 1)) as [->|Hne].
    + rewrite lookup_insert_eq in Ep. injection Ep as <-. replace (q + 16 * 1 - 16) with q by lia. by rewrite lookup_insert_eq.
    + rewrite lookup_insert_ne in Ep by done. destruct (HB p k Ep) as [? HBp]. split; [done|]. rewrite lookup_insert_ne; [done|lia].
Qed.

Lemma uinv_free s A p k : uinv s A -> A !! p = Some k -> exists f0 s', (forall f, (f0 <= f)%nat -> free f p s = Ok (tt, s')) /\ uinv s' (delete p A).
Proof.
  intros [Hb [[_ ->]|(L & B & H1 & H2 & H3)]] Ep; [by rewrite lookup_empty in Ep|]. destruct (H3 p k Ep) as [Hk EB].
  destruct (free_ok base can_grow (length L) s L B (p - 16) (units k) H1 H2 EB ltac:(lia)) as (s' & L' & R1 & R2 & R3 & R4 & _).
  replace (p - 16 + 16) with p in R1 by lia. exists (length L), s'. split; [intros f Hf; by apply (free_fuel (length L) f)|]. split; [by rewrite R4|]. right.
  exists L', (delete (p - 16) B). split; [done|]. split; [done|]. intros q j [Hne Eq]%lookup_delete_Some. destruct (H3 q j Eq). split; [done|]. rewrite lookup_delete_ne; [done|lia].
Qed.

Lemma ureach_uinv s A : ureach s A -> uinv s A.
Proof.
  induction 1 as [m brk Hb|s A f nbytes p s' _ IH Hk E|s A f p nbytes s' _ IH Ep E].
  - split; [done|]. by left.
  - destruct (uinv_malloc s A nbytes IH Hk) as (f0 & p1 & s1 & E1 & H1). apply (malloc_fuel base can_grow f (max f0 f)) in E; [|lia]. rewrite E1 in E by lia. by injection E as <- <-.
  - destruct (uinv_free s A p nbytes IH Ep) as (f0 & s1 & E1 & H1). apply (free_fuel f (max f0 f)) in E; [|lia]. rewrite E1 in E by lia. by injection E as <-.
Qed.
End reach.


(** A process whose memory ends at 8192 takes two blocks and frees the first. *)
Definition um_grow (b n : Z) : bool := (0 <=? n) && (b + n <? 2 ^ 20).
Definition um_run : res (Z * Z * ust) :=
  (p <- malloc 4096 um_grow 9 10 ;; q <- malloc 4096 um_grow 9 200 ;; free 9 p ;;; ret (p, q)) (mkust ∅ 0 8192).

Lemma um_check : match um_run with Ok (p, q, s) => (p =? 73712) && (q =? 73488) | _ => false end = true.
Proof. vm_compute. reflexivity. Qed.

Lemma um_reached : exists s, ureach 4096 um_grow s {[73488 := 200]}.
Proof.
  pose proof um_check as H. destruct um_run as [[[p q] s]| | |] eqn:E; [|discriminate H..]. exists s. apply andb_true_iff in H as [->%Z.eqb_eq ->%Z.eqb_eq].
  unfold um_run in E. apply bind_ok_inv in E as (p & s1 & E1 & E). apply bind_ok_inv in E as (q & s2 & E2 & E). apply bind_ok_inv in E as ([] & s3 & E3 & E). injection E as -> -> ->.
  pose proof (ur_malloc _ _ _ _ _ 10 _ _ (ur_init 4096 um_grow ∅ 8192 ltac:(lia)) ltac:(lia) E1) as R1. rewrite decide_False in R1 by (clear; lia).
  pose proof (ur_malloc _ _ _ _ _ 200 _ _ R1 ltac:(lia) E2) as R2. rewrite decide_False in R2 by (clear; lia).
  assert (Ep : (<[73488 := 200]> (<[73712 := 10]> ∅) : gmap Z Z) !! 73712 = Some 10) by (clear; rewrite lookup_insert_ne, lookup_insert_eq by lia; done).
  pose proof (ur_free _ _ _ _ _ _ _ _ R2 Ep E3) as R3. rewrite delete_insert_ne, delete_insert_id in R3 by (clear; done). exact R3.
Qed.

